(* ===== verification/_CoqProject ===== *)
-Q . S2P
Prelude.v
Memory.v
Frames.v
Vga.v
Pmm.v
Kmalloc.v
Paging.v
Scheduler.v
Context.v
Elf.v
Process.v
Invariant.v
Create.v
Reap.v
Dispatch.v
Space.v
Tlb.v
Keyboard.v
Ramfs.v
Syscall.v
Gdt.v
Idt.v
Trap.v
Userland.v
Spawn.v
Program.v
ShUtil.v
Pit.v
System.v
Commands.v
MemCommands.v
ProcCommands.v
UserCommands.v
Shell.v
Boot.v
Image.v
Run.v
