(* ===== verification/Prelude.v ===== *)
(** * StakOS: a verification development

    StakOS is a small kernel for the i386: Multiboot2 boot, segmentation and
    interrupts, a frame allocator, a heap and paging, processes with round-robin
    scheduling, an ELF loader, system calls from ring 3, a RAM file system, a
    keyboard, a text console and a shell.  The library translates its C and
    assembly sources (below [src/]) into executable definitions and proves what
    makes them correct.

    ** Conventions

    Integers are [Z]; where the source has a width, the truncation is written
    out ([u8], [u16], [u32], [u64], [s8], [s32]).  Physical memory is a finite map
    from addresses to bytes with little-endian accesses ([Memory]).  Arrays are
    lists, with [aget]/[aset] as indexing.  A function that can panic or whose
    loop is bounded by fuel returns an [outcome]: [Done], [Panicked] with the
    message of [kpanic] (which prints and halts) or [Diverged] when fuel runs out.
    State is passed explicitly, in the order of the code's assignments.  Static
    variables are fields of a record per component; what the code reads and writes
    through pointers (heap blocks, page tables, kernel stacks, user pages,
    Multiboot2 and ELF images) is in physical memory.  PCBs are typed records in a
    store indexed by their address, linked as in the code.

    ** Files and what they model

    - [Prelude]: machine integers, arrays, loops, outcomes, shared lemmas, tactics
      and hint databases; [Memory]: bytes and words of physical memory, and
      [agree_on], the frame predicate of the development.
    - [Frames]: [FrameAlloc], the interface of a frame allocator with its laws.
      The heap, paging, the loader and the processes are verified against it;
      [Pmm] ([kernel/pmm.c]) is its instance: bitmap, Multiboot2 walk, first fit.
    - [Vga] ([kernel/vga.c]): the console and [kpanic].
    - [Kmalloc] ([mm/kmalloc.c]): block headers in memory, refined to a block list.
    - [Paging] ([kernel/paging.c]): page tables in memory and [translate], the walk
      of the processor.  [Tlb]: the translation caches, with [tlb_flush] and the
      loads of CR3.
    - [Elf] ([kernel/elf.c]): validation and loading.
    - [Scheduler] ([kernel/scheduler.c], [kernel/process.h]): PCBs, process table,
      run queue, zombie list.  [Context] ([boot/context_switch.asm]): the switch,
      instruction by instruction.  [Process] ([kernel/process.c] and the rest of
      [scheduler.c]): creation, exit, freeing, reaping, tick and yield on the
      composed kernel state.
    - [Invariant]: the kernel invariant that ties heap, frames, page tables, queue
      and process table together; [Create], [Reap], [Dispatch]: the operations of
      [Process] against it.  [Space]: an address space under construction, and
      [Spawn]: [process_create_from_elf] against both invariants.
    - [Gdt] ([kernel/gdt.c], [boot/gdt_flush.asm]), [Idt] ([kernel/idt.c]),
      [Trap] ([boot/isr.asm], [boot/usermode.asm]): descriptor tables, interrupt
      controllers, dispatch, the stubs and the changes of ring.
    - [Syscall] ([kernel/syscall.c]), [Ramfs] ([kernel/ramfs.c]), [Keyboard]
      ([drivers/keyboard.c]), [Pit] ([kernel/pit.c]).
    - [Userland] ([userland/test_prog.c]): the embedded program in ring 3.
      [Program]: the first switch to a process from an image
      ([user_mode_trampoline]), and the program from its image to its exit.
    - [System]: the state of all components and the effects of ports and
      interrupts on it.  [ShUtil] ([shell/sh_util.c]), [Commands]
      ([shell/commands*.c], [syscall_wrapper.h], [process_list]), [MemCommands],
      [ProcCommands] and [UserCommands] (theorems on the commands), [Shell]
      ([shell/shell.c]).
    - [Boot] ([boot/boot.asm], [kernel/kernel.c]): [_start] and [kernel_main].
      [Image] ([linker.ld], [userland/test_prog.ld], the sections of [boot.asm] and
      [test_prog_blob.asm]): where the linker puts the sections and what they hold.
    - [Run]: the kernel in operation as a transition system.

    Each file has one module of its own name; a definition has the name of the
    function it models, or a name next to it when a function is split at its loops
    and branches.

    ** What the theorems show

    - Memory: the allocator is first fit and its interface laws hold; the heap
      refines first-fit allocation with splitting and coalescing, never hands out
      live bytes, and panics on double frees; the page-table operations have
      exactly their effect on [translate], and mapping in the user windows above
      32 MiB is isolated, while below it is not ([Paging.user_window_shared]).  The
      flushes the code makes keep the translation caches invisible
      ([Tlb.tlb_transparent]).
    - Processes: creation, reaping, tick, yield and exit keep the kernel invariant,
      take and give back exactly the frames they should, and choose the first READY
      process in queue order; the switch and the interrupt stubs restore every
      register.
    - Programs: the loader makes every byte of every segment visible in ring 3; any
      image is loaded or refused safely, and a well-formed one becomes a process
      that starts in ring 3 at its entry point; a system call behaves like a
      function call.  Put together, the command [run test.elf] takes the embedded
      program from its image in the file system through loader, scheduler, ring 3
      and system calls to [process_exit], printing what it should
      ([UserCommands.run_test_elf]).
    - Devices and shell: the descriptor tables, the keyboard queue, the file table,
      the command line and the commands against reference definitions.
    - The whole: the linker scripts give the addresses booting needs
      ([Image.linked_layout_ok]), booting establishes the invariant
      ([Boot.boot_establishes]), and it holds in every state reachable afterwards
      ([Run.reachable_safe]).

    A theorem with hypotheses is followed by a [_witness] that applies it to
    concrete data.

    ** Loops and fuel

    [for] loops are [for_loop] over their range, or a [Fixpoint] on the number of
    rounds left.  Loops over links and tags take fuel: the heap walks as many
    blocks as fit in the heap ([Kmalloc.walk_fuel_enough]), the queue walks one
    more step than there are PCBs ([Scheduler.chain_fuel_enough]), the Multiboot2
    walk one step more than the block has bytes, name comparison and copying one more
    than the longest name; the theorems show that the functions return [Done], so
    the fuel is enough.  The waiting loops of [sleep] and of the shell, and the
    length loops of the user program, take the fuel as an argument; the theorems
    say how much is enough.  [shell_run] processes a finite list of events.

    ** Parameters

    Addresses the linker assigns are fields of [link], [image], [layout] and
    [addresses]; the sizes of compiled sections are those of [Image.objects].  What
    the processor does in [hlt], and what other processes do while a command
    yields, is [Commands.env].  The registers a compiled C function
    leaves behind are [returned] in [Trap], with the calling convention as
    hypothesis.  Bytes read from ports, and the order in which interrupts arrive,
    are arguments.

    ** What is not modelled

    - The kernel's own accesses use physical addresses: the code relies on the
      identity window for this, although the allocator manages 128 MiB, the window
      has 32, and a program mapped below 32 MiB replaces pages of it
      ([Paging.user_window_shared]).  Accesses through user pointers, and the dumps of the shell, go
      through [translate].
    - The caches in the other files, which [Tlb] shows to make no difference; a
      directory freed while it is in CR3; [io_wait].
    - Interrupts inside the boot sequence and inside a command; they arrive between
      the rounds of the shell and between the steps of [Run].  Queue operations run
      under [cli] and are single steps.
    - The stack frames of compiled C functions, except where the assembly or
      [process_create] builds them.
    - [idle_task], which nothing calls, the hang loop behind [kernel_main], and
      [fork], of which the sources have a number and a landing pad
      ([Trap.fork_trampoline]) but no implementation.
    - The [Makefile], the machine code the compiler makes of the C sources, and the
      boot-loader configuration. *)

From stdpp Require Export base tactics numbers list gmap option strings.
From Stdlib Require Export ZArith Lia.
#[global] Open Scope Z_scope.

(** ** Automation shared by the components *)

Create HintDb stakos.
Create Rewrite HintDb stakos.

(** Linear arithmetic after turning quotients and remainders into equations. *)
Ltac zlia := Z.div_mod_to_equations; lia.

(** Case analysis on the boolean comparisons the code makes. *)
Ltac zcases :=
  repeat match goal with
  | H : context [ ?a =? ?b ] |- _ => destruct (Z.eqb_spec a b)
  | H : context [ ?a <? ?b ] |- _ => destruct (Z.ltb_spec a b)
  | H : context [ ?a <=? ?b ] |- _ => destruct (Z.leb_spec a b)
  | |- context [ ?a =? ?b ] => destruct (Z.eqb_spec a b)
  | |- context [ ?a <? ?b ] => destruct (Z.ltb_spec a b)
  | |- context [ ?a <=? ?b ] => destruct (Z.leb_spec a b)
  end.

(** ** Machine integers *)

(** Unsigned integers are [Z] values kept in range by the truncation of
    their width; signed ones are re-read from the unsigned representation. *)
Definition u8 (x : Z) : Z := x mod 2 ^ 8.
Definition u16 (x : Z) : Z := x mod 2 ^ 16.
Definition u32 (x : Z) : Z := x mod 2 ^ 32.
Definition u64 (x : Z) : Z := x mod 2 ^ 64.
Definition s8 (x : Z) : Z := if u8 x <? 2 ^ 7 then u8 x else u8 x - 2 ^ 8.
Definition s32 (x : Z) : Z := if u32 x <? 2 ^ 31 then u32 x else u32 x - 2 ^ 32.
Arguments u8 : simpl never.
Arguments u16 : simpl never.
Arguments u32 : simpl never.
Arguments u64 : simpl never.
Arguments s8 : simpl never.
Arguments s32 : simpl never.

Definition is_u8 (x : Z) : Prop := 0 <= x < 2 ^ 8.
Definition is_u32 (x : Z) : Prop := 0 <= x < 2 ^ 32.

Lemma u8_id (x : Z) : is_u8 x → u8 x = x.
Proof. apply Z.mod_small. Qed.

Lemma u8_range (x : Z) : is_u8 (u8 x).
Proof. apply Z.mod_pos_bound. lia. Qed.

Lemma u32_id (x : Z) : is_u32 x → u32 x = x.
Proof. apply Z.mod_small. Qed.

Lemma u32_range (x : Z) : is_u32 (u32 x).
Proof. apply Z.mod_pos_bound. lia. Qed.

#[export] Hint Resolve u8_range u32_range : stakos.
#[export] Hint Rewrite u8_id u32_id using (unfold is_u8, is_u32 in *; lia) : stakos.

(** Drop truncations of values that are in range. *)
Ltac u32_solve := first [done | apply u32_range | unfold is_u32 in *; lia].
Ltac u32_simpl := rewrite ?u32_id by u32_solve.

(** The same, innermost first, for nested truncations. *)
Ltac u32_inner :=
  repeat match goal with
  | |- context [u32 ?x] =>
      lazymatch x with
      | context [u32 _] => fail
      | _ => rewrite (u32_id x) by u32_solve
      end
  end.

(** ** Bit masks as arithmetic *)

Lemma testbit_high (x w i : Z) : 0 <= x < 2 ^ w → w <= i → Z.testbit x i = false.
Proof.
  intros Hx Hi. destruct (decide (0 <= w)).
  - rewrite <- (Z.mod_small x (2 ^ w)) by done. by apply Z.mod_pow2_bits_high.
  - rewrite Z.pow_neg_r in Hx by lia. lia.
Qed.

(** [x & ~(2^k - 1)] on a [w]-bit value rounds down to a multiple of [2^k]. *)
Lemma land_high_mask (x k w : Z) :
  0 <= k <= w → 0 <= x < 2 ^ w →
  Z.land x (Z.shiftl (Z.ones (w - k)) k) = x - x mod 2 ^ k.
Proof.
  intros Hk Hx.
  assert (Z.land x (Z.shiftl (Z.ones (w - k)) k) = Z.ldiff x (Z.ones k)) as ->.
  { apply Z.bits_inj'. intros i Hi. rewrite Z.land_spec, Z.ldiff_spec.
    destruct (decide (i < w)).
    - f_equal. rewrite Z.shiftl_spec by lia. destruct (decide (k <= i)).
      + rewrite !Z.testbit_ones_nonneg by lia. zcases; simpl; (done || lia).
      + rewrite Z.testbit_neg_r, Z.testbit_ones_nonneg by lia. zcases; simpl; (done || lia).
    - by rewrite (testbit_high x w) by lia. }
  rewrite Z.ldiff_ones_r, Z.shiftl_mul_pow2, Z.shiftr_div_pow2 by lia.
  assert (0 < 2 ^ k) by (apply Z.pow_pos_nonneg; lia). zlia.
Qed.

(** Or-ing a value below [2^k] onto a multiple of [2^k] is addition. *)
Lemma lor_low_add (a b k : Z) :
  0 <= k → a mod 2 ^ k = 0 → 0 <= b < 2 ^ k → Z.lor a b = a + b.
Proof.
  intros Hk Ha Hb.
  assert (Z.land a b = 0) as Hland.
  { apply Z.bits_inj'. intros i Hi. rewrite Z.land_spec, Z.bits_0.
    destruct (decide (i < k)).
    - rewrite <- (Z.mod_pow2_bits_low a k) by lia. by rewrite Ha, Z.bits_0.
    - rewrite (testbit_high b k) by lia. apply andb_false_r. }
  by rewrite Z.add_nocarry_lxor, Z.lxor_lor.
Qed.

Lemma lor_bound (a b w : Z) :
  0 <= w → 0 <= a < 2 ^ w → 0 <= b < 2 ^ w → 0 <= Z.lor a b < 2 ^ w.
Proof.
  intros Hw Ha Hb. assert (Z.lor a b = Z.lor a b mod 2 ^ w) as ->.
  { apply Z.bits_inj'. intros i Hi. destruct (decide (i < w)).
    - by rewrite Z.mod_pow2_bits_low.
    - rewrite Z.mod_pow2_bits_high, Z.lor_spec by lia.
      by rewrite (testbit_high a w), (testbit_high b w) by lia. }
  apply Z.mod_pos_bound. apply Z.pow_pos_nonneg; lia.
Qed.

Lemma land_1_testbit (x : Z) : Z.land x 1 = Z.b2z (Z.testbit x 0).
Proof.
  change 1 with (Z.ones 1). rewrite Z.land_ones by lia.
  by rewrite Z.bit0_mod.
Qed.

(** The mask [~0xFFF] of a 32-bit value. *)
Lemma land_page_mask (x : Z) : is_u32 x → Z.land x 0xFFFFF000 = x - x mod 4096.
Proof. apply (land_high_mask x 12 32). lia. Qed.

Lemma land_low_mask (x k : Z) : 0 <= k → Z.land x (Z.ones k) = x mod 2 ^ k.
Proof. apply Z.land_ones. Qed.

(** ** Counted loops *)

(** [for (i = i0; i < i0 + n; i++) s = f(i, s);] *)
Fixpoint for_loop {S : Type} (n : nat) (i : Z) (f : Z → S → S) (s : S) : S :=
  match n with
  | O => s
  | Datatypes.S n' => for_loop n' (i + 1) f (f i s)
  end.

Arguments for_loop : simpl never.

Lemma for_loop_ind {S : Type} (P : Z → S → Prop) (n : nat) (i : Z) (f : Z → S → S) (s : S) :
  P i s →
  (∀ j s', i <= j < i + Z.of_nat n → P j s' → P (j + 1) (f j s')) →
  P (i + Z.of_nat n) (for_loop n i f s).
Proof.
  revert i s. induction n as [|n IH]; intros i s H0 Hstep; cbn [for_loop].
  - by replace (i + Z.of_nat 0) with i by lia.
  - replace (i + Z.of_nat (Datatypes.S n)) with (i + 1 + Z.of_nat n) by lia.
    apply IH.
    + apply Hstep; [lia | done].
    + intros j s' Hj. apply Hstep. lia.
Qed.

Lemma for_loop_inv {S : Type} (P : S → Prop) (n : nat) (i : Z) (f : Z → S → S) (s : S) :
  P s → (∀ j s', P s' → P (f j s')) → P (for_loop n i f s).
Proof. intros H0 Hs. apply (for_loop_ind (λ _, P)); [done |]. intros j s' _. apply Hs. Qed.

(** ** Counting *)

(** How many of [0 .. n-1] satisfy [P]. *)
Fixpoint count (P : Z → bool) (n : nat) : Z :=
  match n with
  | O => 0
  | S n' => count P n' + Z.b2z (P (Z.of_nat n'))
  end.

Lemma count_bounds (P : Z → bool) (n : nat) : 0 <= count P n <= Z.of_nat n.
Proof. induction n as [|n IH]; simpl; [lia |]. destruct (P (Z.of_nat n)); simpl; lia. Qed.

Lemma count_ext (P Q : Z → bool) (n : nat) :
  (∀ x, 0 <= x < Z.of_nat n → P x = Q x) → count P n = count Q n.
Proof.
  induction n as [|n IH]; intros H; simpl; [done |].
  rewrite IH by (intros; apply H; lia). by rewrite H by lia.
Qed.

Lemma count_flip (P Q : Z → bool) (n : nat) (x : Z) :
  0 <= x < Z.of_nat n → P x = true → Q x = false →
  (∀ y, 0 <= y < Z.of_nat n → y ≠ x → P y = Q y) → count P n = count Q n + 1.
Proof.
  induction n as [|n IH]; intros Hx HP HQ H; simpl; [lia |].
  destruct (decide (x = Z.of_nat n)) as [->|].
  - rewrite HP, HQ, (count_ext P Q); [simpl; lia |]. intros. apply H; lia.
  - rewrite IH by (done || lia || (intros; apply H; lia)).
    rewrite (H (Z.of_nat n)) by lia. lia.
Qed.

Lemma count_zero (P : Z → bool) (n : nat) :
  count P n = 0 ↔ ∀ x, 0 <= x < Z.of_nat n → P x = false.
Proof.
  induction n as [|n IH]; simpl; [naive_solver lia |].
  pose proof (count_bounds P n). split.
  - intros H0 x Hx. destruct (decide (x = Z.of_nat n)) as [->|].
    + destruct (P (Z.of_nat n)); simpl in *; [lia | done].
    + apply IH; [destruct (P (Z.of_nat n)); simpl in *; lia | lia].
  - intros H0. rewrite H0 by lia. rewrite (proj2 IH); [done | intros; apply H0; lia].
Qed.

(** ** Lists *)

(** A list is empty or has a last element. *)
Lemma list_snoc_cases {A : Type} (l : list A) : l = [] ∨ ∃ l' x, l = l' ++ [x].
Proof. induction l as [|x l _] using rev_ind; eauto. Qed.

Lemma filter_all {A : Type} (P : A → Prop) `{HP : !∀ x, Decision (P x)} (l : list A) :
  (∀ x, x ∈ l → P x) → filter P l = l.
Proof.
  induction l as [|x l IH]; intros H; [done |].
  rewrite filter_cons_True by (apply H; set_solver). rewrite IH; [done | set_solver].
Qed.

Lemma nodup_snoc_app {A : Type} (l k : list A) (x : A) :
  NoDup ((l ++ [x]) ++ k) ↔ x ∉ l ++ k ∧ NoDup (l ++ k).
Proof.
  rewrite <- app_assoc. simpl. assert (l ++ x :: k ≡ₚ x :: l ++ k) as ->
    by (symmetry; apply Permutation_middle).
  apply NoDup_cons.
Qed.

(** ** Fixed-size arrays *)

(** [a[i]] and [a[i] = v] on a C array of scalars, for an index in range. *)
Definition aget (l : list Z) (i : Z) : Z := default 0 (l !! Z.to_nat i).
Definition aset (l : list Z) (i v : Z) : list Z := <[Z.to_nat i := v]> l.

Lemma length_aset (l : list Z) (i v : Z) : length (aset l i v) = length l.
Proof. apply length_insert. Qed.

Lemma aget_aset_eq (l : list Z) (i v : Z) :
  0 <= i < Z.of_nat (length l) → aget (aset l i v) i = v.
Proof.
  intros Hi. unfold aget, aset. rewrite list_lookup_insert_eq; [done | lia].
Qed.

Lemma aget_aset_ne (l : list Z) (i j v : Z) :
  0 <= i → 0 <= j → i ≠ j → aget (aset l i v) j = aget l j.
Proof.
  intros Hi Hj Hne. unfold aget, aset. rewrite list_lookup_insert_ne; [done | lia].
Qed.

(** ** Outcomes *)

(** What a call into the kernel can do: return, reach [kpanic] with its
    message, or not return at all (a loop whose fuel ran out). *)
Inductive outcome (A : Type) : Type :=
| Done (a : A)
| Panicked (msg : string)
| Diverged.
Arguments Done {A} _.
Arguments Panicked {A} _.
Arguments Diverged {A}.

Definition obind {A B : Type} (x : outcome A) (f : A → outcome B) : outcome B :=
  match x with
  | Done a => f a
  | Panicked msg => Panicked msg
  | Diverged => Diverged
  end.

Declare Scope outcome_scope.
Delimit Scope outcome_scope with outcome.
Notation "'let!' x ':=' e 'in' k" := (obind e (λ x, k))
  (at level 10, x pattern, e at level 100, k at level 200) : outcome_scope.
#[global] Open Scope outcome_scope.

Lemma obind_Done {A B : Type} (x : outcome A) (f : A → outcome B) (b : B) :
  obind x f = Done b ↔ ∃ a, x = Done a ∧ f a = Done b.
Proof. destruct x; simpl; naive_solver. Qed.

(** The postcondition of a call: it returns a result in [Q], or reaches [kpanic]
    with a message in [E]; it does not hang. *)
Definition ensures {A : Type} (E : string → Prop) (Q : A → Prop) (x : outcome A) : Prop :=
  match x with Done a => Q a | Panicked msg => E msg | Diverged => False end.

Lemma ensures_bind {A B : Type} (E : string → Prop) (Q : A → Prop) (Q' : B → Prop) (x : outcome A) (f : A → outcome B) :
  ensures E Q x → (∀ a, Q a → ensures E Q' (f a)) → ensures E Q' (obind x f).
Proof. destruct x; simpl; auto. Qed.

Lemma ensures_mono {A : Type} (E : string → Prop) (Q Q' : A → Prop) (x : outcome A) :
  ensures E Q x → (∀ a, Q a → Q' a) → ensures E Q' x.
Proof. destruct x; simpl; auto. Qed.

Lemma elem_mid {A : Type} (x : A) (l1 l2 : list A) : x ∈ l1 ++ x :: l2.
Proof. apply elem_of_app. right. apply list_elem_of_here. Qed.
