(* ===== verification/Memory.v ===== *)
(** * Physical memory

    StakOS dereferences physical addresses directly, relying on the
    identity-mapped window.  Memory is a finite map from addresses to bytes; 16-,
    32- and 64-bit accesses are the little-endian accesses of the i386.  The
    lemmas here are the read-over-write laws and the frame predicate [agree_on]
    every component that touches memory is verified with. *)

From S2P Require Import Prelude.

Abbreviation memory := (gmap Z Z).

(** ** Loads and stores *)

Definition load8 (m : memory) (a : Z) : Z := u8 (default 0 (m !! a)).
Definition store8 (m : memory) (a v : Z) : memory := <[a := u8 v]> m.

Definition load16 (m : memory) (a : Z) : Z := load8 m a + 2 ^ 8 * load8 m (a + 1).

Definition load32 (m : memory) (a : Z) : Z :=
  load8 m a + 2 ^ 8 * load8 m (a + 1) + 2 ^ 16 * load8 m (a + 2) + 2 ^ 24 * load8 m (a + 3).

Definition load64 (m : memory) (a : Z) : Z := load32 m a + 2 ^ 32 * load32 m (a + 4).

Definition store32 (m : memory) (a v : Z) : memory :=
  store8 (store8 (store8 (store8 m a v) (a + 1) (v / 2 ^ 8)) (a + 2) (v / 2 ^ 16))
    (a + 3) (v / 2 ^ 24).

Arguments load8 : simpl never.
Arguments store8 : simpl never.
Arguments load16 : simpl never.
Arguments load32 : simpl never.
Arguments load64 : simpl never.
Arguments store32 : simpl never.

Lemma load8_range (m : memory) (a : Z) : 0 <= load8 m a < 256.
Proof. apply u8_range. Qed.

Lemma load16_range (m : memory) (a : Z) : 0 <= load16 m a < 2 ^ 16.
Proof. unfold load16. pose proof (load8_range m a). pose proof (load8_range m (a + 1)). lia. Qed.

Lemma load32_range (m : memory) (a : Z) : is_u32 (load32 m a).
Proof.
  unfold load32, is_u32. pose proof (load8_range m a). pose proof (load8_range m (a + 1)).
  pose proof (load8_range m (a + 2)). pose proof (load8_range m (a + 3)). lia.
Qed.

#[export] Hint Resolve load8_range load32_range : stakos.

Lemma load8_store8 (m : memory) (a b v : Z) :
  load8 (store8 m a v) b = if decide (a = b) then u8 v else load8 m b.
Proof.
  unfold load8, store8. case_decide; subst.
  - rewrite lookup_insert_eq. simpl. unfold u8. zlia.
  - by rewrite lookup_insert_ne.
Qed.

Lemma load8_store8_eq (m : memory) (a v : Z) : load8 (store8 m a v) a = u8 v.
Proof. rewrite load8_store8. by case_decide. Qed.

Lemma load8_store8_ne (m : memory) (a b v : Z) : a ≠ b → load8 (store8 m a v) b = load8 m b.
Proof. intros. rewrite load8_store8. by case_decide. Qed.

Lemma load8_store32_ne (m : memory) (a b v : Z) :
  b < a ∨ a + 4 <= b → load8 (store32 m a v) b = load8 m b.
Proof. intros. unfold store32. rewrite !load8_store8_ne by lia. done. Qed.

Lemma load32_store32_eq (m : memory) (a v : Z) : load32 (store32 m a v) a = u32 v.
Proof.
  unfold load32, store32.
  rewrite !load8_store8.
  repeat case_decide; try lia. unfold u8, u32. zlia.
Qed.

(** ** Frames: agreement on a set of addresses *)

Definition agree_on (P : Z → Prop) (m m' : memory) : Prop :=
  ∀ a, P a → load8 m' a = load8 m a.

(** Agreement everywhere outside the range [lo, hi). *)
Definition agree_outside (lo hi : Z) : memory → memory → Prop :=
  agree_on (λ a, a < lo ∨ hi <= a).

#[export] Instance agree_on_refl (P : Z → Prop) : Reflexive (agree_on P).
Proof. by intros m a. Qed.

#[export] Instance agree_on_trans (P : Z → Prop) : Transitive (agree_on P).
Proof. intros m1 m2 m3 H1 H2 a Ha. rewrite H2, H1; done. Qed.

#[export] Instance agree_on_sym (P : Z → Prop) : Symmetric (agree_on P).
Proof. intros m1 m2 H a Ha. by rewrite H. Qed.

#[export] Instance agree_outside_refl (lo hi : Z) : Reflexive (agree_outside lo hi).
Proof. apply agree_on_refl. Qed.

Lemma agree_on_weaken (P Q : Z → Prop) (m m' : memory) :
  agree_on P m m' → (∀ a, Q a → P a) → agree_on Q m m'.
Proof. intros H HQ a Ha. apply H, HQ, Ha. Qed.

Lemma agree_outside_weaken (lo hi lo' hi' : Z) (m m' : memory) :
  agree_outside lo hi m m' → lo' <= lo → hi <= hi' → agree_outside lo' hi' m m'.
Proof. intros H ??. eapply agree_on_weaken; [exact H | intros a Ha; simpl in *; lia]. Qed.

Lemma agree_outside_trans (lo hi : Z) (m1 m2 m3 : memory) :
  agree_outside lo hi m1 m2 → agree_outside lo hi m2 m3 → agree_outside lo hi m1 m3.
Proof. apply agree_on_trans. Qed.

Lemma agree_on_load16 (P : Z → Prop) (m m' : memory) (a : Z) :
  agree_on P m m' → P a → P (a + 1) → load16 m' a = load16 m a.
Proof. intros H ??. unfold load16. by rewrite !H. Qed.

Lemma agree_on_load32 (P : Z → Prop) (m m' : memory) (a : Z) :
  agree_on P m m' → (∀ b, a <= b < a + 4 → P b) → load32 m' a = load32 m a.
Proof. intros H HP. unfold load32. rewrite !H by (apply HP; lia). done. Qed.

Lemma agree_outside_load32 (lo hi : Z) (m m' : memory) (a : Z) :
  agree_outside lo hi m m' → a + 4 <= lo ∨ hi <= a → load32 m' a = load32 m a.
Proof. intros H Ha. eapply agree_on_load32; [exact H |]. simpl. lia. Qed.

Lemma agree_store8 (m : memory) (a v : Z) : agree_outside a (a + 1) m (store8 m a v).
Proof. intros b Hb. apply load8_store8_ne. lia. Qed.

Lemma agree_store32 (m : memory) (a v : Z) : agree_outside a (a + 4) m (store32 m a v).
Proof. intros b Hb. apply load8_store32_ne. lia. Qed.

Lemma load32_store32_ne (m : memory) (a b v : Z) :
  b + 4 <= a ∨ a + 4 <= b → load32 (store32 m a v) b = load32 m b.
Proof. intros. eapply agree_outside_load32; [apply agree_store32 | lia]. Qed.

#[export] Hint Resolve agree_store32 agree_store8 : stakos.
#[export] Hint Rewrite load32_store32_eq : stakos.
#[export] Hint Rewrite load32_store32_ne using lia : stakos.

(** ** Loops over memory *)

(** [for (i = 0; i < n; i++) p[i] = g(i);] on an array of 32-bit words and on
    bytes; [g] may read the memory the loop is filling. *)
Definition fill32 (n : nat) (p : Z) (g : Z → memory → Z) (m : memory) : memory :=
  for_loop n 0 (λ i m, store32 m (p + 4 * i) (g i m)) m.

Definition fill8 (n : nat) (p : Z) (g : Z → memory → Z) (m : memory) : memory :=
  for_loop n 0 (λ i m, store8 m (p + i) (g i m)) m.

(** [g] does not read what the first [n] iterations of the loop write. *)
Definition stable_outside (n : nat) (lo hi : Z) (m : memory) (g : Z → memory → Z) : Prop :=
  ∀ i m', 0 <= i < Z.of_nat n → agree_outside lo hi m m' → g i m' = g i m.

Lemma fill32_spec (n : nat) (p : Z) (g : Z → memory → Z) (m : memory) :
  stable_outside n p (p + 4 * Z.of_nat n) m g →
  agree_outside p (p + 4 * Z.of_nat n) m (fill32 n p g m) ∧
  ∀ i, 0 <= i < Z.of_nat n → load32 (fill32 n p g m) (p + 4 * i) = u32 (g i m).
Proof.
  intros Hg.
  pose proof (for_loop_ind
    (λ j m', agree_outside p (p + 4 * Z.of_nat n) m m' ∧
             ∀ i, 0 <= i < j → load32 m' (p + 4 * i) = u32 (g i m))
    n 0 (λ i m, store32 m (p + 4 * i) (g i m)) m) as H.
  destruct H as [H1 H2]; [| |split; [exact H1 | intros; apply H2; lia]].
  - split; [reflexivity | intros; lia].
  - intros j m' Hj [Hag Hv]. split.
    + eapply agree_outside_trans; [exact Hag |].
      eapply agree_outside_weaken; [apply agree_store32 | lia | lia].
    + intros i Hi. destruct (decide (i = j)) as [->|].
      * by rewrite load32_store32_eq, Hg by (done || lia).
      * rewrite load32_store32_ne by lia. apply Hv. lia.
Qed.

(** Whatever is stored, the rest of memory stays. *)
Lemma fill8_outside (n : nat) (p : Z) (g : Z → memory → Z) (m : memory) :
  agree_outside p (p + Z.of_nat n) m (fill8 n p g m).
Proof.
  apply (for_loop_ind (λ _ m', agree_outside p (p + Z.of_nat n) m m')); [reflexivity |]. intros j m' Hj Hag.
  eapply agree_outside_trans; [exact Hag |]. eapply agree_outside_weaken; [apply agree_store8 | lia | lia].
Qed.

Lemma fill8_spec (n : nat) (p : Z) (g : Z → memory → Z) (m : memory) :
  stable_outside n p (p + Z.of_nat n) m g →
  agree_outside p (p + Z.of_nat n) m (fill8 n p g m) ∧
  ∀ i, 0 <= i < Z.of_nat n → load8 (fill8 n p g m) (p + i) = u8 (g i m).
Proof.
  intros Hg.
  pose proof (for_loop_ind
    (λ j m', agree_outside p (p + Z.of_nat n) m m' ∧
             ∀ i, 0 <= i < j → load8 m' (p + i) = u8 (g i m))
    n 0 (λ i m, store8 m (p + i) (g i m)) m) as H.
  destruct H as [H1 H2]; [| |split; [exact H1 | intros; apply H2; lia]].
  - split; [reflexivity | intros; lia].
  - intros j m' Hj [Hag Hv]. split.
    + eapply agree_outside_trans; [exact Hag |].
      eapply agree_outside_weaken; [apply agree_store8 | lia | lia].
    + intros i Hi. destruct (decide (i = j)) as [->|].
      * by rewrite load8_store8_eq, Hg by (done || lia).
      * rewrite load8_store8_ne by lia. apply Hv. lia.
Qed.
