(* ===== verification/Frames.v ===== *)
(** * The frame-allocator interface

    What the physical memory manager promises to its clients (the kernel heap,
    paging, the ELF loader, process creation): [pmm_alloc_frame] and
    [pmm_free_frame] as operations, with their laws stated on page addresses.
    Clients are verified against this class; [Pmm.v] provides the instance. *)

From S2P Require Import Prelude.

Definition PAGE_SIZE : Z := 4096.
Definition MAX_FRAMES : Z := 32768.

(** The address of a frame that can be handed out: page aligned, not zero. *)
Definition page_addr (a : Z) : Prop := 0 < a < MAX_FRAMES * PAGE_SIZE ∧ a mod PAGE_SIZE = 0.

Class FrameAlloc (F : Type) : Type := {
  alloc_frame : F → Z * F;
  free_frame : Z → F → F;
  in_use : F → Z → bool;
  frames_free : F → Z;
  frames_ok : F → Prop;
  alloc_frame_spec (s : F) :
    frames_ok s →
    (∃ a s', alloc_frame s = (a, s') ∧ page_addr a ∧ in_use s a = false ∧ frames_ok s' ∧
             frames_free s' = frames_free s - 1 ∧
             ∀ b, page_addr b → in_use s' b = (b =? a) || in_use s b) ∨
    (alloc_frame s = (0, s) ∧ frames_free s = 0);
  free_frame_spec (s : F) (a : Z) :
    frames_ok s → page_addr a → in_use s a = true →
    frames_ok (free_frame a s) ∧ frames_free (free_frame a s) = frames_free s + 1 ∧
    ∀ b, page_addr b → in_use (free_frame a s) b = negb (b =? a) && in_use s b;
  free_frame_idle (s : F) (a : Z) :
    frames_ok s → page_addr a → in_use s a = false → free_frame a s = s;
  free_alloc_frame (s s' : F) (a : Z) :
    frames_ok s → alloc_frame s = (a, s') → a ≠ 0 → free_frame a s' = s
}.

Lemma page_addr_nonzero (a : Z) : page_addr a → a ≠ 0.
Proof. intros [H _]. lia. Qed.

Lemma page_addr_u32 (a : Z) : page_addr a → is_u32 a.
Proof. unfold page_addr, is_u32, MAX_FRAMES, PAGE_SIZE. lia. Qed.

(** Distinct page addresses are a page apart. *)
Lemma page_addr_apart (a b : Z) :
  page_addr a → page_addr b → a ≠ b → a + PAGE_SIZE <= b ∨ b + PAGE_SIZE <= a.
Proof. unfold page_addr, PAGE_SIZE. intros. zlia. Qed.

Section laws.
Context {F : Type} `{!FrameAlloc F}.

(** Freeing a page address, whether it is in use or not. *)
Lemma free_frame_any (s : F) (a : Z) :
  frames_ok s → page_addr a →
  frames_ok (free_frame a s) ∧
  ∀ b, page_addr b → in_use (free_frame a s) b = negb (b =? a) && in_use s b.
Proof.
  intros Hok Ha. destruct (in_use s a) eqn:Hu.
  - by destruct (free_frame_spec s a Hok Ha Hu) as (? & _ & ?).
  - rewrite (free_frame_idle s a Hok Ha Hu). split; [done |]. intros b Hb.
    destruct (Z.eqb_spec b a) as [->|]; simpl; [done | by destruct (in_use s b)].
Qed.

(** ** Accounting of frames taken *)

(** [fs'] is [fs] with the frames of [X], free there, taken. *)
Definition took (fs fs' : F) (X : gset Z) : Prop :=
  frames_ok fs' ∧ (∀ a, a ∈ X → page_addr a ∧ in_use fs a = false) ∧
  frames_free fs' = frames_free fs - Z.of_nat (size X) ∧
  ∀ b, page_addr b → in_use fs' b = bool_decide (b ∈ X) || in_use fs b.

Lemma took_none (fs : F) : frames_ok fs → took fs fs ∅.
Proof.
  intros Hok. split_and!; [done | set_solver | rewrite size_empty; lia |].
  intros b _. by rewrite bool_decide_false by set_solver.
Qed.

Lemma took_trans (fs fs' fs'' : F) (X Y : gset Z) : took fs fs' X → took fs' fs'' Y → took fs fs'' (X ∪ Y).
Proof.
  intros (_ & HX & Hf & Hu) (Hok & HY & Hf' & Hu').
  assert (X ## Y) as Hd.
  { intros a Ha Hb. destruct (HX a Ha) as [Hp _], (HY a Hb) as [_ H]. by rewrite Hu, bool_decide_true in H by done. }
  split_and!; [done | | |].
  - intros a [Ha|Ha]%elem_of_union; [by apply HX |]. destruct (HY a Ha) as [Hp H]. split; [done |].
    rewrite Hu in H by done. by apply orb_false_iff in H as [_ ?].
  - rewrite Hf', Hf, size_union by done. lia.
  - intros b Hb. rewrite Hu', Hu, orb_assoc by done. f_equal. rewrite <- bool_decide_or. apply bool_decide_ext. set_solver.
Qed.

Lemma took_one (fs fs' : F) (a : Z) : frames_ok fs → alloc_frame fs = (a, fs') → a ≠ 0 → took fs fs' {[a]}.
Proof.
  intros Hok Ha H0. destruct (alloc_frame_spec fs Hok) as [(b & s' & Hb & Hpb & Hub & Hok' & Hf' & Hu')|[Hb _]];
    rewrite Ha in Hb; inversion Hb; subst; [| done]. split_and!; [done | set_solver | rewrite size_singleton; lia |].
  intros c Hc. rewrite Hu' by done. f_equal. destruct (Z.eqb_spec c b); symmetry; [apply bool_decide_true | apply bool_decide_false]; set_solver.
Qed.

Lemma took_alloc (fs fs' fs'' : F) (X : gset Z) (a : Z) :
  took fs fs' X → alloc_frame fs' = (a, fs'') →
  (a ≠ 0 ∧ page_addr a ∧ a ∉ X ∧ in_use fs' a = false ∧ took fs fs'' ({[a]} ∪ X)) ∨
  (a = 0 ∧ fs'' = fs' ∧ frames_free fs' = 0).
Proof.
  intros (Hok & HX & Hf & Hu) Ha. destruct (alloc_frame_spec fs' Hok)
    as [(b & s' & Hb & Hpb & Hub & Hok' & Hf' & Hu')|[Hb H0]]; rewrite Ha in Hb; inversion Hb; subst; [left | by right].
  assert (in_use fs b = false ∧ b ∉ X) as [Hfb HbX].
  { rewrite Hu in Hub by done. apply orb_false_iff in Hub as [H1 H2].
    split; [done | by apply bool_decide_eq_false in H1]. }
  split_and!; [by apply page_addr_nonzero | done.. |]. split_and!; [done | | |].
  - intros c Hc. apply elem_of_union in Hc as [->%elem_of_singleton|Hc]; [done | by apply HX].
  - rewrite Hf', Hf, size_union, size_singleton by set_solver. lia.
  - intros c Hc. rewrite Hu', Hu, orb_assoc by done. f_equal.
    destruct (Z.eqb_spec c b) as [->|Hne]; simpl; [by rewrite bool_decide_true by set_solver |].
    apply bool_decide_ext. set_solver.
Qed.

Lemma took_free (fs fs' : F) (X : gset Z) (a : Z) :
  took fs fs' X → a ∈ X → took fs (free_frame a fs') (X ∖ {[a]}).
Proof.
  intros (Hok & HX & Hf & Hu) Ha. destruct (HX a Ha) as [Hpa Hna].
  assert (in_use fs' a = true) as Hua by (rewrite Hu by done; by rewrite bool_decide_true).
  destruct (free_frame_spec fs' a Hok Hpa Hua) as (Hok' & Hf' & Hu').
  split_and!; [done | intros b Hb; apply HX; set_solver | |].
  - rewrite Hf', Hf, size_difference, size_singleton by set_solver.
    assert (size X ≠ 0)%nat by (intros Hz; apply size_empty_inv in Hz; set_solver). lia.
  - intros b Hb. rewrite Hu', Hu by done. destruct (Z.eqb_spec b a) as [->|Hne]; simpl.
    + rewrite bool_decide_false by set_solver. by rewrite Hna.
    + f_equal. apply bool_decide_ext. set_solver.
Qed.

Lemma took_mono (fs fs' : F) (X : gset Z) (b : Z) :
  took fs fs' X → page_addr b → in_use fs b = true → in_use fs' b = true.
Proof. intros (_ & _ & _ & Hu) Hb Hub. rewrite Hu, Hub by done. apply orb_true_r. Qed.

Lemma took_in_use (fs fs' : F) (X : gset Z) (b : Z) : took fs fs' X → b ∈ X → in_use fs' b = true.
Proof. intros (_ & HX & _ & Hu) Hb. rewrite Hu by (by apply HX). by rewrite bool_decide_true. Qed.

End laws.
