(* ===== verification/Vga.v ===== *)
(** * The VGA text console ([kernel/vga.c], [kernel/vga.h])

    State: the 80x25 buffer of 16-bit cells, the cursor and the current colour.
    The operations are the ones of the driver: colours, scrolling, single
    characters, strings, hexadecimal and decimal numbers. *)

From S2P Require Import Prelude.

Module Vga.

(** ** State *)

Definition VGA_COLS : Z := 80.
Definition VGA_ROWS : Z := 25.

Definition VGA_COLOR_BLACK : Z := 0.
Definition VGA_COLOR_RED : Z := 4.
Definition VGA_COLOR_LIGHT_GREY : Z := 7.
Definition VGA_COLOR_LIGHT_GREEN : Z := 10.
Definition VGA_COLOR_LIGHT_CYAN : Z := 11.
Definition VGA_COLOR_LIGHT_RED : Z := 12.
Definition VGA_COLOR_YELLOW : Z := 14.
Definition VGA_COLOR_WHITE : Z := 15.

Record vga : Type := Vga {
  vga_buf : list Z;
  vga_row : Z;
  vga_col : Z;
  vga_color : Z
}.

Definition with_buf (v : vga) (b : list Z) : vga := Vga b (vga_row v) (vga_col v) (vga_color v).
Definition with_row (v : vga) (r : Z) : vga := Vga (vga_buf v) r (vga_col v) (vga_color v).
Definition with_col (v : vga) (c : Z) : vga := Vga (vga_buf v) (vga_row v) c (vga_color v).

(** ** Characters *)

(** C characters are bytes; [char] is signed on the i386. *)
Definition chars (s : string) : list Z :=
  (λ c, Z.of_N (Ascii.N_of_ascii c)) <$> String.list_ascii_of_string s.

Definition NEWLINE : Z := 10.
Definition BACKSPACE : Z := 8.
Definition SPACE : Z := 32.

(** ** Operations *)

Definition vga_make_color (fg bg : Z) : Z := u8 (Z.lor fg (Z.shiftl bg 4)).

Definition vga_make_entry (c color : Z) : Z := u16 (Z.lor (u16 (s8 c)) (Z.shiftl (u16 color) 8)).

Definition vga_scroll (v : vga) : vga :=
  let b1 :=
    for_loop 24 1 (λ y b,
      for_loop 80 0 (λ x b, aset b ((y - 1) * VGA_COLS + x) (aget b (y * VGA_COLS + x))) b)
      (vga_buf v) in
  let b2 :=
    for_loop 80 0 (λ x b, aset b ((VGA_ROWS - 1) * VGA_COLS + x)
                            (vga_make_entry SPACE (vga_color v))) b1 in
  with_row (with_buf v b2) (VGA_ROWS - 1).

Definition vga_init (v : vga) : vga :=
  let color := vga_make_color VGA_COLOR_LIGHT_GREY VGA_COLOR_BLACK in
  let b :=
    for_loop 25 0 (λ y b,
      for_loop 80 0 (λ x b, aset b (y * VGA_COLS + x) (vga_make_entry SPACE color)) b)
      (vga_buf v) in
  Vga b 0 0 color.

Definition vga_set_color (fg : Z) (v : vga) : vga :=
  Vga (vga_buf v) (vga_row v) (vga_col v) (vga_make_color fg VGA_COLOR_BLACK).

(** [if (++vga_row == VGA_ROWS) vga_scroll();] *)
Definition vga_next_row (v : vga) : vga :=
  let v := with_row v (vga_row v + 1) in
  if vga_row v =? VGA_ROWS then vga_scroll v else v.

(** [vga_buf[vga_row * VGA_COLS + vga_col] = vga_make_entry(c, vga_color);] *)
Definition vga_write_cell (c : Z) (v : vga) : vga :=
  with_buf v (aset (vga_buf v) (vga_row v * VGA_COLS + vga_col v)
                (vga_make_entry c (vga_color v))).

Definition vga_putchar (c : Z) (v : vga) : vga :=
  if c =? BACKSPACE then
    let v :=
      if 0 <? vga_col v then with_col v (vga_col v - 1)
      else if 0 <? vga_row v then with_col (with_row v (vga_row v - 1)) (VGA_COLS - 1)
      else v in
    vga_write_cell SPACE v
  else if c =? NEWLINE then vga_next_row (with_col v 0)
  else
    let v := vga_write_cell c v in
    let v := with_col v (vga_col v + 1) in
    if vga_col v =? VGA_COLS then vga_next_row (with_col v 0) else v.

(** A C string is read up to its terminating NUL. *)
Fixpoint kprint (s : list Z) (v : vga) : vga :=
  match s with
  | [] => v
  | c :: s' => if c =? 0 then v else kprint s' (vga_putchar c v)
  end.

Definition kprints (s : string) : vga → vga := kprint (chars s).

Definition putchars (s : list Z) (v : vga) : vga := foldl (λ v c, vga_putchar c v) v s.

Definition hex_digit (nibble : Z) : Z := if nibble <? 10 then 48 + nibble else 65 + nibble - 10.

(** [for (i = 7; i >= 0; i--)] fills [buf] from its last cell to its first. *)
Fixpoint hex_loop (n : nat) (val : Z) (buf : list Z) : list Z :=
  match n with
  | O => buf
  | S n' => hex_loop n' (Z.shiftr val 4) (hex_digit (Z.land val 15) :: buf)
  end.

Definition kprint_hex (val : Z) (v : vga) : vga :=
  putchars (hex_loop 8 val []) (kprints "0x" v).

(** [while (val > 0) buf[i++] = '0' + val % 10, val /= 10;] with the cells
    of [buf] in the order they are written. *)
Fixpoint dec_loop (fuel : nat) (val : Z) (buf : list Z) : list Z :=
  match fuel with
  | O => buf
  | S fuel' => if 0 <? val then dec_loop fuel' (val / 10) (buf ++ [48 + val mod 10]) else buf
  end.

(** The fuel is the length of [char buf[10]] plus one. *)
Definition kprint_int (val : Z) (v : vga) : vga :=
  let '(val, v) := if val <? 0 then (s32 (- val), vga_putchar 45 v) else (val, v) in
  if val =? 0 then vga_putchar 48 v
  else putchars (reverse (dec_loop 11 val [])) v.

Definition kpanic (msg detail : list Z) (v : vga) : vga :=
  let v := vga_set_color VGA_COLOR_RED v in
  let v := kprint (NEWLINE :: chars "[KERNEL PANIC] ") v in
  let v := kprint msg v in
  let v := kprint detail v in
  kprint (NEWLINE :: chars "--- System Halted ---" ++ [NEWLINE]) v.

Definition vga_get_col (v : vga) : Z := u8 (vga_col v).
Definition vga_get_row (v : vga) : Z := u8 (vga_row v).

(** ** Well-formedness *)

Record wf (v : vga) : Prop := {
  wf_buf : length (vga_buf v) = 2000%nat;
  wf_cells : Forall (λ e, 0 <= e < 2 ^ 16) (vga_buf v);
  wf_row : 0 <= vga_row v < VGA_ROWS;
  wf_col : 0 <= vga_col v < VGA_COLS
}.

Lemma vga_make_entry_range (c color : Z) : 0 <= vga_make_entry c color < 2 ^ 16.
Proof. apply Z.mod_pos_bound. lia. Qed.

Definition cells_ok (b : list Z) : Prop :=
  length b = 2000%nat ∧ Forall (λ e, 0 <= e < 2 ^ 16) b.

Lemma aset_cells_ok (b : list Z) (i e : Z) :
  cells_ok b → 0 <= e < 2 ^ 16 → cells_ok (aset b i e).
Proof.
  intros [Hl Hb] He. split; [by rewrite length_aset |]. unfold aset. by apply Forall_insert.
Qed.

Lemma aget_cells_ok (b : list Z) (i : Z) : cells_ok b → 0 <= aget b i < 2 ^ 16.
Proof.
  intros [_ Hb]. unfold aget. destruct (b !! Z.to_nat i) as [e|] eqn:E; simpl; [|lia].
  by eapply Forall_lookup_1 in Hb.
Qed.

Lemma wf_cells_ok (v : vga) : wf v → cells_ok (vga_buf v).
Proof. intros []. by split. Qed.

Lemma vga_scroll_cells_ok (v : vga) :
  cells_ok (vga_buf v) → cells_ok (vga_buf (vga_scroll v)).
Proof.
  intros H. unfold vga_scroll, with_row, with_buf. cbn [vga_buf]. apply for_loop_inv.
  - apply for_loop_inv; [done |]. intros y b Hb. apply for_loop_inv; [done |].
    intros x b' Hb'. by apply aset_cells_ok, aget_cells_ok.
  - intros x b Hb. apply aset_cells_ok, vga_make_entry_range. done.
Qed.

Lemma wf_set_color (c : Z) (v : vga) : wf v → wf (vga_set_color c v).
Proof. by intros []. Qed.

Lemma wf_next_row (v : vga) : wf v → wf (vga_next_row v).
Proof.
  intros Hv. destruct (vga_scroll_cells_ok (with_row v (vga_row v + 1)) (wf_cells_ok _ Hv)) as [H1 H2]. destruct Hv as [Hl Hc Hr Hk].
  unfold vga_next_row, VGA_ROWS in *. cbn [with_row vga_row]. destruct (Z.eqb_spec (vga_row v + 1) 25).
  - split; [done | done | unfold vga_scroll, VGA_ROWS; simpl; lia | done].
  - split; simpl; unfold VGA_ROWS; (done || lia).
Qed.

Lemma wf_write_cell (c : Z) (v : vga) : wf v → wf (vga_write_cell c v).
Proof.
  intros Hv. destruct (aset_cells_ok (vga_buf v) (vga_row v * VGA_COLS + vga_col v) (vga_make_entry c (vga_color v)))
    as [H1 H2]; [by apply wf_cells_ok | apply vga_make_entry_range |]. by destruct Hv.
Qed.

Lemma wf_putchar (c : Z) (v : vga) : wf v → wf (vga_putchar c v).
Proof.
  intros Hv. unfold vga_putchar. destruct (c =? BACKSPACE).
  { apply wf_write_cell. destruct Hv as [Hl Hc Hr Hk]. unfold VGA_ROWS, VGA_COLS in *.
    destruct (Z.ltb_spec 0 (vga_col v)); [| destruct (Z.ltb_spec 0 (vga_row v))]; split; simpl; unfold VGA_ROWS, VGA_COLS; (done || lia). }
  destruct (c =? NEWLINE).
  { apply wf_next_row. destruct Hv as [Hl Hc Hr Hk]. split; simpl; unfold VGA_COLS; (done || lia). }
  apply (wf_write_cell c) in Hv. set (w := vga_write_cell c v) in *. clearbody w. cbn [with_col vga_col].
  destruct (Z.eqb_spec (vga_col w + 1) VGA_COLS); [apply wf_next_row |]; destruct Hv as [Hl Hc Hr Hk];
    split; simpl; unfold VGA_COLS in *; (done || lia).
Qed.

#[export] Hint Resolve wf_set_color wf_next_row wf_write_cell wf_putchar : stakos.

Lemma wf_putchars (l : list Z) (v : vga) : wf v → wf (putchars l v).
Proof. unfold putchars. revert v. induction l as [|c l IH]; intros v Hv; simpl; auto with stakos. Qed.

Lemma wf_kprint (l : list Z) (v : vga) : wf v → wf (kprint l v).
Proof. revert v. induction l as [|c l IH]; intros v Hv; simpl; [done |]. case_match; auto with stakos. Qed.

#[export] Hint Resolve wf_putchars wf_kprint : stakos.

Lemma wf_kprint_hex (x : Z) (v : vga) : wf v → wf (kprint_hex x v).
Proof. intros Hv. unfold kprint_hex, kprints. auto with stakos. Qed.

Lemma wf_kprint_int (x : Z) (v : vga) : wf v → wf (kprint_int x v).
Proof. intros Hv. unfold kprint_int. repeat case_match; simplify_eq; auto with stakos. Qed.

Lemma init_cells (b : list Z) : cells_ok b → cells_ok (vga_buf (vga_init (Vga b 0 0 0))).
Proof.
  intros Hb. unfold vga_init. cbn [vga_buf]. apply for_loop_inv; [done |]. intros y c Hc. apply for_loop_inv; [done |].
  intros x d Hd. by apply aset_cells_ok, vga_make_entry_range.
Qed.



End Vga.
