(* ===== verification/Pmm.v ===== *)
(** * The physical memory manager ([kernel/pmm.c], [kernel/pmm.h])

    A bitmap with one bit per 4 KB frame (1 = used) and two counters.  The
    definitions follow the source: bit helpers, the walk over the Multiboot2
    tags that builds the bitmap, first-fit allocation with its word skip,
    freeing with its double-free guard, statistics.

    The theorems relate the words of the bitmap to the abstract set of used
    frames ([used]). *)

From S2P Require Import Prelude Memory Frames Vga.

Module Pmm.

Definition MB2_MEMORY_AVAILABLE : Z := 1.

Record pmm : Type := Pmm {
  pmm_bitmap : list Z;
  total_frames : Z;
  free_frames : Z
}.

Definition with_bitmap (p : pmm) (b : list Z) : pmm := Pmm b (total_frames p) (free_frames p).
Definition with_free (p : pmm) (n : Z) : pmm := Pmm (pmm_bitmap p) (total_frames p) n.
Definition with_total (p : pmm) (n : Z) : pmm := Pmm (pmm_bitmap p) n (free_frames p).

(** ** Bit helpers *)

Definition frame_set (frame : Z) (p : pmm) : pmm :=
  with_bitmap p
    (aset (pmm_bitmap p) (frame / 32)
      (u32 (Z.lor (aget (pmm_bitmap p) (frame / 32)) (Z.shiftl 1 (frame mod 32))))).

Definition frame_clear (frame : Z) (p : pmm) : pmm :=
  with_bitmap p
    (aset (pmm_bitmap p) (frame / 32)
      (Z.land (aget (pmm_bitmap p) (frame / 32)) (u32 (Z.lnot (Z.shiftl 1 (frame mod 32)))))).

Definition frame_test (frame : Z) (p : pmm) : Z :=
  Z.land (Z.shiftr (aget (pmm_bitmap p) (frame / 32)) (frame mod 32)) 1.

(** ** Initialisation from the Multiboot2 memory map *)

(** The loop over [frame_start <= f < frame_end && f < MAX_FRAMES]. *)
Definition free_region (frame_start frame_end : Z) (p : pmm) : pmm :=
  for_loop (Z.to_nat (Z.min frame_end MAX_FRAMES - frame_start)) frame_start
    (λ f p,
      let p := frame_clear f p in
      let p := with_free p (u32 (free_frames p + 1)) in
      with_total p (u32 (total_frames p + 1))) p.

(** One memory-map entry: [base_addr], [length] (64 bits), [mem_type]. *)
Definition free_entry (m : memory) (e : Z) (p : pmm) : pmm :=
  if load32 m (e + 16) =? MB2_MEMORY_AVAILABLE then
    let start := load64 m e in
    let end_ := u64 (start + load64 m (e + 8)) in
    let frame_start := u32 (u64 (start + PAGE_SIZE - 1) / PAGE_SIZE) in
    let frame_end := u32 (end_ / PAGE_SIZE) in
    free_region frame_start frame_end p
  else p.

Fixpoint free_entries (fuel : nat) (m : memory) (entry_size mmap_end entry_ptr : Z) (p : pmm)
    : outcome pmm :=
  match fuel with
  | O => Diverged
  | S fuel' =>
      if entry_ptr <? mmap_end then
        free_entries fuel' m entry_size mmap_end (u32 (entry_ptr + entry_size))
          (free_entry m entry_ptr p)
      else Done p
  end.

Definition next_tag (m : memory) (tag : Z) : Z :=
  let next := u32 (tag + load32 m (tag + 4)) in
  Z.land (u32 (next + 7)) (u32 (Z.lnot 7)).

(** The entries of a memory-map tag start after its 16-byte header. *)
Fixpoint walk_tags (fuel : nat) (m : memory) (tag : Z) (p : pmm) : outcome pmm :=
  match fuel with
  | O => Diverged
  | S fuel' =>
      if load32 m tag =? 0 then Done p
      else
        let! p :=
          (if load32 m tag =? 6 then
             free_entries (S (Z.to_nat (load32 m (tag + 4)))) m (load32 m (tag + 8))
               (u32 (tag + load32 m (tag + 4))) (u32 (tag + 16)) p
           else Done p) in
        walk_tags fuel' m (next_tag m tag) p
  end.

(** Claim one frame unless it is already in use. *)
Definition claim_frame (f : Z) (p : pmm) : pmm :=
  if frame_test f p =? 0 then
    let p := frame_set f p in with_free p (u32 (free_frames p - 1))
  else p.

(** [kernel_end] is the address of the linker symbol [_kernel_end]; the fuel of
    the tag walk is the size of the information block. *)
Definition pmm_init (m : memory) (kernel_end mboot_ptr : Z) (p : pmm) : outcome pmm :=
  let p := with_bitmap p
    (for_loop 1024 0 (λ i b, aset b i 0xFFFFFFFF) (pmm_bitmap p)) in
  let! p := walk_tags (S (Z.to_nat (load32 m mboot_ptr))) m (u32 (mboot_ptr + 8)) p in
  let p := frame_set 0 p in
  let kernel_end_frame := u32 (kernel_end + PAGE_SIZE - 1) / PAGE_SIZE in
  let p := for_loop (Z.to_nat (Z.min (kernel_end_frame + 1) MAX_FRAMES)) 0 claim_frame p in
  let mb_frame := mboot_ptr / PAGE_SIZE in
  Done (if mb_frame <? MAX_FRAMES then claim_frame mb_frame p else p).

(** ** Allocation *)

Fixpoint scan_bits (n : nat) (i bit : Z) (p : pmm) : option Z :=
  match n with
  | O => None
  | S n' =>
      let frame := i * 32 + bit in
      if frame_test frame p =? 0 then Some frame else scan_bits n' i (bit + 1) p
  end.

Fixpoint scan_words (n : nat) (i : Z) (p : pmm) : option Z :=
  match n with
  | O => None
  | S n' =>
      if aget (pmm_bitmap p) i =? 0xFFFFFFFF then scan_words n' (i + 1) p
      else
        match scan_bits 32 i 0 p with
        | Some frame => Some frame
        | None => scan_words n' (i + 1) p
        end
  end.

Definition pmm_alloc_frame (p : pmm) : Z * pmm :=
  if free_frames p =? 0 then (0, p)
  else
    match scan_words 1024 0 p with
    | Some frame =>
        let p := frame_set frame p in
        (u32 (frame * PAGE_SIZE), with_free p (u32 (free_frames p - 1)))
    | None => (0, p)
    end.

(** ** Freeing *)

Definition pmm_free_frame (phys_addr : Z) (p : pmm) : pmm :=
  let frame := phys_addr / PAGE_SIZE in
  if MAX_FRAMES <=? frame then p
  else if frame_test frame p =? 0 then p
  else
    let p := frame_clear frame p in
    with_free p (u32 (free_frames p + 1)).

(** ** Statistics *)

Definition pmm_print_stats (p : pmm) (v : Vga.vga) : Vga.vga :=
  let v := Vga.vga_set_color Vga.VGA_COLOR_LIGHT_GREEN v in
  let v := Vga.kprint (Vga.chars "[OK] PMM initialized" ++ [Vga.NEWLINE]) v in
  let v := Vga.vga_set_color Vga.VGA_COLOR_LIGHT_GREY v in
  let v := Vga.kprints "     Total frames : " v in
  let v := Vga.kprint_int (s32 (total_frames p)) v in
  let v := Vga.kprints "  (" v in
  let v := Vga.kprint_int (s32 (u32 (total_frames p * PAGE_SIZE) / 1024)) v in
  let v := Vga.kprint (Vga.chars " KB)" ++ [Vga.NEWLINE]) v in
  let v := Vga.kprints "     Free  frames : " v in
  let v := Vga.kprint_int (s32 (free_frames p)) v in
  let v := Vga.kprints "  (" v in
  let v := Vga.kprint_int (s32 (u32 (free_frames p * PAGE_SIZE) / 1024)) v in
  Vga.kprint (Vga.chars " KB)" ++ [Vga.NEWLINE]) v.

(** ** The abstract view: the set of used frames *)

Definition used (p : pmm) (f : Z) : bool :=
  Z.testbit (aget (pmm_bitmap p) (f / 32)) (f mod 32).

Definition is_frame (f : Z) : Prop := 0 <= f < MAX_FRAMES.

Record wf (p : pmm) : Prop := {
  wf_len : length (pmm_bitmap p) = 1024%nat;
  wf_words : Forall is_u32 (pmm_bitmap p);
  wf_free : is_u32 (free_frames p)
}.

Lemma wf_word (p : pmm) (i : Z) : wf p → is_u32 (aget (pmm_bitmap p) i).
Proof.
  intros Hwf. unfold aget. destruct (pmm_bitmap p !! Z.to_nat i) as [w|] eqn:E; simpl.
  - by eapply (Forall_lookup_1 is_u32); [apply (wf_words _ Hwf) |].
  - by unfold is_u32.
Qed.

Lemma frame_test_used (p : pmm) (f : Z) : frame_test f p = Z.b2z (used p f).
Proof.
  unfold frame_test, used. rewrite land_1_testbit, Z.shiftr_spec by lia. done.
Qed.

Lemma frame_test_free (p : pmm) (f : Z) : (frame_test f p =? 0) = negb (used p f).
Proof. rewrite frame_test_used. by destruct (used p f). Qed.

(** A word update at [f/32] seen through [used]. *)
Lemma used_aset (p : pmm) (f g w : Z) :
  length (pmm_bitmap p) = 1024%nat → is_frame f → 0 <= g →
  used (with_bitmap p (aset (pmm_bitmap p) (f / 32) w)) g =
  if decide (g / 32 = f / 32) then Z.testbit w (g mod 32) else used p g.
Proof.
  intros Hl Hf Hg. unfold is_frame, MAX_FRAMES in *. unfold used, with_bitmap.
  cbn [pmm_bitmap]. case_decide as E.
  - rewrite E, aget_aset_eq; [done | rewrite Hl; zlia].
  - rewrite aget_aset_ne; [done | zlia..].
Qed.

Lemma testbit_u32 (x i : Z) : 0 <= i < 32 → Z.testbit (u32 x) i = Z.testbit x i.
Proof. intros. unfold u32. apply Z.mod_pow2_bits_low. lia. Qed.

Lemma testbit_one_shift (k i : Z) : 0 <= k → 0 <= i → Z.testbit (Z.shiftl 1 k) i = (i =? k).
Proof.
  intros. rewrite Z.shiftl_mul_pow2, Z.mul_1_l by lia. rewrite Z.pow2_bits_eqb by lia.
  apply Z.eqb_sym.
Qed.

Lemma used_frame_set (p : pmm) (f g : Z) :
  wf p → is_frame f → 0 <= g → used (frame_set f p) g = (g =? f) || used p g.
Proof.
  intros Hwf Hf Hg. unfold frame_set. rewrite used_aset by (done || apply Hwf).
  assert (0 <= f mod 32 < 32) by zlia. assert (0 <= g mod 32 < 32) by zlia.
  case_decide as E.
  - rewrite testbit_u32, Z.lor_spec, testbit_one_shift by lia. unfold used. rewrite E.
    rewrite orb_comm. f_equal. zcases; [done | zlia | zlia | done].
  - zcases; [by subst | done].
Qed.

Lemma used_frame_clear (p : pmm) (f g : Z) :
  wf p → is_frame f → 0 <= g → used (frame_clear f p) g = negb (g =? f) && used p g.
Proof.
  intros Hwf Hf Hg. unfold frame_clear. rewrite used_aset by (done || apply Hwf).
  assert (0 <= f mod 32 < 32) by zlia. assert (0 <= g mod 32 < 32) by zlia.
  case_decide as E.
  - rewrite Z.land_spec, testbit_u32, Z.lnot_spec, testbit_one_shift by lia.
    unfold used. rewrite E, andb_comm. f_equal. f_equal. zcases; [done | zlia | zlia | done].
  - zcases; [by subst | done].
Qed.

Lemma wf_aset (p : pmm) (i w : Z) : wf p → is_u32 w → wf (with_bitmap p (aset (pmm_bitmap p) i w)).
Proof.
  intros [Hl Hw Hf] Hu. split; cbn [pmm_bitmap free_frames with_bitmap].
  - by rewrite length_aset.
  - unfold aset. by apply Forall_insert.
  - done.
Qed.

Lemma land_u32 (x y : Z) : is_u32 x → is_u32 (Z.land x y).
Proof.
  intros Hx. assert (0 <= Z.land x y) by (apply Z.land_nonneg; left; apply Hx).
  split; [done |].
  replace (Z.land x y) with (u32 (Z.land x y)); [apply u32_range |].
  unfold u32. rewrite <- Z.land_ones by lia. apply Z.bits_inj'. intros i Hi.
  rewrite !Z.land_spec. destruct (decide (i < 32)).
  - rewrite Z.ones_spec_low by lia. apply andb_true_r.
  - by rewrite (testbit_high x 32) by (done || lia).
Qed.

Lemma wf_frame_set (p : pmm) (f : Z) : wf p → wf (frame_set f p).
Proof. intros H. apply wf_aset; [done | apply u32_range]. Qed.

Lemma wf_frame_clear (p : pmm) (f : Z) : wf p → wf (frame_clear f p).
Proof. intros H. apply wf_aset; [done |]. by apply land_u32, wf_word. Qed.

Lemma wf_with_free (p : pmm) (n : Z) : wf p → wf (with_free p (u32 n)).
Proof. intros [Hl Hw Hf]. split; [done | done |]. apply u32_range. Qed.

#[export] Hint Resolve wf_frame_set wf_frame_clear wf_with_free : stakos.

(** The number of frames as a [nat], kept opaque: it is only counted up to. *)
Lemma nframes_sig : { n : nat | Z.of_nat n = MAX_FRAMES }.
Proof. exists (Z.to_nat MAX_FRAMES). apply Z2Nat.id. by unfold MAX_FRAMES. Qed.

Definition nframes : nat := proj1_sig nframes_sig.

Lemma nframes_eq : Z.of_nat nframes = MAX_FRAMES.
Proof. apply (proj2_sig nframes_sig). Qed.

(** The counter against the bitmap.  [slack] is by how much [free_frames]
    exceeds the number of clear bits. *)
Definition free_count (p : pmm) : Z := count (λ f, negb (used p f)) nframes.

Lemma free_count_bounds (p : pmm) : 0 <= free_count p <= MAX_FRAMES.
Proof. rewrite <- nframes_eq. apply count_bounds. Qed.

Lemma free_count_zero (p : pmm) : free_count p = 0 ↔ ∀ f, is_frame f → used p f = true.
Proof.
  unfold free_count, is_frame. rewrite count_zero, nframes_eq.
  split; intros H f Hf; apply negb_false_iff; auto using negb_false_iff.
Qed.

Record inv (slack : Z) (p : pmm) : Prop := {
  inv_wf : wf p;
  inv_count : free_frames p = free_count p + slack;
  inv_zero : used p 0 = true
}.

Lemma free_count_set (p : pmm) (f : Z) :
  wf p → is_frame f → used p f = false → free_count (frame_set f p) = free_count p - 1.
Proof.
  intros Hwf Hf Hu. unfold free_count, is_frame in *.
  pose proof nframes_eq. rewrite (count_flip (λ g, negb (used p g)) (λ g, negb (used (frame_set f p) g))
    nframes f); [lia | lia | by rewrite Hu | |].
  - rewrite used_frame_set by (done || lia). by rewrite Z.eqb_refl.
  - intros y Hy Hne. rewrite used_frame_set by (done || lia). by zcases.
Qed.

Lemma free_count_clear (p : pmm) (f : Z) :
  wf p → is_frame f → used p f = true → free_count (frame_clear f p) = free_count p + 1.
Proof.
  intros Hwf Hf Hu. unfold free_count, is_frame in *.
  pose proof nframes_eq. rewrite (count_flip (λ g, negb (used (frame_clear f p) g)) (λ g, negb (used p g))
    nframes f); [lia | lia | | by rewrite Hu |].
  - rewrite used_frame_clear by (done || lia). by rewrite Z.eqb_refl.
  - intros y Hy Hne. rewrite used_frame_clear by (done || lia). by zcases.
Qed.

(** ** First-fit search *)

(** [r] is the first clear bit of the frames in [lo, hi), if there is one. *)
Definition first_free (lo hi : Z) (p : pmm) (r : option Z) : Prop :=
  match r with
  | Some f => lo <= f < hi ∧ used p f = false ∧ ∀ g, lo <= g < f → used p g = true
  | None => ∀ g, lo <= g < hi → used p g = true
  end.

Lemma first_free_skip (lo mid hi : Z) (p : pmm) (r : option Z) :
  lo <= mid → (∀ g, lo <= g < mid → used p g = true) →
  first_free mid hi p r → first_free lo hi p r.
Proof.
  intros Hle Hlo H. destruct r as [f|]; simpl in *.
  - destruct H as (Hf & Hu & Hg). split_and!; [lia | lia | done |].
    intros g Hg'. destruct (decide (g < mid)); [apply Hlo | apply Hg]; lia.
  - intros g Hg. destruct (decide (g < mid)); [apply Hlo | apply H]; lia.
Qed.

Lemma scan_bits_first (n : nat) (i bit : Z) (p : pmm) :
  first_free (i * 32 + bit) (i * 32 + bit + Z.of_nat n) p (scan_bits n i bit p).
Proof.
  revert bit. induction n as [|n IH]; intros bit; cbn [scan_bits]; [simpl; lia |].
  rewrite frame_test_free. destruct (used p (i * 32 + bit)) eqn:E; simpl negb; cbv iota.
  - apply (first_free_skip _ (i * 32 + (bit + 1))); [lia | |].
    + intros g Hg. by replace g with (i * 32 + bit) by lia.
    + replace (i * 32 + bit + Z.of_nat (S n)) with (i * 32 + (bit + 1) + Z.of_nat n) by lia.
      apply IH.
  - simpl. split_and!; [lia | lia | done | lia].
Qed.

Lemma full_word_used (p : pmm) (i g : Z) :
  aget (pmm_bitmap p) i = 0xFFFFFFFF → i * 32 <= g < (i + 1) * 32 → used p g = true.
Proof.
  intros Hw Hg. unfold used. replace (g / 32) with i by zlia. rewrite Hw.
  change 0xFFFFFFFF with (Z.ones 32). apply Z.ones_spec_low. zlia.
Qed.

Lemma scan_words_first (n : nat) (i : Z) (p : pmm) :
  first_free (i * 32) ((i + Z.of_nat n) * 32) p (scan_words n i p).
Proof.
  revert i. induction n as [|n IH]; intros i; cbn [scan_words]; [simpl; lia |].
  replace ((i + Z.of_nat (S n)) * 32) with ((i + 1 + Z.of_nat n) * 32) by lia.
  destruct (Z.eqb_spec (aget (pmm_bitmap p) i) 0xFFFFFFFF) as [Hw|Hw].
  - apply (first_free_skip _ ((i + 1) * 32)); [lia | | apply IH].
    intros g Hg. by eapply full_word_used.
  - pose proof (scan_bits_first 32 i 0 p) as Hb.
    destruct (scan_bits 32 i 0 p) as [f|]; simpl in Hb.
    + destruct Hb as (Hf & Hu & Hg). split_and!; [lia | lia | done |].
      intros g Hg'. apply Hg. lia.
    + apply (first_free_skip _ ((i + 1) * 32)); [lia | | apply IH].
      intros g Hg. apply Hb. lia.
Qed.

Lemma scan_first (p : pmm) : first_free 0 MAX_FRAMES p (scan_words 1024 0 p).
Proof. apply (scan_words_first 1024 0). Qed.

(** ** Allocation and freeing on well-formed states *)

Lemma alloc_cases (slack : Z) (p : pmm) :
  0 <= slack → inv slack p →
  (∃ f, 0 < f < MAX_FRAMES ∧ first_free 0 MAX_FRAMES p (Some f) ∧
        pmm_alloc_frame p =
          (f * PAGE_SIZE, with_free (frame_set f p) (free_frames p - 1))) ∨
  ((∀ f, is_frame f → used p f = true) ∧ pmm_alloc_frame p = (0, p)).
Proof.
  intros Hs [Hwf Hc H0]. pose proof (scan_first p) as Hscan. unfold pmm_alloc_frame.
  pose proof (free_count_bounds p) as Hb.
  destruct (Z.eqb_spec (free_frames p) 0) as [Hz|Hz].
  - right. split; [| done]. apply free_count_zero. lia.
  - destruct (scan_words 1024 0 p) as [f|].
    + left. exists f. destruct Hscan as (Hf & Hu & Hg).
      assert (f ≠ 0) by (intros ->; congruence).
      pose proof (wf_free _ Hwf) as Hfr. unfold is_u32, MAX_FRAMES, PAGE_SIZE in *.
      split; [lia | split; [done |]].
      rewrite u32_id by (unfold is_u32; lia). f_equal. f_equal.
      cbn [free_frames frame_set with_bitmap]. apply u32_id. unfold is_u32. lia.
    + right. split; [| done]. intros f Hf. by apply Hscan.
Qed.

Lemma inv_alloc (slack : Z) (p : pmm) (f : Z) :
  0 <= slack → inv slack p → is_frame f → used p f = false →
  inv slack (with_free (frame_set f p) (free_frames p - 1)).
Proof.
  intros Hs [Hwf Hc H0] Hf Hu.
  pose proof (free_count_set p f Hwf Hf Hu) as Hfc.
  pose proof (free_count_bounds (frame_set f p)) as Hb.
  pose proof (wf_free _ Hwf) as Hfr. unfold is_u32 in Hfr. split.
  - rewrite <- (u32_id (free_frames p - 1)) by (unfold is_u32; lia). auto with stakos.
  - change (free_frames p - 1 = free_count (frame_set f p) + slack). lia.
  - change (used (frame_set f p) 0 = true). rewrite used_frame_set by (done || lia).
    rewrite H0. apply orb_true_r.
Qed.

Lemma inv_free (slack : Z) (p : pmm) (f : Z) :
  0 <= slack <= 1 → inv slack p → 0 < f < MAX_FRAMES → used p f = true →
  inv slack (with_free (frame_clear f p) (free_frames p + 1)).
Proof.
  intros Hs [Hwf Hc H0] Hf Hu.
  assert (is_frame f) as Hfr by (unfold is_frame; lia).
  pose proof (free_count_clear p f Hwf Hfr Hu) as Hfc.
  pose proof (free_count_bounds (frame_clear f p)) as Hb. unfold MAX_FRAMES in Hb. split.
  - rewrite <- (u32_id (free_frames p + 1)) by (unfold is_u32; lia). auto with stakos.
  - change (free_frames p + 1 = free_count (frame_clear f p) + slack). lia.
  - change (used (frame_clear f p) 0 = true). rewrite used_frame_clear by (done || lia).
    rewrite H0. destruct (Z.eqb_spec 0 f); [lia | done].
Qed.

Lemma pmm_free_frame_used (p : pmm) (a : Z) (slack : Z) :
  0 <= slack <= 1 → inv slack p → 0 < a / PAGE_SIZE < MAX_FRAMES → used p (a / PAGE_SIZE) = true →
  pmm_free_frame a p = with_free (frame_clear (a / PAGE_SIZE) p) (free_frames p + 1).
Proof.
  intros Hs [Hwf Hc _] Ha Hu. unfold pmm_free_frame.
  destruct (Z.leb_spec MAX_FRAMES (a / PAGE_SIZE)); [lia |].
  rewrite frame_test_free, Hu. simpl. f_equal.
  pose proof (free_count_bounds p) as Hb. unfold MAX_FRAMES in Hb. apply u32_id. unfold is_u32. lia.
Qed.

Lemma pmm_free_frame_noop (p : pmm) (a : Z) :
  MAX_FRAMES <= a / PAGE_SIZE ∨ used p (a / PAGE_SIZE) = false → pmm_free_frame a p = p.
Proof.
  intros H. unfold pmm_free_frame. destruct (Z.leb_spec MAX_FRAMES (a / PAGE_SIZE)); [done |].
  destruct H as [H|H]; [lia |]. by rewrite frame_test_free, H.
Qed.

(** Clearing a bit that setting it had changed restores the word. *)
Lemma word_set_clear (w k : Z) :
  is_u32 w → 0 <= k < 32 → Z.testbit w k = false →
  Z.land (u32 (Z.lor w (Z.shiftl 1 k))) (u32 (Z.lnot (Z.shiftl 1 k))) = w.
Proof.
  intros Hw Hk Hb. apply Z.bits_inj'. intros i Hi. rewrite Z.land_spec.
  destruct (decide (i < 32)).
  - rewrite !testbit_u32, Z.lor_spec, Z.lnot_spec, testbit_one_shift by lia.
    destruct (Z.eqb_spec i k) as [->|]; [by rewrite Hb |].
    by rewrite orb_false_r, andb_true_r.
  - rewrite (testbit_high w 32) by (done || lia).
    by rewrite (testbit_high (u32 _) 32) by (apply u32_range || lia).
Qed.

Lemma frame_set_clear (p : pmm) (f : Z) :
  wf p → is_frame f → used p f = false → frame_clear f (frame_set f p) = p.
Proof.
  intros Hwf Hf Hu. destruct p as [b t fr]. unfold frame_clear, frame_set, with_bitmap.
  cbn [pmm_bitmap total_frames free_frames]. f_equal.
  assert (length b = 1024%nat) as Hl by apply (wf_len _ Hwf).
  unfold is_frame, MAX_FRAMES in Hf. rewrite aget_aset_eq by (rewrite Hl; zlia).
  rewrite word_set_clear; [| apply (wf_word _ (f / 32) Hwf) | zlia | exact Hu].
  unfold aset. rewrite list_insert_insert_eq. apply list_insert_id.
  unfold aget. destruct (b !! Z.to_nat (f / 32)) eqn:E; [done |].
  apply lookup_ge_None_1 in E. zlia.
Qed.

(** ** The memory map, abstractly *)

Record mmap_entry : Type := MmapEntry { base_addr : Z; length_ : Z; mem_type : Z }.

(** The page frames that lie entirely inside an entry of available memory. *)
Definition entry_start (e : mmap_entry) : Z := (base_addr e + PAGE_SIZE - 1) / PAGE_SIZE.
Definition entry_end (e : mmap_entry) : Z := (base_addr e + length_ e) / PAGE_SIZE.
Definition in_entry (e : mmap_entry) (f : Z) : bool :=
  (mem_type e =? MB2_MEMORY_AVAILABLE) && (entry_start e <=? f) && (f <? entry_end e).
Definition avail (es : list mmap_entry) (f : Z) : bool := existsb (λ e, in_entry e f) es.

(** The entries fit the 32-bit frame numbers the code computes with. *)
Definition entry_ok (e : mmap_entry) : Prop :=
  0 <= base_addr e ∧ 0 <= length_ e ∧ base_addr e + length_ e < 2 ^ 44 - PAGE_SIZE.

(** The bytes of an entry, of the entries of a tag, and of a chain of tags that
    ends before [lim]. *)
Definition entry_at (m : memory) (a : Z) : mmap_entry :=
  MmapEntry (load64 m a) (load64 m (a + 8)) (load32 m (a + 16)).

Inductive entries_at (m : memory) (esz pend : Z) : Z → list mmap_entry → Prop :=
| entries_nil a : pend <= a → entries_at m esz pend a []
| entries_cons a es :
    a < pend → a + esz < 2 ^ 32 → 0 < esz →
    entries_at m esz pend (a + esz) es →
    entries_at m esz pend a (entry_at m a :: es).

Inductive tags_at (m : memory) (lim : Z) : Z → list mmap_entry → Prop :=
| tags_end a : load32 m a = 0 → tags_at m lim a []
| tags_skip a es :
    load32 m a ≠ 0 → load32 m a ≠ 6 → a < next_tag m a <= lim →
    tags_at m lim (next_tag m a) es → tags_at m lim a es
| tags_mmap a es es' :
    load32 m a = 6 → a < next_tag m a <= lim →
    0 <= a → 16 <= load32 m (a + 4) → a + load32 m (a + 4) < 2 ^ 32 →
    entries_at m (load32 m (a + 8)) (a + load32 m (a + 4)) (a + 16) es →
    tags_at m lim (next_tag m a) es' → tags_at m lim a (es ++ es').

(** What the walk does to the bitmap, on the abstract entries. *)
Definition free_mmap_entry (p : pmm) (e : mmap_entry) : pmm :=
  if mem_type e =? MB2_MEMORY_AVAILABLE then free_region (entry_start e) (entry_end e) p else p.

Lemma free_entry_abs (m : memory) (a : Z) (p : pmm) :
  entry_ok (entry_at m a) → free_entry m a p = free_mmap_entry p (entry_at m a).
Proof.
  intros (Hb & Hl & Hs). unfold free_entry, free_mmap_entry, entry_start, entry_end.
  cbn [base_addr length_ mem_type entry_at] in *. unfold PAGE_SIZE in *.
  destruct (load32 m (a + 16) =? MB2_MEMORY_AVAILABLE); [| done].
  unfold u64. rewrite !(Z.mod_small _ (2 ^ 64)) by lia.
  rewrite !u32_id; [done | unfold is_u32; zlia..].
Qed.

Lemma free_entries_abs (m : memory) (esz pend a : Z) (es : list mmap_entry) (p : pmm) (fuel : nat) :
  entries_at m esz pend a es → Forall entry_ok es → 0 <= a → Z.max 0 (pend - a) < Z.of_nat fuel →
  free_entries fuel m esz pend a p = Done (foldl free_mmap_entry p es).
Proof.
  intros H. revert p fuel. induction H as [a Ha | a es Ha Hw Hz H IH];
    intros p fuel Hok Hpos Hfuel; (destruct fuel as [|fuel]; [lia |]); cbn [free_entries].
  - by destruct (Z.ltb_spec a pend); [lia |].
  - destruct (Z.ltb_spec a pend); [| lia]. inversion_clear Hok as [|?? Hoke Hoks].
    rewrite u32_id by (unfold is_u32; lia). rewrite free_entry_abs by done.
    simpl. apply IH; [done | lia | lia].
Qed.

Lemma walk_tags_abs (m : memory) (lim a : Z) (es : list mmap_entry) (p : pmm) (fuel : nat) :
  tags_at m lim a es → Forall entry_ok es → lim - a < Z.of_nat fuel → a <= lim →
  walk_tags fuel m a p = Done (foldl free_mmap_entry p es).
Proof.
  intros H. revert p fuel.
  induction H as [a Ha | a es H0 H6 Hn H IH | a es es' H6 Hn Hpos Hsz Hw He H IH];
    intros p fuel Hok Hfuel Hlim; (destruct fuel as [|fuel]; [lia |]); cbn [walk_tags].
  - by rewrite Ha.
  - destruct (Z.eqb_spec (load32 m a) 0); [done |]. destruct (Z.eqb_spec (load32 m a) 6); [done |].
    simpl. apply IH; [done | lia | lia].
  - rewrite H6. cbn [Z.eqb Pos.eqb]. apply Forall_app in Hok as [Hok Hok'].
    pose proof (load32_range m (a + 4)) as Hr. unfold is_u32 in Hr.
    rewrite !u32_id by (unfold is_u32; lia).
    rewrite (free_entries_abs _ _ _ _ es) by (done || lia).
    cbn [obind]. rewrite foldl_app. apply IH; [done | lia | lia].
Qed.

(** ** Effect of the walk on the set of used frames *)

(** [cinv] is [inv] before frame 0 has been reserved. *)
Definition cinv (slack : Z) (p : pmm) : Prop := wf p ∧ free_frames p = free_count p + slack.

Definition free_one (f : Z) (p : pmm) : pmm :=
  with_total (with_free (frame_clear f p) (u32 (free_frames (frame_clear f p) + 1)))
    (u32 (total_frames (with_free (frame_clear f p) (u32 (free_frames (frame_clear f p) + 1))) + 1)).

Lemma wf_free_one (f : Z) (p : pmm) : wf p → wf (free_one f p).
Proof.
  intros H. destruct (wf_with_free _ (free_frames (frame_clear f p) + 1) (wf_frame_clear p f H)).
  by split.
Qed.

Lemma used_free_one (f g : Z) (p : pmm) :
  wf p → is_frame f → 0 <= g → used (free_one f p) g = negb (g =? f) && used p g.
Proof. apply used_frame_clear. Qed.

Lemma cinv_free_one (slack f : Z) (p : pmm) :
  0 <= slack <= 1 → cinv slack p → is_frame f → used p f = true → cinv slack (free_one f p).
Proof.
  intros Hs [Hwf Hc] Hf Hu. split; [by apply wf_free_one |].
  change (u32 (free_frames p + 1) = free_count (frame_clear f p) + slack).
  pose proof (free_count_clear p f Hwf Hf Hu) as Hfc.
  pose proof (free_count_bounds (frame_clear f p)) as Hb. unfold MAX_FRAMES in Hb.
  rewrite u32_id by (unfold is_u32; lia). lia.
Qed.

Lemma free_region_spec (slack fs fe : Z) (p : pmm) :
  0 <= slack <= 1 → wf p → 0 <= fs →
  let p' := free_region fs fe p in
  wf p' ∧
  (∀ g, is_frame g → used p' g = used p g && negb ((fs <=? g) && (g <? fe))) ∧
  (cinv slack p → (∀ g, is_frame g → fs <= g < fe → used p g = true) → cinv slack p').
Proof.
  intros Hs Hwf Hfs. cbv zeta.
  pose proof (for_loop_ind
    (λ j p', wf p' ∧
      (∀ g, 0 <= g → used p' g = used p g && negb ((fs <=? g) && (g <? j))) ∧
      (cinv slack p → (∀ g, is_frame g → fs <= g < fe → used p g = true) → cinv slack p'))
    (Z.to_nat (Z.min fe MAX_FRAMES - fs)) fs free_one p) as H.
  destruct H as (Hw & Hu & Hc).
  - split_and!; [done | | done]. intros g Hg. zcases; simpl; try lia; by rewrite andb_true_r.
  - intros j p' Hj (Hw & Hu & Hc). assert (is_frame j) as Hfj by (unfold is_frame; lia).
    split_and!.
    + by apply wf_free_one.
    + intros g Hg. rewrite used_free_one, Hu by done.
      zcases; simpl; rewrite ?andb_true_r, ?andb_false_r; done || lia.
    + intros Hcp Hall. apply cinv_free_one; [done | by apply Hc | done |].
      rewrite Hu, Hall by (done || lia). zcases; done || lia.
  - split_and!; [done | | done]. intros g Hg. unfold free_region. rewrite Hu by apply Hg.
    f_equal. f_equal. unfold is_frame in Hg. zcases; simpl; done || lia.
Qed.

Lemma entry_start_nonneg (e : mmap_entry) : entry_ok e → 0 <= entry_start e.
Proof. intros (Hb & _). unfold entry_start, PAGE_SIZE in *. zlia. Qed.

Lemma free_mmap_entry_spec (slack : Z) (e : mmap_entry) (p : pmm) :
  0 <= slack <= 1 → wf p → entry_ok e →
  let p' := free_mmap_entry p e in
  wf p' ∧
  (∀ g, is_frame g → used p' g = used p g && negb (in_entry e g)) ∧
  (cinv slack p → (∀ g, is_frame g → in_entry e g = true → used p g = true) → cinv slack p').
Proof.
  intros Hs Hwf He. cbv zeta. unfold free_mmap_entry, in_entry.
  destruct (mem_type e =? MB2_MEMORY_AVAILABLE); simpl.
  - destruct (free_region_spec slack (entry_start e) (entry_end e) p) as (Hw & Hu & Hc);
      [done | done | by apply entry_start_nonneg |].
    split_and!; [done | done |]. intros Hcp Hall. apply Hc; [done |].
    intros g Hg Hin. apply Hall; [done |]. zcases; done || lia.
  - split_and!; [done | | done]. intros g Hg. by rewrite andb_true_r.
Qed.

(** No frame is available through two entries of the map. *)
Fixpoint disjoint_regions (es : list mmap_entry) : Prop :=
  match es with
  | [] => True
  | e :: es' =>
      (∀ f, is_frame f → in_entry e f = true → avail es' f = false) ∧ disjoint_regions es'
  end.

Lemma free_entries_spec (slack : Z) (es : list mmap_entry) (p : pmm) :
  0 <= slack <= 1 → wf p → Forall entry_ok es →
  let p' := foldl free_mmap_entry p es in
  wf p' ∧
  (∀ g, is_frame g → used p' g = used p g && negb (avail es g)) ∧
  (cinv slack p → disjoint_regions es →
   (∀ g, is_frame g → avail es g = true → used p g = true) → cinv slack p').
Proof.
  intros Hs. revert p. induction es as [|e es IH]; intros p Hwf Hok; cbv zeta; simpl.
  - split_and!; [done | | done]. intros g Hg. by rewrite andb_true_r.
  - inversion_clear Hok as [|?? Hoke Hoks].
    destruct (free_mmap_entry_spec slack e p) as (Hw & Hu & Hc); [done.. |].
    destruct (IH (free_mmap_entry p e)) as (Hw' & Hu' & Hc'); [done.. |].
    split_and!; [done | |].
    + intros g Hg. rewrite Hu', Hu by done. by rewrite negb_orb, andb_assoc.
    + intros Hcp [Hd Hds] Hall. apply Hc'; [| done |].
      * apply Hc; [done |]. intros g Hg Hin. apply Hall; [done |]. by rewrite Hin.
      * intros g Hg Hin. rewrite Hu, Hall by (done || by rewrite Hin, orb_true_r).
        destruct (in_entry e g) eqn:E; [| done]. rewrite (Hd g Hg E) in Hin. done.
Qed.

(** ** Reserving frames *)

Lemma claim_frame_spec (slack f : Z) (p : pmm) :
  cinv slack p → is_frame f → 0 <= slack →
  cinv slack (claim_frame f p) ∧
  ∀ g, is_frame g → used (claim_frame f p) g = (g =? f) || used p g.
Proof.
  intros [Hwf Hc] Hf Hs. unfold claim_frame. rewrite frame_test_free.
  destruct (used p f) eqn:E; simpl negb; cbv iota.
  - split; [done |]. intros g Hg. destruct (Z.eqb_spec g f) as [->|]; [by rewrite E | done].
  - split.
    + split; [auto with stakos |].
      change (u32 (free_frames p - 1) = free_count (frame_set f p) + slack).
      pose proof (free_count_set p f Hwf Hf E) as Hfc.
      pose proof (free_count_bounds (frame_set f p)) as Hb.
      pose proof (wf_free _ Hwf) as Hr. unfold is_u32 in Hr.
      rewrite u32_id by (unfold is_u32; lia). lia.
    + intros g Hg. by apply used_frame_set; [| | apply Hg].
Qed.

Lemma claim_frames_spec (slack n : Z) (p : pmm) :
  cinv slack p → 0 <= n <= MAX_FRAMES → 0 <= slack →
  let p' := for_loop (Z.to_nat n) 0 claim_frame p in
  cinv slack p' ∧ ∀ g, is_frame g → used p' g = (g <? n) || used p g.
Proof.
  intros Hc Hn Hs. cbv zeta.
  pose proof (for_loop_ind
    (λ j p', cinv slack p' ∧ ∀ g, is_frame g → used p' g = (g <? j) || used p g)
    (Z.to_nat n) 0 claim_frame p) as H.
  replace (0 + Z.of_nat (Z.to_nat n)) with n in H by lia. apply H.
  - split; [done |]. intros g Hg. unfold is_frame in Hg. zcases; [lia | done].
  - intros j p' Hj [Hc' Hu]. destruct (claim_frame_spec slack j p') as [Hcj Huj];
      [done | unfold is_frame; lia | done |].
    split; [done |]. intros g Hg. rewrite Huj, Hu by done. zcases; simpl; done || lia.
Qed.

(** Reserving frame 0 does not touch the counter. *)
Lemma reserve_zero (p : pmm) :
  cinv 0 p →
  cinv (Z.b2z (negb (used p 0))) (frame_set 0 p) ∧
  ∀ g, is_frame g → used (frame_set 0 p) g = (g =? 0) || used p g.
Proof.
  intros [Hwf Hc]. split.
  - split; [by apply wf_frame_set |]. change (free_frames (frame_set 0 p)) with (free_frames p).
    destruct (used p 0) eqn:E; simpl.
    + assert (free_count (frame_set 0 p) = free_count p) as ->; [| lia].
      apply count_ext. intros x Hx. rewrite used_frame_set by (done || lia).
      destruct (Z.eqb_spec x 0) as [->|]; [by rewrite E | done].
    + rewrite free_count_set by done. lia.
  - intros g Hg. by apply used_frame_set; [| | apply Hg].
Qed.

(** The bitmap after step 1 of [pmm_init]. *)
Lemma all_used_spec (p : pmm) :
  List.length (pmm_bitmap p) = 1024%nat → free_frames p = 0 →
  let p' := with_bitmap p (for_loop 1024 0 (λ i b, aset b i 0xFFFFFFFF) (pmm_bitmap p)) in
  cinv 0 p' ∧ ∀ g, is_frame g → used p' g = true.
Proof.
  intros Hl Hfree. cbv zeta.
  pose proof (for_loop_ind
    (λ j b, List.length b = 1024%nat ∧ (∀ i, 0 <= i < j → aget b i = 0xFFFFFFFF))
    1024 0 (λ i b, aset b i 0xFFFFFFFF) (pmm_bitmap p)) as H.
  destruct H as [Hlen Hget].
  - split; [done | lia].
  - intros j b Hj [Hlen Hget]. split; [by rewrite length_aset |]. intros i Hi.
    destruct (decide (i = j)) as [->|].
    + apply aget_aset_eq. lia.
    + rewrite aget_aset_ne by lia. apply Hget. lia.
  - set (b := for_loop 1024 0 _ (pmm_bitmap p)) in *.
    assert (∀ g, is_frame g → used (with_bitmap p b) g = true) as Hused.
    { intros g Hg. unfold is_frame, MAX_FRAMES in Hg.
      apply (full_word_used _ (g / 32)); [| zlia]. apply Hget. zlia. }
    split; [| done]. split; [split |].
    + done.
    + apply Forall_lookup_2. intros i w Hw.
      specialize (Hget (Z.of_nat i)). unfold aget in Hget. rewrite Nat2Z.id in Hget.
      change (b !! i = Some w) in Hw. rewrite Hw in Hget. simpl in Hget.
      apply lookup_lt_Some in Hw. rewrite Hget by lia. unfold is_u32. lia.
    + change (is_u32 (free_frames p)). rewrite Hfree. unfold is_u32. lia.
    + change (free_frames p = free_count (with_bitmap p b) + 0).
      rewrite (proj2 (free_count_zero _)) by done. lia.
Qed.

(** The frames in use once [pmm_init] has returned. *)
Definition init_used (es : list mmap_entry) (kernel_end mboot_ptr f : Z) : bool :=
  negb (avail es f) || (f =? 0) || (f <=? u32 (kernel_end + PAGE_SIZE - 1) / PAGE_SIZE) ||
  (f =? mboot_ptr / PAGE_SIZE).

(** A Multiboot2 information block at [mboot_ptr] that lists the entries [es]. *)
Record mb2_info (m : memory) (mboot_ptr : Z) (es : list mmap_entry) : Prop := {
  mb_ptr : 0 <= mboot_ptr < 2 ^ 32 - 8;
  mb_size : 8 <= load32 m mboot_ptr;
  mb_tags : tags_at m (mboot_ptr + load32 m mboot_ptr) (mboot_ptr + 8) es;
  mb_entries : Forall entry_ok es;
  mb_disjoint : disjoint_regions es
}.

Lemma pmm_init_spec (m : memory) (kernel_end mboot_ptr : Z) (es : list mmap_entry) (p : pmm) :
  mb2_info m mboot_ptr es →
  List.length (pmm_bitmap p) = 1024%nat → free_frames p = 0 →
  ∃ p', pmm_init m kernel_end mboot_ptr p = Done p' ∧
        inv (Z.b2z (avail es 0)) p' ∧
        ∀ f, is_frame f → used p' f = init_used es kernel_end mboot_ptr f.
Proof.
  intros [Hptr Hsz Htags Hok Hdis] Hl Hfree.
  destruct (all_used_spec p Hl Hfree) as [Hc1 Hu1].
  unfold pmm_init. set (p1 := with_bitmap p _) in *.
  rewrite u32_id by (unfold is_u32; lia).
  rewrite (walk_tags_abs m (mboot_ptr + load32 m mboot_ptr) _ es) by (done || lia).
  cbn [obind].
  destruct (free_entries_spec 0 es p1) as (_ & Hu2 & Hc2); [lia | apply Hc1 | done |].
  set (p2 := foldl free_mmap_entry p1 es) in *.
  assert (cinv 0 p2) as Hc2' by (apply Hc2; [done | done | auto]). clear Hc2.
  destruct (reserve_zero p2 Hc2') as [Hc3 Hu3]. set (p3 := frame_set 0 p2) in *.
  assert (is_frame 0) as H0 by (unfold is_frame, MAX_FRAMES; lia).
  rewrite Hu2, Hu1, negb_andb, negb_involutive in Hc3 by done. simpl in Hc3.
  assert (0 <= Z.b2z (avail es 0)) by (destruct (avail es 0); simpl; lia).
  set (k := u32 (kernel_end + PAGE_SIZE - 1) / PAGE_SIZE).
  assert (0 <= k) by (subst k; pose proof (u32_range (kernel_end + PAGE_SIZE - 1));
                      unfold is_u32, PAGE_SIZE in *; zlia).
  destruct (claim_frames_spec (Z.b2z (avail es 0)) (Z.min (k + 1) MAX_FRAMES) p3)
    as [Hc4 Hu4]; [done | unfold MAX_FRAMES; lia | done |].
  set (p4 := for_loop _ 0 claim_frame p3) in *.
  assert (0 <= mboot_ptr / PAGE_SIZE) by (unfold PAGE_SIZE; zlia).
  set (p5 := if mboot_ptr / PAGE_SIZE <? MAX_FRAMES then _ else _).
  assert (cinv (Z.b2z (avail es 0)) p5 ∧
          ∀ g, is_frame g → used p5 g = (g =? mboot_ptr / PAGE_SIZE) || used p4 g) as [Hc5 Hu5].
  { subst p5. destruct (Z.ltb_spec (mboot_ptr / PAGE_SIZE) MAX_FRAMES).
    - apply claim_frame_spec; done.
    - split; [done |]. intros g Hg. unfold is_frame in Hg. zcases; [lia | done]. }
  assert (∀ f, is_frame f → used p5 f = init_used es kernel_end mboot_ptr f) as Hu.
  { intros f Hf. rewrite Hu5, Hu4, Hu3, Hu2, Hu1 by done. unfold init_used. fold k.
    unfold is_frame in Hf. zcases; simpl; rewrite ?orb_true_r, ?orb_false_r; done || lia. }
  exists p5. split; [done |]. split; [| done]. split; [apply Hc5 | apply Hc5 |].
  rewrite Hu by done. unfold init_used. rewrite Z.eqb_refl, orb_true_r. done.
Qed.

(** ** The frame-allocator interface, implemented *)

Lemma page_addr_frame (a : Z) : page_addr a → 0 < a / PAGE_SIZE < MAX_FRAMES ∧ a / PAGE_SIZE * PAGE_SIZE = a.
Proof. unfold page_addr, PAGE_SIZE, MAX_FRAMES. zlia. Qed.

Lemma frame_page_addr (f : Z) : 0 < f < MAX_FRAMES → page_addr (f * PAGE_SIZE).
Proof. unfold page_addr, PAGE_SIZE, MAX_FRAMES. zlia. Qed.

Lemma div_page_mul (f : Z) : f * PAGE_SIZE / PAGE_SIZE = f.
Proof. unfold PAGE_SIZE. zlia. Qed.

Lemma alloc_free_id (slack : Z) (p p' : pmm) (a : Z) :
  0 <= slack <= 1 → inv slack p → pmm_alloc_frame p = (a, p') → a ≠ 0 → pmm_free_frame a p' = p.
Proof.
  intros Hs Hi Ha Hne. destruct (alloc_cases slack p) as [(f & Hf & Hff & Heq)|[_ Heq]];
    [lia | done | | congruence].
  rewrite Heq in Ha. inversion Ha; subst a p'. clear Ha.
  assert (is_frame f) as Hfr by (unfold is_frame; lia). destruct Hff as (_ & Hu & _).
  rewrite (pmm_free_frame_used _ _ slack); rewrite ?div_page_mul.
  - unfold with_free at 1. cbn [total_frames free_frames with_free].
    change (frame_clear f (with_free (frame_set f p) (free_frames p - 1)))
      with (with_free (frame_clear f (frame_set f p)) (free_frames p - 1)).
    rewrite frame_set_clear by (done || apply Hi).
    destruct p. cbn. f_equal. lia.
  - done.
  - apply inv_alloc; [lia | done..].
  - lia.
  - change (used (frame_set f p) f = true).
    rewrite used_frame_set by (apply Hi || done || lia). by rewrite Z.eqb_refl.
Qed.

#[export] Program Instance pmm_frames : FrameAlloc pmm := {
  alloc_frame := pmm_alloc_frame;
  free_frame := pmm_free_frame;
  in_use p a := used p (a / PAGE_SIZE);
  frames_free := free_count;
  frames_ok p := ∃ slack, 0 <= slack <= 1 ∧ inv slack p
}.
Next Obligation.
  intros p (slack & Hs & Hi).
  destruct (alloc_cases slack p) as [(f & Hf & (_ & Hu & _) & Heq)|[Hall Heq]]; [lia | done | |].
  - left. assert (is_frame f) as Hfr by (unfold is_frame; lia).
    eexists _, _. split; [exact Heq |]. split_and!.
    + by apply frame_page_addr.
    + by rewrite div_page_mul.
    + exists slack. split; [done |]. apply inv_alloc; [lia | done..].
    + change (free_count (frame_set f p) = free_count p - 1). apply free_count_set; [apply Hi | done..].
    + intros b Hb. destruct (page_addr_frame b Hb) as [Hb1 Hb2].
      change (used (frame_set f p) (b / PAGE_SIZE) = (b =? f * PAGE_SIZE) || used p (b / PAGE_SIZE)).
      rewrite used_frame_set by (apply Hi || done || lia). f_equal.
      unfold PAGE_SIZE in *. zcases; done || zlia.
  - right. split; [done |]. by apply free_count_zero.
Qed.
Next Obligation.
  intros p a (slack & Hs & Hi) Ha Hu. simpl in Hu.
  destruct (page_addr_frame a Ha) as [Ha1 Ha2].
  assert (is_frame (a / PAGE_SIZE)) as Hfr by (unfold is_frame; lia).
  rewrite (pmm_free_frame_used p a slack) by done. split_and!.
  - exists slack. split; [done |]. by apply inv_free.
  - change (free_count (frame_clear (a / PAGE_SIZE) p) = free_count p + 1).
    apply free_count_clear; [apply Hi | done..].
  - intros b Hb. destruct (page_addr_frame b Hb) as [Hb1 Hb2].
    change (used (frame_clear (a / PAGE_SIZE) p) (b / PAGE_SIZE) =
            negb (b =? a) && used p (b / PAGE_SIZE)).
    rewrite used_frame_clear by (apply Hi || done || lia). f_equal. f_equal.
    unfold PAGE_SIZE in *. zcases; done || zlia.
Qed.
Next Obligation. intros p a _ _ Hu. apply pmm_free_frame_noop. by right. Qed.
Next Obligation. intros p p' a (slack & Hs & Hi). by apply (alloc_free_id slack). Qed.

(** ** Properties *)

(** C31. Allocation is first fit: on a state whose counter is consistent with the
    bitmap, [pmm_alloc_frame] returns the address of the lowest free frame,
    marks exactly that frame used and keeps the state consistent; it fails (with
    0 and an unchanged state) only when every frame is used.  The skip of full
    bitmap words never misses a free frame. *)
Theorem pmm_alloc_first_fit (slack : Z) (p : pmm) :
  0 <= slack <= 1 → inv slack p →
  (∃ f p', pmm_alloc_frame p = (f * PAGE_SIZE, p') ∧ 0 < f < MAX_FRAMES ∧
           first_free 0 MAX_FRAMES p (Some f) ∧ inv slack p' ∧
           ∀ g, is_frame g → used p' g = (g =? f) || used p g) ∨
  (pmm_alloc_frame p = (0, p) ∧ ∀ f, is_frame f → used p f = true).
Proof.
  intros Hs Hi. destruct (alloc_cases slack p) as [(f & Hf & Hff & Heq)|[Hall Heq]];
    [lia | done | | by right].
  left. exists f, (with_free (frame_set f p) (free_frames p - 1)).
  assert (is_frame f) as Hfr by (unfold is_frame; lia). pose proof Hff as (_ & Hu & _).
  split_and!; try done || lia; try apply Hff.
  - apply inv_alloc; [lia | done..].
  - intros g Hg. by apply used_frame_set; [apply Hi | | apply Hg].
Qed.

(** Freeing: an address beyond the bitmap and a frame that is already free
    (a double free) leave the state untouched; otherwise exactly the frame of
    the address becomes free and the state stays consistent. *)
Theorem pmm_free_frame_cases (slack : Z) (p : pmm) (a : Z) :
  0 <= slack <= 1 → inv slack p → 0 < a / PAGE_SIZE →
  (MAX_FRAMES <= a / PAGE_SIZE ∨ used p (a / PAGE_SIZE) = false → pmm_free_frame a p = p) ∧
  (a / PAGE_SIZE < MAX_FRAMES → used p (a / PAGE_SIZE) = true →
   inv slack (pmm_free_frame a p) ∧
   free_count (pmm_free_frame a p) = free_count p + 1 ∧
   ∀ g, is_frame g → used (pmm_free_frame a p) g = negb (g =? a / PAGE_SIZE) && used p g).
Proof.
  intros Hs Hi Ha. split; [apply pmm_free_frame_noop |]. intros Hlt Hu.
  assert (is_frame (a / PAGE_SIZE)) as Hfr by (unfold is_frame; lia).
  rewrite (pmm_free_frame_used p a slack) by done. split_and!.
  - by apply inv_free.
  - apply free_count_clear; [apply Hi | done..].
  - intros g Hg. by apply used_frame_clear; [apply Hi | | apply Hg].
Qed.

(** Freeing the frame that was just allocated restores the allocator's
    state exactly, bitmap words and counters included. *)
Theorem pmm_alloc_free_roundtrip (slack : Z) (p p' : pmm) (a : Z) :
  0 <= slack <= 1 → inv slack p → pmm_alloc_frame p = (a, p') → a ≠ 0 →
  pmm_free_frame a p' = p.
Proof. apply alloc_free_id. Qed.

(** C32. Initialisation terminates on a well-formed Multiboot2 block and builds
    exactly the intended bitmap: a frame is free iff it lies inside an available
    region, is not frame 0, is above the frame after the kernel image and is not
    the frame [mboot_ptr] points into. *)
Theorem pmm_init_bitmap (m : memory) (kernel_end mboot_ptr : Z) (es : list mmap_entry) (p : pmm) :
  mb2_info m mboot_ptr es → List.length (pmm_bitmap p) = 1024%nat → free_frames p = 0 →
  ∃ p', pmm_init m kernel_end mboot_ptr p = Done p' ∧ wf p' ∧
        ∀ f, is_frame f →
          (used p' f = false ↔
           avail es f = true ∧ u32 (kernel_end + PAGE_SIZE - 1) / PAGE_SIZE < f ∧
           f ≠ mboot_ptr / PAGE_SIZE).
Proof.
  intros Hmb Hl Hf. destruct (pmm_init_spec m kernel_end mboot_ptr es p) as (p' & Heq & Hi & Hu);
    [done.. |]. exists p'. split_and!; [done | apply Hi |].
  intros f Hfr. rewrite Hu by done. unfold init_used, is_frame in *.
  assert (0 <= u32 (kernel_end + PAGE_SIZE - 1) / PAGE_SIZE)
    by (pose proof (u32_range (kernel_end + PAGE_SIZE - 1)); unfold is_u32, PAGE_SIZE in *; zlia).
  destruct (avail es f); zcases; simpl; naive_solver lia.
Qed.

(** The counter [pmm_init] leaves behind is one too large whenever frame 0 is
    listed as available memory: step 3 marks frame 0 used without decrementing
    [free_frames], and step 4 then skips it because it is already marked. *)
Theorem pmm_init_counter_gap (m : memory) (kernel_end mboot_ptr : Z) (es : list mmap_entry) (p : pmm) :
  mb2_info m mboot_ptr es → List.length (pmm_bitmap p) = 1024%nat → free_frames p = 0 →
  ∃ p', pmm_init m kernel_end mboot_ptr p = Done p' ∧
        free_frames p' = free_count p' + Z.b2z (avail es 0).
Proof.
  intros Hmb Hl Hf. destruct (pmm_init_spec m kernel_end mboot_ptr es p) as (p' & Heq & Hi & Hu);
    [done.. |]. exists p'. split; [done | apply Hi].
Qed.

(** ** Witnesses *)

(** A bitmap in which only frames 32 and 33 are free. *)
Definition full_pmm : pmm := Pmm (replicate 1024 0xFFFFFFFF) 0 0.
Definition demo_pmm : pmm := free_one 33 (free_one 32 full_pmm).

Lemma full_pmm_spec : cinv 0 full_pmm ∧ ∀ g, is_frame g → used full_pmm g = true.
Proof.
  assert (∀ g, is_frame g → used full_pmm g = true) as Hu.
  { intros g Hg. unfold is_frame, MAX_FRAMES in Hg. apply (full_word_used _ (g / 32)); [| zlia].
    unfold aget, full_pmm. cbn [pmm_bitmap]. rewrite lookup_replicate_2; [done | zlia]. }
  split; [| done]. split; [split |].
  - apply length_replicate.
  - apply Forall_replicate. unfold is_u32. lia.
  - done.
  - by rewrite (proj2 (free_count_zero _)).
Qed.

Lemma demo_pmm_inv : inv 0 demo_pmm.
Proof.
  destruct full_pmm_spec as [Hc Hu]. unfold demo_pmm.
  assert (cinv 0 (free_one 32 full_pmm)) as Hc1.
  { apply cinv_free_one; [lia | done | | apply Hu]; unfold is_frame, MAX_FRAMES; lia. }
  assert (used (free_one 32 full_pmm) 33 = true) by (vm_compute; reflexivity).
  destruct (cinv_free_one 0 33 (free_one 32 full_pmm)) as [Hw Hn];
    [lia | done | unfold is_frame, MAX_FRAMES; lia | done |].
  split; [done | done |]. vm_compute. reflexivity.
Qed.

Lemma pmm_alloc_first_fit_witness :
  inv 0 demo_pmm ∧
  ((∃ f p', pmm_alloc_frame demo_pmm = (f * PAGE_SIZE, p') ∧ 0 < f < MAX_FRAMES ∧
            first_free 0 MAX_FRAMES demo_pmm (Some f) ∧ inv 0 p' ∧
            ∀ g, is_frame g → used p' g = (g =? f) || used demo_pmm g) ∨
   (pmm_alloc_frame demo_pmm = (0, demo_pmm) ∧ ∀ f, is_frame f → used demo_pmm f = true)) ∧
  fst (pmm_alloc_frame demo_pmm) = 32 * PAGE_SIZE.
Proof.
  split; [apply demo_pmm_inv |]. split.
  - apply (pmm_alloc_first_fit 0); [lia | apply demo_pmm_inv].
  - vm_compute. reflexivity.
Defined.

Lemma pmm_free_frame_cases_witness :
  pmm_free_frame (32 * PAGE_SIZE) demo_pmm = demo_pmm ∧
  free_count (pmm_free_frame (40 * PAGE_SIZE) demo_pmm) = free_count demo_pmm + 1.
Proof.
  split.
  - apply (pmm_free_frame_cases 0); [lia | apply demo_pmm_inv | by vm_compute |].
    right. vm_compute. reflexivity.
  - apply (pmm_free_frame_cases 0); [lia | apply demo_pmm_inv | by vm_compute | by vm_compute |].
    vm_compute. reflexivity.
Defined.

Lemma pmm_alloc_free_roundtrip_witness :
  pmm_free_frame (32 * PAGE_SIZE) (snd (pmm_alloc_frame demo_pmm)) = demo_pmm.
Proof.
  apply (pmm_alloc_free_roundtrip 0); [lia | apply demo_pmm_inv | | by vm_compute].
  vm_compute. reflexivity.
Defined.

(** A Multiboot2 block at 0x9000 with one memory-map tag listing one available
    region, [0, 0x9F000). *)
Definition demo_mmap : memory :=
  foldl (λ m '(a, v), store32 m a v) ∅
    [(0x9000, 64); (0x9004, 0);
     (0x9008, 6); (0x900C, 40); (0x9010, 24); (0x9014, 0);
     (0x9018, 0); (0x901C, 0); (0x9020, 0x9F000); (0x9024, 0); (0x9028, 1); (0x902C, 0);
     (0x9030, 0); (0x9034, 8)].

Lemma demo_mmap_info : mb2_info demo_mmap 0x9000 [MmapEntry 0 0x9F000 1].
Proof.
  split.
  - lia.
  - by vm_compute.
  - change [MmapEntry 0 0x9F000 1] with ([MmapEntry 0 0x9F000 1] ++ []).
    apply tags_mmap; try (vm_compute; split; congruence); try (vm_compute; congruence || reflexivity).
    + change (MmapEntry 0 0x9F000 1) with (entry_at demo_mmap (0x9008 + 16)).
      apply entries_cons; [by vm_compute.. |]. apply entries_nil. by vm_compute.
    + apply tags_end. vm_compute. reflexivity.
  - repeat constructor; by vm_compute.
  - by split.
Qed.

Lemma pmm_init_bitmap_witness :
  ∃ p', pmm_init demo_mmap 0x20000 0x9000 full_pmm = Done p' ∧ wf p' ∧
        ∀ f, is_frame f →
          (used p' f = false ↔
           avail [MmapEntry 0 0x9F000 1] f = true ∧
           u32 (0x20000 + PAGE_SIZE - 1) / PAGE_SIZE < f ∧ f ≠ 0x9000 / PAGE_SIZE).
Proof.
  apply pmm_init_bitmap; [apply demo_mmap_info | apply length_replicate | reflexivity].
Defined.

Lemma pmm_init_counter_gap_witness :
  avail [MmapEntry 0 0x9F000 1] 0 = true ∧
  ∃ p', pmm_init demo_mmap 0x20000 0x9000 full_pmm = Done p' ∧
        free_frames p' = free_count p' + 1.
Proof.
  split; [vm_compute; reflexivity |].
  apply (pmm_init_counter_gap demo_mmap 0x20000 0x9000 [MmapEntry 0 0x9F000 1]);
    [apply demo_mmap_info | apply length_replicate | reflexivity].
Defined.

End Pmm.
