(* ===== verification/Kmalloc.v ===== *)
(** * The kernel heap ([mm/kmalloc.c], [mm/kmalloc.h])

    Blocks are 16-byte headers in physical memory (magic, size, free flag, next
    pointer) followed by their data.  The operations read and write those
    headers through [load32]/[store32] exactly as the C code does.

    The abstract view is the list of blocks in link order; [kmalloc] and
    [kfree] are proved to refine first-fit allocation with splitting and
    freeing with coalescing on that list. *)

From S2P Require Import Prelude Memory Frames Vga Pmm.

Module Kmalloc.

Definition BLOCK_MAGIC : Z := 0xB10C0DE0.
Definition BLOCK_HEADER_SIZE : Z := 16.
Definition MIN_SPLIT_SIZE : Z := 8.

(** ** The block header in memory *)

Definition blk_magic (m : memory) (blk : Z) : Z := load32 m blk.
Definition blk_size (m : memory) (blk : Z) : Z := load32 m (blk + 4).
Definition blk_free (m : memory) (blk : Z) : Z := load32 m (blk + 8).
Definition blk_next (m : memory) (blk : Z) : Z := load32 m (blk + 12).

Definition set_magic (blk v : Z) (m : memory) : memory := store32 m blk v.
Definition set_size (blk v : Z) (m : memory) : memory := store32 m (blk + 4) v.
Definition set_free (blk v : Z) (m : memory) : memory := store32 m (blk + 8) v.
Definition set_next (blk v : Z) (m : memory) : memory := store32 m (blk + 12) v.

(** Static variables of the allocator. *)
Record heap : Type := Heap { heap_start : Z; heap_total_bytes : Z }.

(** ** [kmalloc_init] *)

Section init.
Context {F : Type} `{!FrameAlloc F}.

Fixpoint init_loop (n : nat) (prev : Z) (fs : F) (m : memory) (h : heap) : F * memory * heap :=
  match n with
  | O => (fs, m, h)
  | S n' =>
      let '(phys, fs) := alloc_frame fs in
      if phys =? 0 then (fs, m, h)
      else
        let blk := phys in
        let m := set_magic blk BLOCK_MAGIC m in
        let m := set_size blk (PAGE_SIZE - BLOCK_HEADER_SIZE) m in
        let m := set_free blk 1 m in
        let m := set_next blk 0 m in
        let h := if heap_start h =? 0 then Heap blk (heap_total_bytes h) else h in
        let m := if prev =? 0 then m else set_next prev blk m in
        init_loop n' blk fs m (Heap (heap_start h) (u32 (heap_total_bytes h + PAGE_SIZE)))
  end.

Definition kmalloc_init (pages : Z) (fs : F) (m : memory) (h : heap) : F * memory * heap :=
  if pages =? 0 then (fs, m, h)
  else init_loop (Z.to_nat pages) 0 fs m (Heap (heap_start h) 0).

End init.

(** ** [split] *)

Definition split (blk size : Z) (m : memory) : memory :=
  if blk_size m blk <=? u32 (size + BLOCK_HEADER_SIZE + MIN_SPLIT_SIZE) then m
  else
    let new_blk := u32 (blk + BLOCK_HEADER_SIZE + size) in
    let m := set_magic new_blk BLOCK_MAGIC m in
    let m := set_size new_blk (u32 (blk_size m blk - size - BLOCK_HEADER_SIZE)) m in
    let m := set_free new_blk 1 m in
    let m := set_next new_blk (blk_next m blk) m in
    let m := set_size blk size m in
    set_next blk new_blk m.

(** ** [coalesce] *)

Fixpoint coalesce_loop (fuel : nat) (cur : Z) (m : memory) : outcome memory :=
  match fuel with
  | O => Diverged
  | S fuel' =>
      if (cur =? 0) || (blk_next m cur =? 0) then Done m
      else
        let end_of_cur := u32 (cur + BLOCK_HEADER_SIZE + blk_size m cur) in
        let next := blk_next m cur in
        if negb (blk_free m cur =? 0) && negb (blk_free m next =? 0) && (next =? end_of_cur) then
          let m := set_size cur (u32 (blk_size m cur + (BLOCK_HEADER_SIZE + blk_size m next))) m in
          let m := set_next cur (blk_next m (blk_next m cur)) m in
          coalesce_loop fuel' cur m
        else coalesce_loop fuel' next m
  end.

(** Every block takes at least its header, so the list has at most
    [heap_total_bytes / 16] blocks; each iteration of the loops below consumes
    one of them. *)
Definition walk_fuel (h : heap) : nat := S (Z.to_nat (heap_total_bytes h / BLOCK_HEADER_SIZE)).

Arguments walk_fuel : simpl never.

Definition coalesce (h : heap) (m : memory) : outcome memory :=
  coalesce_loop (walk_fuel h) (heap_start h) m.

(** ** [kmalloc] *)

Fixpoint find_fit (fuel : nat) (size cur : Z) (m : memory) : outcome Z :=
  match fuel with
  | O => Diverged
  | S fuel' =>
      if cur =? 0 then Done 0
      else if negb (blk_free m cur =? 0) && (size <=? blk_size m cur) then Done cur
      else find_fit fuel' size (blk_next m cur) m
  end.

(** [size = (size + 3) & ~(size_t)3] *)
Definition align4 (size : Z) : Z := Z.land (u32 (size + 3)) (u32 (Z.lnot 3)).

Definition kmalloc (size : Z) (h : heap) (m : memory) : outcome (Z * memory) :=
  if (size =? 0) || (heap_start h =? 0) then Done (0, m)
  else
    let size := align4 size in
    let! cur := find_fit (walk_fuel h) size (heap_start h) m in
    if cur =? 0 then Done (0, m)
    else
      let m := split cur size m in
      let m := set_free cur 0 m in
      Done (u32 (cur + BLOCK_HEADER_SIZE), m).

(** ** [kfree] *)

Definition kfree (ptr : Z) (h : heap) (m : memory) : outcome memory :=
  if ptr =? 0 then Done m
  else
    let blk := u32 (ptr - BLOCK_HEADER_SIZE) in
    if negb (blk_magic m blk =? BLOCK_MAGIC) || negb (blk_free m blk =? 0) then
      Panicked "kfree: invalid pointer or double-free"
    else coalesce h (set_free blk 1 m).

(** ** Statistics *)

Record heap_stats : Type := HeapStats {
  total_blocks : Z; free_blocks : Z; used_blocks : Z; free_bytes : Z; used_bytes : Z
}.

Fixpoint stats_loop (fuel : nat) (cur : Z) (m : memory) (st : heap_stats) : outcome heap_stats :=
  match fuel with
  | O => Diverged
  | S fuel' =>
      if cur =? 0 then Done st
      else
        let st :=
          if negb (blk_free m cur =? 0) then
            HeapStats (u32 (total_blocks st + 1)) (u32 (free_blocks st + 1)) (used_blocks st)
              (u32 (free_bytes st + blk_size m cur)) (used_bytes st)
          else
            HeapStats (u32 (total_blocks st + 1)) (free_blocks st) (u32 (used_blocks st + 1))
              (free_bytes st) (u32 (used_bytes st + blk_size m cur)) in
        stats_loop fuel' (blk_next m cur) m st
  end.

Definition print_stat (n : Z) (unit_ : list Z) (v : Vga.vga) : Vga.vga :=
  Vga.kprint unit_ (Vga.kprint_int (s32 n) v).

Definition kmalloc_print_stats (h : heap) (m : memory) (v : Vga.vga) : outcome Vga.vga :=
  let! st := stats_loop (walk_fuel h) (heap_start h) m (HeapStats 0 0 0 0 0) in
  let v := Vga.vga_set_color Vga.VGA_COLOR_LIGHT_GREEN v in
  let v := Vga.kprint (Vga.chars "[OK] kmalloc heap initialized" ++ [Vga.NEWLINE]) v in
  let v := Vga.vga_set_color Vga.VGA_COLOR_LIGHT_GREY v in
  let v := Vga.kprints "     Heap size   : " v in
  let v := print_stat (heap_total_bytes h) (Vga.chars " bytes (") v in
  let v := print_stat (heap_total_bytes h / 1024) (Vga.chars " KB)" ++ [Vga.NEWLINE]) v in
  let v := Vga.kprints "     Free        : " v in
  let v := print_stat (free_bytes st) (Vga.chars " bytes in ") v in
  let v := print_stat (free_blocks st) (Vga.chars " block(s)" ++ [Vga.NEWLINE]) v in
  let v := Vga.kprints "     Used        : " v in
  let v := print_stat (used_bytes st) (Vga.chars " bytes in ") v in
  let v := print_stat (used_blocks st) (Vga.chars " block(s)" ++ [Vga.NEWLINE]) v in
  let v := Vga.kprints "     Total       : " v in
  Done (print_stat (total_blocks st) (Vga.chars " block(s)" ++ [Vga.NEWLINE]) v).

(** ** The abstract heap: blocks in link order *)

Record block : Type := Block { b_addr : Z; b_size : Z; b_free : bool }.

Definition b_end (b : block) : Z := b_addr b + BLOCK_HEADER_SIZE + b_size b.
Definition b_data (b : block) : Z := b_addr b + BLOCK_HEADER_SIZE.

Definition fits (size : Z) (b : block) : bool := b_free b && (size <=? b_size b).

(** The two blocks a fitting block is turned into, or the whole block when the
    remainder could not hold a header and 8 more bytes. *)
Definition carve (size : Z) (b : block) : list block :=
  if b_size b <=? size + BLOCK_HEADER_SIZE + MIN_SPLIT_SIZE then
    [Block (b_addr b) (b_size b) false]
  else
    [Block (b_addr b) size false;
     Block (b_data b + size) (b_size b - size - BLOCK_HEADER_SIZE) true].

Fixpoint alloc_blocks (size : Z) (bs : list block) : option (Z * list block) :=
  match bs with
  | [] => None
  | b :: bs' =>
      if fits size b then Some (b_data b, carve size b ++ bs')
      else
        match alloc_blocks size bs' with
        | Some (p, bs'') => Some (p, b :: bs'')
        | None => None
        end
  end.

(** [b] and its successors, with runs of contiguous free blocks merged. *)
Fixpoint merge (b : block) (rest : list block) : list block :=
  match rest with
  | [] => [b]
  | c :: rest' =>
      if b_free b && b_free c && (b_addr c =? b_end b) then
        merge (Block (b_addr b) (b_size b + (BLOCK_HEADER_SIZE + b_size c)) true) rest'
      else b :: merge c rest'
  end.

Definition coalesce_blocks (bs : list block) : list block :=
  match bs with [] => [] | b :: rest => merge b rest end.

Definition release (p : Z) (b : block) : block :=
  if b_data b =? p then Block (b_addr b) (b_size b) true else b.

Definition free_block_at (p : Z) (bs : list block) : list block :=
  coalesce_blocks (release p <$> bs).

(** ** Representation of a block list in memory *)

(** The header of [b], linked to [next]. *)
Record hdr (m : memory) (b : block) (next : Z) : Prop := {
  hdr_magic : blk_magic m (b_addr b) = BLOCK_MAGIC;
  hdr_size : blk_size m (b_addr b) = b_size b;
  hdr_free : blk_free m (b_addr b) = Z.b2z (b_free b);
  hdr_next : blk_next m (b_addr b) = next
}.

(** A list segment from [p] up to (not including) [q]. *)
Fixpoint seg (m : memory) (p : Z) (bs : list block) (q : Z) : Prop :=
  match bs with
  | [] => p = q
  | b :: bs' => p = b_addr b ∧ ∃ r, hdr m b r ∧ seg m r bs' q
  end.

Definition block_ok (b : block) : Prop :=
  0 < b_addr b ∧ b_addr b mod 4 = 0 ∧ 0 <= b_size b ∧ b_size b mod 4 = 0 ∧
  b_end b <= MAX_FRAMES * PAGE_SIZE.

Definition apart (b c : block) : Prop := b_end b <= b_addr c ∨ b_end c <= b_addr b.

Fixpoint separated (bs : list block) : Prop :=
  match bs with
  | [] => True
  | b :: bs' => Forall (apart b) bs' ∧ separated bs'
  end.

Fixpoint total_bytes (bs : list block) : Z :=
  match bs with
  | [] => 0
  | b :: bs' => BLOCK_HEADER_SIZE + b_size b + total_bytes bs'
  end.

(** The heap invariant: the list in memory is [bs], its blocks are well formed,
    pairwise disjoint and account for every byte of the heap. *)
Record heap_inv (h : heap) (m : memory) (bs : list block) : Prop := {
  hi_seg : seg m (heap_start h) bs 0;
  hi_ok : Forall block_ok bs;
  hi_sep : separated bs;
  hi_total : total_bytes bs = heap_total_bytes h
}.

Ltac unfold_blocks := unfold b_end, b_data, BLOCK_HEADER_SIZE, MIN_SPLIT_SIZE, MAX_FRAMES, PAGE_SIZE in *.

Lemma seg_app (m : memory) (p q : Z) (bs1 bs2 : list block) :
  seg m p (bs1 ++ bs2) q ↔ ∃ r, seg m p bs1 r ∧ seg m r bs2 q.
Proof.
  revert p. induction bs1 as [|b bs1 IH]; intros p; simpl.
  - split; [eauto | intros (r & -> & H); done].
  - split.
    + intros (-> & r & Hh & H). apply IH in H as (r' & H1 & H2). eauto 10.
    + intros (r' & (-> & r & Hh & H1) & H2). split; [done |]. exists r. split; [done |].
      apply IH. eauto.
Qed.

Lemma hdr_agree (m m' : memory) (lo hi : Z) (b : block) (r : Z) :
  agree_outside lo hi m m' → b_addr b + 16 <= lo ∨ hi <= b_addr b → hdr m b r → hdr m' b r.
Proof.
  intros Hag Hout [H1 H2 H3 H4].
  split; unfold blk_magic, blk_size, blk_free, blk_next in *;
    rewrite (agree_outside_load32 lo hi m m'); done || lia.
Qed.

Lemma seg_agree (m m' : memory) (lo hi : Z) (bs : list block) (p q : Z) :
  agree_outside lo hi m m' →
  Forall (λ b, b_addr b + 16 <= lo ∨ hi <= b_addr b) bs → seg m p bs q → seg m' p bs q.
Proof.
  intros Hag. revert p. induction bs as [|b bs IH]; intros p Hall; simpl; [done |].
  inversion_clear Hall as [|?? Hb Hbs]. intros (-> & r & Hh & H).
  split; [done |]. exists r. eauto using hdr_agree.
Qed.

(** Blocks apart from [b] have their headers outside [b]. *)
Lemma apart_headers (b : block) (bs : list block) :
  Forall block_ok bs → Forall (apart b) bs →
  Forall (λ c, b_addr c + 16 <= b_addr b ∨ b_end b <= b_addr c) bs.
Proof.
  intros Hok Ha. rewrite Forall_forall in *. intros c Hc.
  specialize (Hok c Hc). specialize (Ha c Hc).
  unfold block_ok, apart in *. unfold_blocks. lia.
Qed.

Lemma apart_sym (b c : block) : apart b c → apart c b.
Proof. unfold apart. lia. Qed.

Lemma separated_app (bs1 bs2 : list block) :
  separated (bs1 ++ bs2) ↔
  separated bs1 ∧ separated bs2 ∧ ∀ b c, b ∈ bs1 → c ∈ bs2 → apart b c.
Proof.
  induction bs1 as [|b bs1 IH]; simpl.
  - split; [intros; split_and!; [done.. |]; intros b c Hb; inversion Hb | naive_solver].
  - rewrite Forall_app, IH. split.
    + intros [[H1 H2] (H3 & H4 & H5)]. split_and!; [done.. |].
      intros x y Hx Hy. apply elem_of_cons in Hx as [->|Hx]; [| by apply H5].
      rewrite Forall_forall in H2. by apply H2.
    + intros ([H1 H2] & H3 & H4). split_and!; try done.
      * apply Forall_forall. intros c Hc. apply H4; [left | done].
      * intros x y Hx Hy. apply H4; [by right | done].
Qed.

(** What separation says around one block of the list. *)
Lemma separated_middle (bs1 bs2 : list block) (b : block) :
  separated (bs1 ++ b :: bs2) →
  separated (bs1 ++ bs2) ∧ Forall (apart b) bs1 ∧ Forall (apart b) bs2.
Proof.
  rewrite !separated_app. simpl. intros (H1 & [H2 H3] & H4). split_and!; [done | done | | | done].
  - intros x y Hx Hy. apply H4; [done | by right].
  - apply Forall_forall. intros c Hc. apply apart_sym, H4; [done | left].
Qed.

Lemma total_bytes_app (bs1 bs2 : list block) :
  total_bytes (bs1 ++ bs2) = total_bytes bs1 + total_bytes bs2.
Proof. induction bs1; simpl; lia. Qed.

Lemma length_total (bs : list block) :
  Forall block_ok bs → 16 * Z.of_nat (length bs) <= total_bytes bs.
Proof.
  induction 1 as [|b bs Hb Hbs IH]; simpl; [lia |].
  unfold block_ok in Hb. unfold_blocks. lia.
Qed.

Lemma walk_fuel_enough (h : heap) (m : memory) (bs : list block) :
  heap_inv h m bs → (length bs < walk_fuel h)%nat.
Proof.
  intros [_ Hok _ Ht]. pose proof (length_total bs Hok). unfold walk_fuel, BLOCK_HEADER_SIZE.
  rewrite <- Ht. zlia.
Qed.

(** ** First-fit search *)

Lemma find_fit_cases (size : Z) (bs : list block) (m : memory) (p : Z) (fuel : nat) :
  seg m p bs 0 → Forall block_ok bs → (length bs < fuel)%nat →
  (∃ bs1 b bs2, bs = bs1 ++ b :: bs2 ∧ Forall (λ c, fits size c = false) bs1 ∧
                fits size b = true ∧ find_fit fuel size p m = Done (b_addr b)) ∨
  (Forall (λ c, fits size c = false) bs ∧ find_fit fuel size p m = Done 0).
Proof.
  revert p fuel. induction bs as [|b bs IH]; intros p fuel; (destruct fuel as [|fuel]; [simpl; lia |]).
  - simpl. intros -> _ _. right. by split.
  - simpl. intros (-> & r & Hh & Hseg) Hok Hlen. inversion_clear Hok as [|?? Hb Hbs].
    destruct (Z.eqb_spec (b_addr b) 0); [unfold block_ok in Hb; lia |].
    rewrite (hdr_free _ _ _ Hh), (hdr_size _ _ _ Hh), (hdr_next _ _ _ Hh).
    replace (negb (Z.b2z (b_free b) =? 0)) with (b_free b) by by destruct (b_free b).
    fold (fits size b). destruct (fits size b) eqn:Ef.
    + left. exists [], b, bs. split_and!; done.
    + destruct (IH r fuel) as [(bs1 & c & bs2 & -> & Hall & Hc & Heq)|[Hall Heq]]; [done | done | lia | |].
      * left. exists (b :: bs1), c, bs2. split_and!; [done | by constructor | done | done].
      * right. split; [by constructor | done].
Qed.

Lemma alloc_blocks_middle (size : Z) (bs1 bs2 : list block) (b : block) :
  Forall (λ c, fits size c = false) bs1 → fits size b = true →
  alloc_blocks size (bs1 ++ b :: bs2) = Some (b_data b, bs1 ++ carve size b ++ bs2).
Proof.
  intros H Hb. induction H as [|c bs1 Hc Hbs IH]; simpl; [by rewrite Hb |].
  by rewrite Hc, IH.
Qed.

Lemma alloc_blocks_none (size : Z) (bs : list block) :
  Forall (λ c, fits size c = false) bs → alloc_blocks size bs = None.
Proof. induction 1 as [|c bs Hc Hbs IH]; simpl; [done |]. by rewrite Hc, IH. Qed.

(** ** Splitting *)

(** Reading headers back after header writes. *)
Ltac hdr_simpl :=
  unfold blk_magic, blk_size, blk_free, blk_next, set_magic, set_size, set_free, set_next in *;
  repeat (rewrite load32_store32_eq || rewrite load32_store32_ne by lia).

Lemma fits_spec (size : Z) (b : block) : fits size b = true → b_free b = true ∧ size <= b_size b.
Proof. unfold fits. intros H. apply andb_true_iff in H as [H1 H2]. split; [done | lia]. Qed.

Lemma agree_outside_stores (lo hi a v : Z) (m m' : memory) :
  agree_outside lo hi m m' → lo <= a → a + 4 <= hi → agree_outside lo hi m (store32 m' a v).
Proof.
  intros H ??. eapply agree_outside_trans; [exact H |].
  eapply agree_outside_weaken; [apply agree_store32 | lia | lia].
Qed.

Lemma carve_memory (m : memory) (size : Z) (b : block) (r : Z) :
  hdr m b r → block_ok b → fits size b = true → 0 <= size →
  let m' := set_free (b_addr b) 0 (split (b_addr b) size m) in
  seg m' (b_addr b) (carve size b) r ∧ agree_outside (b_addr b) (b_end b) m m'.
Proof.
  intros [H1 H2 H3 H4] Hok Hfit Hs. apply fits_spec in Hfit as [Hfr Hle].
  pose proof (load32_range m (b_addr b + 12)) as Hr. cbv zeta. unfold split.
  rewrite H2. unfold block_ok in Hok. unfold_blocks.
  rewrite (u32_id (size + 16 + 8)) by (unfold is_u32; lia). unfold carve. unfold_blocks.
  destruct (Z.leb_spec (b_size b) (size + 16 + 8)).
  - hdr_simpl. simpl. split.
    + split; [done |]. exists r. split; [| done]. split; simpl; by hdr_simpl.
    + apply agree_outside_stores; [reflexivity | lia | lia].
  - rewrite (u32_id (b_addr b + 16 + size)) by (unfold is_u32; lia). hdr_simpl. split.
    + simpl. split; [done |]. exists (b_addr b + 16 + size).
      rewrite H2, H4 in *. split; [| split; [done |]; exists r; split; [| done]].
      * split; simpl; hdr_simpl; rewrite ?u32_id by (unfold is_u32; lia); done.
      * split; simpl; hdr_simpl; unfold BLOCK_MAGIC; u32_simpl; done || lia.
    + repeat apply agree_outside_stores; reflexivity || lia.
Qed.

(** Splitting keeps the extent of the block. *)
Lemma carve_props (size : Z) (b : block) :
  block_ok b → fits size b = true → 0 <= size → size mod 4 = 0 →
  Forall block_ok (carve size b) ∧ separated (carve size b) ∧
  total_bytes (carve size b) = BLOCK_HEADER_SIZE + b_size b ∧
  ∀ c, apart b c → Forall (λ d, apart d c) (carve size b).
Proof.
  intros Hok Hfit Hs H4. apply fits_spec in Hfit as [Hfr Hle].
  unfold block_ok, carve, apart in *. unfold_blocks.
  destruct (Z.leb_spec (b_size b) (size + 16 + 8)); simpl; split_and!; try (intros c Hc);
    repeat (apply Forall_cons_2 || apply Forall_nil_2 || split); simpl;
    unfold apart; unfold_blocks; simpl; done || lia || zlia.
Qed.

Lemma align4_spec (size : Z) :
  0 <= size <= 2 ^ 32 - 4 → align4 size mod 4 = 0 ∧ size <= align4 size < size + 4.
Proof.
  intros Hs. unfold align4. rewrite u32_id by (unfold is_u32; lia).
  change (u32 (Z.lnot 3)) with (Z.shiftl (Z.ones (32 - 2)) 2).
  rewrite land_high_mask by lia. zlia.
Qed.

(** Replacing one block of the list by blocks inside its extent. *)
Lemma heap_inv_replace (h : heap) (m m' : memory) (bs1 bs2 mid : list block) (b : block) :
  heap_inv h m (bs1 ++ b :: bs2) →
  (∀ r, hdr m b r → seg m' (b_addr b) mid r) → agree_outside (b_addr b) (b_end b) m m' →
  Forall block_ok mid → separated mid → total_bytes mid = BLOCK_HEADER_SIZE + b_size b →
  (∀ c, apart b c → Forall (λ d, apart d c) mid) →
  heap_inv h m' (bs1 ++ mid ++ bs2).
Proof.
  intros [Hseg Hok Hsep Ht] Hmid Hag Hokm Hsepm Htm Hap.
  apply Forall_app in Hok as [Hok1 Hok2]. inversion_clear Hok2 as [|?? Hb Hok2'].
  destruct (separated_middle _ _ _ Hsep) as (Hsep' & Ha1 & Ha2).
  rewrite total_bytes_app in Ht. simpl in Ht. split.
  - apply seg_app in Hseg as (q & Hs1 & (-> & r & Hh & Hs2)).
    apply seg_app. exists (b_addr b). split.
    + eapply seg_agree; [exact Hag | by apply apart_headers | done].
    + apply seg_app. exists r. split; [by apply Hmid |].
      eapply seg_agree; [exact Hag | by apply apart_headers | done].
  - rewrite !Forall_app. done.
  - rewrite !separated_app in *. destruct Hsep' as (Hs1 & Hs2 & H12).
    rewrite Forall_forall in Ha1, Ha2.
    assert (∀ d c, d ∈ mid → apart b c → apart d c) as Hap'.
    { intros d c Hd Hc. specialize (Hap c Hc). rewrite Forall_forall in Hap. by apply Hap. }
    split_and!; [done | done | done | |].
    + intros d c Hd Hc. by apply Hap', Ha2.
    + intros c d Hc Hd. apply elem_of_app in Hd as [Hd|Hd]; [| by apply H12].
      by apply apart_sym, Hap', Ha1.
  - rewrite !total_bytes_app. lia.
Qed.

Lemma align4_any (size : Z) : align4 size mod 4 = 0 ∧ 0 <= align4 size.
Proof.
  unfold align4. change (u32 (Z.lnot 3)) with (Z.shiftl (Z.ones (32 - 2)) 2).
  pose proof (u32_range (size + 3)) as H. rewrite land_high_mask by (exact H || lia).
  unfold is_u32 in H. zlia.
Qed.

(** [kmalloc] on a heap that represents [bs]. *)
Lemma kmalloc_spec (h : heap) (m : memory) (bs : list block) (size : Z) :
  heap_inv h m bs → 0 < size →
  (∃ bs1 b bs2 m', bs = bs1 ++ b :: bs2 ∧
     Forall (λ c, fits (align4 size) c = false) bs1 ∧ fits (align4 size) b = true ∧
     kmalloc size h m = Done (b_data b, m') ∧
     heap_inv h m' (bs1 ++ carve (align4 size) b ++ bs2) ∧
     agree_outside (b_addr b) (b_end b) m m') ∨
  (Forall (λ c, fits (align4 size) c = false) bs ∧ kmalloc size h m = Done (0, m)).
Proof.
  intros Hi Hsz. destruct (align4_any size) as [Ha1 Ha2].
  unfold kmalloc. destruct (Z.eqb_spec size 0); [lia |]. cbn [orb].
  destruct (Z.eqb_spec (heap_start h) 0) as [H0|H0].
  - right. split; [| done]. destruct Hi as [Hseg Hok _ _]. destruct bs as [|b bs]; [done |].
    destruct Hseg as [Hb _]. inversion_clear Hok as [|?? Hbo ?]. unfold block_ok in Hbo. lia.
  - destruct (find_fit_cases (align4 size) bs m (heap_start h) (walk_fuel h))
      as [(bs1 & b & bs2 & -> & Hall & Hfit & Heq)|[Hall Heq]];
      [apply Hi | apply Hi | by eapply walk_fuel_enough | |]; rewrite Heq; cbn [obind].
    + left. assert (block_ok b) as Hb.
      { pose proof (hi_ok _ _ _ Hi) as Hok. apply Forall_app in Hok as [_ Hok]. by inversion Hok. }
      destruct (Z.eqb_spec (b_addr b) 0); [unfold block_ok in Hb; lia |].
      destruct (carve_props (align4 size) b) as (Hc1 & Hc2 & Hc3 & Hc4); [done | done | lia | done |].
      exists bs1, b, bs2, (set_free (b_addr b) 0 (split (b_addr b) (align4 size) m)).
      pose proof (hi_seg _ _ _ Hi) as Hseg. apply seg_app in Hseg as (q & _ & (_ & r & Hh & _)).
      destruct (carve_memory m (align4 size) b r) as [Hcm Hag]; [done | done | done | lia |].
      split_and!; [done | done | done | | | done].
      * unfold block_ok in Hb. unfold_blocks. rewrite u32_id by (unfold is_u32; lia). done.
      * eapply heap_inv_replace; [done | | done..].
        intros r' Hh'. apply carve_memory; [done | done | done | lia].
    + right. simpl. done.
Qed.

(** ** Coalescing *)

Definition join (b c : block) : block :=
  Block (b_addr b) (b_size b + (BLOCK_HEADER_SIZE + b_size c)) true.

Definition mergeable (b c : block) : bool := b_free b && b_free c && (b_addr c =? b_end b).

Lemma mergeable_spec (b c : block) :
  mergeable b c = true → b_free b = true ∧ b_free c = true ∧ b_addr c = b_end b.
Proof. unfold mergeable. rewrite !andb_true_iff. intros [[H1 H2] H3]. split_and!; [done.. | lia]. Qed.

Lemma merge_cons (b c : block) (rest : list block) :
  merge b (c :: rest) = if mergeable b c then merge (join b c) rest else b :: merge c rest.
Proof. done. Qed.

Lemma join_props (b c : block) :
  block_ok b → block_ok c → mergeable b c = true →
  block_ok (join b c) ∧
  (∀ x, block_ok x → apart x b → apart x c → apart x (join b c)).
Proof.
  intros Hb Hc Hm. apply mergeable_spec in Hm as (_ & _ & Hend).
  unfold block_ok, apart, join in *. unfold_blocks. simpl in *. split.
  - split_and!; lia || zlia.
  - intros x Hx H1 H2. lia.
Qed.

Lemma join_apart (b c : block) (bs : list block) :
  block_ok b → block_ok c → Forall block_ok bs → mergeable b c = true →
  Forall (apart b) bs → Forall (apart c) bs → Forall (apart (join b c)) bs.
Proof.
  intros Hb Hc Hok Hm H1 H2. destruct (join_props b c) as [_ Hj]; [done.. |].
  rewrite Forall_forall in *. intros x Hx.
  apply apart_sym, Hj; [by apply Hok | by apply apart_sym, H1 | by apply apart_sym, H2].
Qed.

Lemma merge_props (rest : list block) (b : block) :
  Forall block_ok (b :: rest) → separated (b :: rest) →
  Forall block_ok (merge b rest) ∧ separated (merge b rest) ∧
  total_bytes (merge b rest) = total_bytes (b :: rest) ∧
  (∀ x, block_ok x → Forall (apart x) (b :: rest) → Forall (apart x) (merge b rest)).
Proof.
  revert b. induction rest as [|c rest IH]; intros b Hok Hsep.
  - simpl. split_and!; done.
  - rewrite merge_cons. inversion_clear Hok as [|?? Hb Hok']. pose proof Hok' as Hok''.
    inversion_clear Hok'' as [|?? Hc Hrest]. destruct Hsep as [Hab Hsep].
    pose proof Hsep as [Hac Hsepr]. inversion_clear Hab as [|?? Hbc Hbr].
    destruct (mergeable b c) eqn:Em.
    + destruct (join_props b c) as [Hj1 Hj2]; [done.. |].
      destruct (IH (join b c)) as (I1 & I2 & I3 & I4);
        [by constructor | split; [by apply join_apart | done] |].
      split_and!; [done | done | rewrite I3; simpl; unfold_blocks; lia |].
      intros x Hx Hall. inversion_clear Hall as [|?? Hxb Hall']. inversion_clear Hall' as [|?? Hxc Hxr].
      apply I4; [done |]. constructor; [by apply Hj2 | done].
    + destruct (IH c) as (I1 & I2 & I3 & I4); [done | done |]. split_and!.
      * by constructor.
      * split; [| done]. apply I4; [done |]. by constructor.
      * simpl. rewrite I3. simpl. lia.
      * intros x Hx Hall. inversion_clear Hall as [|?? Hxb Hall']. constructor; [done | by apply I4].
Qed.

(** Only bytes of the headers of [bs] differ. *)
Definition headers_only (bs : list block) : memory → memory → Prop :=
  agree_on (λ a, Forall (λ b, a < b_addr b ∨ b_addr b + 16 <= a) bs).

Lemma headers_only_hdr (m m' : memory) (bs : list block) (b : block) (r : Z) :
  headers_only bs m m' → Forall block_ok bs → block_ok b → Forall (apart b) bs →
  hdr m b r → hdr m' b r.
Proof.
  intros Hag Hok Hb Ha [H1 H2 H3 H4].
  assert (∀ a, b_addr b <= a < b_addr b + 16 →
               Forall (λ c, a < b_addr c ∨ b_addr c + 16 <= a) bs) as Hout.
  { intros a Hin. rewrite Forall_forall in *. intros c Hc. specialize (Hok c Hc).
    specialize (Ha c Hc). unfold block_ok, apart in *. unfold_blocks. lia. }
  split; unfold blk_magic, blk_size, blk_free, blk_next in *;
    (erewrite agree_on_load32; [done | exact Hag |]; intros a Hin; apply Hout; lia).
Qed.

(** One merge of the loop: the stores to [cur->size] and [cur->next]. *)
Lemma join_memory (m : memory) (b c : block) (r : Z) :
  hdr m b (b_addr c) → hdr m c r → block_ok b → block_ok c → mergeable b c = true →
  let m1 := set_size (b_addr b) (u32 (b_size b + (BLOCK_HEADER_SIZE + b_size c))) m in
  let m2 := set_next (b_addr b) (blk_next m1 (blk_next m1 (b_addr b))) m1 in
  hdr m2 (join b c) r ∧ agree_outside (b_addr b) (b_addr b + 16) m m2.
Proof.
  intros [A1 A2 A3 A4] [B1 B2 B3 B4] Hb Hc Em. cbv zeta.
  destruct (join_props b c) as [Hj _]; [done.. |].
  apply mergeable_spec in Em as (Hfb & Hfc & Hend).
  unfold block_ok in Hb, Hc, Hj. unfold_blocks. simpl in Hj.
  set (m1 := set_size _ _ m).
  assert (blk_next m1 (b_addr b) = b_addr c) as N1 by (unfold m1; hdr_simpl; done).
  assert (blk_next m1 (b_addr c) = r) as N2 by (unfold m1; hdr_simpl; done).
  assert (is_u32 r) as Hr by (rewrite <- B4; apply load32_range).
  rewrite N1, N2. unfold m1. clear N1 N2 m1. split.
  - split; simpl; unfold_blocks; hdr_simpl; rewrite ?A1, ?A3, ?Hfb; u32_simpl; done.
  - unfold set_next, set_size. repeat apply agree_outside_stores; reflexivity || lia.
Qed.

Lemma coalesce_loop_spec (rest : list block) (b : block) (m : memory) (fuel : nat) :
  seg m (b_addr b) (b :: rest) 0 → Forall block_ok (b :: rest) → separated (b :: rest) →
  (length (b :: rest) <= fuel)%nat →
  ∃ m', coalesce_loop fuel (b_addr b) m = Done m' ∧ seg m' (b_addr b) (merge b rest) 0 ∧
        headers_only (b :: rest) m m'.
Proof.
  revert b m fuel. induction rest as [|c rest IH]; intros b m fuel Hseg Hok Hsep Hlen;
    (destruct fuel as [|fuel]; [simpl in Hlen; lia |]);
    destruct Hseg as (_ & r & Hh & Hseg); inversion_clear Hok as [|?? Hb Hok'];
    cbn [coalesce_loop]; (destruct (Z.eqb_spec (b_addr b) 0); [unfold block_ok in Hb; lia |]);
    cbn [orb]; rewrite (hdr_next _ _ _ Hh).
  - simpl in Hseg. subst r. exists m. simpl. split_and!; [done | done | | reflexivity].
    exists 0. done.
  - destruct Hseg as (-> & r' & Hhc & Hseg). pose proof Hok' as Hok''.
    inversion_clear Hok'' as [|?? Hc Hrest]. destruct Hsep as [Hab Hsep].
    pose proof Hsep as [Hac Hsepr]. pose proof Hab as Hab'. inversion_clear Hab' as [|?? Hbc Hbr].
    destruct (Z.eqb_spec (b_addr c) 0); [unfold block_ok in Hc; lia |].
    rewrite (hdr_free _ _ _ Hh), (hdr_free _ _ _ Hhc), (hdr_size _ _ _ Hh), (hdr_size _ _ _ Hhc).
    assert (is_u32 (b_end b)) as He by (unfold block_ok in Hb; unfold_blocks; unfold is_u32; lia).
    change (b_addr b + BLOCK_HEADER_SIZE + b_size b) with (b_end b). rewrite (u32_id (b_end b)) by done.
    replace (negb (Z.b2z (b_free b) =? 0)) with (b_free b) by by destruct (b_free b).
    replace (negb (Z.b2z (b_free c) =? 0)) with (b_free c) by by destruct (b_free c).
    fold (mergeable b c). rewrite merge_cons. destruct (mergeable b c) eqn:Em.
    + destruct (join_memory m b c r') as [Hj Hag]; [done.. |].
      destruct (join_props b c) as [Hj1 _]; [done.. |].
      edestruct (IH (join b c)) as (m' & I1 & I2 & I3).
      * split; [done |]. exists r'. split; [exact Hj |].
        eapply seg_agree; [exact Hag | | done].
        pose proof (apart_headers b rest Hrest Hbr) as Hout. eapply Forall_impl; [exact Hout |].
        simpl. unfold block_ok in Hb. unfold_blocks. lia.
      * by constructor.
      * split; [by apply join_apart | done].
      * instantiate (1 := fuel). simpl in *. lia.
      * exists m'. split_and!; [done | done |]. intros a Ha. inversion_clear Ha as [|?? Ha1 Ha2].
        inversion_clear Ha2 as [|?? Ha3 Ha4]. rewrite I3 by (constructor; done).
        by apply Hag.
    + destruct (IH c m fuel) as (m' & I1 & I2 & I3);
        [split; [done |]; eauto | done | done | simpl in *; lia |].
      exists m'. split_and!; [done | |].
      * split; [done |]. exists (b_addr c). split; [| done].
        eapply headers_only_hdr; [exact I3 | done..].
      * intros a Ha. inversion_clear Ha as [|?? Ha1 Ha2]. by apply I3.
Qed.

Lemma coalesce_spec (h : heap) (m : memory) (bs : list block) :
  heap_inv h m bs →
  ∃ m', coalesce h m = Done m' ∧ heap_inv h m' (coalesce_blocks bs) ∧ headers_only bs m m'.
Proof.
  intros Hi. pose proof (walk_fuel_enough h m bs Hi) as Hfuel. destruct Hi as [Hseg Hok Hsep Ht].
  unfold coalesce. destruct bs as [|b rest].
  - simpl in Hseg. exists m. rewrite Hseg. split_and!; [done | by split | reflexivity].
  - pose proof Hseg as [Hst _]. rewrite Hst in Hseg. rewrite Hst.
    destruct (coalesce_loop_spec rest b m (walk_fuel h)) as (m' & H1 & H2 & H3); [done.. | lia |].
    destruct (merge_props rest b) as (I1 & I2 & I3 & _); [done.. |].
    exists m'. split_and!; [done | | done]. split; [by rewrite Hst | done | done |].
    simpl coalesce_blocks. by rewrite I3.
Qed.

(** No two consecutive blocks could still be merged. *)
Fixpoint coalesced (bs : list block) : Prop :=
  match bs with
  | b :: ((c :: _) as rest) => mergeable b c = false ∧ coalesced rest
  | _ => True
  end.

Lemma merge_head (rest : list block) (b : block) :
  ∃ b' l, merge b rest = b' :: l ∧ b_addr b' = b_addr b ∧ b_free b' = b_free b.
Proof.
  revert b. induction rest as [|c rest IH]; intros b; [by exists b, [] |].
  rewrite merge_cons. destruct (mergeable b c) eqn:Em; [| by exists b, (merge c rest)].
  destruct (IH (join b c)) as (b' & l & H1 & H2 & H3). apply mergeable_spec in Em as (Hb & _ & _).
  exists b', l. rewrite H3, Hb. done.
Qed.

Lemma merge_coalesced (rest : list block) (b : block) : coalesced (merge b rest).
Proof.
  revert b. induction rest as [|c rest IH]; intros b; [done |].
  rewrite merge_cons. destruct (mergeable b c) eqn:Em; [apply IH |].
  specialize (IH c). destruct (merge_head rest c) as (c' & l & H1 & H2 & H3).
  rewrite H1 in *. split; [| done]. unfold mergeable in *. by rewrite H2, H3.
Qed.

Lemma coalesce_blocks_id (bs : list block) : coalesced bs → coalesce_blocks bs = bs.
Proof.
  destruct bs as [|b rest]; [done |]. simpl coalesce_blocks. revert b.
  induction rest as [|c rest IH]; intros b; [done |]. intros [Hm Hc].
  rewrite merge_cons, Hm. f_equal. by apply IH.
Qed.

(** Releasing the block whose data starts at [p] changes no other block. *)
Lemma release_others (b : block) (bs : list block) :
  Forall block_ok bs → block_ok b → Forall (apart b) bs → release (b_data b) <$> bs = bs.
Proof.
  intros Hok Hb Ha. induction bs as [|c bs IH]; [done |].
  inversion_clear Hok as [|?? Hc Hok']. inversion_clear Ha as [|?? Hbc Ha'].
  rewrite fmap_cons, IH by done. f_equal. unfold release.
  destruct (Z.eqb_spec (b_data c) (b_data b)); [| done].
  unfold block_ok, apart in *. unfold_blocks. lia.
Qed.

Definition freed (b : block) : block := Block (b_addr b) (b_size b) true.

Lemma release_middle (bs1 bs2 : list block) (b : block) :
  Forall block_ok (bs1 ++ b :: bs2) → separated (bs1 ++ b :: bs2) →
  release (b_data b) <$> (bs1 ++ b :: bs2) = bs1 ++ freed b :: bs2.
Proof.
  intros Hok Hsep. destruct (separated_middle _ _ _ Hsep) as (_ & Ha1 & Ha2).
  apply Forall_app in Hok as [Hok1 Hok2]. inversion_clear Hok2 as [|?? Hb Hok2'].
  rewrite fmap_app, fmap_cons, !release_others by done. f_equal.
  unfold release. by rewrite Z.eqb_refl.
Qed.

Lemma heap_inv_middle (h : heap) (m : memory) (bs1 bs2 : list block) (b : block) :
  heap_inv h m (bs1 ++ b :: bs2) → block_ok b ∧ ∃ r, hdr m b r.
Proof.
  intros [Hseg Hok _ _]. apply Forall_app in Hok as [_ Hok]. inversion_clear Hok as [|?? Hb ?].
  apply seg_app in Hseg as (q & _ & (_ & r & Hh & _)). eauto.
Qed.

(** [kfree] of the data of an allocated block. *)
Lemma kfree_spec (h : heap) (m : memory) (bs1 bs2 : list block) (b : block) :
  heap_inv h m (bs1 ++ b :: bs2) → b_free b = false →
  ∃ m', kfree (b_data b) h m = Done m' ∧
        heap_inv h m' (coalesce_blocks (bs1 ++ freed b :: bs2)) ∧
        headers_only (bs1 ++ b :: bs2) m m'.
Proof.
  intros Hi Hfr. destruct (heap_inv_middle _ _ _ _ _ Hi) as [Hb [r Hh]].
  pose proof Hb as Hb'. unfold block_ok in Hb'. unfold kfree.
  destruct (Z.eqb_spec (b_data b) 0); [unfold_blocks; lia |].
  replace (u32 (b_data b - BLOCK_HEADER_SIZE)) with (b_addr b)
    by (unfold_blocks; rewrite u32_id by (unfold is_u32; lia); lia).
  rewrite (hdr_magic _ _ _ Hh), (hdr_free _ _ _ Hh), Hfr. cbn [Z.b2z Z.eqb negb orb].
  rewrite Z.eqb_refl. cbn [negb orb].
  assert (agree_outside (b_addr b) (b_addr b + 16) m (set_free (b_addr b) 1 m)) as Hag.
  { unfold set_free. apply agree_outside_stores; reflexivity || lia. }
  assert (heap_inv h (set_free (b_addr b) 1 m) (bs1 ++ freed b :: bs2)) as Hi'.
  { apply (heap_inv_replace h m _ bs1 bs2 [freed b] b); try done.
    - intros r' [H1 H2 H3 H4]. split; [done |]. exists r'. split; [| done].
      split; simpl; hdr_simpl; rewrite ?H1, ?H2, ?H4; done.
    - eapply agree_outside_weaken; [exact Hag | lia | unfold_blocks; lia].
    - by apply Forall_singleton.
    - simpl. lia.
    - intros c Hc. by apply Forall_singleton. }
  destruct (coalesce_spec _ _ _ Hi') as (m' & H1 & H2 & H3).
  exists m'. split_and!; [done | done |]. intros a Ha. rewrite H3, Hag; [done | |].
  - apply Forall_app in Ha as [_ Ha]. inversion_clear Ha. done.
  - rewrite Forall_app, Forall_cons in *. done.
Qed.

(** ** Allocate, then free *)

Lemma merge_carved (bs1 bs2 : list block) (x b b1 b2 : block) :
  b_free b = true → mergeable b1 b2 = true → join b1 b2 = b →
  merge x (bs1 ++ b1 :: b2 :: bs2) = merge x (bs1 ++ b :: bs2).
Proof.
  intros Hf Hm Hj. pose proof (mergeable_spec _ _ Hm) as (F1 & F2 & He).
  assert (b_addr b1 = b_addr b) as Ha by by subst b.
  revert x. induction bs1 as [|c bs1 IH]; intros x; cbn [app].
  - rewrite !merge_cons. assert (mergeable x b = mergeable x b1) as ->
      by (unfold mergeable; by rewrite Hf, F1, Ha).
    destruct (mergeable x b1) eqn:Ex; [| by rewrite Hm, Hj].
    pose proof (mergeable_spec _ _ Ex) as (_ & _ & Hx).
    assert (mergeable (join x b1) b2 = true) as ->.
    { unfold mergeable, join. rewrite F2. unfold_blocks. simpl in *. lia. }
    f_equal. subst b. unfold join. simpl. f_equal. lia.
  - rewrite !merge_cons. by rewrite !IH.
Qed.

Lemma coalesce_carved (size : Z) (bs1 bs2 : list block) (b : block) :
  b_free b = true → block_ok b →
  coalesce_blocks (bs1 ++ (freed <$> take 1 (carve size b)) ++ drop 1 (carve size b) ++ bs2) =
  coalesce_blocks (bs1 ++ b :: bs2).
Proof.
  intros Hf Hb. unfold carve. destruct (Z.leb_spec (b_size b) (size + BLOCK_HEADER_SIZE + MIN_SPLIT_SIZE)).
  - simpl. unfold freed. simpl. rewrite <- Hf. by destruct b.
  - simpl. unfold freed. simpl. set (b1 := Block _ size true). set (b2 := Block (b_data b + size) _ true).
    assert (mergeable b1 b2 = true) as Hm.
    { unfold mergeable, b1, b2. simpl. unfold_blocks. simpl. lia. }
    assert (join b1 b2 = b) as Hj.
    { unfold join, b1, b2. simpl. destruct b as [a sz fr]. simpl in *. subst fr. f_equal. lia. }
    destruct bs1 as [|x bs1]; cbn [app coalesce_blocks].
    + by rewrite merge_cons, Hm, Hj.
    + by apply merge_carved.
Qed.

(** ** Initialisation *)

Section init_proofs.
Context {F : Type} `{!FrameAlloc F}.

(** A page as one free block. *)
Definition page_block (a : Z) : block := Block a (PAGE_SIZE - BLOCK_HEADER_SIZE) true.

Lemma page_block_ok (a : Z) : page_addr a → block_ok (page_block a).
Proof. unfold page_addr, block_ok, page_block. unfold_blocks. simpl. zlia. Qed.

Lemma page_blocks_apart (a b : Z) :
  page_addr a → page_addr b → a ≠ b → apart (page_block a) (page_block b).
Proof.
  intros Ha Hb Hne. pose proof (page_addr_apart a b Ha Hb Hne).
  unfold apart, page_block. unfold_blocks. simpl. lia.
Qed.

Lemma page_blocks_separated (l : list Z) :
  Forall page_addr l → NoDup l → separated (page_block <$> l).
Proof.
  induction 1 as [|a l Ha Hl IH]; intros Hnd; [done |].
  inversion_clear Hnd as [|?? Hnin Hnd']. simpl. split; [| by apply IH].
  apply Forall_fmap, Forall_forall. intros b Hb. rewrite Forall_forall in Hl.
  apply page_blocks_apart; [done | by apply Hl | intros ->; done].
Qed.

Lemma page_blocks_total (l : list Z) :
  total_bytes (page_block <$> l) = PAGE_SIZE * Z.of_nat (length l).
Proof.
  induction l as [|a l IH]; [done |].
  rewrite fmap_cons. cbn [total_bytes length]. rewrite IH. unfold page_block. unfold_blocks.
  cbn [b_size]. lia.
Qed.

(** The header of a fresh page. *)
Definition write_page_block (a : Z) (m : memory) : memory :=
  set_next a 0 (set_free a 1 (set_size a (PAGE_SIZE - BLOCK_HEADER_SIZE) (set_magic a BLOCK_MAGIC m))).

Lemma write_page_block_spec (a : Z) (m : memory) :
  hdr (write_page_block a m) (page_block a) 0 ∧
  agree_outside a (a + 16) m (write_page_block a m).
Proof.
  unfold write_page_block. split.
  - split; unfold page_block; simpl; hdr_simpl; unfold BLOCK_MAGIC; unfold_blocks; u32_simpl; done.
  - unfold set_next, set_free, set_size, set_magic.
    repeat apply agree_outside_stores; reflexivity || lia.
Qed.

Lemma page_headers_outside (a : Z) (l : list Z) :
  page_addr a → Forall page_addr l → a ∉ l →
  Forall (λ b, b_addr b + 16 <= a ∨ a + 16 <= b_addr b) (page_block <$> l).
Proof.
  intros Ha Hl Hnin. apply Forall_fmap, Forall_forall. intros b Hb.
  rewrite Forall_forall in Hl. destruct (page_addr_apart a b Ha (Hl b Hb)); simpl;
    unfold PAGE_SIZE in *; try lia. intros ->. done.
Qed.

(** Linking a fresh page behind the last one. *)
Lemma link_page (m : memory) (p a : Z) (l : list Z) :
  seg m p (page_block <$> l) 0 → Forall page_addr l → NoDup l → page_addr a → a ∉ l →
  p = default 0 (head l) →
  let m1 := write_page_block a m in
  let m2 := if default 0 (last l) =? 0 then m1 else set_next (default 0 (last l)) a m1 in
  seg m2 (if p =? 0 then a else p) (page_block <$> (l ++ [a])) 0.
Proof.
  intros Hseg Hpa Hnd Ha Hnin Hp. cbv zeta.
  destruct (write_page_block_spec a m) as [Hh Hag]. set (m1 := write_page_block a m) in *.
  destruct l as [|x l _] using rev_ind.
  - simpl in *. subst p. simpl. split; [done |]. by exists 0.
  - rewrite last_snoc. simpl default.
    apply Forall_app in Hpa as [Hpl Hpx]. inversion_clear Hpx as [|?? Hx _].
    assert (a ≠ x) by (intros ->; apply Hnin; set_solver).
    assert (a ∉ l) by (intros Hin; apply Hnin; set_solver).
    apply NoDup_app in Hnd as (Hndl & Hndx & _).
    assert (x ∉ l) by (intros Hin; apply (Hndx x Hin); set_solver).
    destruct (Z.eqb_spec x 0); [by apply page_addr_nonzero in Hx |].
    assert (p ≠ 0) as Hp0.
    { rewrite Hp. destruct l as [|y l]; simpl; [done |]. inversion_clear Hpl.
      by apply page_addr_nonzero. }
    destruct (Z.eqb_spec p 0); [done |].
    rewrite fmap_app in Hseg. apply (seg_agree _ m1 a (a + 16)) in Hseg; [| done |].
    2:{ rewrite <- fmap_app. apply page_headers_outside; [done | | done].
        apply Forall_app. auto. }
    apply seg_app in Hseg as (q & Hs1 & (-> & r & Hhx & ->)). simpl in Hs1.
    pose proof (page_addr_apart a x Ha Hx ltac:(done)) as Hax. unfold PAGE_SIZE in Hax.
    assert (agree_outside x (x + 16) m1 (set_next x a m1)) as Hag2.
    { unfold set_next. apply agree_outside_stores; reflexivity || lia. }
    rewrite <- app_assoc, !fmap_app. apply seg_app. exists x. split.
    + eapply seg_agree; [exact Hag2 | | done]. by apply page_headers_outside.
    + simpl. split; [done |]. exists a. split.
      * destruct Hhx as [X1 X2 X3 X4]. apply page_addr_u32 in Ha.
        split; simpl in *; hdr_simpl; u32_simpl; done.
      * split; [done |]. exists 0. split; [| done].
        eapply hdr_agree; [exact Hag2 | simpl; lia | done].
Qed.

(** The stores of one round are in the new page and in the last one. *)
Lemma write_page_agree (m : memory) (a : Z) (l : list Z) (x : Z) :
  Forall page_addr l → Forall (λ b, x < b ∨ b + PAGE_SIZE <= x) l → x < a ∨ a + PAGE_SIZE <= x →
  load8 (if default 0 (last l) =? 0 then write_page_block a m else set_next (default 0 (last l)) a (write_page_block a m)) x = load8 m x.
Proof.
  intros Hpa Hx Ha. destruct (write_page_block_spec a m) as [_ Hag].
  assert (load8 (write_page_block a m) x = load8 m x) as E by (apply Hag; unfold PAGE_SIZE in *; lia).
  case_match eqn:H0; [done |]. rewrite <- E. destruct (last l) as [b|] eqn:El; [| done].
  apply last_Some_elem_of in El. rewrite Forall_forall in Hx. specialize (Hx b El). simpl. unfold set_next.
  apply load8_store32_ne. unfold PAGE_SIZE in *. lia.
Qed.

(** Number of bytes the loop accounts for, with no wrap-around. *)
Lemma init_loop_spec (n : nat) (fs : F) (m : memory) (h : heap) (l : list Z) :
  frames_ok fs → seg m (heap_start h) (page_block <$> l) 0 →
  Forall page_addr l → NoDup l → Forall (λ a, in_use fs a = true) l →
  heap_start h = default 0 (head l) →
  heap_total_bytes h = PAGE_SIZE * Z.of_nat (length l) →
  PAGE_SIZE * Z.of_nat (length l + n) < 2 ^ 32 →
  ∃ l' fs' m' h',
    init_loop n (default 0 (last l)) fs m h = (fs', m', h') ∧ frames_ok fs' ∧
    seg m' (heap_start h') (page_block <$> (l ++ l')) 0 ∧
    Forall page_addr (l ++ l') ∧ NoDup (l ++ l') ∧
    heap_total_bytes h' = PAGE_SIZE * Z.of_nat (length (l ++ l')) ∧
    (length l' = n ∨ (length l' < n)%nat ∧ frames_free fs' = 0) ∧
    took fs fs' (list_to_set l') ∧ agree_on (λ a, Forall (λ b, a < b ∨ b + PAGE_SIZE <= a) (l ++ l')) m m'.
Proof.
  revert fs m h l. induction n as [|n IH]; intros fs m h l Hok Hseg Hpa Hnd Huse Hst Htot Hlt.
  - exists [], fs, m, h. rewrite app_nil_r. split_and!; try done; [by left | by apply took_none].
  - cbn [init_loop].
    destruct (alloc_frame_spec fs Hok) as [(a & fs' & Ealloc & Ha & Hfree & Hok' & Hcnt & Huse')|[-> Hz]]; [rewrite Ealloc |].
    + destruct (Z.eqb_spec a 0); [by apply page_addr_nonzero in Ha |].
      assert (a ∉ l) as Hnin.
      { intros Hin. rewrite Forall_forall in Huse. rewrite (Huse a Hin) in Hfree. done. }
      pose proof (link_page m (heap_start h) a l Hseg Hpa Hnd Ha Hnin Hst) as Hlink. cbv zeta in Hlink.
      fold (write_page_block a m). set (m2 := if default 0 (last l) =? 0 then _ else _) in *.
      set (h2 := Heap _ _).
      destruct (IH fs' m2 h2 (l ++ [a])) as (l' & fs'' & m' & h' & Heq & I1 & I2 & I3 & I4 & I5 & I6 & I7 & I8).
      * done.
      * unfold h2. cbn [heap_start]. destruct (heap_start h =? 0); done.
      * apply Forall_app. split; [done | by apply Forall_singleton].
      * apply NoDup_app. split_and!; [done | set_solver | apply NoDup_singleton].
      * apply Forall_app. rewrite Forall_singleton, Huse', Z.eqb_refl by done. split; [| done].
        rewrite Forall_forall in *. intros b Hb. rewrite Huse', (Huse b Hb), orb_true_r by auto. done.
      * unfold h2. cbn [heap_start]. rewrite Hst. destruct l as [|x l]; [by simpl |]. simpl.
        inversion_clear Hpa as [|?? Hx _]. destruct (Z.eqb_spec x 0); [by apply page_addr_nonzero in Hx |].
        done.
      * unfold h2. cbn [heap_total_bytes].
        replace (heap_total_bytes (if heap_start h =? 0 then _ else h)) with (heap_total_bytes h)
          by by destruct (heap_start h =? 0).
        rewrite Htot, length_app. unfold PAGE_SIZE in *. simpl length.
        rewrite u32_id by (unfold is_u32; lia). lia.
      * rewrite length_app. simpl length. unfold PAGE_SIZE in *. lia.
      * rewrite last_snoc in Heq. cbn [default] in Heq. rewrite <- app_assoc in *.
        exists (a :: l'), fs'', m', h'. split_and!; try done.
        -- destruct I6 as [I6|[I6 ?]]; simpl; [left | right]; lia || (split; [lia | done]).
        -- simpl. apply (took_trans fs fs'); [| done]. by apply took_one, page_addr_nonzero.
        -- eapply agree_on_trans; [| exact I8]. intros x Hx. apply Forall_app in Hx as [Hx1 [Hx2 _]%Forall_cons].
           apply (write_page_agree m a l x); [| done | lia]. done.
    + exists [], fs, m, h. rewrite app_nil_r. split_and!; try done; [| by apply took_none]. right. simpl. split; [lia | done].
Qed.

Lemma pages_heap_inv (h : heap) (m : memory) (l : list Z) :
  seg m (heap_start h) (page_block <$> l) 0 → Forall page_addr l → NoDup l →
  heap_total_bytes h = PAGE_SIZE * Z.of_nat (length l) → heap_inv h m (page_block <$> l).
Proof.
  intros Hseg Hpa Hnd Ht. split; [done | | by apply page_blocks_separated | by rewrite page_blocks_total].
  apply Forall_fmap. eapply Forall_impl; [exact Hpa | apply page_block_ok].
Qed.

End init_proofs.

Lemma kmalloc_refines_aux (h : heap) (m : memory) (bs1 bs2 : list block) (b : block) (size : Z) :
  heap_inv h m (bs1 ++ b :: bs2) → 0 < size →
  Forall (λ c, fits (align4 size) c = false) bs1 → fits (align4 size) b = true →
  ∃ m', kmalloc size h m = Done (b_data b, m') ∧
        heap_inv h m' (bs1 ++ carve (align4 size) b ++ bs2).
Proof.
  intros Hi Hsz Hall Hfit. destruct (kmalloc_spec h m _ size Hi Hsz)
    as [(cs1 & c & cs2 & m' & Hbs & Hall' & Hfit' & Heq & Hi' & _)|[Hall' _]].
  - pose proof (alloc_blocks_middle (align4 size) bs1 bs2 b Hall Hfit) as E1.
    pose proof (alloc_blocks_middle (align4 size) cs1 cs2 c Hall' Hfit') as E2.
    rewrite Hbs, E2 in E1. injection E1 as H1 H2. exists m'. rewrite <- H1, <- H2. done.
  - apply Forall_app in Hall' as [_ Hall']. inversion Hall'. congruence.
Qed.

(** ** The heap as its clients see it *)

(** The addresses a block list occupies, and its allocated data pointers. *)
Definition covers (bs : list block) (a : Z) : Prop := ∃ b, b ∈ bs ∧ b_addr b <= a < b_end b.
Definition allocated (bs : list block) (p : Z) : Prop := ∃ b, b ∈ bs ∧ b_free b = false ∧ b_data b = p.

(** The heap lives inside the addresses [R] and its allocated pointers are
    [live]. *)
Definition heap_view (h : heap) (m : memory) (R : Z → Prop) (live : gset Z) : Prop :=
  ∃ bs, heap_inv h m bs ∧ (∀ a, covers bs a → R a) ∧ ∀ p, p ∈ live ↔ allocated bs p.

Lemma covers_app (bs1 bs2 : list block) (a : Z) : covers (bs1 ++ bs2) a ↔ covers bs1 a ∨ covers bs2 a.
Proof. unfold covers. setoid_rewrite elem_of_app. naive_solver. Qed.

Lemma allocated_app (bs1 bs2 : list block) (p : Z) :
  allocated (bs1 ++ bs2) p ↔ allocated bs1 p ∨ allocated bs2 p.
Proof. unfold allocated. setoid_rewrite elem_of_app. naive_solver. Qed.

Lemma covers_cons (b : block) (bs : list block) (a : Z) :
  covers (b :: bs) a ↔ b_addr b <= a < b_end b ∨ covers bs a.
Proof. unfold covers. setoid_rewrite elem_of_cons. naive_solver. Qed.

Lemma allocated_cons (b : block) (bs : list block) (p : Z) :
  allocated (b :: bs) p ↔ b_free b = false ∧ b_data b = p ∨ allocated bs p.
Proof. unfold allocated. setoid_rewrite elem_of_cons. naive_solver. Qed.

Lemma covers_nil (a : Z) : covers [] a ↔ False.
Proof. unfold covers. set_solver. Qed.

Lemma allocated_nil (p : Z) : allocated [] p ↔ False.
Proof. unfold allocated. set_solver. Qed.

Lemma carve_view (size : Z) (b : block) :
  0 <= size <= b_size b →
  (∀ a, covers (carve size b) a → b_addr b <= a < b_end b) ∧
  ∀ p, allocated (carve size b) p ↔ p = b_data b.
Proof.
  intros Hs. unfold carve. destruct (Z.leb_spec (b_size b) (size + BLOCK_HEADER_SIZE + MIN_SPLIT_SIZE)); split; intros x;
    rewrite ?covers_cons, ?covers_nil, ?allocated_cons, ?allocated_nil; unfold_blocks; simpl;
    try lia; (split; [intros; destruct_or?; destruct_and?; done | by intros ->; left]).
Qed.

(** Two blocks of a heap with the same data pointer are the same. *)
Lemma allocated_free_ne (bs1 bs2 : list block) (b : block) :
  Forall block_ok (bs1 ++ b :: bs2) → separated (bs1 ++ b :: bs2) → b_free b = true →
  ~ allocated (bs1 ++ b :: bs2) (b_data b).
Proof.
  intros Hok Hsep Hfr (c & Hin & Hcf & Hcd). destruct (separated_middle _ _ _ Hsep) as (_ & Ha1 & Ha2).
  rewrite Forall_forall in Hok, Ha1, Ha2. pose proof (Hok c Hin) as Hc. pose proof (Hok b ltac:(set_solver)) as Hb.
  assert (apart b c) as Hap.
  { apply elem_of_app in Hin as [Hin|Hin]; [by apply Ha1 |]. apply elem_of_cons in Hin as [->|Hin]; [congruence | by apply Ha2]. }
  unfold apart, block_ok in *. unfold_blocks. lia.
Qed.

Lemma merge_view (rest : list block) (b : block) :
  (∀ a, covers (merge b rest) a → covers (b :: rest) a) ∧
  ∀ p, allocated (merge b rest) p ↔ allocated (b :: rest) p.
Proof.
  revert b. induction rest as [|c rest IH]; intros b; [done |].
  rewrite merge_cons. destruct (mergeable b c) eqn:Em.
  - apply mergeable_spec in Em as (Hb & Hc & Hadj). destruct (IH (join b c)) as [I1 I2]. split.
    + intros a Ha. apply I1 in Ha. rewrite !covers_cons in *. unfold join in Ha. simpl in Ha.
      unfold_blocks. simpl in Ha. destruct Ha as [Ha|Ha]; [| auto]. destruct (decide (a < b_addr c)); lia.
    + intros p. rewrite I2, !allocated_cons. unfold join. simpl. rewrite Hb, Hc. naive_solver.
  - destruct (IH c) as [I1 I2]. split.
    + intros a. rewrite covers_cons, (covers_cons b). specialize (I1 a). tauto.
    + intros p. rewrite allocated_cons, (allocated_cons b), I2. done.
Qed.

Lemma coalesce_view (bs : list block) :
  (∀ a, covers (coalesce_blocks bs) a → covers bs a) ∧
  ∀ p, allocated (coalesce_blocks bs) p ↔ allocated bs p.
Proof. destruct bs as [|b rest]; [done | apply merge_view]. Qed.

(** Writing outside the heap keeps it. *)
Lemma view_frame (h : heap) (m m' : memory) (R : Z → Prop) (live : gset Z) :
  heap_view h m R live → agree_on R m m' → heap_view h m' R live.
Proof.
  intros (bs & [Hseg Hok Hsep Ht] & Hc & Hl) Hag. exists bs. split; [| done]. split; [| done | done | done].
  clear Hsep Ht Hl. revert Hseg. generalize (heap_start h) as p. induction bs as [|b bs IH]; intros p; simpl; [done |].
  inversion_clear Hok as [|?? Hb Hok']. intros (-> & r & [H1 H2 H3 H4] & Hseg). split; [done |].
  assert (∀ k, 0 <= k <= 12 → load32 m' (b_addr b + k) = load32 m (b_addr b + k)) as Hl.
  { intros k Hk. eapply agree_on_load32; [exact Hag |]. intros a Ha. apply Hc. apply covers_cons. left.
    unfold block_ok in Hb. unfold_blocks. lia. }
  exists r. split; [| apply IH; [done | | done]].
  - pose proof (Hl 0 ltac:(lia)) as L0. rewrite Z.add_0_r in L0.
    split; unfold blk_magic, blk_size, blk_free, blk_next in *; rewrite ?L0, ?Hl by lia; done.
  - intros a Ha. apply Hc. apply covers_cons. by right.
Qed.

(** Allocation: NULL and no change, or a new live pointer to [size] bytes inside
    the heap. *)
Lemma view_alloc (h : heap) (m : memory) (R : Z → Prop) (live : gset Z) (size : Z) :
  heap_view h m R live → 0 < size <= 2 ^ 32 - 4 →
  kmalloc size h m = Done (0, m) ∨
  ∃ p m', kmalloc size h m = Done (p, m') ∧ 0 < p ∧ p + size <= 2 ^ 27 ∧ p ∉ live ∧ R p ∧
    heap_view h m' R ({[p]} ∪ live) ∧ agree_on (λ a, ~ R a) m m'.
Proof.
  intros (bs & Hi & Hc & Hl) Hsz. destruct (align4_spec size) as [_ Hal]; [lia |].
  destruct (kmalloc_spec h m bs size Hi ltac:(lia))
    as [(bs1 & b & bs2 & m' & -> & _ & Hfit & Heq & Hi' & Hag)|[_ Heq]]; [right | by left].
  apply fits_spec in Hfit as [Hfr Hle]. destruct (heap_inv_middle _ _ _ _ _ Hi) as [Hb _].
  destruct (separated_middle _ _ _ (hi_sep _ _ _ Hi)) as (_ & Ha1 & Ha2). unfold block_ok in Hb.
  destruct (carve_view (align4 size) b) as [Hcc Hca]; [lia |].
  exists (b_data b), m'. split_and!; [done | unfold_blocks; lia | unfold_blocks; lia | | | |].
  - rewrite Hl. apply allocated_free_ne; [apply Hi | apply Hi | done].
  - apply Hc. apply covers_app. right. apply covers_cons. left. unfold_blocks. lia.
  - exists (bs1 ++ carve (align4 size) b ++ bs2). split_and!; [done | |].
    + intros a Ha. apply Hc. rewrite !covers_app, covers_cons in *. destruct Ha as [|[Ha|]]; [tauto | | tauto].
      apply Hcc in Ha. tauto.
    + intros p. rewrite elem_of_union, elem_of_singleton, Hl, !allocated_app, allocated_cons, Hca, Hfr. naive_solver.
  - eapply agree_on_weaken; [exact Hag |]. intros a Ha. simpl.
    destruct (decide (b_addr b <= a < b_end b)); [| lia]. exfalso. apply Ha, Hc. apply covers_app. right.
    apply covers_cons. by left.
Qed.

(** Freeing a live pointer. *)
Lemma view_free (h : heap) (m : memory) (R : Z → Prop) (live : gset Z) (p : Z) :
  heap_view h m R live → p ∈ live →
  ∃ m', kfree p h m = Done m' ∧ heap_view h m' R (live ∖ {[p]}) ∧ agree_on (λ a, ~ R a) m m'.
Proof.
  intros (bs & Hi & Hc & Hl) Hp. apply Hl in Hp as (b & Hb & Hfr & <-).
  apply list_elem_of_split in Hb as (bs1 & bs2 & ->).
  destruct (kfree_spec h m bs1 bs2 b Hi Hfr) as (m' & Heq & Hi' & Hho).
  destruct (coalesce_view (bs1 ++ freed b :: bs2)) as [V1 V2].
  assert (~ allocated (bs1 ++ freed b :: bs2) (b_data b)) as Hnot.
  { destruct (heap_inv_middle _ _ _ _ _ Hi) as [Hbo _].
    apply (allocated_free_ne bs1 bs2 (freed b)); [| | done].
    - pose proof (hi_ok _ _ _ Hi) as Hok. rewrite Forall_app, Forall_cons in *. done.
    - pose proof (hi_sep _ _ _ Hi) as Hs. apply separated_app in Hs as (S1 & [S2 S3] & S4).
      apply separated_app. split; [done |]. split; [split; done |]. intros x y Hx Hy.
      apply elem_of_cons in Hy as [->|Hy]; [apply (S4 x b Hx); set_solver | apply S4; set_solver]. }
  exists m'. split_and!; [done | |].
  - exists (coalesce_blocks (bs1 ++ freed b :: bs2)). split_and!; [done | |].
    + intros a Ha. apply V1 in Ha. apply Hc. rewrite covers_app, covers_cons in *. exact Ha.
    + intros q. rewrite V2, elem_of_difference, elem_of_singleton, Hl. split.
      * intros [Hq Hne]. rewrite allocated_app, allocated_cons in *. naive_solver.
      * intros Hq. split; [| by intros ->]. rewrite allocated_app, allocated_cons in *. naive_solver.
  - eapply agree_on_weaken; [exact Hho |]. intros a Ha. apply Forall_forall. intros c Hin.
    destruct (decide (b_addr c <= a < b_addr c + 16)); [| lia]. exfalso. apply Ha, Hc. exists c. split; [done |].
    pose proof (hi_ok _ _ _ Hi) as Hok. rewrite Forall_forall in Hok. specialize (Hok c Hin).
    unfold block_ok in Hok. unfold_blocks. lia.
Qed.

(** ** Properties *)

(** C11. Refinement: on a heap that represents the block list [bs], [kmalloc]
    terminates and does exactly what first-fit allocation with splitting does
    on [bs]; the heap invariant (well-formed, disjoint blocks that account for
    every heap byte) is kept. *)
Theorem kmalloc_refines_first_fit (h : heap) (m : memory) (bs : list block) (size : Z) :
  heap_inv h m bs → 0 < size < 2 ^ 32 →
  ∃ p m', kmalloc size h m = Done (p, m') ∧
    match alloc_blocks (align4 size) bs with
    | Some (q, bs') => p = q ∧ heap_inv h m' bs'
    | None => p = 0 ∧ m' = m
    end.
Proof.
  intros Hi Hsz. destruct (kmalloc_spec h m bs size Hi ltac:(lia))
    as [(bs1 & b & bs2 & m' & -> & Hall & Hfit & Heq & Hi' & _)|[Hall Heq]].
  - exists (b_data b), m'. rewrite alloc_blocks_middle by done. done.
  - exists 0, m. rewrite alloc_blocks_none by done. done.
Qed.

Lemma kmalloc_done_inv (h : heap) (m m' : memory) (bs : list block) (size p : Z) :
  heap_inv h m bs → 0 < size → kmalloc size h m = Done (p, m') → p ≠ 0 →
  ∃ bs1 b bs2, bs = bs1 ++ b :: bs2 ∧ fits (align4 size) b = true ∧ p = b_data b ∧
    heap_inv h m' (bs1 ++ carve (align4 size) b ++ bs2) ∧ agree_outside (b_addr b) (b_end b) m m'.
Proof.
  intros Hi Hsz Heq Hp. destruct (kmalloc_spec h m bs size Hi Hsz)
    as [(bs1 & b & bs2 & m2 & -> & _ & Hfit & Heq2 & Hi' & Hag)|[_ Heq2]];
    rewrite Heq2 in Heq; inversion Heq; subst; [| done].
  exists bs1, b, bs2. done.
Qed.

(** C13. Memory safety of [kmalloc]: the pointer is 4-byte aligned, the requested
    bytes lie inside a block that was free, they overlap neither the header nor
    the data of any allocated block, and no byte of an allocated block changes. *)
Theorem kmalloc_safe (h : heap) (m m' : memory) (bs : list block) (size p : Z) :
  heap_inv h m bs → 0 < size <= 2 ^ 32 - 4 → kmalloc size h m = Done (p, m') → p ≠ 0 →
  p mod 4 = 0 ∧
  (∃ b, b ∈ bs ∧ b_free b = true ∧ p = b_data b ∧ p + size <= b_end b) ∧
  ∀ c, c ∈ bs → b_free c = false →
    (b_end c <= p ∨ p + size <= b_addr c) ∧
    ∀ a, b_addr c <= a < b_end c → load8 m' a = load8 m a.
Proof.
  intros Hi Hsz Heq Hp. destruct (align4_spec size) as [_ Hal]; [lia |].
  destruct (kmalloc_done_inv h m m' bs size p) as (bs1 & b & bs2 & -> & Hfit & -> & _ & Hag);
    [done | lia | done | done |].
  apply fits_spec in Hfit as [Hfr Hle]. destruct (heap_inv_middle _ _ _ _ _ Hi) as [Hb _].
  destruct (separated_middle _ _ _ (hi_sep _ _ _ Hi)) as (_ & Ha1 & Ha2).
  unfold block_ok in Hb. split_and!.
  - unfold_blocks. zlia.
  - exists b. split_and!; [set_solver | done | done |]. unfold_blocks. lia.
  - intros c Hc Hcf. assert (apart b c) as Hap.
    { rewrite Forall_forall in Ha1, Ha2. apply elem_of_app in Hc as [Hc|Hc]; [by apply Ha1 |].
      apply elem_of_cons in Hc as [->|Hc]; [congruence | by apply Ha2]. }
    unfold apart in Hap. split; [unfold_blocks; lia |].
    intros a Ha. apply Hag. lia.
Qed.

Lemma in_headers (bs : list block) (c : block) (a : Z) :
  c ∈ bs → Forall block_ok bs → separated bs → b_data c <= a < b_end c →
  Forall (λ b, a < b_addr b ∨ b_addr b + 16 <= a) bs.
Proof.
  intros Hc Hok Hsep Ha. apply list_elem_of_split in Hc as (bs1 & bs2 & ->).
  destruct (separated_middle _ _ _ Hsep) as (_ & Ha1 & Ha2).
  apply Forall_app in Hok as [Hok1 Hok2]. inversion_clear Hok2 as [|?? Hb Hok2'].
  pose proof (apart_headers c bs1 Hok1 Ha1) as H1. pose proof (apart_headers c bs2 Hok2' Ha2) as H2.
  apply Forall_app. split; [| constructor; [unfold_blocks; lia |]];
    (eapply Forall_impl; [done |]; simpl; unfold_blocks; lia).
Qed.

(** C12. Refinement: freeing the data pointer of an allocated block terminates and
    does what releasing that block and merging contiguous free neighbours does
    on the block list; afterwards no two consecutive blocks can be merged, and
    no data byte of any block has changed. *)
Theorem kfree_refines (h : heap) (m : memory) (bs : list block) (b : block) :
  heap_inv h m bs → b ∈ bs → b_free b = false →
  ∃ m', kfree (b_data b) h m = Done m' ∧
    heap_inv h m' (free_block_at (b_data b) bs) ∧ coalesced (free_block_at (b_data b) bs) ∧
    ∀ c a, c ∈ bs → b_data c <= a < b_end c → load8 m' a = load8 m a.
Proof.
  intros Hi Hb Hfr. apply list_elem_of_split in Hb as (bs1 & bs2 & ->).
  destruct (kfree_spec h m bs1 bs2 b Hi Hfr) as (m' & Heq & Hi' & Hho).
  exists m'. unfold free_block_at. rewrite release_middle by apply Hi. split_and!; [done | done | |].
  - destruct bs1; apply merge_coalesced.
  - intros c a Hc Ha. apply Hho. by apply (in_headers _ c); [| apply Hi | apply Hi |].
Qed.


(** Round trip: allocating and freeing again leaves exactly the block list
    [bs] with its free neighbours merged, so a heap that was fully coalesced is
    back to the same list. *)
Theorem kmalloc_kfree_roundtrip (h : heap) (m m' : memory) (bs : list block) (size p : Z) :
  heap_inv h m bs → 0 < size < 2 ^ 32 → kmalloc size h m = Done (p, m') → p ≠ 0 →
  ∃ m'', kfree p h m' = Done m'' ∧ heap_inv h m'' (coalesce_blocks bs) ∧
         (coalesced bs → heap_inv h m'' bs).
Proof.
  intros Hi Hsz Heq Hp.
  destruct (kmalloc_done_inv h m m' bs size p) as (bs1 & b & bs2 & -> & Hfit & -> & Hi' & _);
    [done | lia | done | done |].
  apply fits_spec in Hfit as [Hfr _]. destruct (heap_inv_middle _ _ _ _ _ Hi) as [Hb _].
  pose proof (coalesce_carved (align4 size) bs1 bs2 b Hfr Hb) as Hcc.
  assert (∃ c rest, carve (align4 size) b = c :: rest ∧ b_data c = b_data b ∧ b_free c = false)
    as (c & rest & Hc & Hd & Hcf).
  { unfold carve. destruct (_ <=? _); eauto 10. }
  rewrite Hc in *. simpl in Hi', Hcc. rewrite <- Hd.
  destruct (kfree_spec h m' bs1 (rest ++ bs2) c Hi' Hcf) as (m'' & H1 & H2 & _).
  rewrite drop_0 in Hcc. rewrite Hcc in H2. exists m''. split_and!; [done | done |].
  intros Hco. by rewrite coalesce_blocks_id in H2.
Qed.

(** [kmalloc_init] from any allocator: the pages of the heap, the frames taken and
    the bytes written. *)
Lemma kmalloc_init_spec {F : Type} `{!FrameAlloc F} (pages : Z) (fs : F) (m : memory) (h : heap) :
  frames_ok fs → heap_start h = 0 → 0 < pages < 2 ^ 20 →
  ∃ l fs' m' h', kmalloc_init pages fs m h = (fs', m', h') ∧ heap_inv h' m' (page_block <$> l) ∧
    (Z.of_nat (length l) = pages ∨ Z.of_nat (length l) < pages ∧ frames_free fs' = 0) ∧
    took fs fs' (list_to_set l) ∧ agree_on (λ a, Forall (λ b, a < b ∨ b + PAGE_SIZE <= a) l) m m'.
Proof.
  intros Hok Hst Hp. unfold kmalloc_init. destruct (Z.eqb_spec pages 0); [lia |].
  destruct (init_loop_spec (Z.to_nat pages) fs m (Heap (heap_start h) 0) [])
    as (l & fs' & m' & h' & Heq & I1 & I2 & I3 & I4 & I5 & I6 & I7 & I8); simpl; try done.
  - apply NoDup_nil_2.
  - unfold PAGE_SIZE. lia.
  - exists l, fs', m', h'. split_and!; [done | by apply pages_heap_inv | | done | done].
    destruct I6 as [I6|[I6 ?]]; [left | right]; lia || (split; [lia | done]).
Qed.

(** Initialisation establishes the heap invariant: one free block per frame
    obtained, linked in allocation order; fewer than [pages] frames only when
    the frame allocator ran out. *)
Theorem kmalloc_init_establishes {F : Type} `{!FrameAlloc F} (pages : Z) (fs : F) (m : memory) (h : heap) :
  frames_ok fs → heap_start h = 0 → 0 < pages < 2 ^ 20 →
  ∃ l fs' m' h', kmalloc_init pages fs m h = (fs', m', h') ∧
    heap_inv h' m' (page_block <$> l) ∧ frames_ok fs' ∧
    (Z.of_nat (length l) = pages ∨ Z.of_nat (length l) < pages ∧ frames_free fs' = 0).
Proof.
  intros Hok Hst Hp. destruct (kmalloc_init_spec pages fs m h Hok Hst Hp) as (l & fs' & m' & h' & E & H1 & H2 & (H3 & _) & _).
  exists l, fs', m', h'. done.
Qed.

Lemma total_bytes_nonneg (bs : list block) : Forall block_ok bs → 0 <= total_bytes bs.
Proof.
  induction 1 as [|b bs Hb _ IH]; simpl; [lia |]. unfold block_ok in Hb. unfold_blocks. lia.
Qed.

(** The statistics of a block list added to [st]. *)
Fixpoint add_stats (bs : list block) (st : heap_stats) : heap_stats :=
  match bs with
  | [] => st
  | b :: bs' =>
      add_stats bs'
        (if b_free b then
           HeapStats (total_blocks st + 1) (free_blocks st + 1) (used_blocks st)
             (free_bytes st + b_size b) (used_bytes st)
         else
           HeapStats (total_blocks st + 1) (free_blocks st) (used_blocks st + 1)
             (free_bytes st) (used_bytes st + b_size b))
  end.

Definition stats_bytes (st : heap_stats) : Z :=
  free_bytes st + used_bytes st + BLOCK_HEADER_SIZE * total_blocks st.

Definition stats_nonneg (st : heap_stats) : Prop :=
  0 <= total_blocks st ∧ 0 <= free_blocks st ∧ 0 <= used_blocks st ∧
  0 <= free_bytes st ∧ 0 <= used_bytes st ∧ total_blocks st = free_blocks st + used_blocks st.

Lemma add_stats_bytes (bs : list block) (st : heap_stats) :
  stats_bytes (add_stats bs st) = stats_bytes st + total_bytes bs ∧
  total_blocks (add_stats bs st) = total_blocks st + Z.of_nat (length bs).
Proof.
  revert st. induction bs as [|b bs IH]; intros st; simpl; [lia |].
  match goal with |- context [add_stats bs ?st'] => destruct (IH st') as [-> ->] end.
  unfold stats_bytes. destruct (b_free b); simpl; unfold_blocks; lia.
Qed.

Lemma stats_loop_spec (bs : list block) (fuel : nat) (cur : Z) (m : memory) (st : heap_stats) :
  (length bs < fuel)%nat → seg m cur bs 0 → Forall block_ok bs → stats_nonneg st →
  stats_bytes st + total_bytes bs < 2 ^ 32 →
  stats_loop fuel cur m st = Done (add_stats bs st).
Proof.
  revert fuel cur st. induction bs as [|b bs IH]; intros fuel cur st Hf Hseg Hok Hst Hlt;
    (destruct fuel as [|fuel]; [simpl in Hf; lia |]); cbn [stats_loop].
  - simpl in Hseg. subst cur. done.
  - destruct Hseg as (-> & r & Hh & Hseg). inversion_clear Hok as [|?? Hb Hok'].
    pose proof (total_bytes_nonneg bs Hok') as Hnn. pose proof Hb as Hb'. unfold block_ok in Hb'.
    destruct (Z.eqb_spec (b_addr b) 0); [lia |].
    rewrite (hdr_free _ _ _ Hh), (hdr_size _ _ _ Hh), (hdr_next _ _ _ Hh).
    unfold stats_nonneg, stats_bytes in *. cbn [total_bytes length] in Hlt, Hf. unfold_blocks.
    destruct (b_free b) eqn:Hfr; simpl; rewrite Hfr; rewrite !u32_id by (unfold is_u32; lia);
      (apply IH; simpl; [lia | done | done | lia | lia]).
Qed.

(** Accounting: the statistics walk terminates, counts every block of the
    list, and the free bytes, used bytes and headers it reports add up to the
    heap size. *)
Theorem heap_stats_account (h : heap) (m : memory) (bs : list block) :
  heap_inv h m bs → is_u32 (heap_total_bytes h) →
  ∃ st, stats_loop (walk_fuel h) (heap_start h) m (HeapStats 0 0 0 0 0) = Done st ∧
    st = add_stats bs (HeapStats 0 0 0 0 0) ∧ total_blocks st = Z.of_nat (length bs) ∧
    free_bytes st + used_bytes st + BLOCK_HEADER_SIZE * total_blocks st = heap_total_bytes h.
Proof.
  intros Hi Hu. pose proof (hi_total _ _ _ Hi) as Ht. unfold is_u32 in Hu.
  destruct (add_stats_bytes bs (HeapStats 0 0 0 0 0)) as [E1 E2].
  exists (add_stats bs (HeapStats 0 0 0 0 0)). split_and!; [| done | exact E2 |].
  - apply stats_loop_spec; [by eapply walk_fuel_enough | apply Hi | apply Hi | |];
      unfold stats_nonneg, stats_bytes; simpl; lia.
  - unfold stats_bytes in E1. rewrite E1. simpl. lia.
Qed.

(** C40. Overflow: for a request of 2^32-3 .. 2^32-1 bytes the rounding
    [size + 3] wraps to 0, so instead of failing [kmalloc] hands out the first
    free block, split to a block of zero bytes. *)
Theorem kmalloc_size_overflow (h : heap) (m : memory) (bs1 bs2 : list block) (b : block) (size : Z) :
  heap_inv h m (bs1 ++ b :: bs2) → Forall (λ c, b_free c = false) bs1 → b_free b = true →
  24 < b_size b → 2 ^ 32 - 3 <= size < 2 ^ 32 →
  ∃ m', kmalloc size h m = Done (b_data b, m') ∧
    heap_inv h m' (bs1 ++ Block (b_addr b) 0 false :: Block (b_data b) (b_size b - 16) true :: bs2).
Proof.
  intros Hi Hall Hfr Hbig Hsz. destruct (heap_inv_middle _ _ _ _ _ Hi) as [Hb _].
  assert (align4 size = 0) as Hal.
  { unfold align4. change (u32 (Z.lnot 3)) with (Z.shiftl (Z.ones (32 - 2)) 2).
    rewrite land_high_mask by (apply u32_range || lia). unfold u32. zlia. }
  assert (fits 0 b = true) as Hfit.
  { unfold fits. rewrite Hfr. unfold block_ok in Hb. simpl. lia. }
  assert (Forall (λ c, fits 0 c = false) bs1) as Hnf.
  { eapply Forall_impl; [exact Hall |]. intros c Hc. unfold fits. by rewrite Hc. }
  destruct (kmalloc_refines_aux h m bs1 bs2 b size) as (m' & H1 & H2); [done | lia | by rewrite Hal.. |].
  exists m'. split; [done |]. rewrite Hal in H2. unfold carve in H2. unfold_blocks.
  destruct (Z.leb_spec (b_size b) (0 + 16 + 8)); [lia |].
  simpl in H2. rewrite !Z.sub_0_r, !Z.add_0_r in H2. exact H2.
Qed.

(** ** Witnesses *)

(** A heap of one page at 1 MiB, before and after an allocation of 100 bytes. *)
Definition demo_heap : heap := Heap 0x100000 4096.
Definition demo_block : block := page_block 0x100000.
Definition demo_memory : memory := write_page_block 0x100000 ∅.
Definition demo_memory2 : memory := set_free 0x100000 0 (split 0x100000 100 demo_memory).

Lemma demo_inv : heap_inv demo_heap demo_memory [demo_block].
Proof.
  apply (pages_heap_inv demo_heap demo_memory [0x100000]).
  - simpl. split; [done |]. exists 0. split; [split; vm_compute; done | done].
  - apply Forall_singleton. unfold page_addr, PAGE_SIZE, MAX_FRAMES. zlia.
  - apply NoDup_singleton.
  - done.
Qed.

Lemma demo_inv2 : heap_inv demo_heap demo_memory2 (carve 100 demo_block).
Proof.
  destruct (kmalloc_done_inv demo_heap demo_memory demo_memory2 [demo_block] 100 0x100010)
    as (bs1 & b & bs2 & Hbs & _ & _ & Hi & _).
  - apply demo_inv.
  - lia.
  - vm_compute. done.
  - lia.
  - destruct bs1 as [|? [|??]]; [| discriminate..]. injection Hbs as <- <-. by rewrite app_nil_r in Hi.
Qed.

Lemma kmalloc_refines_first_fit_witness :
  ∃ p m', kmalloc 100 demo_heap demo_memory = Done (p, m') ∧
    match alloc_blocks (align4 100) [demo_block] with
    | Some (q, bs') => p = q ∧ heap_inv demo_heap m' bs'
    | None => p = 0 ∧ m' = demo_memory
    end.
Proof. apply (kmalloc_refines_first_fit demo_heap demo_memory [demo_block] 100); [exact demo_inv | lia]. Defined.

Lemma kmalloc_safe_witness :
  0x100010 mod 4 = 0 ∧
  (∃ b, b ∈ [demo_block] ∧ b_free b = true ∧ 0x100010 = b_data b ∧ 0x100010 + 100 <= b_end b) ∧
  ∀ c, c ∈ [demo_block] → b_free c = false →
    (b_end c <= 0x100010 ∨ 0x100010 + 100 <= b_addr c) ∧
    ∀ a, b_addr c <= a < b_end c → load8 demo_memory2 a = load8 demo_memory a.
Proof.
  apply (kmalloc_safe demo_heap demo_memory demo_memory2 [demo_block] 100 0x100010);
    [exact demo_inv | lia | vm_compute; done | lia].
Defined.

Lemma kfree_refines_witness :
  ∃ m', kfree 0x100010 demo_heap demo_memory2 = Done m' ∧
    heap_inv demo_heap m' [demo_block] ∧ coalesced [demo_block] ∧
    ∀ c a, c ∈ carve 100 demo_block → b_data c <= a < b_end c → load8 m' a = load8 demo_memory2 a.
Proof.
  apply (kfree_refines demo_heap demo_memory2 (carve 100 demo_block) (Block 0x100000 100 false));
    [exact demo_inv2 | apply list_elem_of_here | done].
Defined.


Lemma kmalloc_kfree_roundtrip_witness :
  ∃ m'', kfree 0x100010 demo_heap demo_memory2 = Done m'' ∧
    heap_inv demo_heap m'' (coalesce_blocks [demo_block]) ∧
    (coalesced [demo_block] → heap_inv demo_heap m'' [demo_block]).
Proof.
  apply (kmalloc_kfree_roundtrip demo_heap demo_memory demo_memory2 [demo_block] 100 0x100010);
    [exact demo_inv | lia | vm_compute; done | lia].
Defined.

#[local] Existing Instance Pmm.pmm_frames.

Lemma kmalloc_init_establishes_witness :
  ∃ l fs' m' h', kmalloc_init 2 Pmm.demo_pmm ∅ (Heap 0 0) = (fs', m', h') ∧
    heap_inv h' m' (page_block <$> l) ∧ frames_ok fs' ∧
    (Z.of_nat (length l) = 2 ∨ Z.of_nat (length l) < 2 ∧ frames_free fs' = 0).
Proof.
  apply (kmalloc_init_establishes 2 Pmm.demo_pmm ∅ (Heap 0 0)); [| done | lia].
  exists 0. split; [lia | apply Pmm.demo_pmm_inv].
Defined.

Lemma kmalloc_size_overflow_witness :
  ∃ m', kmalloc 0xFFFFFFFF demo_heap demo_memory = Done (0x100010, m') ∧
    heap_inv demo_heap m' [Block 0x100000 0 false; Block 0x100010 4064 true].
Proof.
  apply (kmalloc_size_overflow demo_heap demo_memory [] [] demo_block 0xFFFFFFFF);
    [exact demo_inv | constructor | done | vm_compute; done | lia].
Defined.

Lemma heap_stats_account_witness :
  ∃ st, stats_loop (walk_fuel demo_heap) 0x100000 demo_memory2 (HeapStats 0 0 0 0 0) = Done st ∧
    st = add_stats (carve 100 demo_block) (HeapStats 0 0 0 0 0) ∧ total_blocks st = 2 ∧
    free_bytes st + used_bytes st + BLOCK_HEADER_SIZE * total_blocks st = 4096.
Proof.
  apply (heap_stats_account demo_heap demo_memory2 (carve 100 demo_block));
    [exact demo_inv2 | unfold is_u32; simpl; lia].
Defined.

End Kmalloc.
