(* ===== verification/Paging.v ===== *)
(** * Paging

    Models [kernel/paging.c] and [kernel/paging.h]: two-level i386 page tables
    in physical memory.  The page directory of the kernel and the eight identity
    page tables are static arrays; their link addresses are the section variables
    [kernel_pd] and [identity_pts].  Page tables are read and written through
    their physical addresses, as the code does under the identity mapping that
    [paging_init] installs; the [invlpg] after a store is in [Tlb], since
    [translate] always walks the tables.

    [translate] is the table walk of the processor.  The theorems say what the
    operations do to it: the identity mapping, the effect of mapping a page on
    the same and on other address spaces, fresh directories, and which frames
    are given back when a directory is freed. *)

From S2P Require Import Prelude Memory Frames Vga Pmm.

Module Paging.

(** ** Constants of [paging.h] *)

Definition PDE_PRESENT : Z := Z.shiftl 1 0.
Definition PDE_WRITABLE : Z := Z.shiftl 1 1.
Definition PDE_USER : Z := Z.shiftl 1 2.
Definition PTE_PRESENT : Z := Z.shiftl 1 0.
Definition PTE_WRITABLE : Z := Z.shiftl 1 1.
Definition PTE_USER : Z := Z.shiftl 1 2.
Definition PD_ENTRIES : Z := 1024.
Definition PT_ENTRIES : Z := 1024.
Definition IDENTITY_PT_COUNT : Z := 8.
Definition IDENTITY_MAPPED_BYTES : Z := IDENTITY_PT_COUNT * PT_ENTRIES * PAGE_SIZE.

(** [~0xFFF] *)
Definition ADDR_MASK : Z := 0xFFFFF000.

(** [virt >> 22] and [(virt >> 12) & 0x3FF] *)
Definition pd_index (virt : Z) : Z := Z.shiftr virt 22.
Definition pt_index (virt : Z) : Z := Z.land (Z.shiftr virt 12) 0x3FF.

(** The static variable [kernel_pd_phys] and the control registers. *)
Record paging : Type := PagingState { kernel_pd_phys : Z; cr3 : Z; cr0_pg : bool }.

Definition paging_enable (pd_phys : Z) (s : paging) : paging :=
  PagingState (kernel_pd_phys s) pd_phys true.

(** [pd[i]], and the table a directory entry points to. *)
Definition entry (m : memory) (pd i : Z) : Z := load32 m (pd + 4 * i).
Definition set_entry (pd i v : Z) (m : memory) : memory := store32 m (pd + 4 * i) v.

Section paging.
Context {F : Type} `{!FrameAlloc F}.
Variables (kernel_pd identity_pts : Z).

(** ** [paging_init] *)

Definition identity_pt (t : Z) : Z := identity_pts + PT_ENTRIES * 4 * t.

Definition identity_table (t : Z) (m : memory) : memory :=
  let m := fill32 (Z.to_nat PT_ENTRIES) (identity_pt t)
             (λ i _, Z.lor (Z.lor (u32 (t * PT_ENTRIES * PAGE_SIZE + i * PAGE_SIZE)) PTE_PRESENT) PTE_WRITABLE) m in
  set_entry kernel_pd t (Z.lor (Z.lor (identity_pt t) PDE_PRESENT) PDE_WRITABLE) m.

Definition paging_init (s : paging) (m : memory) (v : Vga.vga) : paging * memory * Vga.vga :=
  let m := for_loop (Z.to_nat IDENTITY_PT_COUNT) 0 identity_table m in
  let s := PagingState kernel_pd (cr3 s) (cr0_pg s) in
  let s := paging_enable (kernel_pd_phys s) s in
  let v := Vga.vga_set_color Vga.VGA_COLOR_LIGHT_GREEN v in
  let v := Vga.kprints "[OK] Paging enabled (identity 0 - " v in
  let v := Vga.kprint_int (IDENTITY_PT_COUNT * 4) v in
  let v := Vga.kprint (Vga.chars "MB)" ++ [Vga.NEWLINE]) v in
  let v := Vga.vga_set_color Vga.VGA_COLOR_LIGHT_GREY v in
  (s, m, v).

(** ** Mapping a page *)

(** The allocation and zeroing of a page table, shared by the two mapping
    functions. *)
Definition fresh_table (msg : string) (fs : F) (m : memory) : outcome (Z * F * memory) :=
  let '(pt_phys, fs) := alloc_frame fs in
  if pt_phys =? 0 then Panicked msg
  else Done (pt_phys, fs, fill32 (Z.to_nat PT_ENTRIES) pt_phys (λ _ _, 0) m).

Definition paging_map (virt phys : Z) (fs : F) (m : memory) : outcome (F * memory) :=
  let pd_idx := pd_index virt in
  let pt_idx := pt_index virt in
  let! (fs, m) :=
    (if Z.land (entry m kernel_pd pd_idx) PDE_PRESENT =? 0 then
       let! (pt_phys, fs, m) := fresh_table "paging_map: out of physical memory" fs m in
       Done (fs, set_entry kernel_pd pd_idx (Z.lor (Z.lor pt_phys PDE_PRESENT) PDE_WRITABLE) m)
     else Done (fs, m)) in
  let pt := Z.land (entry m kernel_pd pd_idx) ADDR_MASK in
  Done (fs, set_entry pt pt_idx (Z.lor (Z.lor (Z.land phys ADDR_MASK) PTE_PRESENT) PTE_WRITABLE) m).

Definition paging_map_into (pd virt phys flags : Z) (fs : F) (m : memory) : outcome (F * memory) :=
  let pd_idx := pd_index virt in
  let pt_idx := pt_index virt in
  let! (fs, m) :=
    (if Z.land (entry m pd pd_idx) PDE_PRESENT =? 0 then
       let! (pt_phys, fs, m) := fresh_table "paging_map_into: out of physical memory" fs m in
       let pde_flags := Z.lor PDE_PRESENT PDE_WRITABLE in
       let pde_flags := if Z.land flags PTE_USER =? 0 then pde_flags else Z.lor pde_flags PDE_USER in
       Done (fs, set_entry pd pd_idx (Z.lor pt_phys pde_flags) m)
     else if negb (Z.land flags PTE_USER =? 0) then
       Done (fs, set_entry pd pd_idx (Z.lor (entry m pd pd_idx) PDE_USER) m)
     else Done (fs, m)) in
  let pt := Z.land (entry m pd pd_idx) ADDR_MASK in
  Done (fs, set_entry pt pt_idx (Z.lor (Z.land phys ADDR_MASK) flags) m).

(** ** Directories *)

Definition paging_create_user_pd (fs : F) (m : memory) : Z * F * memory :=
  let '(pd_phys, fs) := alloc_frame fs in
  if pd_phys =? 0 then (0, fs, m)
  else
    (pd_phys, fs,
     fill32 (Z.to_nat PD_ENTRIES) pd_phys
       (λ i m, if i <? IDENTITY_PT_COUNT then entry m kernel_pd i else 0) m).

(** The body of the loop over a directory: the frames of table [i] and the
    table itself are freed. *)
Definition free_frames_of (pt_phys : Z) (m : memory) (fs : F) : F :=
  for_loop (Z.to_nat PT_ENTRIES) 0
    (λ j fs, if Z.land (entry m pt_phys j) PTE_PRESENT =? 0 then fs
             else free_frame (Z.land (entry m pt_phys j) ADDR_MASK) fs) fs.

Definition free_table (pd i : Z) (m : memory) (fs : F) : F :=
  if Z.land (entry m pd i) PDE_PRESENT =? 0 then fs
  else
    let pt_phys := Z.land (entry m pd i) ADDR_MASK in
    free_frame pt_phys (free_frames_of pt_phys m fs).

Definition paging_free_pd (pd_phys : Z) (fs : F) (m : memory) : F :=
  if pd_phys =? 0 then fs
  else
    let fs := for_loop (Z.to_nat (PD_ENTRIES - IDENTITY_PT_COUNT)) IDENTITY_PT_COUNT
                (λ i, free_table pd_phys i m) fs in
    free_frame pd_phys fs.

(** ** Cloning *)

(** One page of the parent; the flag is [false] after the early return for a
    failed allocation, when the directory has been freed. *)
Definition clone_page (parent_pt child_pd pd_idx pt_idx : Z) (fs : F) (m : memory)
    : outcome (bool * F * memory) :=
  if Z.land (entry m parent_pt pt_idx) PTE_PRESENT =? 0 then Done (true, fs, m)
  else
    let parent_frame := Z.land (entry m parent_pt pt_idx) ADDR_MASK in
    let flags := Z.land (entry m parent_pt pt_idx) 0xFFF in
    let '(child_frame, fs) := alloc_frame fs in
    if child_frame =? 0 then Done (false, paging_free_pd child_pd fs m, m)
    else
      let m := fill8 (Z.to_nat PAGE_SIZE) child_frame (λ b m, load8 m (parent_frame + b)) m in
      let virt := Z.lor (u32 (Z.shiftl pd_idx 22)) (u32 (Z.shiftl pt_idx 12)) in
      let! (fs, m) := paging_map_into child_pd virt child_frame flags fs m in
      Done (true, fs, m).

Fixpoint clone_pages (n : nat) (parent_pt child_pd pd_idx pt_idx : Z) (fs : F) (m : memory)
    : outcome (bool * F * memory) :=
  match n with
  | O => Done (true, fs, m)
  | S n' =>
      let! (go, fs, m) := clone_page parent_pt child_pd pd_idx pt_idx fs m in
      if go : bool then clone_pages n' parent_pt child_pd pd_idx (pt_idx + 1) fs m
      else Done (false, fs, m)
  end.

Fixpoint clone_tables (n : nat) (parent_pd child_pd pd_idx : Z) (fs : F) (m : memory)
    : outcome (bool * F * memory) :=
  match n with
  | O => Done (true, fs, m)
  | S n' =>
      if Z.land (entry m parent_pd pd_idx) PDE_PRESENT =? 0 then
        clone_tables n' parent_pd child_pd (pd_idx + 1) fs m
      else
        let parent_pt := Z.land (entry m parent_pd pd_idx) ADDR_MASK in
        let! (go, fs, m) := clone_pages (Z.to_nat PT_ENTRIES) parent_pt child_pd pd_idx 0 fs m in
        if go : bool then clone_tables n' parent_pd child_pd (pd_idx + 1) fs m
        else Done (false, fs, m)
  end.

Definition paging_clone_user_space (parent_pd_phys : Z) (fs : F) (m : memory) : outcome (Z * F * memory) :=
  let '(child_pd_phys, fs, m) := paging_create_user_pd fs m in
  if child_pd_phys =? 0 then Done (0, fs, m)
  else
    let! (go, fs, m) :=
      clone_tables (Z.to_nat (PD_ENTRIES - IDENTITY_PT_COUNT)) parent_pd_phys child_pd_phys
        IDENTITY_PT_COUNT fs m in
    Done (if go : bool then child_pd_phys else 0, fs, m).

End paging.

(** ** The page walk of the processor *)

(** An access: from ring 3 or not, writing or not.  With [CR0.WP] clear, as the
    kernel leaves it, supervisor accesses ignore the writable and user bits. *)
Record access : Type := Access { acc_user : bool; acc_write : bool }.

Definition supervisor : access := Access false true.

Definition permits (a : access) (e : Z) : bool :=
  Z.testbit e 0 && (negb (acc_user a) || Z.testbit e 2) &&
  (negb (acc_user a && acc_write a) || Z.testbit e 1).

Definition translate (a : access) (m : memory) (pd va : Z) : option Z :=
  let pde := entry m pd (pd_index va) in
  if permits a pde then
    let pte := entry m (Z.land pde ADDR_MASK) (pt_index va) in
    if permits a pte then Some (Z.land pte ADDR_MASK + Z.land va 0xFFF) else None
  else None.

Definition same_page (va va' : Z) : Prop := pd_index va = pd_index va' ∧ pt_index va = pt_index va'.

(** ** Well-formed address spaces *)

Definition present (m : memory) (pd i : Z) : bool := Z.testbit (entry m pd i) 0.
Definition table (m : memory) (pd i : Z) : Z := Z.land (entry m pd i) ADDR_MASK.
Definition is_index (i : Z) : Prop := 0 <= i < 1024.

(** A page-aligned address of a page below 4 GiB. *)
Definition page_base (a : Z) : Prop := 0 < a ∧ a + PAGE_SIZE <= 2 ^ 32 ∧ a mod PAGE_SIZE = 0.

Section spaces.
Context {F : Type} `{!FrameAlloc F}.

(** A page that the frame allocator will not hand out. *)
Definition reserved (fs : F) (a : Z) : Prop := page_base a ∧ (page_addr a → in_use fs a = true).

(** A directory whose page tables are distinct reserved pages. *)
Record space_ok (fs : F) (m : memory) (pd : Z) : Prop := {
  so_pd : reserved fs pd;
  so_table i : is_index i → present m pd i = true → reserved fs (table m pd i) ∧ table m pd i ≠ pd;
  so_inj i j : is_index i → is_index j → present m pd i = true → present m pd j = true →
    table m pd i = table m pd j → i = j
}.

End spaces.

Arguments so_pd {F FrameAlloc0 fs m pd}.
Arguments so_table {F FrameAlloc0 fs m pd}.
Arguments so_inj {F FrameAlloc0 fs m pd}.

(** ** Entries *)

Lemma land_bit (x k : Z) : 0 <= k → (Z.land x (Z.shiftl 1 k) =? 0) = negb (Z.testbit x k).
Proof.
  intros Hk. rewrite Z.shiftl_1_l. destruct (Z.testbit x k) eqn:E; simpl.
  - apply Z.eqb_neq. intros H0. assert (Z.testbit (Z.land x (2 ^ k)) k = true) as H.
    { by rewrite Z.land_spec, E, Z.pow2_bits_true. }
    rewrite H0, Z.bits_0 in H. done.
  - apply Z.eqb_eq, Z.bits_inj'. intros i Hi. rewrite Z.land_spec, Z.bits_0.
    destruct (decide (i = k)) as [->|]; [by rewrite E |].
    rewrite Z.pow2_bits_false by lia. apply andb_false_r.
Qed.

Lemma mask_page (x : Z) : is_u32 x → Z.land x ADDR_MASK = x - x mod 4096.
Proof. apply land_page_mask. Qed.

Lemma offset_mod (va : Z) : Z.land va 0xFFF = va mod 4096.
Proof. apply (land_low_mask va 12). lia. Qed.

(** An entry made of a page address and flag bits. *)
Lemma entry_parts (a f : Z) :
  0 <= a → a + PAGE_SIZE <= 2 ^ 32 → a mod PAGE_SIZE = 0 → 0 <= f < 4096 →
  u32 (Z.lor a f) = Z.lor a f ∧ Z.land (Z.lor a f) ADDR_MASK = a ∧
  ∀ k, 0 <= k < 12 → Z.testbit (Z.lor a f) k = Z.testbit f k.
Proof.
  unfold PAGE_SIZE. intros Ha Hlt Hmod Hf.
  assert (Z.lor a f = a + f) as Hl by (apply (lor_low_add a f 12); [lia | done | lia]).
  split_and!.
  - rewrite Hl. apply u32_id. unfold is_u32. lia.
  - rewrite Hl, mask_page by (unfold is_u32; lia). zlia.
  - intros k Hk. rewrite Z.lor_spec. rewrite <- (Z.mod_pow2_bits_low a 12 k) by lia.
    change (2 ^ 12) with 4096. by rewrite Hmod, Z.bits_0.
Qed.

Lemma masked_base (x : Z) :
  is_u32 x → 0 <= Z.land x ADDR_MASK ∧ Z.land x ADDR_MASK + PAGE_SIZE <= 2 ^ 32 ∧
             Z.land x ADDR_MASK mod PAGE_SIZE = 0.
Proof. intros Hx. rewrite mask_page by done. unfold is_u32, PAGE_SIZE in *. zlia. Qed.

(** Setting the user bit of an entry keeps its address and other flags. *)
Lemma lor_user (e : Z) :
  is_u32 e → u32 (Z.lor e PDE_USER) = Z.lor e PDE_USER ∧
  Z.land (Z.lor e PDE_USER) ADDR_MASK = Z.land e ADDR_MASK ∧
  ∀ k, 0 <= k < 12 → Z.testbit (Z.lor e PDE_USER) k = (k =? 2) || Z.testbit e k.
Proof.
  intros He. split_and!.
  - apply u32_id, (lor_bound _ _ 32); [lia | done | split; done].
  - rewrite Z.land_lor_distr_l. change (Z.land PDE_USER ADDR_MASK) with 0. apply Z.lor_0_r.
  - intros k Hk. rewrite Z.lor_spec, orb_comm. f_equal. unfold PDE_USER.
    rewrite Z.shiftl_1_l, Z.pow2_bits_eqb by lia. apply Z.eqb_sym.
Qed.

(** ** Indices *)

Lemma pd_index_range (va : Z) : is_u32 va → is_index (pd_index va).
Proof.
  unfold is_u32, is_index, pd_index. rewrite Z.shiftr_div_pow2 by lia. intros. zlia.
Qed.

Lemma pt_index_range (va : Z) : is_index (pt_index va).
Proof.
  unfold is_index, pt_index. change 0x3FF with (Z.ones 10). rewrite Z.land_ones by lia. zlia.
Qed.

Lemma index_div (va : Z) : pd_index va = va / 2 ^ 22 ∧ pt_index va = va / 4096 mod 1024.
Proof.
  unfold pd_index, pt_index. change 0x3FF with (Z.ones 10). rewrite Z.land_ones, !Z.shiftr_div_pow2 by lia.
  done.
Qed.

#[local] Hint Resolve pd_index_range pt_index_range : stakos.

Lemma entry_set_eq (m : memory) (pd i v : Z) : entry (set_entry pd i v m) pd i = u32 v.
Proof. apply load32_store32_eq. Qed.

Lemma entry_set_ne (m : memory) (pd i pd' i' v : Z) :
  pd + 4 * i + 4 <= pd' + 4 * i' ∨ pd' + 4 * i' + 4 <= pd + 4 * i →
  entry (set_entry pd i v m) pd' i' = entry m pd' i'.
Proof. intros H. apply load32_store32_ne. lia. Qed.

Lemma entry_u32 (m : memory) (pd i : Z) : is_u32 (entry m pd i).
Proof. apply load32_range. Qed.

(** ** The effect of mapping a page *)

Section mapping.
Context {F : Type} `{!FrameAlloc F}.
Implicit Types (fs : F) (m : memory) (pd virt v t : Z).

(** [m'] is [m] with entry [pt_index virt] of the table [t] of directory [pd]
    set to [v]; the table is the one [pd] had, or a fresh zeroed frame. *)
Record mapped (fs : F) (m : memory) (fs' : F) (m' : memory) (pd virt flags v t : Z) : Prop := {
  md_ok : frames_ok fs';
  md_present : present m' pd (pd_index virt) = true;
  md_table : table m' pd (pd_index virt) = t;
  md_user : Z.testbit (entry m' pd (pd_index virt)) 2 =
            Z.testbit flags 2 || (present m pd (pd_index virt) && Z.testbit (entry m pd (pd_index virt)) 2);
  md_write : Z.testbit (entry m' pd (pd_index virt)) 1 =
             negb (present m pd (pd_index virt)) || Z.testbit (entry m pd (pd_index virt)) 1;
  md_pte : entry m' t (pt_index virt) = v;
  md_rest k : is_index k → k ≠ pt_index virt →
    entry m' t k = if present m pd (pd_index virt) then entry m t k else 0;
  md_frame : agree_on (λ a, (a < pd + 4 * pd_index virt ∨ pd + 4 * pd_index virt + 4 <= a) ∧
                            (a < t ∨ t + PAGE_SIZE <= a)) m m';
  md_reserved : reserved fs' t;
  md_ne : t ≠ pd;
  md_old : present m pd (pd_index virt) = true → t = table m pd (pd_index virt) ∧ fs' = fs;
  md_new : present m pd (pd_index virt) = false → page_addr t ∧ in_use fs t = false ∧
    ∀ b, page_addr b → in_use fs' b = (b =? t) || in_use fs b;
  md_count : frames_free fs - 1 <= frames_free fs'
}.

#[local] Arguments md_ok {fs m fs' m' pd virt flags v t}.
#[local] Arguments md_present {fs m fs' m' pd virt flags v t}.
#[local] Arguments md_table {fs m fs' m' pd virt flags v t}.
#[local] Arguments md_pte {fs m fs' m' pd virt flags v t}.
#[local] Arguments md_rest {fs m fs' m' pd virt flags v t}.
#[local] Arguments md_frame {fs m fs' m' pd virt flags v t}.
#[local] Arguments md_reserved {fs m fs' m' pd virt flags v t}.
#[local] Arguments md_ne {fs m fs' m' pd virt flags v t}.
#[local] Arguments md_old {fs m fs' m' pd virt flags v t}.
#[local] Arguments md_new {fs m fs' m' pd virt flags v t}.

Lemma page_base_apart (a b : Z) :
  page_base a → page_base b → a ≠ b → a + PAGE_SIZE <= b ∨ b + PAGE_SIZE <= a.
Proof. unfold page_base, PAGE_SIZE. intros. zlia. Qed.

Lemma page_addr_base (a : Z) : page_addr a → page_base a.
Proof. unfold page_addr, page_base, PAGE_SIZE, MAX_FRAMES. lia. Qed.

(** The last step of both mapping functions: the table entry is written. *)
Lemma set_pte_effect (m : memory) (pd i e t j v : Z) :
  is_index i → is_index j → page_base pd → page_base t → t ≠ pd →
  entry m pd i = e → 
  let m' := set_entry t j v m in
  entry m' pd i = e ∧ entry m' t j = u32 v ∧ 
  (∀ k, is_index k → k ≠ j → entry m' t k = entry m t k) ∧
  agree_on (λ a, a < t ∨ t + PAGE_SIZE <= a) m m'.
Proof.
  intros Hi Hj Hpd Ht Hne He m'. unfold is_index in *.
  pose proof (page_base_apart t pd Ht Hpd Hne) as Hap. unfold PAGE_SIZE in *. split_and!.
  - unfold m'. rewrite entry_set_ne; [done | lia].
  - apply entry_set_eq.
  - intros k Hk Hkj. unfold m'. rewrite entry_set_ne; [done | lia].
  - eapply agree_on_weaken; [apply agree_store32 |]. simpl. lia.
Qed.

Lemma fresh_table_cases (msg : string) (fs : F) (m : memory) :
  frames_ok fs →
  (∃ t fs' m1, fresh_table msg fs m = Done (t, fs', m1) ∧ page_addr t ∧ in_use fs t = false ∧
     frames_ok fs' ∧ (∀ b, page_addr b → in_use fs' b = (b =? t) || in_use fs b) ∧
     (∀ k, is_index k → entry m1 t k = 0) ∧ agree_outside t (t + PAGE_SIZE) m m1 ∧
     frames_free fs' = frames_free fs - 1) ∨
  (fresh_table msg fs m = Panicked msg ∧ frames_free fs = 0).
Proof.
  intros Hok. unfold fresh_table.
  destruct (alloc_frame_spec fs Hok) as [(a & fs' & -> & Ha & Hu & Hok' & Hn & Hu')|[-> Hz]]; [left | by right].
  destruct (Z.eqb_spec a 0); [by apply page_addr_nonzero in Ha |].
  destruct (fill32_spec (Z.to_nat PT_ENTRIES) a (λ _ _, 0) m) as [H1 H2]; [done |].
  eexists a, fs', _. split; [done |]. split_and!; done.
Qed.

(** The flags a fresh directory entry gets. *)
Lemma pde_flags_bits (flags : Z) :
  let f := if Z.land flags PTE_USER =? 0 then Z.lor PDE_PRESENT PDE_WRITABLE
           else Z.lor (Z.lor PDE_PRESENT PDE_WRITABLE) PDE_USER in
  0 <= f < 4096 ∧ Z.testbit f 0 = true ∧ Z.testbit f 1 = true ∧ Z.testbit f 2 = Z.testbit flags 2.
Proof.
  unfold PTE_USER. rewrite land_bit by lia. by destruct (Z.testbit flags 2).
Qed.

Lemma present_land (m : memory) (pd i : Z) :
  (Z.land (entry m pd i) PDE_PRESENT =? 0) = negb (present m pd i).
Proof. apply land_bit. lia. Qed.

Lemma entry_agree (P : Z → Prop) (m m' : memory) (pd i : Z) :
  agree_on P m m' → (∀ b, pd + 4 * i <= b < pd + 4 * i + 4 → P b) → entry m' pd i = entry m pd i.
Proof. apply agree_on_load32. Qed.

(** Both mapping functions end by writing the entry of a table [t] whose
    directory entry is in place in [m1]. *)
Lemma mapped_intro (fs fs' : F) (m m1 : memory) (pd virt flags v t : Z) :
  is_u32 virt → page_base pd → t ≠ pd → frames_ok fs' → reserved fs' t → is_u32 v →
  present m1 pd (pd_index virt) = true → table m1 pd (pd_index virt) = t →
  Z.testbit (entry m1 pd (pd_index virt)) 2 =
    Z.testbit flags 2 || (present m pd (pd_index virt) && Z.testbit (entry m pd (pd_index virt)) 2) →
  Z.testbit (entry m1 pd (pd_index virt)) 1 =
    negb (present m pd (pd_index virt)) || Z.testbit (entry m pd (pd_index virt)) 1 →
  (∀ k, is_index k → entry m1 t k = if present m pd (pd_index virt) then entry m t k else 0) →
  agree_on (λ a, (a < pd + 4 * pd_index virt ∨ pd + 4 * pd_index virt + 4 <= a) ∧
                 (a < t ∨ t + PAGE_SIZE <= a)) m m1 →
  (present m pd (pd_index virt) = true → t = table m pd (pd_index virt) ∧ fs' = fs) →
  (present m pd (pd_index virt) = false → page_addr t ∧ in_use fs t = false ∧
    ∀ b, page_addr b → in_use fs' b = (b =? t) || in_use fs b) →
  frames_free fs - 1 <= frames_free fs' →
  mapped fs m fs' (set_entry t (pt_index virt) v m1) pd virt flags v t.
Proof.
  intros Hv Hpd Hne Hok Ht Hu Hp Htb Hus Hwr Hk Hag Hold Hnew Hn.
  destruct (set_pte_effect m1 pd (pd_index virt) _ t (pt_index virt) v (pd_index_range virt Hv)
    (pt_index_range virt) Hpd (proj1 Ht) Hne eq_refl) as (E1 & E2 & E3 & E4).
  split; unfold present, table in *; rewrite ?E1; try done.
  - rewrite E2. by apply u32_id.
  - intros k Hki Hkj. rewrite E3 by done. by apply Hk.
  - intros a [Ha1 Ha2]. rewrite E4 by done. by apply Hag.
Qed.

(** A directory entry set to [w], keeping or installing the table [t]. *)
Lemma set_pde_effect (m1 : memory) (pd i w t : Z) :
  is_index i → page_base pd → page_base t → t ≠ pd → u32 w = w →
  let m2 := set_entry pd i w m1 in
  entry m2 pd i = w ∧ (∀ k, is_index k → entry m2 t k = entry m1 t k) ∧
  agree_on (λ a, a < pd + 4 * i ∨ pd + 4 * i + 4 <= a) m1 m2.
Proof.
  intros Hi Hpd Ht Hne Hw m2. pose proof (page_base_apart t pd Ht Hpd Hne).
  unfold is_index, PAGE_SIZE in *. split_and!.
  - unfold m2. by rewrite entry_set_eq.
  - intros k Hk. unfold m2. rewrite entry_set_ne; [done | lia].
  - apply agree_store32.
Qed.

Lemma fresh_table_reserved (fs fs' : F) (m : memory) (pd t : Z) :
  space_ok fs m pd → page_addr t → in_use fs t = false →
  (∀ b, page_addr b → in_use fs' b = (b =? t) || in_use fs b) → t ≠ pd ∧ reserved fs' t.
Proof.
  intros Hs Ht Hu Hu'. split.
  - intros ->. rewrite (proj2 (so_pd Hs) Ht) in Hu. done.
  - split; [by apply page_addr_base |]. intros _. by rewrite Hu', Z.eqb_refl.
Qed.

(** A fresh zeroed table [t] installed in the directory and its entry written. *)
Lemma mapped_fresh (fs fs' : F) (m m1 : memory) (pd virt f flags v t : Z) :
  space_ok fs m pd → is_u32 virt → is_u32 v → present m pd (pd_index virt) = false →
  page_addr t → in_use fs t = false → frames_ok fs' →
  (∀ b, page_addr b → in_use fs' b = (b =? t) || in_use fs b) →
  (∀ k, is_index k → entry m1 t k = 0) → agree_outside t (t + PAGE_SIZE) m m1 →
  frames_free fs' = frames_free fs - 1 →
  0 <= f < 4096 → Z.testbit f 0 = true → Z.testbit f 1 = true → Z.testbit f 2 = Z.testbit flags 2 →
  let m2 := set_entry pd (pd_index virt) (Z.lor t f) m1 in
  Z.land (entry m2 pd (pd_index virt)) ADDR_MASK = t ∧
  mapped fs m fs' (set_entry t (pt_index virt) v m2) pd virt flags v t.
Proof.
  intros Hs Hv Hvv Hp Ht Hu Hok Hu' Hz Hag Hn Hf Hf0 Hf1 Hf2 m2.
  destruct (fresh_table_reserved _ _ _ _ _ Hs Ht Hu Hu') as [Hne Hr].
  destruct (entry_parts t f) as (P1 & P2 & P3); [apply page_addr_base in Ht; unfold page_base in Ht; lia.. |].
  destruct (set_pde_effect m1 pd (pd_index virt) (Z.lor t f) t) as (E1 & E2 & E3);
    [by apply pd_index_range | apply (so_pd Hs) | apply Hr | done | done |].
  fold m2 in E1, E2, E3. split; [by rewrite E1 |].
  apply mapped_intro; unfold present, table in *; rewrite ?E1, ?P3 by lia; try done.
  - apply (so_pd Hs).
  - by rewrite Hf2, Hp, orb_false_r.
  - by rewrite Hf1, Hp.
  - intros k Hk. by rewrite E2, Hz, Hp.
  - intros a [Ha1 Ha2]. rewrite E3 by done. by apply Hag.
  - congruence.
  - lia.
Qed.

(** The entry of an existing table written, after the directory entry was
    possibly given more flags. *)
Lemma mapped_existing (fs : F) (m m2 : memory) (pd virt flags v : Z) :
  space_ok fs m pd → is_u32 virt → is_u32 v → frames_ok fs → present m pd (pd_index virt) = true →
  let t := table m pd (pd_index virt) in
  let w := entry m2 pd (pd_index virt) in
  (∀ k, is_index k → entry m2 t k = entry m t k) →
  agree_on (λ a, a < pd + 4 * pd_index virt ∨ pd + 4 * pd_index virt + 4 <= a) m m2 →
  Z.land w ADDR_MASK = t → Z.testbit w 0 = true →
  Z.testbit w 1 = Z.testbit (entry m pd (pd_index virt)) 1 →
  Z.testbit w 2 = Z.testbit flags 2 || Z.testbit (entry m pd (pd_index virt)) 2 →
  mapped fs m fs (set_entry t (pt_index virt) v m2) pd virt flags v t.
Proof.
  intros Hs Hv Hvv Hok Hp t w Hk Hag Ht Hw0 Hw1 Hw2. pose proof (pd_index_range virt Hv) as Hi.
  destruct (so_table Hs _ Hi Hp) as [Hr Hne].
  apply mapped_intro; rewrite ?Hp; try done.
  - apply (so_pd Hs).
  - intros a [Ha1 Ha2]. by apply Hag.
  - lia.
Qed.

Lemma map_into_cases (fs : F) (m : memory) (pd virt phys flags : Z) :
  frames_ok fs → space_ok fs m pd → is_u32 virt → is_u32 phys → 0 <= flags < 4096 →
  (∃ fs' m' t, paging_map_into pd virt phys flags fs m = Done (fs', m') ∧
     mapped fs m fs' m' pd virt flags (Z.lor (Z.land phys ADDR_MASK) flags) t) ∨
  (paging_map_into pd virt phys flags fs m = Panicked "paging_map_into: out of physical memory" ∧
   frames_free fs = 0 ∧ present m pd (pd_index virt) = false).
Proof.
  intros Hok Hs Hv Hph Hfl. destruct (masked_base phys Hph) as (B1 & B2 & B3).
  assert (is_u32 (Z.lor (Z.land phys ADDR_MASK) flags)) as Hu.
  { destruct (entry_parts (Z.land phys ADDR_MASK) flags) as (<- & _); [done.. | apply u32_range]. }
  unfold paging_map_into. rewrite present_land.
  destruct (present m pd (pd_index virt)) eqn:Hp; cbn [negb].
  - left. pose proof (pd_index_range virt Hv) as Hi. destruct (so_table Hs _ Hi Hp) as [Hr Hne].
    unfold PTE_USER. rewrite land_bit by lia. rewrite negb_involutive.
    destruct (Z.testbit flags 2) eqn:Hf2; cbn [obind].
    + destruct (lor_user (entry m pd (pd_index virt)) (entry_u32 _ _ _)) as (L1 & L2 & L3).
      destruct (set_pde_effect m pd (pd_index virt) (Z.lor (entry m pd (pd_index virt)) PDE_USER)
        (table m pd (pd_index virt)) Hi (proj1 (so_pd Hs)) (proj1 Hr) Hne L1) as (E1 & E2 & E3).
      rewrite E1, L2. eexists fs, _, _. split; [reflexivity |].
      apply mapped_existing; try done; rewrite E1, ?L3 by lia; try done.
      by rewrite Hf2.
    + eexists fs, _, _. split; [reflexivity |].
      by apply mapped_existing; try done; rewrite Hf2.
  - destruct (fresh_table_cases "paging_map_into: out of physical memory" fs m Hok)
      as [(t & fs' & m1 & -> & Ht & Hut & Hok' & Hu' & Hz & Hag & Hn)|[-> Hz]]; [| by right].
    left. cbn [obind]. destruct (pde_flags_bits flags) as (G1 & G2 & G3 & G4).
    edestruct (mapped_fresh fs fs' m m1 pd virt) as [Heq Hm]; [done.. |]. rewrite Heq.
    eexists fs', _, t. split; [reflexivity | exact Hm].
Qed.

Lemma map_cases (kernel_pd : Z) (fs : F) (m : memory) (virt phys : Z) :
  frames_ok fs → space_ok fs m kernel_pd → is_u32 virt → is_u32 phys →
  (∃ fs' m' t, paging_map kernel_pd virt phys fs m = Done (fs', m') ∧
     mapped fs m fs' m' kernel_pd virt 3 (Z.lor (Z.land phys ADDR_MASK) 3) t) ∨
  (paging_map kernel_pd virt phys fs m = Panicked "paging_map: out of physical memory" ∧
   frames_free fs = 0 ∧ present m kernel_pd (pd_index virt) = false).
Proof.
  intros Hok Hs Hv Hph. destruct (masked_base phys Hph) as (B1 & B2 & B3).
  assert (is_u32 (Z.lor (Z.land phys ADDR_MASK) 3)) as Hu.
  { destruct (entry_parts (Z.land phys ADDR_MASK) 3) as (<- & _); [done.. | apply u32_range]. }
  unfold paging_map. rewrite present_land, <- Z.lor_assoc. change (Z.lor PTE_PRESENT PTE_WRITABLE) with 3.
  destruct (present m kernel_pd (pd_index virt)) eqn:Hp; cbn [negb].
  - left. cbn [obind]. eexists fs, _, _. split; [reflexivity |]. by apply mapped_existing.
  - destruct (fresh_table_cases "paging_map: out of physical memory" fs m Hok)
      as [(t & fs' & m1 & -> & Ht & Hut & Hok' & Hu' & Hz & Hag & Hn)|[-> Hz]]; [| by right].
    left. cbn [obind]. rewrite <- Z.lor_assoc. change (Z.lor PDE_PRESENT PDE_WRITABLE) with 3.
    edestruct (mapped_fresh fs fs' m m1 kernel_pd virt 3 3) as [Heq Hm]; [done.. |].
    rewrite Heq. eexists fs', _, t. split; [reflexivity | exact Hm].
Qed.

(** ** Consequences for address translation *)

Section mapped.
Variables (fs fs' : F) (m m' : memory) (pd virt flags v t : Z).
Hypothesis (Hm : mapped fs m fs' m' pd virt flags v t).
Hypothesis (Hs : space_ok fs m pd).
Hypothesis (Hv : is_u32 virt).

Lemma mapped_in_use (b : Z) : page_addr b → in_use fs b = true → in_use fs' b = true.
Proof.
  intros Hb Hu. destruct (present m pd (pd_index virt)) eqn:Hp.
  - by destruct (md_old Hm Hp) as [_ ->].
  - destruct (md_new Hm Hp) as (_ & _ & ->); [| done]. by rewrite Hu, orb_true_r.
Qed.

Lemma mapped_reserved (b : Z) : reserved fs b → reserved fs' b.
Proof. intros [H1 H2]. split; [done |]. intros Hb. by apply mapped_in_use, H2. Qed.

(** Pages other than the directory and the table keep their entries. *)
Lemma mapped_page (q k : Z) :
  page_base q → q ≠ pd → q ≠ t → is_index k → entry m' q k = entry m q k.
Proof.
  intros Hq Hqp Hqt Hk. eapply entry_agree; [apply (md_frame Hm) |].
  pose proof (page_base_apart q pd Hq (proj1 (so_pd Hs)) Hqp).
  pose proof (page_base_apart q t Hq (proj1 (md_reserved Hm)) Hqt).
  pose proof (pd_index_range virt Hv). unfold is_index, PAGE_SIZE in *. simpl. lia.
Qed.

Lemma mapped_pde (i : Z) : is_index i → i ≠ pd_index virt → entry m' pd i = entry m pd i.
Proof.
  intros Hi Hne. eapply entry_agree; [apply (md_frame Hm) |].
  pose proof (page_base_apart pd t (proj1 (so_pd Hs)) (proj1 (md_reserved Hm))
    (not_eq_sym (md_ne Hm))).
  pose proof (pd_index_range virt Hv). unfold is_index, PAGE_SIZE in *. simpl. lia.
Qed.

(** No other present entry of the directory uses the table. *)
Lemma mapped_table_ne (i : Z) :
  is_index i → i ≠ pd_index virt → present m pd i = true → table m pd i ≠ t.
Proof.
  intros Hi Hne Hpi Heq. destruct (so_table Hs i Hi Hpi) as [Hr _].
  destruct (present m pd (pd_index virt)) eqn:Hp.
  - destruct (md_old Hm Hp) as [Ht _]. apply Hne.
    apply (so_inj Hs); [done | by apply pd_index_range | done | done | congruence].
  - destruct (md_new Hm Hp) as (Ht & Hu & _).
    rewrite Heq in Hr. rewrite (proj2 Hr Ht) in Hu. done.
Qed.

Lemma mapped_space_ok : space_ok fs' m' pd.
Proof.
  pose proof (pd_index_range virt Hv) as Hi.
  assert (∀ i, is_index i → i ≠ pd_index virt → present m' pd i = present m pd i ∧ table m' pd i = table m pd i)
    as Hot.
  { intros i Hi' Hne. unfold present, table. by rewrite mapped_pde. }
  split.
  - apply mapped_reserved, (so_pd Hs).
  - intros i Hi' Hp. destruct (decide (i = pd_index virt)) as [->|Hne].
    + rewrite (md_table Hm). split; [apply Hm | apply Hm].
    + destruct (Hot i Hi' Hne) as [E1 E2]. rewrite E1 in Hp. rewrite E2.
      destruct (so_table Hs i Hi' Hp). split; [by apply mapped_reserved | done].
  - intros i j Hi' Hj' Hpi Hpj. destruct (decide (i = pd_index virt)) as [->|Hnei];
      destruct (decide (j = pd_index virt)) as [->|Hnej]; [done | | |];
      rewrite ?(md_table Hm).
    + destruct (Hot j Hj' Hnej) as [E1 E2]. rewrite E1 in Hpj. rewrite E2.
      intros Heq. by destruct (mapped_table_ne j Hj' Hnej Hpj).
    + destruct (Hot i Hi' Hnei) as [E1 E2]. rewrite E1 in Hpi. rewrite E2.
      intros Heq. by destruct (mapped_table_ne i Hi' Hnei Hpi).
    + destruct (Hot i Hi' Hnei) as [E1 E2]. destruct (Hot j Hj' Hnej) as [E3 E4].
      rewrite E1 in Hpi. rewrite E3 in Hpj. rewrite E2, E4. by apply (so_inj Hs).
Qed.

(** The walk of the page just mapped. *)
Lemma mapped_translate (a : access) (va : Z) :
  same_page va virt →
  translate a m' pd va =
    if permits a (entry m' pd (pd_index virt)) && permits a v
    then Some (Z.land v ADDR_MASK + va mod 4096) else None.
Proof.
  intros [E1 E2]. unfold translate. rewrite E1, E2.
  change (Z.land (entry m' pd (pd_index virt)) ADDR_MASK) with (table m' pd (pd_index virt)).
  rewrite (md_table Hm), (md_pte Hm), offset_mod.
  by destruct (permits a _), (permits a v).
Qed.

(** The walks of the other windows of the same directory, for any access. *)
Lemma mapped_translate_window (a : access) (va : Z) :
  is_u32 va → pd_index va ≠ pd_index virt → translate a m' pd va = translate a m pd va.
Proof.
  intros Hva Hne. unfold translate. pose proof (pd_index_range va Hva) as Hi. rewrite mapped_pde by done.
  destruct (permits a (entry m pd (pd_index va))) eqn:Hp; [| done].
  assert (present m pd (pd_index va) = true) as Hpi.
  { unfold permits in Hp. unfold present. by destruct (Z.testbit _ 0). }
  destruct (so_table Hs _ Hi Hpi) as [Hr Htp]. pose proof (mapped_table_ne _ Hi Hne Hpi) as Htt.
  unfold table in *. rewrite mapped_page; [done | apply Hr | done | done | apply pt_index_range].
Qed.

(** The walks of the other pages of the same window, for the supervisor. *)
Lemma mapped_translate_other (va : Z) :
  is_u32 va → ~ same_page va virt → translate supervisor m' pd va = translate supervisor m pd va.
Proof.
  intros Hva Hne. destruct (decide (pd_index va = pd_index virt)) as [Heq|];
    [| by apply mapped_translate_window].
  assert (pt_index va ≠ pt_index virt) as Hpt by (unfold same_page in Hne; tauto).
  unfold translate, permits, supervisor. cbn [acc_user acc_write negb orb andb]. rewrite !andb_true_r, Heq.
  fold (present m' pd (pd_index virt)) (present m pd (pd_index virt)).
  fold (table m' pd (pd_index virt)) (table m pd (pd_index virt)).
  rewrite (md_present Hm), (md_table Hm).
  rewrite (md_rest Hm) by (done || apply pt_index_range).
  destruct (present m pd (pd_index virt)) eqn:Hp; [| done].
  by destruct (md_old Hm Hp) as [-> _].
Qed.

(** Translations of other pages are never lost, for any access. *)
Lemma mapped_translate_mono (a : access) (va x : Z) :
  is_u32 va → ~ same_page va virt → translate a m pd va = Some x → translate a m' pd va = Some x.
Proof.
  intros Hva Hne. destruct (decide (pd_index va = pd_index virt)) as [Heq|];
    [| by rewrite mapped_translate_window].
  assert (pt_index va ≠ pt_index virt) as Hpt by (unfold same_page in Hne; tauto).
  unfold translate. rewrite Heq. destruct (permits a (entry m pd (pd_index virt))) eqn:Hp; [| done].
  assert (present m pd (pd_index virt) = true) as Hpi.
  { unfold permits in Hp. unfold present. by destruct (Z.testbit _ 0). }
  assert (permits a (entry m' pd (pd_index virt)) = true) as ->.
  { pose proof (md_present Hm) as P0. pose proof (md_user _ _ _ _ _ _ _ _ _ Hm) as P2.
    pose proof (md_write _ _ _ _ _ _ _ _ _ Hm) as P1. unfold present in *. rewrite Hpi in P1, P2.
    unfold permits in *. rewrite P0, P1, P2. rewrite Hpi in Hp.
    destruct (acc_user a), (acc_write a), (Z.testbit (entry m pd _) 2), (Z.testbit (entry m pd _) 1),
      (Z.testbit flags 2); done. }
  fold (table m' pd (pd_index virt)) (table m pd (pd_index virt)).
  destruct (md_old Hm Hpi) as [Ht _]. rewrite (md_table Hm), <- Ht.
  by rewrite (md_rest Hm), Hpi by (done || apply pt_index_range).
Qed.

(** Reserved pages other than the directory and its tables keep their bytes. *)
Lemma mapped_bytes (q : Z) :
  reserved fs q → q ≠ pd → (∀ i, is_index i → present m pd i = true → table m pd i ≠ q) →
  agree_on (λ a, q <= a < q + PAGE_SIZE) m m' ∧
  (∀ i, is_index i → present m' pd i = true → table m' pd i ≠ q).
Proof.
  intros [Hq Hqu] Hqp Hqt. pose proof (pd_index_range virt Hv) as Hi.
  assert (q ≠ t) as Hqt'.
  { intros ->. destruct (present m pd (pd_index virt)) eqn:Hp.
    - destruct (md_old Hm Hp) as [Ht _]. by apply (Hqt (pd_index virt)).
    - destruct (md_new Hm Hp) as (Ht & Hu & _). rewrite (Hqu Ht) in Hu. done. }
  pose proof (page_base_apart q pd Hq (proj1 (so_pd Hs)) Hqp) as A1.
  pose proof (page_base_apart q t Hq (proj1 (md_reserved Hm)) Hqt') as A2. split.
  - eapply agree_on_weaken; [apply (md_frame Hm) |]. unfold is_index, PAGE_SIZE in *. simpl. lia.
  - intros i Hii. destruct (decide (i = pd_index virt)) as [->|Hne].
    + rewrite (md_table Hm). intros _. by apply not_eq_sym.
    + unfold present, table. rewrite mapped_pde by done. by apply Hqt.
Qed.

End mapped.

(** ** Two address spaces *)

(** The page tables of the user windows of [pd1] are not used by [pd2]. *)
Record isolated (m : memory) (pd1 pd2 : Z) : Prop := {
  iso_ne : pd1 ≠ pd2;
  iso_tables i j : is_index i → is_index j → IDENTITY_PT_COUNT <= i →
    present m pd1 i = true → present m pd2 j = true → table m pd1 i ≠ table m pd2 j;
  iso_dir1 i : is_index i → present m pd1 i = true → table m pd1 i ≠ pd2;
  iso_dir2 j : is_index j → present m pd2 j = true → table m pd2 j ≠ pd1
}.

Section other_space.
Variables (fs fs' : F) (m m' : memory) (pd virt flags v t pd2 : Z).
Hypothesis (Hm : mapped fs m fs' m' pd virt flags v t).
Hypothesis (Hs : space_ok fs m pd).
Hypothesis (Hs2 : space_ok fs m pd2).
Hypothesis (Hv : is_u32 virt).
Hypothesis (Hiso : isolated m pd pd2).
Hypothesis (Hidx : IDENTITY_PT_COUNT <= pd_index virt).

(** The table written is neither the other directory nor one of its tables. *)
Lemma other_table : t ≠ pd2 ∧ ∀ j, is_index j → present m pd2 j = true → table m pd2 j ≠ t.
Proof.
  pose proof (pd_index_range virt Hv) as Hi. destruct (present m pd (pd_index virt)) eqn:Hp.
  - destruct (md_old Hm Hp) as [-> _]. split; [by apply (iso_dir1 _ _ _ Hiso) |].
    intros j Hj Hpj. apply not_eq_sym. by apply (iso_tables _ _ _ Hiso).
  - destruct (md_new Hm Hp) as (Ht & Hu & _). split.
    + intros ->. rewrite (proj2 (so_pd Hs2) Ht) in Hu. done.
    + intros j Hj Hpj Heq. destruct (so_table Hs2 j Hj Hpj) as [Hr _]. rewrite Heq in Hr.
      rewrite (proj2 Hr Ht) in Hu. done.
Qed.

Lemma other_pde (j : Z) : is_index j → entry m' pd2 j = entry m pd2 j.
Proof.
  intros Hj. apply (mapped_page fs fs' m m' pd virt flags v t Hm Hs Hv); [apply (so_pd Hs2) | | | done].
  - apply not_eq_sym, (iso_ne _ _ _ Hiso).
  - apply not_eq_sym, other_table.
Qed.

Lemma other_translate (a : access) (va : Z) : is_u32 va → translate a m' pd2 va = translate a m pd2 va.
Proof.
  intros Hva. pose proof (pd_index_range va Hva) as Hi. unfold translate. rewrite other_pde by done.
  destruct (permits a (entry m pd2 (pd_index va))) eqn:Hp; [| done].
  assert (present m pd2 (pd_index va) = true) as Hpi.
  { unfold permits in Hp. unfold present. by destruct (Z.testbit _ 0). }
  pose proof (proj2 other_table _ Hi Hpi) as Hne. pose proof (iso_dir2 _ _ _ Hiso _ Hi Hpi) as Hne'.
  destruct (so_table Hs2 _ Hi Hpi) as [[Hb _] _]. unfold table in *.
  rewrite (mapped_page fs fs' m m' pd virt flags v t Hm Hs Hv); [done | done | done | done | apply pt_index_range].
Qed.

Lemma other_space_ok : space_ok fs' m' pd2.
Proof.
  split.
  - apply (mapped_reserved _ _ _ _ _ _ _ _ _ Hm), (so_pd Hs2).
  - intros i Hi. unfold present, table. rewrite other_pde by done. intros Hp.
    destruct (so_table Hs2 i Hi Hp). split; [by apply (mapped_reserved _ _ _ _ _ _ _ _ _ Hm) | done].
  - intros i j Hi Hj. unfold present, table. rewrite !other_pde by done. by apply (so_inj Hs2).
Qed.

Lemma other_isolated : isolated m' pd pd2.
Proof.
  destruct other_table as [T1 T2]. pose proof (pd_index_range virt Hv) as Hix.
  assert (∀ j, is_index j → present m' pd2 j = present m pd2 j ∧ table m' pd2 j = table m pd2 j) as H2.
  { intros j Hj. unfold present, table. by rewrite other_pde. }
  assert (∀ i, is_index i → i ≠ pd_index virt → present m' pd i = present m pd i ∧ table m' pd i = table m pd i) as H1.
  { intros i Hi Hne. unfold present, table. by rewrite (mapped_pde fs fs' m m' pd virt flags v t Hm Hs Hv). }
  split; [apply Hiso | | |].
  - intros i j Hi Hj Hge Hpi Hpj. destruct (H2 j Hj) as [E1 E2]. rewrite E2. rewrite E1 in Hpj.
    destruct (decide (i = pd_index virt)) as [->|Hne].
    + rewrite (md_table Hm). apply not_eq_sym. by apply T2.
    + destruct (H1 i Hi Hne) as [E3 E4]. rewrite E4. rewrite E3 in Hpi. by apply (iso_tables _ _ _ Hiso).
  - intros i Hi Hpi. destruct (decide (i = pd_index virt)) as [->|Hne]; [by rewrite (md_table Hm) |].
    destruct (H1 i Hi Hne) as [E3 E4]. rewrite E4. rewrite E3 in Hpi. by apply (iso_dir1 _ _ _ Hiso).
  - intros j Hj Hpj. destruct (H2 j Hj) as [E1 E2]. rewrite E2. rewrite E1 in Hpj.
    by apply (iso_dir2 _ _ _ Hiso).
Qed.

End other_space.

End mapping.

(** ** Directories *)

Section directories.
Context {F : Type} `{!FrameAlloc F}.

Lemma create_cases (kernel_pd : Z) (fs : F) (m : memory) :
  frames_ok fs → reserved fs kernel_pd →
  (∃ pd fs' m', paging_create_user_pd kernel_pd fs m = (pd, fs', m') ∧
     alloc_frame fs = (pd, fs') ∧ page_addr pd ∧ in_use fs pd = false ∧ frames_ok fs' ∧
     (∀ b, page_addr b → in_use fs' b = (b =? pd) || in_use fs b) ∧
     (∀ i, is_index i → entry m' pd i = if i <? IDENTITY_PT_COUNT then entry m kernel_pd i else 0) ∧
     agree_outside pd (pd + PAGE_SIZE) m m') ∨
  (paging_create_user_pd kernel_pd fs m = (0, fs, m) ∧ frames_free fs = 0).
Proof.
  intros Hok [Hkb Hku]. unfold paging_create_user_pd.
  destruct (alloc_frame_spec fs Hok) as [(a & fs' & -> & Ha & Hu & Hok' & _ & Hu')|[-> Hz]]; [left | by right].
  destruct (Z.eqb_spec a 0); [by apply page_addr_nonzero in Ha |].
  destruct (fill32_spec (Z.to_nat PD_ENTRIES) a
    (λ i m, if i <? IDENTITY_PT_COUNT then entry m kernel_pd i else 0) m) as [H1 H2].
  - intros i m1 Hi Hag. destruct (i <? IDENTITY_PT_COUNT); [| done].
    assert (kernel_pd ≠ a) as Hne by (intros ->; rewrite (Hku Ha) in Hu; done).
    pose proof (page_base_apart kernel_pd a Hkb (page_addr_base a Ha) Hne).
    eapply entry_agree; [exact Hag |]. unfold PD_ENTRIES, PAGE_SIZE in *. simpl. lia.
  - eexists a, fs', _. split; [done |]. split_and!; try done.
    intros i Hi. unfold entry at 1. rewrite H2 by exact Hi.
    destruct (i <? IDENTITY_PT_COUNT); [| done]. apply u32_id, entry_u32.
Qed.

(** The new directory is well formed and so are the directories there were. *)
Lemma create_space_ok (kernel_pd : Z) (fs fs' : F) (m m' : memory) (pd : Z) :
  space_ok fs m kernel_pd → page_addr pd → in_use fs pd = false →
  (∀ b, page_addr b → in_use fs' b = (b =? pd) || in_use fs b) →
  (∀ i, is_index i → entry m' pd i = if i <? IDENTITY_PT_COUNT then entry m kernel_pd i else 0) →
  space_ok fs' m' pd.
Proof.
  intros Hk Hpd Hu Hu' He.
  assert (∀ i, is_index i → present m' pd i = true → present m kernel_pd i = true ∧ table m' pd i = table m kernel_pd i) as Hp.
  { intros i Hi. unfold present, table. rewrite He by done.
    destruct (i <? IDENTITY_PT_COUNT); [done |]. by rewrite Z.bits_0. }
  split.
  - split; [by apply page_addr_base |]. intros _. by rewrite Hu', Z.eqb_refl.
  - intros i Hi Hpi. destruct (Hp i Hi Hpi) as [P1 ->]. destruct (so_table Hk i Hi P1) as [[Q1 Q2] _].
    split.
    + split; [done |]. intros Ha. by rewrite Hu', (Q2 Ha), orb_true_r.
    + intros Heq. rewrite Heq in Q2. rewrite (Q2 Hpd) in Hu. done.
  - intros i j Hi Hj Hpi Hpj. destruct (Hp i Hi Hpi) as [P1 ->]. destruct (Hp j Hj Hpj) as [P2 ->].
    by apply (so_inj Hk).
Qed.

Lemma create_keeps_space (fs fs' : F) (m m' : memory) (pd q : Z) :
  space_ok fs m q → page_addr pd → in_use fs pd = false →
  (∀ b, page_addr b → in_use fs' b = (b =? pd) || in_use fs b) →
  agree_outside pd (pd + PAGE_SIZE) m m' →
  space_ok fs' m' q ∧ (∀ i, is_index i → entry m' q i = entry m q i) ∧
  ∀ a va, is_u32 va → translate a m' q va = translate a m q va.
Proof.
  intros Hq Hpd Hu Hu' Hag.
  assert (∀ r k, reserved fs r → is_index k → entry m' r k = entry m r k) as He.
  { intros r k [Hr Hru] Hk. assert (r ≠ pd) as Hne by (intros ->; rewrite (Hru Hpd) in Hu; done).
    pose proof (page_base_apart r pd Hr (page_addr_base pd Hpd) Hne).
    eapply entry_agree; [exact Hag |]. unfold is_index, PAGE_SIZE in *. simpl. lia. }
  assert (∀ r, reserved fs r → reserved fs' r) as Hres.
  { intros r [Hr Hru]. split; [done |]. intros Ha. by rewrite Hu', (Hru Ha), orb_true_r. }
  pose proof (so_pd Hq) as Hqr. split_and!.
  - split.
    + by apply Hres.
    + intros i Hi. unfold present, table. rewrite He by done. intros Hp.
      destruct (so_table Hq i Hi Hp). split; [by apply Hres | done].
    + intros i j Hi Hj. unfold present, table. rewrite !He by done. by apply (so_inj Hq).
  - intros i Hi. by apply He.
  - intros a va Hva. pose proof (pd_index_range va Hva) as Hi. unfold translate. rewrite He by done.
    destruct (permits a (entry m q (pd_index va))) eqn:Hp; [| done].
    assert (present m q (pd_index va) = true) as Hpi.
    { unfold permits in Hp. unfold present. by destruct (Z.testbit _ 0). }
    destruct (so_table Hq _ Hi Hpi) as [Hr _]. unfold table in Hr.
    by rewrite He by (done || apply pt_index_range).
Qed.

(** ** Freeing *)

(** The frames an entry of a table gives back, and those of a directory. *)
Definition leaf (m : memory) (pt b : Z) : Prop :=
  ∃ j, is_index j ∧ present m pt j = true ∧ b = table m pt j.

Definition owned (m : memory) (pd b : Z) : Prop :=
  b = pd ∨ ∃ i, is_index i ∧ IDENTITY_PT_COUNT <= i ∧ present m pd i = true ∧
                (b = table m pd i ∨ leaf m (table m pd i) b).

(** [fs'] is [fs] with the frames in [R] no longer in use. *)
Definition released (R : Z → Prop) (fs fs' : F) : Prop :=
  frames_ok fs' ∧ ∀ b, page_addr b → in_use fs' b = true ↔ in_use fs b = true ∧ ~ R b.

Lemma released_free (fs : F) (a : Z) :
  frames_ok fs → page_addr a → released (λ b, b = a) fs (free_frame a fs).
Proof.
  intros Hok Ha. destruct (free_frame_any fs a Hok Ha) as [H1 H2]. split; [done |].
  intros b Hb. rewrite H2 by done. destruct (Z.eqb_spec b a); simpl; naive_solver.
Qed.

Lemma released_trans (R1 R2 : Z → Prop) (fs1 fs2 fs3 : F) :
  released R1 fs1 fs2 → released R2 fs2 fs3 → released (λ b, R1 b ∨ R2 b) fs1 fs3.
Proof.
  intros [_ H1] [H2 H3]. split; [done |]. intros b Hb. rewrite H3, H1 by done. tauto.
Qed.

Lemma released_ext (R1 R2 : Z → Prop) (fs1 fs2 : F) :
  released R1 fs1 fs2 → (∀ b, R1 b ↔ R2 b) → released R2 fs1 fs2.
Proof. intros [H1 H2] He. split; [done |]. intros b Hb. rewrite H2 by done. by rewrite He. Qed.

Lemma released_loop (R : Z → Z → Prop) (n : nat) (i : Z) (f : Z → F → F) (fs : F) :
  frames_ok fs →
  (∀ j fs, i <= j < i + Z.of_nat n → frames_ok fs → released (R j) fs (f j fs)) →
  released (λ b, ∃ j, i <= j < i + Z.of_nat n ∧ R j b) fs (for_loop n i f fs).
Proof.
  intros Hok Hf.
  apply (for_loop_ind (λ k fs', released (λ b, ∃ j, i <= j < k ∧ R j b) fs fs')).
  - split; [done |]. intros b _. split; [| naive_solver]. intros Hu. split; [done |].
    intros (j & Hj & _). lia.
  - intros k fs' Hk Hrel. eapply released_ext; [eapply released_trans; [exact Hrel |]|].
    + apply Hf; [done | apply Hrel].
    + intros b. split.
      * intros [(j & Hj & HR)|HR]; [exists j | exists k]; (split; [lia | done]).
      * intros (j & Hj & HR). destruct (decide (j = k)) as [->|]; [by right | left].
        exists j. split; [lia | done].
Qed.

Lemma released_nothing (fs : F) : frames_ok fs → released (λ _, False) fs fs.
Proof. intros Hok. split; [done |]. tauto. Qed.

Lemma free_frames_of_spec (pt : Z) (m : memory) (fs : F) :
  frames_ok fs → (∀ b, leaf m pt b → page_addr b) → released (leaf m pt) fs (free_frames_of pt m fs).
Proof.
  intros Hok Hl. unfold free_frames_of. eapply released_ext.
  - apply (released_loop (λ j b, present m pt j = true ∧ b = table m pt j)); [done |].
    intros j fs' Hj Hok'. change PTE_PRESENT with PDE_PRESENT. rewrite present_land.
    destruct (present m pt j) eqn:Hp; simpl.
    + eapply released_ext; [apply released_free; [done |] | intros b; simpl; fold (table m pt j); tauto].
      apply Hl. exists j. done.
    + eapply released_ext; [by apply released_nothing | naive_solver].
  - intros b. unfold leaf, is_index, PT_ENTRIES. split; intros (j & Hj & HR); exists j; (split; [lia | done]).
Qed.

Lemma free_table_spec (pd i : Z) (m : memory) (fs : F) :
  frames_ok fs →
  (∀ b, present m pd i = true → b = table m pd i ∨ leaf m (table m pd i) b → page_addr b) →
  released (λ b, present m pd i = true ∧ (b = table m pd i ∨ leaf m (table m pd i) b)) fs
    (free_table pd i m fs).
Proof.
  intros Hok Ho. unfold free_table. rewrite present_land.
  destruct (present m pd i) eqn:Hp; simpl.
  - pose proof (free_frames_of_spec (table m pd i) m fs Hok) as Hl.
    eapply released_ext; [eapply released_trans; [apply Hl; intros; apply Ho; tauto |]|].
    + apply released_free; [apply Hl; intros; apply Ho; tauto | apply Ho; [done | by left]].
    + intros b. simpl. fold (table m pd i). tauto.
  - eapply released_ext; [by apply released_nothing | naive_solver].
Qed.

Lemma free_pd_spec (pd : Z) (m : memory) (fs : F) :
  frames_ok fs → pd ≠ 0 → (∀ b, owned m pd b → page_addr b) →
  released (owned m pd) fs (paging_free_pd pd fs m).
Proof.
  intros Hok Hpd Ho. unfold paging_free_pd. destruct (Z.eqb_spec pd 0); [done |].
  assert (released (λ b, ∃ i, IDENTITY_PT_COUNT <= i < IDENTITY_PT_COUNT + Z.of_nat (Z.to_nat (PD_ENTRIES - IDENTITY_PT_COUNT))
      ∧ present m pd i = true ∧ (b = table m pd i ∨ leaf m (table m pd i) b)) fs
    (for_loop (Z.to_nat (PD_ENTRIES - IDENTITY_PT_COUNT)) IDENTITY_PT_COUNT (λ i, free_table pd i m) fs)) as Hl.
  { apply released_loop; [done |]. intros i fs' Hi Hok'. apply free_table_spec; [done |].
    intros b Hp Hb. apply Ho. right. exists i. unfold is_index, PD_ENTRIES, IDENTITY_PT_COUNT in *.
    split_and!; done || lia. }
  eapply released_ext; [eapply released_trans; [exact Hl | apply released_free; [apply Hl | apply Ho; by left]] |].
  intros b. simpl. unfold owned, is_index, PD_ENTRIES, IDENTITY_PT_COUNT. split.
  - intros [(i & Hi & Hp & Hb)|Hb]; [right | by left]. exists i. split_and!; done || lia.
  - intros [Hb|(i & Hi & Hge & Hp & Hb)]; [by right | left]. exists i. split_and!; done || lia.
Qed.

Lemma free_pd_empty (pd : Z) (m : memory) (fs : F) :
  pd ≠ 0 → (∀ i, is_index i → IDENTITY_PT_COUNT <= i → present m pd i = false) →
  paging_free_pd pd fs m = free_frame pd fs.
Proof.
  intros Hpd He. unfold paging_free_pd. destruct (Z.eqb_spec pd 0); [done |]. f_equal.
  apply (for_loop_ind (λ _ fs', fs' = fs)); [done |]. intros i fs' Hi ->. unfold free_table.
  rewrite present_land, He; [done | |]; unfold is_index, PD_ENTRIES, IDENTITY_PT_COUNT in *; lia.
Qed.

End directories.

(** ** The identity mapping *)

(** Where the linker puts the static arrays: page aligned, disjoint. *)
Record layout_ok (kernel_pd identity_pts : Z) : Prop := {
  lo_pd : page_base kernel_pd;
  lo_pts : 0 < identity_pts ∧ identity_pts + IDENTITY_PT_COUNT * PAGE_SIZE <= 2 ^ 32 ∧
           identity_pts mod PAGE_SIZE = 0;
  lo_apart : kernel_pd + PAGE_SIZE <= identity_pts ∨
             identity_pts + IDENTITY_PT_COUNT * PAGE_SIZE <= kernel_pd
}.

Section identity.
Variables (kernel_pd identity_pts : Z).
Hypothesis (Hlay : layout_ok kernel_pd identity_pts).

Abbreviation ipt := (identity_pt identity_pts).

Lemma identity_pt_base (t : Z) :
  0 <= t < 8 → page_base (ipt t) ∧ (kernel_pd + 4096 <= ipt t ∨ ipt t + 4096 <= kernel_pd).
Proof.
  intros Ht. destruct Hlay as [H1 H2 H3]. unfold page_base, identity_pt, PT_ENTRIES, PAGE_SIZE, IDENTITY_PT_COUNT in *.
  zlia.
Qed.

Lemma identity_pt_apart (t t' : Z) : t ≠ t' → ipt t + 4096 <= ipt t' ∨ ipt t' + 4096 <= ipt t.
Proof. unfold identity_pt, PT_ENTRIES. lia. Qed.

(** What [paging_init] has built after the first [n] tables. *)
Record identity_upto (m m' : memory) (n : Z) : Prop := {
  iu_pde t : 0 <= t < n → entry m' kernel_pd t = Z.lor (ipt t) 3;
  iu_pte t i : 0 <= t < n → is_index i → entry m' (ipt t) i = Z.lor (2 ^ 22 * t + 4096 * i) 3;
  iu_rest t : n <= t < 1024 → entry m' kernel_pd t = entry m kernel_pd t
}.

Lemma identity_table_step (m m' : memory) (n : Z) :
  0 <= n < 8 → identity_upto m m' n →
  identity_upto m (identity_table kernel_pd identity_pts n m') (n + 1).
Proof.
  intros Hn [I1 I2 I3]. destruct (identity_pt_base n Hn) as [Hb Hap]. unfold identity_table.
  rewrite <- Z.lor_assoc. change (Z.lor PDE_PRESENT PDE_WRITABLE) with 3.
  set (g := λ (i : Z) (_ : memory), Z.lor (Z.lor (u32 (n * PT_ENTRIES * PAGE_SIZE + i * PAGE_SIZE)) PTE_PRESENT) PTE_WRITABLE).
  destruct (fill32_spec (Z.to_nat PT_ENTRIES) (ipt n) g m') as [Hag Hf]; [done |].
  set (m1 := fill32 _ _ _ _) in *. unfold PT_ENTRIES in Hag, Hf.
  assert (∀ q k, q + 4 * k + 4 <= ipt n ∨ ipt n + 4096 <= q + 4 * k → entry m1 q k = entry m' q k) as Hout.
  { intros q k Hq. eapply entry_agree; [exact Hag |]. simpl. lia. }
  assert (∀ i, is_index i → entry m1 (ipt n) i = Z.lor (2 ^ 22 * n + 4096 * i) 3) as Hin.
  { intros i Hi. unfold entry. rewrite Hf by exact Hi. unfold g. rewrite <- Z.lor_assoc.
    change (Z.lor PTE_PRESENT PTE_WRITABLE) with 3. unfold is_index, PT_ENTRIES, PAGE_SIZE in *.
    rewrite (u32_id (_ + _)) by (unfold is_u32; lia).
    replace (n * 1024 * 4096 + i * 4096) with (2 ^ 22 * n + 4096 * i) by lia.
    apply entry_parts; unfold PAGE_SIZE; [lia | lia | zlia | lia]. }
  assert (∀ q k v, q + 4 * k + 4 <= kernel_pd + 4 * n ∨ kernel_pd + 4 * n + 4 <= q + 4 * k →
            entry (set_entry kernel_pd n v m1) q k = entry m1 q k) as Hset by (intros; apply entry_set_ne; lia).
  split.
  - intros t Ht. destruct (decide (t = n)) as [->|].
    + rewrite entry_set_eq. apply entry_parts; unfold page_base in Hb; lia.
    + rewrite Hset, Hout by lia. apply I1. lia.
  - intros t i Ht Hi. unfold is_index in *. destruct (decide (t = n)) as [->|Hne].
    + rewrite Hset by lia. by apply Hin.
    + destruct (identity_pt_base t) as [_ Hapt]; [lia |]. pose proof (identity_pt_apart t n Hne).
      rewrite Hset, Hout by lia. by apply I2; [lia |].
  - intros t Ht. rewrite Hset, Hout by lia. apply I3. lia.
Qed.

Lemma identity_tables_built (m : memory) :
  identity_upto m (for_loop (Z.to_nat IDENTITY_PT_COUNT) 0 (identity_table kernel_pd identity_pts) m) 8.
Proof.
  apply (for_loop_ind (λ n m', identity_upto m m' n) (Z.to_nat IDENTITY_PT_COUNT) 0).
  - split; intros; lia || done.
  - intros n m' Hn. unfold IDENTITY_PT_COUNT in Hn. apply identity_table_step. lia.
Qed.

(** The walk through the identity tables. *)
Lemma identity_translate (m m' : memory) (a : access) (va : Z) :
  identity_upto m m' 8 → (∀ t, 8 <= t < 1024 → entry m kernel_pd t = 0) → is_u32 va →
  translate a m' kernel_pd va =
    if negb (acc_user a) && (va <? IDENTITY_MAPPED_BYTES) then Some va else None.
Proof.
  intros [I1 I2 I3] Hz Hva. pose proof (pd_index_range va Hva) as Hi. pose proof (pt_index_range va) as Hj.
  destruct (index_div va) as [E1 E2]. unfold IDENTITY_MAPPED_BYTES, IDENTITY_PT_COUNT, PT_ENTRIES, PAGE_SIZE.
  unfold is_u32, is_index in *. unfold translate. destruct (Z.ltb_spec va (8 * 1024 * 4096)).
  - assert (0 <= pd_index va < 8) as Hlt by zlia. destruct (identity_pt_base (pd_index va) Hlt) as [Hb _].
    rewrite I1 by done. destruct (entry_parts (ipt (pd_index va)) 3) as (_ & -> & P3); unfold page_base in Hb; [lia.. |].
    rewrite I2 by done. destruct (entry_parts (2 ^ 22 * pd_index va + 4096 * pt_index va) 3) as (_ & -> & Q3);
      unfold PAGE_SIZE; [lia | lia | zlia | lia |].
    unfold permits. rewrite !P3, !Q3 by lia. rewrite offset_mod.
    change (Z.testbit 3 0) with true. change (Z.testbit 3 1) with true. change (Z.testbit 3 2) with false.
    destruct (acc_user a); simpl; [done |]. f_equal. rewrite E1, E2. zlia.
  - rewrite I3, Hz by zlia. rewrite andb_false_r. unfold permits. by rewrite Z.bits_0.
Qed.

End identity.

(** ** Properties *)

Section properties.
Context {F : Type} `{!FrameAlloc F}.

Lemma lor_flags_value (phys flags : Z) :
  is_u32 phys → 0 <= flags < 4096 →
  let v := Z.lor (Z.land phys ADDR_MASK) flags in
  Z.land v ADDR_MASK = Z.land phys ADDR_MASK ∧ ∀ k, 0 <= k < 12 → Z.testbit v k = Z.testbit flags k.
Proof.
  intros Hp Hf v. destruct (masked_base phys Hp) as (B1 & B2 & B3).
  by destruct (entry_parts (Z.land phys ADDR_MASK) flags) as (_ & E2 & E3).
Qed.

Lemma permits_supervisor (e : Z) : permits supervisor e = Z.testbit e 0.
Proof. unfold permits. simpl. by rewrite !andb_true_r. Qed.

(** A directory that shares the table written sees the new mapping too. *)
Lemma shared_translate (fs fs' : F) (m m' : memory) (pd q virt flags v t va : Z) :
  mapped fs m fs' m' pd virt flags v t → space_ok fs m pd → space_ok fs m q → is_u32 virt →
  q ≠ pd → present m pd (pd_index virt) = true → present m q (pd_index virt) = true →
  table m q (pd_index virt) = table m pd (pd_index virt) → Z.testbit v 0 = true → same_page va virt →
  translate supervisor m' q va = Some (Z.land v ADDR_MASK + va mod 4096).
Proof.
  intros Hm Hs Hq Hv Hne Hp Hpq Ht Hv0 [E1 E2]. pose proof (pd_index_range virt Hv) as Hi.
  destruct (md_old _ _ _ _ _ _ _ _ _ Hm Hp) as [Htt _]. destruct (so_table Hq _ Hi Hpq) as [_ Hqt].
  unfold translate. rewrite E1, E2.
  rewrite (mapped_page _ _ _ _ _ _ _ _ _ Hm Hs Hv q);
    [| apply (so_pd Hq) | done | rewrite Htt, <- Ht; by apply not_eq_sym | done].
  rewrite permits_supervisor. fold (present m q (pd_index virt)) (table m q (pd_index virt)).
  rewrite Hpq, Ht, <- Htt, (md_pte _ _ _ _ _ _ _ _ _ Hm), permits_supervisor, Hv0, offset_mod. done.
Qed.

(** [paging_init] enables paging on the kernel directory with the identity
    mapping: the supervisor reaches exactly the first 32 MiB, at their own
    addresses, and ring 3 reaches nothing. *)
Theorem paging_init_identity (kernel_pd identity_pts : Z) (s s' : paging) (m m' : memory) (v v' : Vga.vga) :
  layout_ok kernel_pd identity_pts → (∀ t, 8 <= t < 1024 → entry m kernel_pd t = 0) →
  paging_init kernel_pd identity_pts s m v = (s', m', v') →
  cr3 s' = kernel_pd ∧ cr0_pg s' = true ∧ kernel_pd_phys s' = kernel_pd ∧
  ∀ a va, is_u32 va → translate a m' (cr3 s') va =
    if negb (acc_user a) && (va <? IDENTITY_MAPPED_BYTES) then Some va else None.
Proof.
  intros Hlay Hz. unfold paging_init.
  pose proof (identity_tables_built kernel_pd identity_pts Hlay m) as Hb.
  set (m2 := for_loop _ _ _ _) in *. clearbody m2.
  set (v2 := Vga.vga_set_color _ _). clearbody v2. intros [= <- <- <-].
  split_and!; [done.. |]. intros a va Hva. by apply (identity_translate kernel_pd identity_pts Hlay m).
Qed.


(** C15. Isolation: mapping a page of a user window (directory index 8 and up)
    into one address space changes no translation of another address space
    whose page tables are its own, and the two stay isolated. *)
Theorem paging_map_into_isolated (fs fs' : F) (m m' : memory) (pd pd2 virt phys flags : Z) :
  frames_ok fs → space_ok fs m pd → space_ok fs m pd2 → isolated m pd pd2 →
  is_u32 virt → is_u32 phys → 0 <= flags < 4096 → IDENTITY_PT_COUNT <= pd_index virt →
  paging_map_into pd virt phys flags fs m = Done (fs', m') →
  (∀ a va, is_u32 va → translate a m' pd2 va = translate a m pd2 va) ∧
  space_ok fs' m' pd2 ∧ isolated m' pd pd2.
Proof.
  intros Hok Hs Hs2 Hiso Hv Hph Hfl Hidx Heq.
  destruct (map_into_cases fs m pd virt phys flags) as [(fs2 & m2 & t & Heq2 & Hm)|[Heq2 _]];
    [done.. | | congruence].
  rewrite Heq2 in Heq. inversion Heq; subst fs2 m2. split_and!.
  - intros a va. by eapply other_translate.
  - by eapply other_space_ok.
  - by eapply other_isolated.
Qed.


(** A new user directory has the kernel's translations in the identity
    window and none above it, is well formed, lives in a frame that was free,
    and changes no other address space; without a free frame the result is 0
    and nothing changes. *)
Theorem paging_create_user_pd_correct (kernel_pd : Z) (fs : F) (m : memory) :
  frames_ok fs → space_ok fs m kernel_pd →
  (∃ pd fs' m', paging_create_user_pd kernel_pd fs m = (pd, fs', m') ∧
     page_addr pd ∧ in_use fs pd = false ∧ frames_ok fs' ∧ space_ok fs' m' pd ∧
     (∀ a va, is_u32 va → translate a m' pd va =
        if va <? IDENTITY_MAPPED_BYTES then translate a m kernel_pd va else None) ∧
     (∀ q, space_ok fs m q → space_ok fs' m' q ∧
        ∀ a va, is_u32 va → translate a m' q va = translate a m q va)) ∨
  (paging_create_user_pd kernel_pd fs m = (0, fs, m) ∧ frames_free fs = 0).
Proof.
  intros Hok Hk. destruct (create_cases kernel_pd fs m Hok (so_pd Hk))
    as [(pd & fs' & m' & Hc & _ & Ha & Hu & Hok' & Hu' & He & Hag)|H]; [left | by right].
  exists pd, fs', m'. split_and!; try done.
  - by eapply create_space_ok.
  - intros a va Hva. pose proof (pd_index_range va Hva) as Hi. destruct (index_div va) as [E1 _].
    destruct (create_keeps_space fs fs' m m' pd kernel_pd) as (_ & Hke & Hkt); [done.. |].
    rewrite <- Hkt by done. unfold translate. rewrite He, Hke by done.
    unfold is_u32, IDENTITY_MAPPED_BYTES, IDENTITY_PT_COUNT, PT_ENTRIES, PAGE_SIZE in *.
    destruct (Z.ltb_spec va (8 * 1024 * 4096)), (Z.ltb_spec (pd_index va) 8); try done; try zlia.
  - intros q Hq. by destruct (create_keeps_space fs fs' m m' pd q) as (? & _ & ?).
Qed.

(** C30. [paging_free_pd] gives back exactly the directory, the page tables of
    its user windows and the frames they map; every other frame keeps its
    status, the identity tables and what they map included. *)
Theorem paging_free_pd_exact (fs : F) (m : memory) (pd : Z) :
  frames_ok fs → pd ≠ 0 → (∀ b, owned m pd b → page_addr b) →
  frames_ok (paging_free_pd pd fs m) ∧
  ∀ b, page_addr b → in_use (paging_free_pd pd fs m) b = true ↔ in_use fs b = true ∧ ~ owned m pd b.
Proof. apply free_pd_spec. Qed.

(** Creating a directory and freeing it again restores the frame allocator
    exactly. *)
Theorem create_free_pd_roundtrip (kernel_pd : Z) (fs fs' : F) (m m' : memory) (pd : Z) :
  frames_ok fs → reserved fs kernel_pd →
  paging_create_user_pd kernel_pd fs m = (pd, fs', m') → pd ≠ 0 →
  paging_free_pd pd fs' m' = fs.
Proof.
  intros Hok Hk Hc Hpd. destruct (create_cases kernel_pd fs m Hok Hk)
    as [(a & f1 & m1 & Hc' & Hal & _ & _ & _ & _ & He & _)|[Hc' _]]; [| congruence].
  rewrite Hc in Hc'. inversion Hc'; subst a f1 m1.
  rewrite free_pd_empty; [by apply free_alloc_frame | done |].
  intros i Hi Hge. unfold present. rewrite He by done.
  destruct (Z.ltb_spec i IDENTITY_PT_COUNT); [lia | apply Z.bits_0].
Qed.

End properties.

(** ** Witnesses *)

#[local] Existing Instance Pmm.pmm_frames.

(** An allocator with two free frames, a kernel directory at 0x10000 with one
    page table at 0x13000, and a second directory at 0x11000 with a user table
    at 0x12000. *)
Definition demo_memory : memory := set_entry 0x11000 8 0x12007 (set_entry 0x10000 1 0x13003 ∅).

Lemma demo_entry (i : Z) :
  is_index i →
  entry demo_memory 0x10000 i = (if i =? 1 then 0x13003 else 0) ∧
  entry demo_memory 0x11000 i = (if i =? 8 then 0x12007 else 0).
Proof.
  intros Hi. unfold is_index in Hi. unfold demo_memory. split.
  - rewrite entry_set_ne by lia. destruct (Z.eqb_spec i 1) as [->|]; [done |].
    rewrite entry_set_ne by lia. done.
  - destruct (Z.eqb_spec i 8) as [->|]; [done |]. rewrite !entry_set_ne by lia. done.
Qed.

Lemma demo_frames_ok : frames_ok Pmm.demo_pmm.
Proof. exists 0. split; [lia | apply Pmm.demo_pmm_inv]. Qed.

Lemma demo_space_ok (pd i0 t f : Z) :
  reserved Pmm.demo_pmm pd → reserved Pmm.demo_pmm t → t ≠ pd → 0 <= f < 4096 →
  (∀ i, is_index i → entry demo_memory pd i = if i =? i0 then Z.lor t f else 0) →
  space_ok Pmm.demo_pmm demo_memory pd.
Proof.
  intros Hpd Ht Hne Hf He.
  assert (∀ i, is_index i → present demo_memory pd i = true → i = i0 ∧ table demo_memory pd i = t) as Hp.
  { intros i Hi. unfold present, table. rewrite He by done. destruct Ht as [(? & ? & ?) _].
    destruct (Z.eqb_spec i i0); [| by rewrite Z.bits_0]. intros _. split; [done |].
    apply entry_parts; unfold page_base in *; lia. }
  split; [done | |].
  - intros i Hi Hpi. destruct (Hp i Hi Hpi) as [_ ->]. done.
  - intros i j Hi Hj Hpi Hpj _. destruct (Hp i Hi Hpi), (Hp j Hj Hpj). congruence.
Qed.

Lemma demo_reserved :
  reserved Pmm.demo_pmm 0x10000 ∧ reserved Pmm.demo_pmm 0x11000 ∧
  reserved Pmm.demo_pmm 0x12000 ∧ reserved Pmm.demo_pmm 0x13000.
Proof.
  unfold reserved, page_base, PAGE_SIZE. split_and!; done.
Qed.

Lemma demo_kernel_ok : space_ok Pmm.demo_pmm demo_memory 0x10000.
Proof.
  apply (demo_space_ok 0x10000 1 0x13000 3); [apply demo_reserved | apply demo_reserved | lia | lia |].
  intros i Hi. apply demo_entry, Hi.
Qed.

Lemma demo_user_ok : space_ok Pmm.demo_pmm demo_memory 0x11000.
Proof.
  apply (demo_space_ok 0x11000 8 0x12000 7); [apply demo_reserved | apply demo_reserved | lia | lia |].
  intros i Hi. apply demo_entry, Hi.
Qed.

Lemma demo_isolated : isolated demo_memory 0x10000 0x11000.
Proof.
  assert (∀ i, is_index i → present demo_memory 0x10000 i = true → table demo_memory 0x10000 i = 0x13000) as H1.
  { intros i Hi. unfold present, table. destruct (demo_entry i Hi) as [-> _]. by destruct (i =? 1). }
  assert (∀ i, is_index i → present demo_memory 0x11000 i = true → table demo_memory 0x11000 i = 0x12000) as H2.
  { intros i Hi. unfold present, table. destruct (demo_entry i Hi) as [_ ->]. by destruct (i =? 8). }
  split.
  - done.
  - intros i j Hi Hj _ Hpi Hpj. by rewrite H1, H2.
  - intros i Hi Hpi. by rewrite H1.
  - intros i Hi Hpi. by rewrite H2.
Qed.

Lemma demo_alloc : fst (alloc_frame Pmm.demo_pmm) = 0x20000.
Proof. vm_compute. done. Qed.

Lemma demo_create : fst (fst (paging_create_user_pd 0x10000 Pmm.demo_pmm demo_memory)) = 0x20000.
Proof.
  unfold paging_create_user_pd. pose proof demo_alloc as Ha.
  destruct (alloc_frame Pmm.demo_pmm) as [a fs']. simpl in Ha. by subst a.
Qed.

Lemma demo_map_done :
  ∃ fs' m', paging_map_into 0x10000 0x2000000 0x20000 7 Pmm.demo_pmm demo_memory = Done (fs', m').
Proof.
  unfold paging_map_into, fresh_table. pose proof demo_alloc as Ha.
  destruct (alloc_frame Pmm.demo_pmm) as [a fs']. simpl in Ha. subst a.
  destruct (Z.land (entry demo_memory 0x10000 _) PDE_PRESENT =? 0); [| destruct (negb _)];
    cbn [obind Z.eqb]; eauto.
Qed.

Lemma paging_init_identity_witness :
  let '(s', m', v') := paging_init 0x10000 0x8000 (PagingState 0 0 false) ∅ (Vga.Vga [] 0 0 0) in
  cr3 s' = 0x10000 ∧ cr0_pg s' = true ∧ kernel_pd_phys s' = 0x10000 ∧
  ∀ a va, is_u32 va → translate a m' (cr3 s') va =
    if negb (acc_user a) && (va <? IDENTITY_MAPPED_BYTES) then Some va else None.
Proof.
  destruct (paging_init 0x10000 0x8000 (PagingState 0 0 false) ∅ (Vga.Vga [] 0 0 0)) as [[s' m'] v'] eqn:Heq.
  apply (paging_init_identity 0x10000 0x8000 (PagingState 0 0 false) s' ∅ m' (Vga.Vga [] 0 0 0) v').
  - split; unfold page_base, PAGE_SIZE, IDENTITY_PT_COUNT; [| | right]; zlia.
  - done.
  - exact Heq.
Defined.


(** The first directory gets a page in window 8; the second keeps its own. *)
Lemma paging_map_into_isolated_witness :
  ∃ fs' m', paging_map_into 0x10000 0x2000000 0x20000 7 Pmm.demo_pmm demo_memory = Done (fs', m') ∧
    (∀ a va, is_u32 va → translate a m' 0x11000 va = translate a demo_memory 0x11000 va) ∧
    space_ok fs' m' 0x11000 ∧ isolated m' 0x10000 0x11000.
Proof.
  destruct demo_map_done as (fs' & m' & Heq). exists fs', m'. split; [exact Heq |].
  apply (paging_map_into_isolated Pmm.demo_pmm fs' demo_memory m' 0x10000 0x11000 0x2000000 0x20000 7);
    [exact demo_frames_ok | exact demo_kernel_ok | exact demo_user_ok | exact demo_isolated
    | unfold is_u32; lia | unfold is_u32; lia | lia | done | exact Heq].
Defined.


Lemma paging_create_user_pd_correct_witness :
  (∃ pd fs' m', paging_create_user_pd 0x10000 Pmm.demo_pmm demo_memory = (pd, fs', m') ∧
     page_addr pd ∧ in_use Pmm.demo_pmm pd = false ∧ frames_ok fs' ∧ space_ok fs' m' pd ∧
     (∀ a va, is_u32 va → translate a m' pd va =
        if va <? IDENTITY_MAPPED_BYTES then translate a demo_memory 0x10000 va else None) ∧
     (∀ q, space_ok Pmm.demo_pmm demo_memory q → space_ok fs' m' q ∧
        ∀ a va, is_u32 va → translate a m' q va = translate a demo_memory q va)) ∨
  (paging_create_user_pd 0x10000 Pmm.demo_pmm demo_memory = (0, Pmm.demo_pmm, demo_memory) ∧
   frames_free Pmm.demo_pmm = 0).
Proof.
  apply (paging_create_user_pd_correct 0x10000 Pmm.demo_pmm demo_memory); [exact demo_frames_ok | exact demo_kernel_ok].
Defined.

Lemma paging_free_pd_exact_witness :
  frames_ok (paging_free_pd 0x11000 Pmm.demo_pmm demo_memory) ∧
  ∀ b, page_addr b → in_use (paging_free_pd 0x11000 Pmm.demo_pmm demo_memory) b = true ↔
    in_use Pmm.demo_pmm b = true ∧ ~ owned demo_memory 0x11000 b.
Proof.
  apply (paging_free_pd_exact Pmm.demo_pmm demo_memory 0x11000); [exact demo_frames_ok | done |].
  intros b [->|(i & Hi & _ & Hp & Hb)]; [done |].
  assert (table demo_memory 0x11000 i = 0x12000) as Ht.
  { unfold present, table in *. destruct (demo_entry i Hi) as [_ He]. rewrite He in *. by destruct (i =? 8). }
  rewrite Ht in Hb. destruct Hb as [->|(j & Hj & Hpj & _)]; [done |].
  unfold present, is_index in *. unfold demo_memory in Hpj. by rewrite !entry_set_ne in Hpj by lia.
Defined.

Lemma create_free_pd_roundtrip_witness :
  let '(pd, fs', m') := paging_create_user_pd 0x10000 Pmm.demo_pmm demo_memory in
  pd = 0x20000 ∧ paging_free_pd pd fs' m' = Pmm.demo_pmm.
Proof.
  pose proof demo_create as Hpd.
  destruct (paging_create_user_pd 0x10000 Pmm.demo_pmm demo_memory) as [[pd fs'] m'] eqn:Heq.
  simpl in Hpd. split; [exact Hpd |].
  apply (create_free_pd_roundtrip 0x10000 Pmm.demo_pmm fs' demo_memory m' pd);
    [exact demo_frames_ok | apply demo_reserved | exact Heq | lia].
Defined.

End Paging.
