(* ===== verification/Scheduler.v ===== *)
(** * Process control blocks and the run queue

    Models the data of [kernel/process.h], the process table of
    [kernel/process.c] and the queue operations of [kernel/scheduler.c].
    Process control blocks are kept in a store indexed by their address, so the
    run queue and the zombie list are linked through the [next] fields exactly
    as in the code.  The [pushf; cli] / [popf] brackets of the queue operations
    make them atomic; each operation here is one step.

    [queue_inv] relates the linked structure to two lists, the run queue and the
    zombie list; the theorems say that the operations append, remove, move and
    rotate elements of these lists, and that rotation is fair. *)

From S2P Require Import Prelude.

Module Scheduler.

(** ** Process control blocks *)

Inductive process_state : Type :=
| PROCESS_READY
| PROCESS_RUNNING
| PROCESS_BLOCKED
| PROCESS_ZOMBIE
| PROCESS_DEAD.

#[export] Instance process_state_eq_dec : EqDecision process_state.
Proof. solve_decision. Defined.

Definition STACK_SIZE : Z := 8192.
Definition MAX_PROCESSES : Z := 16.
Definition MAX_FDS_PER_PROCESS : Z := 8.

Record fd_entry : Type := FdEntry { fd_in_use : Z; file_idx : Z; fd_offset : Z }.

Record process : Type := Process {
  pid : Z;
  name : list Z;
  state : process_state;
  esp : Z;
  cr3 : Z;
  parent_pid : Z;
  priority : Z;
  ticks_remaining : Z;
  sleep_ticks : Z;
  exit_code : Z;
  kernel_stack_top : Z;
  stack_frame_lo : Z;
  stack_frame_hi : Z;
  user_entry : Z;
  user_stack_top : Z;
  fds : list fd_entry;
  next : Z
}.

(** A PCB whose bytes are all zero. *)
Definition zero_pcb : process :=
  Process 0 (replicate 32 0) PROCESS_READY 0 0 0 0 0 0 0 0 0 0 0 0 (replicate 8 (FdEntry 0 0 0)) 0.

(** [proc->field = v] *)
Definition set_pid (v : Z) (p : process) : process :=
  let '(Process _ n st es c pp pr tk sl ex kt lo hi ue us fd nx) := p in
  Process v n st es c pp pr tk sl ex kt lo hi ue us fd nx.
Definition set_name (v : list Z) (p : process) : process :=
  let '(Process i _ st es c pp pr tk sl ex kt lo hi ue us fd nx) := p in
  Process i v st es c pp pr tk sl ex kt lo hi ue us fd nx.
Definition set_state (v : process_state) (p : process) : process :=
  let '(Process i n _ es c pp pr tk sl ex kt lo hi ue us fd nx) := p in
  Process i n v es c pp pr tk sl ex kt lo hi ue us fd nx.
Definition set_esp (v : Z) (p : process) : process :=
  let '(Process i n st _ c pp pr tk sl ex kt lo hi ue us fd nx) := p in
  Process i n st v c pp pr tk sl ex kt lo hi ue us fd nx.
Definition set_cr3 (v : Z) (p : process) : process :=
  let '(Process i n st es _ pp pr tk sl ex kt lo hi ue us fd nx) := p in
  Process i n st es v pp pr tk sl ex kt lo hi ue us fd nx.
Definition set_parent_pid (v : Z) (p : process) : process :=
  let '(Process i n st es c _ pr tk sl ex kt lo hi ue us fd nx) := p in
  Process i n st es c v pr tk sl ex kt lo hi ue us fd nx.
Definition set_priority (v : Z) (p : process) : process :=
  let '(Process i n st es c pp _ tk sl ex kt lo hi ue us fd nx) := p in
  Process i n st es c pp v tk sl ex kt lo hi ue us fd nx.
Definition set_ticks_remaining (v : Z) (p : process) : process :=
  let '(Process i n st es c pp pr _ sl ex kt lo hi ue us fd nx) := p in
  Process i n st es c pp pr v sl ex kt lo hi ue us fd nx.
Definition set_sleep_ticks (v : Z) (p : process) : process :=
  let '(Process i n st es c pp pr tk _ ex kt lo hi ue us fd nx) := p in
  Process i n st es c pp pr tk v ex kt lo hi ue us fd nx.
Definition set_exit_code (v : Z) (p : process) : process :=
  let '(Process i n st es c pp pr tk sl _ kt lo hi ue us fd nx) := p in
  Process i n st es c pp pr tk sl v kt lo hi ue us fd nx.
Definition set_kernel_stack_top (v : Z) (p : process) : process :=
  let '(Process i n st es c pp pr tk sl ex _ lo hi ue us fd nx) := p in
  Process i n st es c pp pr tk sl ex v lo hi ue us fd nx.
Definition set_stack_frame_lo (v : Z) (p : process) : process :=
  let '(Process i n st es c pp pr tk sl ex kt _ hi ue us fd nx) := p in
  Process i n st es c pp pr tk sl ex kt v hi ue us fd nx.
Definition set_stack_frame_hi (v : Z) (p : process) : process :=
  let '(Process i n st es c pp pr tk sl ex kt lo _ ue us fd nx) := p in
  Process i n st es c pp pr tk sl ex kt lo v ue us fd nx.
Definition set_user_entry (v : Z) (p : process) : process :=
  let '(Process i n st es c pp pr tk sl ex kt lo hi _ us fd nx) := p in
  Process i n st es c pp pr tk sl ex kt lo hi v us fd nx.
Definition set_user_stack_top (v : Z) (p : process) : process :=
  let '(Process i n st es c pp pr tk sl ex kt lo hi ue _ fd nx) := p in
  Process i n st es c pp pr tk sl ex kt lo hi ue v fd nx.
Definition set_fds (v : list fd_entry) (p : process) : process :=
  let '(Process i n st es c pp pr tk sl ex kt lo hi ue us _ nx) := p in
  Process i n st es c pp pr tk sl ex kt lo hi ue us v nx.
Definition set_next (v : Z) (p : process) : process :=
  let '(Process i n st es c pp pr tk sl ex kt lo hi ue us fd _) := p in
  Process i n st es c pp pr tk sl ex kt lo hi ue us fd v.

(** ** Static variables of [process.c] and [scheduler.c] *)

Record procs : Type := Procs {
  pcbs : gmap Z process;
  next_pid : Z;
  current_process : Z;
  proc_table : list Z;
  queue_head : Z;
  queue_tail : Z;
  queue_size : Z;
  zombie_head : Z
}.

(** [*p] in a store of PCBs. *)
Definition deref (g : gmap Z process) (p : Z) : process := default zero_pcb (g !! p).
Definition pcb (s : procs) (p : Z) : process := deref (pcbs s) p.

Definition with_pcbs (v : gmap Z process) (s : procs) : procs :=
  Procs v (next_pid s) (current_process s) (proc_table s) (queue_head s) (queue_tail s) (queue_size s) (zombie_head s).
Definition with_next_pid (v : Z) (s : procs) : procs :=
  Procs (pcbs s) v (current_process s) (proc_table s) (queue_head s) (queue_tail s) (queue_size s) (zombie_head s).
Definition with_current (v : Z) (s : procs) : procs :=
  Procs (pcbs s) (next_pid s) v (proc_table s) (queue_head s) (queue_tail s) (queue_size s) (zombie_head s).
Definition with_table (v : list Z) (s : procs) : procs :=
  Procs (pcbs s) (next_pid s) (current_process s) v (queue_head s) (queue_tail s) (queue_size s) (zombie_head s).
Definition with_head (v : Z) (s : procs) : procs :=
  Procs (pcbs s) (next_pid s) (current_process s) (proc_table s) v (queue_tail s) (queue_size s) (zombie_head s).
Definition with_tail (v : Z) (s : procs) : procs :=
  Procs (pcbs s) (next_pid s) (current_process s) (proc_table s) (queue_head s) v (queue_size s) (zombie_head s).
Definition with_size (v : Z) (s : procs) : procs :=
  Procs (pcbs s) (next_pid s) (current_process s) (proc_table s) (queue_head s) (queue_tail s) v (zombie_head s).
Definition with_zombies (v : Z) (s : procs) : procs :=
  Procs (pcbs s) (next_pid s) (current_process s) (proc_table s) (queue_head s) (queue_tail s) (queue_size s) v.

Definition edit (p : Z) (f : process → process) (s : procs) : procs :=
  with_pcbs (<[p := f (pcb s p)]> (pcbs s)) s.

(** ** The process table *)

Fixpoint table_add (proc : Z) (t : list Z) : option (list Z) :=
  match t with
  | [] => None
  | q :: t' => if q =? 0 then Some (proc :: t') else cons q <$> table_add proc t'
  end.

Definition proc_table_add (proc : Z) (s : procs) : Z * procs :=
  match table_add proc (proc_table s) with
  | Some t => (0, with_table t s)
  | None => (-1, s)
  end.

Fixpoint table_remove (proc : Z) (t : list Z) : list Z :=
  match t with
  | [] => []
  | q :: t' => if q =? proc then 0 :: t' else q :: table_remove proc t'
  end.

Definition proc_table_remove (proc : Z) (s : procs) : procs :=
  with_table (table_remove proc (proc_table s)) s.

Fixpoint lookup_pid (s : procs) (id : Z) (t : list Z) : Z :=
  match t with
  | [] => 0
  | q :: t' => if negb (q =? 0) && (pid (pcb s q) =? id) then q else lookup_pid s id t'
  end.

Definition process_lookup (id : Z) (s : procs) : Z := lookup_pid s id (proc_table s).

Definition process_current (s : procs) : Z := current_process s.
Definition process_set_current (proc : Z) (s : procs) : procs := with_current proc s.

(** ** The run queue *)

(** Appending a process whose [next] is NULL, as [scheduler_enqueue] and
    [pick_next] do it. *)
Definition append_tail (proc : Z) (s : procs) : procs :=
  if queue_head s =? 0 then with_tail proc (with_head proc s)
  else with_tail proc (edit (queue_tail s) (set_next proc) s).

Definition scheduler_enqueue (proc : Z) (s : procs) : procs :=
  if proc =? 0 then s
  else
    let s := edit proc (set_state PROCESS_READY) s in
    let s := edit proc (set_next 0) s in
    let s := append_tail proc s in
    with_size (u32 (queue_size s + 1)) s.

(** A list linked through the PCB store has no more elements than the store. *)
Definition walk_fuel (s : procs) : nat := S (size (pcbs s)).

Arguments walk_fuel : simpl never.

Fixpoint dequeue_loop (fuel : nat) (proc prev cur : Z) (s : procs) : outcome procs :=
  match fuel with
  | O => Diverged
  | S fuel' =>
      if cur =? 0 then Done s
      else if cur =? proc then
        let s := if prev =? 0 then with_head (next (pcb s cur)) s
                 else edit prev (set_next (next (pcb s cur))) s in
        let s := if cur =? queue_tail s then with_tail prev s else s in
        let s := edit cur (set_next 0) s in
        Done (with_size (u32 (queue_size s - 1)) s)
      else dequeue_loop fuel' proc cur (next (pcb s cur)) s
  end.

Definition scheduler_dequeue (proc : Z) (s : procs) : outcome procs :=
  if (proc =? 0) || (queue_head s =? 0) then Done s
  else dequeue_loop (walk_fuel s) proc 0 (queue_head s) s.

Definition scheduler_mark_zombie (proc : Z) (s : procs) : outcome procs :=
  if proc =? 0 then Done s
  else
    let! s := scheduler_dequeue proc s in
    let s := edit proc (set_next (zombie_head s)) s in
    Done (with_zombies proc s).

Definition scheduler_queue_head (s : procs) : Z := queue_head s.

Definition is_pid_alive (id : Z) (s : procs) : bool :=
  if id =? 0 then false
  else
    let p := process_lookup id s in
    if p =? 0 then false
    else negb (bool_decide (state (pcb s p) = PROCESS_ZOMBIE)) &&
         negb (bool_decide (state (pcb s p) = PROCESS_DEAD)).

(** Taking a process out of the zombie list, as the reaper does. *)
Definition unlink_zombie (prev p : Z) (s : procs) : procs :=
  if prev =? 0 then with_zombies (next (pcb s p)) s else edit prev (set_next (next (pcb s p))) s.

(** One rotation: the head is popped and re-enqueued at the tail. *)
Definition rotate (s : procs) : procs :=
  let nx := queue_head s in
  let s := with_head (next (pcb s nx)) s in
  let s := if queue_head s =? 0 then with_tail 0 s else s in
  let s := edit nx (set_next 0) s in
  append_tail nx s.

(** [n] is [queue_size - checked]. *)
Fixpoint pick_loop (n : nat) (s : procs) : Z * procs :=
  match n with
  | O => (0, s)
  | S n' =>
      let nx := queue_head s in
      let s := rotate s in
      if bool_decide (state (pcb s nx) = PROCESS_READY) then (nx, s) else pick_loop n' s
  end.

Definition pick_next (s : procs) : Z * procs :=
  if queue_head s =? 0 then (0, s) else pick_loop (Z.to_nat (queue_size s)) s.

(** The loop of [scheduler_tick] that wakes sleeping processes. *)
Definition wake (p : process) : process :=
  if bool_decide (state p = PROCESS_BLOCKED) && (0 <? sleep_ticks p) then
    let p := set_sleep_ticks (sleep_ticks p - 1) p in
    if sleep_ticks p =? 0 then set_state PROCESS_READY p else p
  else p.

Fixpoint wake_loop (fuel : nat) (p : Z) (s : procs) : outcome procs :=
  match fuel with
  | O => Diverged
  | S fuel' =>
      if p =? 0 then Done s
      else
        let s := edit p wake s in
        wake_loop fuel' (next (pcb s p)) s
  end.

(** ** Linked lists through the store *)

Fixpoint linked (g : gmap Z process) (p : Z) (l : list Z) (q : Z) : Prop :=
  match l with
  | [] => p = q
  | x :: l' => p = x ∧ linked g (next (deref g x)) l' q
  end.

Definition chain (s : procs) : Z → list Z → Z → Prop := linked (pcbs s).

(** The run queue holds [l] and the zombie list holds [z]. *)
Record queue_inv (s : procs) (l z : list Z) : Prop := {
  qi_run : chain s (queue_head s) l 0;
  qi_tail : queue_tail s = default 0 (last l);
  qi_size : queue_size s = Z.of_nat (length l);
  qi_u32 : is_u32 (queue_size s);
  qi_zombies : chain s (zombie_head s) z 0;
  qi_nodup : NoDup (l ++ z);
  qi_live p : p ∈ l ++ z → p ≠ 0 ∧ is_Some (pcbs s !! p)
}.

Arguments qi_run {s l z}.
Arguments qi_tail {s l z}.
Arguments qi_size {s l z}.
Arguments qi_u32 {s l z}.
Arguments qi_zombies {s l z}.
Arguments qi_nodup {s l z}.
Arguments qi_live {s l z}.

(** [s'] differs from [s] in queue variables and [next] fields only. *)
Record links_only (s s' : procs) : Prop := {
  lk_pcb p : set_next 0 (pcb s' p) = set_next 0 (pcb s p);
  lk_next_pid : next_pid s' = next_pid s;
  lk_current : current_process s' = current_process s;
  lk_table : proc_table s' = proc_table s;
  lk_live p : is_Some (pcbs s !! p) → is_Some (pcbs s' !! p)
}.

#[export] Instance links_only_refl : Reflexive links_only.
Proof. by intros s. Qed.

#[export] Instance links_only_trans : Transitive links_only.
Proof.
  intros s1 s2 s3 [A1 A2 A3 A4 A5] [B1 B2 B3 B4 B5]. split.
  - intros p. by rewrite B1, A1.
  - by rewrite B2.
  - by rewrite B3.
  - by rewrite B4.
  - auto.
Qed.

(** A field other than [next] read through [links_only]. *)
Lemma links_state (s s' : procs) (p : Z) : links_only s s' → state (pcb s' p) = state (pcb s p).
Proof.
  intros H. pose proof (f_equal state (lk_pcb _ _ H p)) as E.
  by destruct (pcb s' p), (pcb s p).
Qed.

Lemma pcb_edit_eq (p : Z) (f : process → process) (s : procs) : pcb (edit p f s) p = f (pcb s p).
Proof. unfold pcb at 1, deref, edit. simpl. by rewrite lookup_insert_eq. Qed.

Lemma pcb_edit_ne (p q : Z) (f : process → process) (s : procs) : q ≠ p → pcb (edit p f s) q = pcb s q.
Proof. intros H. unfold pcb at 1, deref, edit. simpl. by rewrite lookup_insert_ne. Qed.

Lemma live_edit (p q : Z) (f : process → process) (s : procs) :
  is_Some (pcbs s !! q) → is_Some (pcbs (edit p f s) !! q).
Proof.
  intros H. unfold edit. simpl. destruct (decide (q = p)) as [->|].
  - rewrite lookup_insert_eq. eauto.
  - by rewrite lookup_insert_ne.
Qed.

Lemma next_set_next (v : Z) (p : process) : next (set_next v p) = v.
Proof. by destruct p. Qed.

Lemma next_set_state (v : process_state) (p : process) : next (set_state v p) = next p.
Proof. by destruct p. Qed.

Lemma set_next_twice (v w : Z) (p : process) : set_next v (set_next w p) = set_next v p.
Proof. by destruct p. Qed.

Lemma links_edit (p v : Z) (s : procs) : links_only s (edit p (set_next v) s).
Proof.
  split; try done; [| intros q; apply live_edit].
  intros q. destruct (decide (q = p)) as [->|].
  - rewrite pcb_edit_eq. apply set_next_twice.
  - by rewrite pcb_edit_ne.
Qed.

Lemma links_with (s s' : procs) :
  pcbs s' = pcbs s → next_pid s' = next_pid s → current_process s' = current_process s →
  proc_table s' = proc_table s → links_only s s'.
Proof. intros E1 E2 E3 E4. split; try done; intros p; unfold pcb; by rewrite E1. Qed.

(** Chains read only the [next] fields of their elements. *)
Lemma chain_ext (s s' : procs) (l : list Z) (p q : Z) :
  (∀ x, x ∈ l → next (pcb s' x) = next (pcb s x)) → chain s p l q → chain s' p l q.
Proof.
  unfold chain. revert p. induction l as [|x l IH]; intros p He; simpl; [done |].
  intros [-> Hc]. split; [done |]. fold (pcb s' x) (pcb s x) in *. rewrite He by set_solver.
  apply IH; [| done]. set_solver.
Qed.

Lemma chain_app (s : procs) (l1 l2 : list Z) (p q : Z) :
  chain s p (l1 ++ l2) q ↔ ∃ r, chain s p l1 r ∧ chain s r l2 q.
Proof.
  unfold chain. revert p. induction l1 as [|x l1 IH]; intros p; simpl; [naive_solver |].
  rewrite IH. naive_solver.
Qed.

Lemma chain_fun (s : procs) (l : list Z) (p q r : Z) : chain s p l q → chain s p l r → q = r.
Proof.
  unfold chain. revert p. induction l as [|x l IH]; intros p; simpl; [congruence |].
  intros [-> H1] [_ H2]. by eapply IH.
Qed.

(** The first element of a chain that ends in 0. *)
Lemma chain_head (s : procs) (l : list Z) (p : Z) :
  chain s p l 0 → p = default 0 (head l).
Proof. unfold chain. destruct l; simpl; [done | by intros [-> _]]. Qed.

(** Changing the last link of a chain. *)
Lemma chain_relink (s : procs) (l : list Z) (p q r x : Z) :
  NoDup (l ++ [x]) → chain s p (l ++ [x]) q → chain (edit x (set_next r) s) p (l ++ [x]) r.
Proof.
  intros Hnd Hc. apply chain_app in Hc as (a & H1 & H2). apply chain_app. exists a. split.
  - eapply chain_ext; [| exact H1]. intros y Hy. rewrite pcb_edit_ne; [done |].
    intros ->. apply NoDup_app in Hnd as (_ & Hd & _). by apply (Hd x); [| apply list_elem_of_singleton].
  - destruct H2 as [-> _]. split; [done |]. fold (pcb (edit x (set_next r) s) x).
    by rewrite pcb_edit_eq, next_set_next.
Qed.

Lemma chain_edit_ne (s : procs) (l : list Z) (f : process → process) (p q x : Z) :
  x ∉ l → chain s p l q → chain (edit x f s) p l q.
Proof.
  intros Hx. apply chain_ext. intros y Hy. rewrite pcb_edit_ne; [done |]. by intros ->.
Qed.

(** Several assignments to one PCB are one. *)
Lemma edit_edit (p : Z) (f g : process → process) (s : procs) :
  edit p f (edit p g s) = edit p (λ x, f (g x)) s.
Proof.
  unfold edit at 1. rewrite pcb_edit_eq. unfold edit, with_pcbs. simpl. by rewrite insert_insert_eq.
Qed.

(** PCBs outside the lists do not matter to them. *)
Lemma queue_inv_edit (s : procs) (l z : list Z) (p : Z) (f : process → process) :
  queue_inv s l z → p ∉ l ++ z → queue_inv (edit p f s) l z.
Proof.
  intros Hi Hp. split; try apply Hi.
  - apply (chain_edit_ne s); [set_solver | apply Hi].
  - apply (chain_edit_ne s); [set_solver | apply Hi].
  - intros q Hq. destruct (qi_live Hi q Hq) as [H1 H2]. split; [done | by apply live_edit].
Qed.

(** Nor do assignments to fields other than [next]. *)
Lemma queue_inv_edit_data (s : procs) (l z : list Z) (p : Z) (f : process → process) :
  queue_inv s l z → (∀ x, next (f x) = next x) → queue_inv (edit p f s) l z.
Proof.
  intros Hi Hf. assert (∀ x, next (pcb (edit p f s) x) = next (pcb s x)) as Hn.
  { intros x. destruct (decide (x = p)) as [->|]; [rewrite pcb_edit_eq; apply Hf | by rewrite pcb_edit_ne]. }
  split; try apply Hi.
  - eapply chain_ext; [| apply Hi]. auto.
  - eapply chain_ext; [| apply Hi]. auto.
  - intros q Hq. destruct (qi_live Hi q Hq) as [H1 H2]. split; [done | by apply live_edit].
Qed.

(** ** Appending and rotating *)

Lemma append_tail_spec (s : procs) (l z : list Z) (x : Z) :
  chain s (queue_head s) l 0 → queue_tail s = default 0 (last l) → chain s (zombie_head s) z 0 →
  NoDup ((l ++ [x]) ++ z) → (∀ p, p ∈ l → p ≠ 0) → next (pcb s x) = 0 →
  let s' := append_tail x s in
  chain s' (queue_head s') (l ++ [x]) 0 ∧ queue_tail s' = x ∧ chain s' (zombie_head s') z 0 ∧
  queue_size s' = queue_size s ∧ links_only s s'.
Proof.
  intros Hc Ht Hz Hnd Hne Hx. pose proof (chain_head _ _ _ Hc) as Hh. unfold append_tail.
  apply NoDup_app in Hnd as (Hnd & Hdis & _). destruct (list_snoc_cases l) as [->|(l' & t & ->)].
  - simpl in Hh. rewrite Hh. simpl. split_and!; done.
  - rewrite last_snoc in Ht. simpl in Ht. rewrite Ht.
    assert (queue_head s ≠ 0) as Hh0.
    { rewrite Hh. destruct l'; simpl; apply Hne; set_solver. }
    destruct (Z.eqb_spec (queue_head s) 0); [done |]. cbn [queue_head queue_tail zombie_head queue_size with_tail edit with_pcbs].
    apply NoDup_app in Hnd as (Hnd' & Hd' & _).
    assert (x ≠ t) as Hxt by (intros ->; apply (Hd' t); set_solver).
    split_and!.
    + apply chain_app. exists x. split; [exact (chain_relink s l' _ 0 x t Hnd' Hc) |].
      split; [done |]. change (next (pcb (edit t (set_next x) s) x) = 0). by rewrite pcb_edit_ne.
    + done.
    + apply (chain_edit_ne s z (set_next x) (zombie_head s) 0 t); [| done]. apply Hdis. set_solver.
    + done.
    + etransitivity; [apply (links_edit t x s) |]. by apply links_with.
Qed.

Lemma enqueue_spec (s : procs) (l z : list Z) (p : Z) :
  queue_inv s l z → p ≠ 0 → p ∉ l ++ z → Z.of_nat (length l) + 1 < 2 ^ 32 →
  queue_inv (scheduler_enqueue p s) (l ++ [p]) z ∧
  links_only (edit p (set_state PROCESS_READY) s) (scheduler_enqueue p s).
Proof.
  intros Hi Hp Hnin Hlen. unfold scheduler_enqueue. destruct (Z.eqb_spec p 0); [done |].
  set (s1 := edit p (set_state PROCESS_READY) s). set (s2 := edit p (set_next 0) s1).
  assert (p ∉ l ∧ p ∉ z) as [Hl Hz] by set_solver.
  assert (NoDup ((l ++ [p]) ++ z)) as Hnd by (apply nodup_snoc_app; split; [done | apply Hi]).
  destruct (append_tail_spec s2 l z p) as (A1 & A2 & A3 & A4 & A5).
  - by apply chain_edit_ne, chain_edit_ne, Hi.
  - apply Hi.
  - by apply chain_edit_ne, chain_edit_ne, Hi.
  - done.
  - intros q Hq. apply (qi_live Hi). set_solver.
  - unfold s2. by rewrite pcb_edit_eq, next_set_next.
  - set (s3 := append_tail p s2) in *. split.
    + split; cbn [queue_head queue_tail queue_size zombie_head pcbs with_size].
      * exact A1.
      * by rewrite last_snoc.
      * rewrite A4. simpl. rewrite (qi_size Hi), u32_id by (unfold is_u32; lia).
        rewrite length_app. simpl. lia.
      * apply u32_range.
      * exact A3.
      * done.
      * intros q Hq. destruct (decide (q = p)) as [->|].
        -- split; [done |]. apply (lk_live _ _ A5). unfold s2. apply live_edit. unfold s1, edit. simpl.
           rewrite lookup_insert_eq. eauto.
        -- assert (q ∈ l ++ z) as Hq' by set_solver. destruct (qi_live Hi q Hq') as [H1 H2].
           split; [done |]. apply (lk_live _ _ A5). by apply live_edit, live_edit.
    + etransitivity; [apply (links_edit p 0 s1) |]. etransitivity; [exact A5 |]. by apply links_with.
Qed.

Lemma rotate_spec (s : procs) (x : Z) (l z : list Z) :
  queue_inv s (x :: l) z → queue_inv (rotate s) (l ++ [x]) z ∧ links_only s (rotate s).
Proof.
  intros Hi. pose proof (qi_run Hi) as [Hh Hc]. unfold rotate. rewrite Hh.
  set (s1 := with_head (next (pcb s x)) s).
  set (s2 := if queue_head s1 =? 0 then with_tail 0 s1 else s1).
  set (s3 := edit x (set_next 0) s2).
  assert (pcbs s2 = pcbs s ∧ queue_head s2 = next (pcb s x) ∧ zombie_head s2 = zombie_head s ∧
          queue_size s2 = queue_size s ∧ links_only s s2) as (P1 & P2 & P3 & P4 & P5).
  { unfold s2. destruct (queue_head s1 =? 0); split_and!; try done; by apply links_with. }
  pose proof (qi_nodup Hi) as Hnd. simpl in Hnd. apply NoDup_cons in Hnd as [Hx Hnd].
  assert (∀ p q m, chain s p m q → x ∉ m → chain s3 p m q) as Hch.
  { intros p q m Hm Hxm. apply chain_edit_ne; [done |]. eapply chain_ext; [| exact Hm].
    intros y _. unfold pcb. by rewrite P1. }
  destruct (append_tail_spec s3 l z x) as (A1 & A2 & A3 & A4 & A5).
  - simpl. rewrite P2. apply Hch; [done | set_solver].
  - simpl. unfold s2. pose proof (chain_head s l _ Hc) as Hh'. fold (pcb s x) in Hh'.
    destruct l as [|y l].
    + simpl in Hh'. simpl. rewrite Hh'. done.
    + simpl in Hh'. simpl. rewrite Hh'. destruct (Z.eqb_spec y 0) as [->|]; [| simpl; apply (qi_tail Hi)].
      destruct (qi_live Hi 0) as [H0 _]; [set_solver | done].
  - simpl. rewrite P3. apply Hch; [apply Hi | set_solver].
  - by apply nodup_snoc_app.
  - intros q Hq. apply (qi_live Hi). set_solver.
  - unfold s3. by rewrite pcb_edit_eq, next_set_next.
  - assert (links_only s (append_tail x s3)) as Hlk.
    { etransitivity; [exact P5 |]. etransitivity; [apply (links_edit x 0 s2) | exact A5]. }
    split; [| done]. split; [done | by rewrite last_snoc | | rewrite A4; simpl; rewrite P4; apply Hi | done | |].
    + rewrite A4. simpl. rewrite P4, (qi_size Hi). rewrite length_app. simpl. lia.
    + by apply nodup_snoc_app.
    + intros q Hq. destruct (qi_live Hi q) as [H1 H2]; [set_solver |]. split; [done |].
      by apply (lk_live _ _ Hlk).
Qed.

(** ** Picking *)

Definition ready (s : procs) (p : Z) : bool := bool_decide (state (pcb s p) = PROCESS_READY).

(** Round robin on a list: rotate until an element satisfies [rd], at most [n] times. *)
Fixpoint pick_list (n : nat) (rd : Z → bool) (l : list Z) : Z * list Z :=
  match n, l with
  | S n', x :: l' => if rd x then (x, l' ++ [x]) else pick_list n' rd (l' ++ [x])
  | _, _ => (0, l)
  end.

Lemma ready_links (s s' : procs) (p : Z) : links_only s s' → ready s' p = ready s p.
Proof. intros H. unfold ready. by rewrite (links_state _ _ _ H). Qed.

Lemma pick_list_ext (n : nat) (rd rd' : Z → bool) (l : list Z) :
  (∀ x, rd x = rd' x) → pick_list n rd l = pick_list n rd' l.
Proof.
  intros He. revert l. induction n as [|n IH]; intros [|x l]; simpl; try done.
  by rewrite He, IH.
Qed.

Lemma pick_loop_spec (n : nat) (s : procs) (l z : list Z) :
  queue_inv s l z → (n <= length l)%nat →
  fst (pick_loop n s) = fst (pick_list n (ready s) l) ∧
  queue_inv (snd (pick_loop n s)) (snd (pick_list n (ready s) l)) z ∧
  links_only s (snd (pick_loop n s)).
Proof.
  revert s l. induction n as [|n IH]; intros s l Hi Hn; [done |].
  destruct l as [|x l]; [simpl in Hn; lia |]. destruct (rotate_spec s x l z Hi) as [Hr Hlk].
  assert (queue_head s = x) as Hh by apply (qi_run Hi).
  cbn [pick_loop pick_list]. rewrite Hh. fold (ready (rotate s) x). rewrite (ready_links _ _ _ Hlk).
  destruct (ready s x); [done |].
  destruct (IH (rotate s) (l ++ [x]) Hr) as (E1 & E2 & E3).
  { rewrite length_app. simpl in *. lia. }
  rewrite (pick_list_ext n (ready s) (ready (rotate s))) by (intros y; symmetry; by apply ready_links).
  split_and!; [done | done |]. by etransitivity.
Qed.

Lemma pick_next_spec (s : procs) (l z : list Z) :
  queue_inv s l z →
  fst (pick_next s) = fst (pick_list (length l) (ready s) l) ∧
  queue_inv (snd (pick_next s)) (snd (pick_list (length l) (ready s) l)) z ∧
  links_only s (snd (pick_next s)).
Proof.
  intros Hi. unfold pick_next. pose proof (chain_head s l _ (qi_run Hi)) as Hh.
  destruct (Z.eqb_spec (queue_head s) 0) as [H0|H0].
  - destruct l as [|x l]; [done |]. simpl in Hh. rewrite H0 in Hh. subst x.
    destruct (qi_live Hi 0); [set_solver | done].
  - rewrite (qi_size Hi), Nat2Z.id. by apply pick_loop_spec.
Qed.

Lemma pick_list_first (rd : Z → bool) (l1 l2 : list Z) (x : Z) (n : nat) :
  Forall (λ y, rd y = false) l1 → rd x = true → (length l1 < n)%nat →
  pick_list n rd (l1 ++ x :: l2) = (x, l2 ++ l1 ++ [x]).
Proof.
  intros H Hx. revert l2 n. induction H as [|y l1 Hy _ IH]; intros l2 n Hn;
    (destruct n as [|n]; [simpl in Hn; lia |]); simpl.
  - by rewrite Hx.
  - rewrite Hy, <- app_assoc. simpl. rewrite IH by (simpl in Hn; lia). by rewrite <- !app_assoc.
Qed.

Lemma pick_list_none (rd : Z → bool) (l1 l2 : list Z) :
  Forall (λ y, rd y = false) l1 → pick_list (length l1) rd (l1 ++ l2) = (0, l2 ++ l1).
Proof.
  intros H. revert l2. induction H as [|y l1 Hy _ IH]; intros l2; simpl; [by rewrite app_nil_r; destruct l2 |].
  rewrite Hy, <- app_assoc, IH. by rewrite <- app_assoc.
Qed.

(** The first element of a list that satisfies a boolean test. *)
Lemma first_ready (rd : Z → bool) (l : list Z) :
  Forall (λ y, rd y = false) l ∨
  ∃ l1 x l2, l = l1 ++ x :: l2 ∧ Forall (λ y, rd y = false) l1 ∧ rd x = true.
Proof.
  induction l as [|y l IH]; [by left |]. destruct (rd y) eqn:Hy.
  - right. by exists [], y, l.
  - destruct IH as [IH|(l1 & x & l2 & -> & H1 & H2)]; [left | right].
    + by constructor.
    + exists (y :: l1), x, l2. split_and!; [done | by constructor | done].
Qed.

(** ** Removing *)

(** Taking [p] out of the chain: the link before it skips it. *)
Lemma unlink_chain (s : procs) (l1 l2 : list Z) (p h : Z) :
  NoDup (l1 ++ p :: l2) → (∀ q, q ∈ l1 → q ≠ 0) → chain s h (l1 ++ p :: l2) 0 →
  let prev := default 0 (last l1) in
  let h' := if prev =? 0 then next (pcb s p) else h in
  let s1 := if prev =? 0 then s else edit prev (set_next (next (pcb s p))) s in
  chain (edit p (set_next 0) s1) h' (l1 ++ l2) 0.
Proof.
  intros Hnd Hne Hc. apply NoDup_app in Hnd as (Hnd1 & Hd & Hnd2). apply NoDup_cons in Hnd2 as [Hp2 Hnd2].
  destruct (list_snoc_cases l1) as [->|(l1' & t & ->)].
  - simpl. destruct Hc as [-> Hc]. by apply chain_edit_ne.
  - rewrite last_snoc. simpl. destruct (Z.eqb_spec t 0) as [->|]; [by destruct (Hne 0); [set_solver |] |].
    apply chain_app in Hc as (r & Hc1 & [-> Hc2]).
    apply chain_edit_ne; [set_solver |]. apply chain_app. exists (next (pcb s p)). split.
    + by eapply chain_relink.
    + apply chain_edit_ne; [| done]. set_solver.
Qed.

Lemma unlink_tail (l1 l2 : list Z) (p : Z) :
  p ∉ l2 →
  (if p =? default 0 (last (l1 ++ p :: l2)) then default 0 (last l1)
   else default 0 (last (l1 ++ p :: l2))) = default 0 (last (l1 ++ l2)).
Proof.
  intros Hp. destruct (list_snoc_cases l2) as [->|(l2' & t & ->)].
  - by rewrite last_snoc, app_nil_r, Z.eqb_refl.
  - rewrite app_comm_cons, !app_assoc, !last_snoc. simpl.
    destruct (Z.eqb_spec p t) as [->|]; [set_solver | done].
Qed.

Lemma unlink_spec (s : procs) (l1 l2 z : list Z) (p : Z) :
  queue_inv s (l1 ++ p :: l2) z →
  let prev := default 0 (last l1) in
  let s1 := if prev =? 0 then with_head (next (pcb s p)) s else edit prev (set_next (next (pcb s p))) s in
  let s2 := if p =? queue_tail s1 then with_tail prev s1 else s1 in
  let s3 := edit p (set_next 0) s2 in
  let s4 := with_size (u32 (queue_size s3 - 1)) s3 in
  queue_inv s4 (l1 ++ l2) z ∧ links_only s s4.
Proof.
  intros Hi prev s1 s2 s3 s4. pose proof (qi_nodup Hi) as Hnd. pose proof (qi_u32 Hi) as Hu.
  pose proof (qi_size Hi) as Hsz. rewrite length_app in Hsz. simpl in Hsz.
  pose proof Hnd as (Hnd1 & Hdz & _)%NoDup_app. pose proof Hnd1 as (_ & Hd & (Hp2 & _)%NoDup_cons)%NoDup_app.
  assert (∀ q, q ∈ l1 → q ≠ 0) as Hne by (intros q Hq; apply (qi_live Hi); set_solver).
  pose proof (unlink_chain s l1 l2 p _ Hnd1 Hne (qi_run Hi)) as Hc. cbv zeta in Hc. fold prev in Hc.
  assert (links_only s s1) as L1.
  { unfold s1. destruct (prev =? 0); [by apply links_with | apply links_edit]. }
  assert (links_only s1 s2) as L2 by (unfold s2; destruct (p =? queue_tail s1); by apply links_with).
  assert (links_only s s4) as L4.
  { etransitivity; [exact L1 |]. etransitivity; [exact L2 |]. etransitivity; [apply (links_edit p 0 s2) |].
    by apply links_with. }
  assert (pcbs s2 = pcbs (if prev =? 0 then s else edit prev (set_next (next (pcb s p))) s) ∧
          queue_head s2 = (if prev =? 0 then next (pcb s p) else queue_head s) ∧
          queue_tail s2 = (if p =? queue_tail s then prev else queue_tail s) ∧
          zombie_head s2 = zombie_head s ∧ queue_size s2 = queue_size s)
    as (P1 & P2 & P3 & P4 & P5).
  { unfold s2, s1. destruct (prev =? 0); simpl; destruct (p =? queue_tail s); done. }
  split; [| done]. split.
  - simpl. rewrite P2. unfold chain. simpl. unfold pcb at 1. rewrite P1. exact Hc.
  - simpl. rewrite P3, (qi_tail Hi). by apply unlink_tail.
  - simpl. rewrite P5, u32_id by (unfold is_u32 in *; lia). rewrite length_app. lia.
  - simpl. apply u32_range.
  - simpl. rewrite P4. apply chain_edit_ne; [apply Hdz; set_solver |]. unfold chain. rewrite P1.
    destruct (Z.eqb_spec prev 0) as [|Hpr]; [apply Hi |]. apply chain_edit_ne; [| apply Hi].
    unfold prev in *. destruct (last l1) as [w|] eqn:Hw; [| done]. simpl in *.
    apply last_Some in Hw as [l1' ->]. apply Hdz. set_solver.
  - eapply sublist_NoDup; [exact (qi_nodup Hi) |].
    apply sublist_app; [| done]. apply sublist_app; [done |]. by apply sublist_cons.
  - intros q Hq. destruct (qi_live Hi q) as [H1 H2]; [set_solver |]. split; [done |]. by apply (lk_live _ _ L4).
Qed.

Lemma dequeue_loop_spec (l2 l1 z : list Z) (fuel : nat) (s : procs) (p cur : Z) :
  queue_inv s (l1 ++ l2) z → chain s cur l2 0 → (length l2 < fuel)%nat →
  ∃ s', dequeue_loop fuel p (default 0 (last l1)) cur s = Done s' ∧
        queue_inv s' (l1 ++ filter (λ x, x ≠ p) l2) z ∧ links_only s s'.
Proof.
  revert l1 fuel cur. induction l2 as [|x l2 IH]; intros l1 fuel cur Hi Hc Hf;
    (destruct fuel as [|fuel]; [simpl in Hf; lia |]); cbn [dequeue_loop].
  - unfold chain in Hc. simpl in Hc. subst cur. exists s. done.
  - destruct Hc as [-> Hc]. destruct (qi_live Hi x) as [Hx0 _]; [set_solver |].
    destruct (Z.eqb_spec x 0); [done |]. destruct (Z.eqb_spec x p) as [->|Hxp].
    + eexists. split; [reflexivity |].
      assert (filter (λ x, x ≠ p) (p :: l2) = l2) as ->.
      { rewrite filter_cons_False by tauto. apply filter_all. intros y Hy ->.
        apply qi_nodup in Hi. apply NoDup_app in Hi as (Hi & _). apply NoDup_app in Hi as (_ & _ & Hi).
        by apply NoDup_cons in Hi as [Hi _]. }
      by apply unlink_spec.
    + rewrite filter_cons_True by done. fold (pcb s x) in Hc.
      destruct (IH (l1 ++ [x]) fuel (next (pcb s x))) as (s' & H1 & H2 & H3).
      * by rewrite <- app_assoc.
      * done.
      * simpl in Hf. lia.
      * rewrite last_snoc in H1. simpl in H1. exists s'. rewrite <- app_assoc in H2. done.
Qed.

(** A list of live PCBs without duplicates is shorter than the fuel of the walks. *)
Lemma chain_fuel_enough (s : procs) (l : list Z) :
  NoDup l → (∀ p, p ∈ l → is_Some (pcbs s !! p)) → (length l < walk_fuel s)%nat.
Proof.
  intros Hnd Hl. unfold walk_fuel. rewrite <- size_dom, <- (size_list_to_set (C := gset Z) l) by done.
  apply le_n_S, subseteq_size. intros p Hp. apply elem_of_dom, Hl. by apply elem_of_list_to_set in Hp.
Qed.

Lemma dequeue_spec (s : procs) (l z : list Z) (p : Z) :
  queue_inv s l z →
  ∃ s', scheduler_dequeue p s = Done s' ∧ queue_inv s' (filter (λ x, x ≠ p) l) z ∧ links_only s s'.
Proof.
  intros Hi. unfold scheduler_dequeue.
  pose proof (chain_head s l _ (qi_run Hi)) as Hh.
  destruct (Z.eqb_spec p 0) as [->|Hp]; cbn [orb].
  { exists s. rewrite filter_all; [done |]. intros y Hy. apply (qi_live Hi). set_solver. }
  destruct (Z.eqb_spec (queue_head s) 0) as [H0|H0].
  { assert (l = []) as ->; [| by exists s]. destruct l as [|x l]; [done |]. simpl in Hh. exfalso.
    destruct (qi_live Hi x) as [Hx _]; [set_solver | congruence]. }
  apply (dequeue_loop_spec l [] z); [done | apply Hi |]. apply chain_fuel_enough.
  - by apply qi_nodup, NoDup_app in Hi as (? & _).
  - intros q Hq. apply (qi_live Hi). set_solver.
Qed.

Lemma mark_zombie_spec (s : procs) (l z : list Z) (p : Z) :
  queue_inv s l z → p ≠ 0 → p ∉ z → is_Some (pcbs s !! p) →
  ∃ s', scheduler_mark_zombie p s = Done s' ∧
        queue_inv s' (filter (λ x, x ≠ p) l) (p :: z) ∧ links_only s s'.
Proof.
  intros Hi Hp Hpz Hlive. unfold scheduler_mark_zombie. destruct (Z.eqb_spec p 0); [done |].
  destruct (dequeue_spec s l z p Hi) as (s1 & -> & Hi1 & L1). cbn [obind].
  assert (p ∉ filter (λ x, x ≠ p) l) as Hpl by (rewrite list_elem_of_filter; tauto).
  eexists. split; [reflexivity |].
  assert (links_only s (with_zombies p (edit p (set_next (zombie_head s1)) s1))) as L2.
  { etransitivity; [exact L1 |]. etransitivity; [apply links_edit |]. by apply links_with. }
  split; [| done]. split.
  - apply (chain_edit_ne s1); [done | apply Hi1].
  - apply Hi1.
  - apply Hi1.
  - apply Hi1.
  - split; [done |]. set (f := set_next (zombie_head s1)).
    change (chain (edit p f s1) (next (pcb (edit p f s1) p)) z 0). unfold f.
    rewrite pcb_edit_eq, next_set_next. apply chain_edit_ne; [done | apply Hi1].
  - pose proof (qi_nodup Hi1) as Hnd. rewrite (cons_middle p), app_assoc. apply nodup_snoc_app.
    split; [set_solver | done].
  - intros q Hq. destruct (decide (q = p)) as [->|].
    + split; [done |]. by apply (lk_live _ _ L2).
    + destruct (qi_live Hi1 q) as [H1 H2]; [set_solver |]. split; [done |].
      apply (live_edit p q (set_next (zombie_head s1)) s1 H2).
Qed.

(** The two outcomes of [pick_next] on the list. *)
Lemma pick_next_cases (s : procs) (l z : list Z) :
  queue_inv s l z →
  (∃ l1 p l2, l = l1 ++ p :: l2 ∧ Forall (λ q, ready s q = false) l1 ∧ ready s p = true ∧
     fst (pick_next s) = p ∧ queue_inv (snd (pick_next s)) (l2 ++ l1 ++ [p]) z ∧
     links_only s (snd (pick_next s))) ∨
  (Forall (λ q, ready s q = false) l ∧ fst (pick_next s) = 0 ∧
     queue_inv (snd (pick_next s)) l z ∧ links_only s (snd (pick_next s))).
Proof.
  intros Hi. destruct (pick_next_spec s l z Hi) as (E1 & E2 & E3).
  destruct (first_ready (ready s) l) as [Hnone|(l1 & p & l2 & -> & H1 & H2)].
  - right. pose proof (pick_list_none (ready s) l [] Hnone) as Hp. rewrite app_nil_r in Hp. simpl in Hp.
    rewrite Hp in E1, E2. done.
  - left. exists l1, p, l2. rewrite pick_list_first in E1, E2 by (done || (rewrite length_app; simpl; lia)).
    done.
Qed.

(** ** Waking *)

Lemma next_wake (p : process) : next (wake p) = next p.
Proof. unfold wake. destruct (_ && _); [| done]. destruct p. simpl. by destruct (_ =? 0). Qed.

Lemma wake_loop_spec (l : list Z) (fuel : nat) (s : procs) (p : Z) :
  chain s p l 0 → NoDup l → (∀ q, q ∈ l → q ≠ 0) → (length l < fuel)%nat →
  ∃ s', wake_loop fuel p s = Done s' ∧
    (∀ q, pcb s' q = if decide (q ∈ l) then wake (pcb s q) else pcb s q) ∧
    s' = with_pcbs (pcbs s') s ∧ ∀ q, is_Some (pcbs s !! q) → is_Some (pcbs s' !! q).
Proof.
  revert fuel s p. induction l as [|x l IH]; intros [|fuel] s p Hc Hnd Hne Hf; try (simpl in Hf; lia).
  - change (p = 0) in Hc. subst p. exists s. split_and!; [done | | by destruct s | done].
    intros q. rewrite decide_False; [done | set_solver].
  - destruct Hc as [-> Hc]. apply NoDup_cons in Hnd as [Hx Hnd]. simpl in Hf. cbn [wake_loop].
    destruct (Z.eqb_spec x 0) as [->|]; [destruct (Hne 0); set_solver |].
    rewrite pcb_edit_eq, next_wake.
    destruct (IH fuel (edit x wake s) (next (pcb s x))) as (s' & E & H1 & H2 & H3);
      [by apply chain_edit_ne | done | set_solver | lia |].
    exists s'. split_and!; [exact E | | by destruct s' | intros q Hq; by apply H3, live_edit].
    intros q. rewrite H1. destruct (decide (q = x)) as [->|Hqx].
    + rewrite decide_False, decide_True by set_solver. apply pcb_edit_eq.
    + rewrite pcb_edit_ne by done. destruct (decide (q ∈ l)); [by rewrite decide_True by set_solver |].
      by rewrite decide_False by set_solver.
Qed.

(** The wake-up pass of the tick: every process of the run queue is woken once. *)
Lemma wake_spec (s : procs) (l z : list Z) :
  queue_inv s l z →
  ∃ s', wake_loop (walk_fuel s) (queue_head s) s = Done s' ∧ queue_inv s' l z ∧
    (∀ q, pcb s' q = if decide (q ∈ l) then wake (pcb s q) else pcb s q) ∧ s' = with_pcbs (pcbs s') s ∧
    ∀ q, is_Some (pcbs s !! q) → is_Some (pcbs s' !! q).
Proof.
  intros Hq. pose proof (qi_nodup Hq) as (Hnd & _ & _)%NoDup_app.
  destruct (wake_loop_spec l (walk_fuel s) s (queue_head s)) as (s' & E & H1 & H2 & H3); [apply Hq | done | | |].
  - intros q Hin. apply (qi_live Hq). set_solver.
  - apply chain_fuel_enough; [done |]. intros q Hin. apply (qi_live Hq). set_solver.
  - exists s'. split_and!; [done | | done | done | done]. rewrite H2.
    assert (∀ q, next (pcb (with_pcbs (pcbs s') s) q) = next (pcb s q)) as Hn.
    { intros q. change (pcb (with_pcbs (pcbs s') s) q) with (pcb s' q). rewrite H1.
      destruct (decide (q ∈ l)); [apply next_wake | done]. }
    split; try apply Hq.
    + eapply chain_ext; [| apply Hq]. auto.
    + eapply chain_ext; [| apply Hq]. auto.
    + intros q Hin. destruct (qi_live Hq q Hin). split; [done | by apply H3].
Qed.

(** ** The zombie list *)

Lemma unlink_zombie_spec (s : procs) (l z1 z2 : list Z) (p : Z) :
  queue_inv s l (z1 ++ p :: z2) →
  queue_inv (unlink_zombie (default 0 (last z1)) p s) l (z1 ++ z2) ∧
  links_only s (unlink_zombie (default 0 (last z1)) p s).
Proof.
  intros Hi. pose proof (qi_nodup Hi) as (_ & Hdis & Hnd)%NoDup_app.
  pose proof Hnd as (_ & Hd & (Hp2 & _)%NoDup_cons)%NoDup_app.
  assert (∀ q, q ∈ z1 → q ≠ 0) as Hne by (intros q Hq; apply (qi_live Hi); set_solver).
  pose proof (unlink_chain s z1 z2 p _ Hnd Hne (qi_zombies Hi)) as Hc. cbv zeta in Hc.
  unfold unlink_zombie. set (prev := default 0 (last z1)) in *.
  assert (links_only s (if prev =? 0 then with_zombies (next (pcb s p)) s else edit prev (set_next (next (pcb s p))) s)) as L.
  { destruct (prev =? 0); [by apply links_with | apply links_edit]. }
  split; [| done]. split.
  - destruct (Z.eqb_spec prev 0) as [|Hpr]; [apply Hi |]. apply chain_edit_ne; [| apply Hi].
    unfold prev in *. destruct (last z1) as [w|] eqn:Hw; [| done]. simpl in *.
    apply last_Some in Hw as [z1' ->]. intros Hin. apply (Hdis w Hin). set_solver.
  - destruct (prev =? 0); apply Hi.
  - destruct (prev =? 0); apply Hi.
  - destruct (prev =? 0); apply Hi.
  - assert (∀ q, q ∈ z1 ++ z2 → q ≠ p) as Hqp.
    { intros q Hq ->. apply elem_of_app in Hq as [Hq|Hq]; [apply (Hd p Hq); set_solver | done]. }
    destruct (prev =? 0); (eapply chain_ext; [| exact Hc]); intros q Hq; rewrite (pcb_edit_ne p) by auto; done.
  - eapply sublist_NoDup; [exact (qi_nodup Hi) |]. apply sublist_app; [done |]. apply sublist_app; [done |]. by apply sublist_cons.
  - intros q Hq. destruct (qi_live Hi q) as [H1 H2]; [set_solver |]. split; [done |]. by apply (lk_live _ _ L).
Qed.

(** ** The process table and the queues *)

(** The table holds exactly the processes of the two lists, once each, and their
    PIDs are distinct and below the next one. *)
Record table_ok (s : procs) (l z : list Z) : Prop := {
  to_length : length (proc_table s) = Z.to_nat MAX_PROCESSES;
  to_nodup : NoDup (filter (λ p, p ≠ 0) (proc_table s));
  to_members p : p ≠ 0 → p ∈ proc_table s ↔ p ∈ l ++ z;
  to_pids p q : p ∈ l ++ z → q ∈ l ++ z → pid (pcb s p) = pid (pcb s q) → p = q;
  to_bound p : p ∈ l ++ z → 0 <= pid (pcb s p) < next_pid s
}.

Lemma table_add_spec (p : Z) (t t' : list Z) :
  table_add p t = Some t' → p ≠ 0 → p ∉ t →
  length t' = length t ∧ (∀ q, q ≠ 0 → q ∈ t' ↔ q = p ∨ q ∈ t) ∧
  (NoDup (filter (λ p, p ≠ 0) t) → NoDup (filter (λ p, p ≠ 0) t')).
Proof.
  revert t'. induction t as [|q t IH]; intros t'; simpl; [done |].
  destruct (Z.eqb_spec q 0) as [->|Hq].
  - intros [= <-] Hp Hnin. split_and!; [done | set_solver |].
    rewrite !filter_cons. rewrite decide_False by tauto. rewrite decide_True by done.
    intros Hnd. constructor; [| done]. rewrite list_elem_of_filter. set_solver.
  - destruct (table_add p t) as [u|]; simpl; [| done]. intros [= <-] Hp Hnin.
    destruct (IH u eq_refl Hp) as (H1 & H2 & H3); [set_solver |].
    split_and!; [simpl; congruence | |].
    + intros r Hr. rewrite !elem_of_cons, H2 by done. tauto.
    + rewrite !filter_cons, !decide_True by done. rewrite !NoDup_cons, !list_elem_of_filter.
      intros [Hn Hnd]. split; [| auto]. rewrite H2 by done. intros [_ [->|?]]; [set_solver | tauto].
Qed.

Lemma table_add_full (p : Z) (t : list Z) : table_add p t = None → 0 ∉ t.
Proof.
  induction t as [|q t IH]; simpl; [set_solver |]. destruct (Z.eqb_spec q 0); [done |].
  destruct (table_add p t); [done |]. intros _. rewrite elem_of_cons. intros [Heq|Hin]; [congruence | by apply IH].
Qed.

Lemma table_remove_spec (p : Z) (t : list Z) :
  p ≠ 0 → NoDup (filter (λ p, p ≠ 0) t) →
  length (table_remove p t) = length t ∧ NoDup (filter (λ p, p ≠ 0) (table_remove p t)) ∧
  ∀ q, q ≠ 0 → q ∈ table_remove p t ↔ q ≠ p ∧ q ∈ t.
Proof.
  intros Hp. induction t as [|q t IH]; simpl; [intros _; split; [done | split; [constructor | set_solver]] |].
  rewrite filter_cons. destruct (Z.eqb_spec q p) as [->|Hqp].
  - rewrite decide_True by done. rewrite NoDup_cons, list_elem_of_filter. intros [Hn Hnd]. split_and!; [done | |].
    + rewrite filter_cons, decide_False by tauto. done.
    + intros r Hr. rewrite !elem_of_cons. split; [| tauto]. intros [->|Hin]; [done |].
      split; [| tauto]. intros ->. tauto.
  - intros Hnd. destruct IH as (H1 & H2 & H3).
    { revert Hnd. case_decide; [by rewrite NoDup_cons; intros [] | done]. }
    split_and!; [simpl; congruence | |].
    + rewrite filter_cons. revert Hnd. case_decide; [| done]. rewrite !NoDup_cons, !list_elem_of_filter.
      intros [Hn _]. split; [| done]. rewrite H3 by done. tauto.
    + intros r Hr. rewrite !elem_of_cons, H3 by done. intuition congruence.
Qed.

(** No more processes than slots. *)
Lemma table_bound (s : procs) (l z : list Z) :
  table_ok s l z → queue_inv s l z → Z.of_nat (length (l ++ z)) <= MAX_PROCESSES.
Proof.
  intros Ht Hq. assert (l ++ z ⊆+ proc_table s) as Hs.
  { apply NoDup_submseteq; [apply Hq |]. intros p Hp. apply (to_members _ _ _ Ht); [| done].
    by apply (qi_live Hq). }
  apply submseteq_length in Hs. rewrite (to_length _ _ _ Ht) in Hs. unfold MAX_PROCESSES in *. lia.
Qed.

(** PIDs find their process. *)
Lemma lookup_pid_found (s : procs) (id p : Z) (t : list Z) :
  p ∈ t → p ≠ 0 → pid (pcb s p) = id →
  (∀ q, q ∈ t → q ≠ 0 → pid (pcb s q) = id → q = p) → lookup_pid s id t = p.
Proof.
  intros Hin Hp Hid Huniq. induction t as [|q t IH]; [set_solver |]. simpl.
  destruct (Z.eqb_spec q 0) as [->|Hq]; simpl.
  - apply IH; [set_solver |]. intros r Hr. apply Huniq. set_solver.
  - destruct (Z.eqb_spec (pid (pcb s q)) id) as [He|Hne]; [apply Huniq; set_solver |].
    apply IH; [set_solver |]. intros r Hr. apply Huniq. set_solver.
Qed.

Lemma lookup_pid_none (s : procs) (id : Z) (t : list Z) :
  (∀ q, q ∈ t → q ≠ 0 → pid (pcb s q) ≠ id) → lookup_pid s id t = 0.
Proof.
  intros H. induction t as [|q t IH]; [done |]. simpl. destruct (Z.eqb_spec q 0) as [->|Hq]; simpl.
  - apply IH. set_solver.
  - destruct (Z.eqb_spec (pid (pcb s q)) id) as [He|Hne]; [by destruct (H q ltac:(set_solver) Hq) |].
    apply IH. set_solver.
Qed.

(** A live parent: in the table, neither a zombie nor dead, and not PID 0. *)
Lemma is_pid_alive_spec (s : procs) (l z : list Z) (id : Z) :
  table_ok s l z → queue_inv s l z →
  is_pid_alive id s = true ↔
  id ≠ 0 ∧ ∃ q, q ∈ l ++ z ∧ pid (pcb s q) = id ∧ state (pcb s q) ≠ PROCESS_ZOMBIE ∧ state (pcb s q) ≠ PROCESS_DEAD.
Proof.
  intros Ht Hq. unfold is_pid_alive. destruct (Z.eqb_spec id 0) as [->|Hid]; [naive_solver |].
  assert ((∃ q, q ∈ l ++ z ∧ pid (pcb s q) = id) ∨ ∀ q, q ∈ l ++ z → pid (pcb s q) ≠ id) as [(p & Hp & Hpid)|Hno].
  { destruct (decide (Exists (λ q, pid (pcb s q) = id) (l ++ z))) as [He|He].
    - left. apply Exists_exists in He as (q & ? & ?). by exists q.
    - right. intros q Hin Heq. apply He, Exists_exists. by exists q. }
  - assert (process_lookup id s = p) as ->.
    { rewrite <- Hpid. apply lookup_pid_found; [| by apply (qi_live Hq) | done |].
      - apply (to_members _ _ _ Ht); [by apply (qi_live Hq) | done].
      - intros q Hin Hq0 Heq. apply (to_pids _ _ _ Ht); [| done | done]. by apply (to_members _ _ _ Ht). }
    destruct (Z.eqb_spec p 0) as [->|]; [by destruct (qi_live Hq 0 Hp) |].
    rewrite andb_true_iff, !negb_true_iff, !bool_decide_eq_false. split.
    + intros [H1 H2]. split; [done |]. by exists p.
    + intros (_ & q & Hin & Heq & H1 & H2). assert (q = p) as -> by (apply (to_pids _ _ _ Ht); congruence). done.
  - unfold process_lookup. rewrite lookup_pid_none; [naive_solver |].
    intros q Hin Hq0. apply Hno. by apply (to_members _ _ _ Ht).
Qed.

Lemma process_lookup_spec (s : procs) (l z : list Z) (p : Z) :
  table_ok s l z → queue_inv s l z → p ∈ l ++ z → process_lookup (pid (pcb s p)) s = p.
Proof.
  intros Ht Hq Hp. destruct (qi_live Hq p Hp) as [Hp0 _]. apply lookup_pid_found; [| done | done |].
  - by apply (to_members _ _ _ Ht).
  - intros q Hin Hq0 Heq. apply (to_pids _ _ _ Ht); [| done | done]. by apply (to_members _ _ _ Ht).
Qed.

(** ** Properties *)

(** [scheduler_enqueue] appends the process to the run queue and makes it
    READY; no other field of any process changes and the zombie list stays. *)
Theorem scheduler_enqueue_appends (s : procs) (l z : list Z) (p : Z) :
  queue_inv s l z → p ≠ 0 → p ∉ l ++ z → Z.of_nat (length l) + 1 < 2 ^ 32 →
  queue_inv (scheduler_enqueue p s) (l ++ [p]) z ∧
  state (pcb (scheduler_enqueue p s) p) = PROCESS_READY ∧
  ∀ q, q ≠ p → set_next 0 (pcb (scheduler_enqueue p s) q) = set_next 0 (pcb s q).
Proof.
  intros Hi Hp Hnin Hlen. destruct (enqueue_spec s l z p Hi Hp Hnin Hlen) as [H1 H2]. split_and!.
  - done.
  - rewrite (links_state _ _ _ H2), pcb_edit_eq. by destruct (pcb s p).
  - intros q Hq. by rewrite (lk_pcb _ _ H2), pcb_edit_ne.
Qed.

(** [scheduler_dequeue] terminates and removes exactly the process from the
    run queue, wherever it is; when it is not queued nothing changes but links. *)
Theorem scheduler_dequeue_removes (s : procs) (l z : list Z) (p : Z) :
  queue_inv s l z →
  ∃ s', scheduler_dequeue p s = Done s' ∧ queue_inv s' (filter (λ x, x ≠ p) l) z ∧
        ∀ q, set_next 0 (pcb s' q) = set_next 0 (pcb s q).
Proof.
  intros Hi. destruct (dequeue_spec s l z p Hi) as (s' & H1 & H2 & H3). exists s'.
  split_and!; [done | done | apply H3].
Qed.

(** [scheduler_mark_zombie] terminates and moves the process from the run
    queue to the front of the zombie list. *)
Theorem scheduler_mark_zombie_moves (s : procs) (l z : list Z) (p : Z) :
  queue_inv s l z → p ≠ 0 → p ∉ z → is_Some (pcbs s !! p) →
  ∃ s', scheduler_mark_zombie p s = Done s' ∧
        queue_inv s' (filter (λ x, x ≠ p) l) (p :: z) ∧
        ∀ q, set_next 0 (pcb s' q) = set_next 0 (pcb s q).
Proof.
  intros Hi Hp Hpz Hlive. destruct (mark_zombie_spec s l z p Hi Hp Hpz Hlive) as (s' & H1 & H2 & H3).
  exists s'. split_and!; [done | done | apply H3].
Qed.

(** [pick_next] returns the first READY process of the queue and rotates the
    queue just past it; if none is READY it returns NULL and the queue is as
    before. *)
Theorem pick_next_round_robin (s : procs) (l z : list Z) :
  queue_inv s l z →
  (∃ l1 p l2, l = l1 ++ p :: l2 ∧ Forall (λ q, ready s q = false) l1 ∧ ready s p = true ∧
     fst (pick_next s) = p ∧ queue_inv (snd (pick_next s)) (l2 ++ l1 ++ [p]) z ∧
     links_only s (snd (pick_next s))) ∨
  (Forall (λ q, ready s q = false) l ∧ fst (pick_next s) = 0 ∧
     queue_inv (snd (pick_next s)) l z ∧ links_only s (snd (pick_next s))).
Proof. apply pick_next_cases. Qed.

(** C27. Fairness: every time [pick_next] chooses another process, a READY process
    waiting at position [i] of the run queue moves to a strictly smaller
    position, so it is chosen after at most [i + 1] picks. *)
Theorem pick_next_fair (s : procs) (l z : list Z) (p : Z) (i : nat) :
  queue_inv s l z → l !! i = Some p → ready s p = true →
  fst (pick_next s) = p ∨
  ∃ l' j, queue_inv (snd (pick_next s)) l' z ∧ l' !! j = Some p ∧ (j < i)%nat ∧
          ready (snd (pick_next s)) p = true ∧ fst (pick_next s) ≠ 0.
Proof.
  intros Hi Hl Hr. destruct (pick_next_spec s l z Hi) as (E1 & E2 & E3).
  destruct (first_ready (ready s) l) as [Hnone|(l1 & x & l2 & -> & H1 & H2)].
  - rewrite Forall_forall in Hnone. rewrite (Hnone p) in Hr; [done |]. by eapply list_elem_of_lookup_2.
  - rewrite pick_list_first in E1, E2 by (done || (rewrite length_app; simpl; lia)). simpl in E1, E2.
    apply lookup_app_Some in Hl as [Hl|[Hge Hl]].
    { rewrite Forall_forall in H1. rewrite (H1 p) in Hr; [done |]. by eapply list_elem_of_lookup_2. }
    destruct (i - length l1)%nat as [|k] eqn:Hk; simpl in Hl.
    + left. congruence.
    + right. exists (l2 ++ l1 ++ [x]), k. split_and!.
      * done.
      * by apply lookup_app_l_Some.
      * lia.
      * by rewrite (ready_links _ _ _ E3).
      * rewrite E1. apply (qi_live Hi). set_solver.
Qed.

(** ** Witnesses *)

(** Three processes: 0x1000 BLOCKED and 0x2000 READY in the queue, 0x3000 a zombie;
    0x4000 exists but is nowhere. *)
Definition demo_procs : procs :=
  Procs
    (<[0x1000 := set_state PROCESS_BLOCKED (set_next 0x2000 zero_pcb)]>
      (<[0x2000 := zero_pcb]>
        (<[0x3000 := set_state PROCESS_ZOMBIE zero_pcb]>
          (<[0x4000 := zero_pcb]> ∅))))
    5 0x2000 [] 0x1000 0x2000 2 0x3000.

Lemma demo_queue : queue_inv demo_procs [0x1000; 0x2000] [0x3000].
Proof.
  split; try (vm_compute; done).
  - apply (bool_decide_unpack (NoDup ([0x1000; 0x2000] ++ [0x3000]))). vm_compute. done.
  - intros p Hp. cbn [app] in Hp. rewrite !elem_of_cons in Hp.
    destruct Hp as [->|[->|[->|Hp]]]; [| | | by apply not_elem_of_nil in Hp];
      (split; [done | by eexists]).
Qed.

Lemma scheduler_enqueue_appends_witness :
  queue_inv (scheduler_enqueue 0x4000 demo_procs) [0x1000; 0x2000; 0x4000] [0x3000] ∧
  state (pcb (scheduler_enqueue 0x4000 demo_procs) 0x4000) = PROCESS_READY ∧
  ∀ q, q ≠ 0x4000 → set_next 0 (pcb (scheduler_enqueue 0x4000 demo_procs) q) = set_next 0 (pcb demo_procs q).
Proof.
  apply (scheduler_enqueue_appends demo_procs [0x1000; 0x2000] [0x3000] 0x4000);
    [exact demo_queue | done | | simpl; lia].
  cbn [app]. rewrite !elem_of_cons. intros [?|[?|[?|H]]]; [done.. | by apply not_elem_of_nil in H].
Defined.

Lemma scheduler_dequeue_removes_witness :
  ∃ s', scheduler_dequeue 0x1000 demo_procs = Done s' ∧ queue_inv s' [0x2000] [0x3000] ∧
        ∀ q, set_next 0 (pcb s' q) = set_next 0 (pcb demo_procs q).
Proof. apply (scheduler_dequeue_removes demo_procs [0x1000; 0x2000] [0x3000] 0x1000). exact demo_queue. Defined.

Lemma scheduler_mark_zombie_moves_witness :
  ∃ s', scheduler_mark_zombie 0x2000 demo_procs = Done s' ∧ queue_inv s' [0x1000] [0x2000; 0x3000] ∧
        ∀ q, set_next 0 (pcb s' q) = set_next 0 (pcb demo_procs q).
Proof.
  apply (scheduler_mark_zombie_moves demo_procs [0x1000; 0x2000] [0x3000] 0x2000);
    [exact demo_queue | done | | vm_compute; eauto].
  rewrite elem_of_cons. intros [?|H]; [done | by apply not_elem_of_nil in H].
Defined.

Lemma pick_next_round_robin_witness :
  (∃ l1 p l2, [0x1000; 0x2000] = l1 ++ p :: l2 ∧ Forall (λ q, ready demo_procs q = false) l1 ∧
     ready demo_procs p = true ∧ fst (pick_next demo_procs) = p ∧
     queue_inv (snd (pick_next demo_procs)) (l2 ++ l1 ++ [p]) [0x3000] ∧
     links_only demo_procs (snd (pick_next demo_procs))) ∨
  (Forall (λ q, ready demo_procs q = false) [0x1000; 0x2000] ∧ fst (pick_next demo_procs) = 0 ∧
     queue_inv (snd (pick_next demo_procs)) [0x1000; 0x2000] [0x3000] ∧
     links_only demo_procs (snd (pick_next demo_procs))).
Proof. apply (pick_next_round_robin demo_procs [0x1000; 0x2000] [0x3000]). exact demo_queue. Defined.

Lemma pick_next_fair_witness :
  fst (pick_next demo_procs) = 0x2000 ∨
  ∃ l' j, queue_inv (snd (pick_next demo_procs)) l' [0x3000] ∧ l' !! j = Some 0x2000 ∧ (j < 1)%nat ∧
          ready (snd (pick_next demo_procs)) 0x2000 = true ∧ fst (pick_next demo_procs) ≠ 0.
Proof.
  apply (pick_next_fair demo_procs [0x1000; 0x2000] [0x3000] 0x2000 1);
    [exact demo_queue | done | vm_compute; done].
Defined.

End Scheduler.
