(* ===== verification/Context.v ===== *)
(** * Context switching

    Models [boot/context_switch.asm] instruction by instruction on a register
    file, physical memory (the kernel stacks) and the PCB store, and the initial
    stack frame [process_create] builds.  The theorems say that a process that
    is switched away from and back to resumes with its registers, flags and
    instruction pointer, and that a new process starts at its entry point. *)

From S2P Require Import Prelude Memory Scheduler.

Module Context.

(** ** Registers and the stack *)

Record cpu : Type := Cpu {
  r_eax : Z; r_ebx : Z; r_ecx : Z; r_edx : Z; r_esi : Z; r_edi : Z; r_ebp : Z;
  r_esp : Z; r_eip : Z; r_eflags : Z; r_cr3 : Z
}.

Definition with_eax (v : Z) (c : cpu) : cpu :=
  Cpu v (r_ebx c) (r_ecx c) (r_edx c) (r_esi c) (r_edi c) (r_ebp c) (r_esp c) (r_eip c) (r_eflags c) (r_cr3 c).
Definition with_ebx (v : Z) (c : cpu) : cpu :=
  Cpu (r_eax c) v (r_ecx c) (r_edx c) (r_esi c) (r_edi c) (r_ebp c) (r_esp c) (r_eip c) (r_eflags c) (r_cr3 c).
Definition with_ecx (v : Z) (c : cpu) : cpu :=
  Cpu (r_eax c) (r_ebx c) v (r_edx c) (r_esi c) (r_edi c) (r_ebp c) (r_esp c) (r_eip c) (r_eflags c) (r_cr3 c).
Definition with_edx (v : Z) (c : cpu) : cpu :=
  Cpu (r_eax c) (r_ebx c) (r_ecx c) v (r_esi c) (r_edi c) (r_ebp c) (r_esp c) (r_eip c) (r_eflags c) (r_cr3 c).
Definition with_esi (v : Z) (c : cpu) : cpu :=
  Cpu (r_eax c) (r_ebx c) (r_ecx c) (r_edx c) v (r_edi c) (r_ebp c) (r_esp c) (r_eip c) (r_eflags c) (r_cr3 c).
Definition with_edi (v : Z) (c : cpu) : cpu :=
  Cpu (r_eax c) (r_ebx c) (r_ecx c) (r_edx c) (r_esi c) v (r_ebp c) (r_esp c) (r_eip c) (r_eflags c) (r_cr3 c).
Definition with_ebp (v : Z) (c : cpu) : cpu :=
  Cpu (r_eax c) (r_ebx c) (r_ecx c) (r_edx c) (r_esi c) (r_edi c) v (r_esp c) (r_eip c) (r_eflags c) (r_cr3 c).
Definition with_esp (v : Z) (c : cpu) : cpu :=
  Cpu (r_eax c) (r_ebx c) (r_ecx c) (r_edx c) (r_esi c) (r_edi c) (r_ebp c) v (r_eip c) (r_eflags c) (r_cr3 c).
Definition with_eip (v : Z) (c : cpu) : cpu :=
  Cpu (r_eax c) (r_ebx c) (r_ecx c) (r_edx c) (r_esi c) (r_edi c) (r_ebp c) (r_esp c) v (r_eflags c) (r_cr3 c).
Definition with_eflags (v : Z) (c : cpu) : cpu :=
  Cpu (r_eax c) (r_ebx c) (r_ecx c) (r_edx c) (r_esi c) (r_edi c) (r_ebp c) (r_esp c) (r_eip c) v (r_cr3 c).
Definition with_cr3 (v : Z) (c : cpu) : cpu :=
  Cpu (r_eax c) (r_ebx c) (r_ecx c) (r_edx c) (r_esi c) (r_edi c) (r_ebp c) (r_esp c) (r_eip c) (r_eflags c) v.

Definition push (v : Z) (cm : cpu * memory) : cpu * memory :=
  let '(c, m) := cm in
  let sp := u32 (r_esp c - 4) in
  (with_esp sp c, store32 m sp v).

(** [pop reg]: the word on top of the stack goes to the register [set] writes. *)
Definition pop (set : Z → cpu → cpu) (m : memory) (c : cpu) : cpu :=
  set (load32 m (r_esp c)) (with_esp (u32 (r_esp c + 4)) c).

(** ** [context_switch] *)

Definition save_registers (c : cpu) (m : memory) : cpu * memory :=
  let cm := push (r_eflags c) (c, m) in
  let cm := push (r_eax c) cm in
  let cm := push (r_ecx c) cm in
  let cm := push (r_edx c) cm in
  let cm := push (r_ebx c) cm in
  let cm := push (r_ebp c) cm in
  let cm := push (r_esi c) cm in
  push (r_edi c) cm.

Definition restore_registers (m : memory) (c : cpu) : cpu :=
  let c := pop with_edi m c in
  let c := pop with_esi m c in
  let c := pop with_ebp m c in
  let c := pop with_ebx m c in
  let c := pop with_edx m c in
  let c := pop with_ecx m c in
  let c := pop with_eax m c in
  let c := pop with_eflags m c in
  pop with_eip m c.

Definition context_switch (c : cpu) (m : memory) (s : Scheduler.procs) : cpu * memory * Scheduler.procs :=
  let '(c, m) := save_registers c m in
  let c := with_eax (load32 m (r_esp c + 36)) c in
  let s := Scheduler.edit (r_eax c) (Scheduler.set_esp (r_esp c)) s in
  let c := with_eax (load32 m (r_esp c + 40)) c in
  let c := with_ecx (Scheduler.cr3 (Scheduler.pcb s (r_eax c))) c in
  let c := with_edx (r_cr3 c) c in
  let c := if r_ecx c =? r_edx c then c else with_cr3 (r_ecx c) c in
  let c := with_esp (Scheduler.esp (Scheduler.pcb s (r_eax c))) c in
  (restore_registers m c, m, s).

(** The C call [context_switch(old, new)] whose return address is [ret]. *)
Definition call_context_switch (old new ret : Z) (c : cpu) (m : memory) (s : Scheduler.procs)
    : cpu * memory * Scheduler.procs :=
  let '(c, m) := push ret (push old (push new (c, m))) in
  context_switch c m s.

(** ** The initial frame of [process_create] *)

(** [*(--stack) = v] *)
Definition push_word (v : Z) (sm : Z * memory) : Z * memory :=
  let '(stack, m) := sm in
  (u32 (stack - 4), store32 m (u32 (stack - 4)) v).

Definition initial_frame (top process_exit entry : Z) (m : memory) : Z * memory :=
  let sm := push_word process_exit (top, m) in
  let sm := push_word entry sm in
  let sm := push_word 0x202 sm in
  let sm := push_word 0 sm in
  let sm := push_word 0 sm in
  let sm := push_word 0 sm in
  let sm := push_word 0 sm in
  let sm := push_word 0 sm in
  let sm := push_word 0 sm in
  push_word 0 sm.

(** ** The stack as a list of words *)

Fixpoint stack_at (m : memory) (sp : Z) (ws : list Z) : Prop :=
  match ws with
  | [] => True
  | w :: ws' => load32 m sp = w ∧ stack_at m (sp + 4) ws'
  end.

Lemma stack_at_agree (ws : list Z) (m m' : memory) (sp : Z) :
  agree_on (λ a, sp <= a < sp + 4 * Z.of_nat (length ws)) m m' → stack_at m sp ws → stack_at m' sp ws.
Proof.
  revert sp. induction ws as [|w ws IH]; intros sp Hag; simpl; [done |]. intros [<- H]. split.
  - eapply agree_on_load32; [exact Hag |]. simpl. lia.
  - apply IH; [| done]. eapply agree_on_weaken; [exact Hag |]. simpl. lia.
Qed.

Lemma stack_at_store (m : memory) (sp v : Z) (ws : list Z) :
  is_u32 v → stack_at m sp ws → stack_at (store32 m (sp - 4) v) (sp - 4) (v :: ws).
Proof.
  intros Hv H. simpl. rewrite load32_store32_eq, u32_id by done. split; [done |].
  replace (sp - 4 + 4) with sp by lia. eapply stack_at_agree; [| exact H].
  eapply agree_on_weaken; [apply agree_store32 |]. simpl. lia.
Qed.

Lemma stack_at_app (m : memory) (sp : Z) (ws1 ws2 : list Z) :
  stack_at m sp (ws1 ++ ws2) ↔ stack_at m sp ws1 ∧ stack_at m (sp + 4 * Z.of_nat (length ws1)) ws2.
Proof.
  revert sp. induction ws1 as [|w ws1 IH]; intros sp; simpl.
  - rewrite Z.add_0_r. tauto.
  - rewrite IH. replace (sp + 4 + 4 * Z.of_nat (length ws1)) with (sp + 4 * Z.of_nat (S (length ws1))) by lia.
    tauto.
Qed.

(** Pushing a list of words, the last one first. *)
Fixpoint push_all (ws : list Z) (sp : Z) (m : memory) : memory :=
  match ws with
  | [] => m
  | w :: ws' => push_all ws' (sp - 4) (store32 m (sp - 4) w)
  end.

Lemma push_all_spec (ws ws0 : list Z) (sp : Z) (m : memory) :
  Forall is_u32 ws → stack_at m sp ws0 →
  let n := 4 * Z.of_nat (length ws) in
  stack_at (push_all ws sp m) (sp - n) (reverse ws ++ ws0) ∧
  agree_outside (sp - n) sp m (push_all ws sp m).
Proof.
  intros Hws. revert sp m ws0. induction Hws as [|w ws Hw _ IH]; intros sp m ws0 H;
    cbn [length push_all].
  - rewrite Z.mul_0_r, Z.sub_0_r. split; [done | reflexivity].
  - destruct (IH (sp - 4) (store32 m (sp - 4) w) (w :: ws0)) as [H1 H2].
    { by apply stack_at_store. }
    replace (sp - 4 - 4 * Z.of_nat (length ws)) with (sp - 4 * Z.of_nat (S (length ws))) in H1, H2 by lia.
    rewrite reverse_cons, <- app_assoc. split; [done |].
    apply (agree_outside_trans _ _ m (store32 m (sp - 4) w)).
    + eapply agree_outside_weaken; [apply agree_store32 | lia | lia].
    + eapply agree_outside_weaken; [exact H2 | lia | lia].
Qed.

(** ** The two halves of a switch *)

Definition cpu_ok (c : cpu) : Prop :=
  Forall is_u32 [r_eax c; r_ebx c; r_ecx c; r_edx c; r_esi c; r_edi c; r_ebp c; r_eflags c].

(** The words a call of [context_switch] pushes, the first one first. *)
Definition switch_words (old new ret : Z) (c : cpu) : list Z :=
  [new; old; ret; r_eflags c; r_eax c; r_ecx c; r_edx c; r_ebx c; r_ebp c; r_esi c; r_edi c].

(** The words [restore_registers] pops, in order. *)
Definition saved_words (c : cpu) (eip : Z) : list Z :=
  [r_edi c; r_esi c; r_ebp c; r_ebx c; r_edx c; r_ecx c; r_eax c; r_eflags c; eip].

Lemma call_saves (old new ret : Z) (c : cpu) (m : memory) (s : Scheduler.procs) :
  cpu_ok c → is_u32 old → is_u32 new → is_u32 ret → 44 <= r_esp c < 2 ^ 32 →
  let m1 := push_all (switch_words old new ret c) (r_esp c) m in
  let s1 := Scheduler.edit old (Scheduler.set_esp (r_esp c - 44)) s in
  stack_at m1 (r_esp c - 44) (saved_words c ret ++ [old; new]) ∧
  agree_outside (r_esp c - 44) (r_esp c) m m1 ∧
  ∃ c', r_esp c' = Scheduler.esp (Scheduler.pcb s1 new) ∧ r_cr3 c' = Scheduler.cr3 (Scheduler.pcb s1 new) ∧
    call_context_switch old new ret c m s = (restore_registers m1 c', m1, s1).
Proof.
  intros Hc Ho Hn Hr He m1 s1. unfold cpu_ok in Hc. rewrite !Forall_cons in Hc.
  destruct (push_all_spec (switch_words old new ret c) [] (r_esp c) m) as [H1 H2]; [| done |].
  { unfold switch_words. rewrite !Forall_cons. split_and!; try apply Hc; done. }
  fold m1 in H1, H2. change (4 * Z.of_nat (length (switch_words old new ret c))) with 44 in H1, H2.
  change (reverse (switch_words old new ret c) ++ []) with (saved_words c ret ++ [old; new]) in H1.
  split_and!; [done | done |].
  assert (let '(c1, m2) := push ret (push old (push new (c, m))) in
          save_registers c1 m2 = (with_esp (r_esp c - 44) c, m1)) as Hsave.
  { unfold save_registers, push. simpl.
    u32_inner. unfold m1, switch_words, push_all.
    replace (r_esp c - 44) with (r_esp c - 4 - 4 - 4 - 4 - 4 - 4 - 4 - 4 - 4 - 4 - 4) by lia.
    reflexivity. }
  unfold call_context_switch. destruct (push ret (push old (push new (c, m)))) as [c1 m2].
  unfold context_switch. rewrite Hsave.
  simpl in H1. destruct H1 as (_ & _ & _ & _ & _ & _ & _ & _ & _ & Hold & Hnew & _).
  cbn [r_esp with_esp r_eax with_eax].
  replace (load32 m1 (r_esp c - 44 + 36)) with old by (rewrite <- Hold at 1; f_equal; lia).
  replace (load32 m1 (r_esp c - 44 + 40)) with new by (rewrite <- Hnew at 1; f_equal; lia).
  fold s1. cbn [r_esp with_esp r_eax with_eax with_ecx with_edx r_ecx r_edx r_cr3].
  destruct (Z.eqb_spec (Scheduler.cr3 (Scheduler.pcb s1 new)) (r_cr3 c)) as [Heq|Hne].
  - eexists. split; [| split; [| reflexivity]]; [done |]. simpl. congruence.
  - eexists. split; [| split; [| reflexivity]]; done.
Qed.

Lemma restore_spec (m : memory) (c : cpu) (edi esi ebp ebx edx ecx eax eflags eip : Z) :
  0 <= r_esp c → r_esp c + 36 < 2 ^ 32 →
  stack_at m (r_esp c) [edi; esi; ebp; ebx; edx; ecx; eax; eflags; eip] →
  restore_registers m c = Cpu eax ebx ecx edx esi edi ebp (r_esp c + 36) eip eflags (r_cr3 c).
Proof.
  intros He Hlt H. simpl in H. destruct H as (W1 & W2 & W3 & W4 & W5 & W6 & W7 & W8 & W9 & _).
  unfold restore_registers, pop. simpl.
  u32_inner.
  rewrite W1, W2, W3, W4, W5, W6, W7, W8, W9.
  replace (r_esp c + 4 + 4 + 4 + 4 + 4 + 4 + 4 + 4 + 4) with (r_esp c + 36) by lia. done.
Qed.

(** A switch from [x] to a process [p] whose saved words are on its stack. *)
Lemma switch_to (x p ret : Z) (c : cpu) (m : memory) (s : Scheduler.procs) (sp : Z)
    (edi esi ebp ebx edx ecx eax eflags eip : Z) (rest : list Z) :
  cpu_ok c → is_u32 x → is_u32 p → is_u32 ret → 44 <= r_esp c < 2 ^ 32 → x ≠ p →
  Scheduler.esp (Scheduler.pcb s p) = sp → 0 <= sp → sp + 36 < 2 ^ 32 →
  stack_at m sp ([edi; esi; ebp; ebx; edx; ecx; eax; eflags; eip] ++ rest) →
  r_esp c <= sp ∨ sp + 4 * Z.of_nat (9 + length rest) <= r_esp c - 44 →
  ∃ m' s', call_context_switch x p ret c m s =
    (Cpu eax ebx ecx edx esi edi ebp (sp + 36) eip eflags (Scheduler.cr3 (Scheduler.pcb s p)), m', s') ∧
    stack_at m' (sp + 36) rest.
Proof.
  intros Hc Hx Hp Hr He Hne Hsp H0 Hlt Hst Hdis.
  destruct (call_saves x p ret c m s Hc Hx Hp Hr He) as (_ & Hag & c' & E1 & E2 & E3).
  rewrite Scheduler.pcb_edit_ne in E1, E2 by done. rewrite Hsp in E1.
  assert (stack_at (push_all (switch_words x p ret c) (r_esp c) m) sp
    ([edi; esi; ebp; ebx; edx; ecx; eax; eflags; eip] ++ rest)) as Hst'.
  { eapply stack_at_agree; [| exact Hst]. eapply agree_on_weaken; [exact Hag |].
    rewrite length_app. change (length [edi; esi; ebp; ebx; edx; ecx; eax; eflags; eip]) with 9%nat. simpl. lia. }
  apply stack_at_app in Hst' as [S1 S2]. eexists _, _. split; [| exact S2]. rewrite E3, <- E2.
  rewrite <- E1 in *. by rewrite (restore_spec _ c' edi esi ebp ebx edx ecx eax eflags eip).
Qed.

(** ** Properties *)

(** C25. A process that is switched away from and, later, back to resumes with the
    same general registers, flags and stack, at the return address of its call,
    in its own address space, provided its saved frame and its PCB's stack
    pointer were left alone in between. *)
Theorem context_switch_roundtrip (old new x ret ret' : Z) (c c1 c2 : cpu) (m m1 m2 : memory)
    (s s1 s2 : Scheduler.procs) :
  cpu_ok c → is_u32 old → is_u32 new → is_u32 ret → 44 <= r_esp c < 2 ^ 32 →
  call_context_switch old new ret c m s = (c1, m1, s1) →
  agree_on (λ a, r_esp c - 44 <= a < r_esp c) m1 m2 →
  Scheduler.esp (Scheduler.pcb s2 old) = Scheduler.esp (Scheduler.pcb s1 old) →
  cpu_ok c2 → is_u32 x → is_u32 ret' → 44 <= r_esp c2 < 2 ^ 32 → x ≠ old →
  r_esp c2 <= r_esp c - 44 ∨ r_esp c <= r_esp c2 - 44 →
  ∃ m3 s3, call_context_switch x old ret' c2 m2 s2 =
    (Cpu (r_eax c) (r_ebx c) (r_ecx c) (r_edx c) (r_esi c) (r_edi c) (r_ebp c)
         (r_esp c - 8) ret (r_eflags c) (Scheduler.cr3 (Scheduler.pcb s2 old)), m3, s3).
Proof.
  intros Hc Ho Hn Hr He Hcall Hag Hesp Hc2 Hx Hr' He2 Hxo Hdis.
  destruct (call_saves old new ret c m s Hc Ho Hn Hr He) as (Hst & _ & c' & _ & _ & E3).
  rewrite Hcall in E3. injection E3 as _ -> ->.
  assert (Scheduler.esp (Scheduler.pcb s2 old) = r_esp c - 44) as Hsp.
  { rewrite Hesp, Scheduler.pcb_edit_eq. by destruct (Scheduler.pcb s old). }
  destruct (switch_to x old ret' c2 m2 s2 (r_esp c - 44) (r_edi c) (r_esi c) (r_ebp c) (r_ebx c) (r_edx c)
    (r_ecx c) (r_eax c) (r_eflags c) ret [old; new]) as (m3 & s3 & E & _); [exact Hc2 | done | done | done | done | done | exact Hsp | lia | lia | | |].
  - eapply stack_at_agree; [| exact Hst]. eapply agree_on_weaken; [exact Hag |]. simpl. lia.
  - simpl. lia.
  - exists m3, s3. rewrite E. by replace (r_esp c - 44 + 36) with (r_esp c - 8) by lia.
Qed.

Lemma initial_frame_spec (top process_exit entry : Z) (m : memory) :
  40 <= top < 2 ^ 32 → is_u32 process_exit → is_u32 entry →
  fst (initial_frame top process_exit entry m) = top - 40 ∧
  stack_at (snd (initial_frame top process_exit entry m)) (top - 40)
    [0; 0; 0; 0; 0; 0; 0; 0x202; entry; process_exit] ∧
  agree_outside (top - 40) top m (snd (initial_frame top process_exit entry m)).
Proof.
  intros Ht Hx He.
  destruct (push_all_spec [process_exit; entry; 0x202; 0; 0; 0; 0; 0; 0; 0] [] top m) as [H1 H2]; [| done |].
  { rewrite !Forall_cons. split_and!; done || (unfold is_u32; lia). }
  unfold initial_frame, push_word. cbn [fst snd]. u32_inner.
  split_and!; [lia | exact H1 | exact H2].
Qed.

(** A process created by [process_create] starts at its entry point with all
    general registers zero, interrupts enabled, and [process_exit] as the return
    address on its stack. *)
Theorem new_process_starts_at_entry (x p ret top process_exit entry : Z) (c : cpu) (m m2 : memory)
    (s : Scheduler.procs) :
  40 <= top < 2 ^ 32 → is_u32 process_exit → is_u32 entry →
  Scheduler.esp (Scheduler.pcb s p) = fst (initial_frame top process_exit entry m) →
  agree_on (λ a, top - 40 <= a < top) (snd (initial_frame top process_exit entry m)) m2 →
  cpu_ok c → is_u32 x → is_u32 p → is_u32 ret → 44 <= r_esp c < 2 ^ 32 → x ≠ p →
  r_esp c <= top - 40 ∨ top <= r_esp c - 44 →
  ∃ m' s', call_context_switch x p ret c m2 s =
    (Cpu 0 0 0 0 0 0 0 (top - 4) entry 0x202 (Scheduler.cr3 (Scheduler.pcb s p)), m', s') ∧
    load32 m' (top - 4) = process_exit.
Proof.
  intros Ht Hpx Hen Hesp Hag Hc Hx Hp Hr He Hne Hdis.
  destruct (initial_frame_spec top process_exit entry m Ht Hpx Hen) as (F1 & F2 & _). rewrite F1 in Hesp.
  destruct (switch_to x p ret c m2 s (top - 40) 0 0 0 0 0 0 0 0x202 entry [process_exit])
    as (m' & s' & E & Hst); [exact Hc | done | done | done | done | done | exact Hesp | lia | lia | | |].
  - eapply stack_at_agree; [| exact F2]. eapply agree_on_weaken; [exact Hag |]. simpl. lia.
  - simpl. lia.
  - exists m', s'. replace (top - 40 + 36) with (top - 4) in * by lia. split; [done | apply Hst].
Qed.

(** ** Witnesses *)

Definition demo_cpu (sp : Z) : cpu := Cpu 1 2 3 4 5 6 7 sp 0x100000 0x202 0x110000.

Lemma demo_cpu_ok (sp : Z) : cpu_ok (demo_cpu sp).
Proof. unfold cpu_ok, is_u32. rewrite !Forall_cons. simpl. split_and!; done || lia. Qed.

(** Process 0x1000 on the stack below 0x5000 yields to 0x2000 and is switched
    back to from 0x2000 on the stack below 0x7000. *)
Lemma context_switch_roundtrip_witness :
  let '(c1, m1, s1) := call_context_switch 0x1000 0x2000 0x100200 (demo_cpu 0x5000) ∅ Scheduler.demo_procs in
  ∃ m3 s3, call_context_switch 0x2000 0x1000 0x100200 (demo_cpu 0x7000) m1 s1 =
    (Cpu 1 2 3 4 5 6 7 (0x5000 - 8) 0x100200 0x202 (Scheduler.cr3 (Scheduler.pcb s1 0x1000)), m3, s3).
Proof.
  destruct (call_context_switch 0x1000 0x2000 0x100200 (demo_cpu 0x5000) ∅ Scheduler.demo_procs) as [[c1 m1] s1] eqn:Heq.
  apply (context_switch_roundtrip 0x1000 0x2000 0x2000 0x100200 0x100200 (demo_cpu 0x5000) c1 (demo_cpu 0x7000)
    ∅ m1 m1 Scheduler.demo_procs s1 s1);
    first [exact (demo_cpu_ok _) | exact Heq | reflexivity | unfold is_u32; lia | simpl; lia | done].
Defined.

Lemma new_process_starts_at_entry_witness :
  let s := Scheduler.edit 0x2000 (Scheduler.set_esp (0x8000 - 40)) Scheduler.demo_procs in
  ∃ m' s', call_context_switch 0x1000 0x2000 0x100200 (demo_cpu 0x5000)
      (snd (initial_frame 0x8000 0x100300 0x100400 ∅)) s =
    (Cpu 0 0 0 0 0 0 0 (0x8000 - 4) 0x100400 0x202 (Scheduler.cr3 (Scheduler.pcb s 0x2000)), m', s') ∧
    load32 m' (0x8000 - 4) = 0x100300.
Proof.
  apply (new_process_starts_at_entry 0x1000 0x2000 0x100200 0x8000 0x100300 0x100400 (demo_cpu 0x5000) ∅
    (snd (initial_frame 0x8000 0x100300 0x100400 ∅))
    (Scheduler.edit 0x2000 (Scheduler.set_esp (0x8000 - 40)) Scheduler.demo_procs));
    first [exact (demo_cpu_ok _) | apply agree_on_refl | unfold is_u32; lia | simpl; lia | vm_compute; done].
Defined.

End Context.
