(* ===== verification/Elf.v ===== *)
(** * The ELF loader

    Models [kernel/elf.c] and [kernel/elf.h]: validation of an ELF32 image in
    memory, access to its program headers, and the loader, which gives every
    page of every PT_LOAD segment a zeroed frame, copies the file bytes that
    belong to it and maps it into the page directory of the new process. *)

From S2P Require Import Prelude Memory Frames Pmm Paging.

Module Elf.

Definition ELF_MAGIC : Z := 0x464C457F.
Definition ELF_CLASS_32 : Z := 1.
Definition ELF_DATA_LE : Z := 1.
Definition ELF_TYPE_EXEC : Z := 2.
Definition ELF_MACHINE_386 : Z := 3.
Definition PT_LOAD : Z := 1.
Definition PF_W : Z := Z.shiftl 1 1.

(** ** Packed structures in memory *)

(** The fields of [elf32_header_t] the loader reads. *)
Definition eh_magic (m : memory) (data : Z) : Z := load32 m data.
Definition eh_class (m : memory) (data : Z) : Z := load8 m (data + 4).
Definition eh_data (m : memory) (data : Z) : Z := load8 m (data + 5).
Definition eh_type (m : memory) (data : Z) : Z := load16 m (data + 16).
Definition eh_machine (m : memory) (data : Z) : Z := load16 m (data + 18).
Definition eh_entry (m : memory) (data : Z) : Z := load32 m (data + 24).
Definition eh_phoff (m : memory) (data : Z) : Z := load32 m (data + 28).
Definition eh_phentsize (m : memory) (data : Z) : Z := load16 m (data + 42).
Definition eh_phnum (m : memory) (data : Z) : Z := load16 m (data + 44).

(** The fields of [elf32_phdr_t] the loader reads. *)
Definition ph_type (m : memory) (ph : Z) : Z := load32 m ph.
Definition ph_offset (m : memory) (ph : Z) : Z := load32 m (ph + 4).
Definition ph_vaddr (m : memory) (ph : Z) : Z := load32 m (ph + 8).
Definition ph_filesz (m : memory) (ph : Z) : Z := load32 m (ph + 16).
Definition ph_memsz (m : memory) (ph : Z) : Z := load32 m (ph + 20).
Definition ph_flags (m : memory) (ph : Z) : Z := load32 m (ph + 24).
Definition sizeof_phdr : Z := 32.

(** ** Validation *)

(** [Some entry] is the return value 1 with [*out_entry = entry]. *)
Definition elf32_validate (m : memory) (data : Z) : option Z :=
  if negb (eh_magic m data =? ELF_MAGIC) then None
  else if negb (eh_class m data =? ELF_CLASS_32) then None
  else if negb (eh_data m data =? ELF_DATA_LE) then None
  else if negb (eh_type m data =? ELF_TYPE_EXEC) then None
  else if negb (eh_machine m data =? ELF_MACHINE_386) then None
  else if negb (eh_phentsize m data =? sizeof_phdr) then None
  else if eh_phnum m data =? 0 then None
  else Some (eh_entry m data).

Definition elf32_get_phdr (m : memory) (data i : Z) : Z :=
  if eh_phnum m data <=? i then 0
  else
    let table := u32 (data + eh_phoff m data) in
    u32 (table + i * eh_phentsize m data).

Definition elf32_phdr_count (m : memory) (data : Z) : Z := eh_phnum m data.

(** ** Loading *)

Section load.
Context {F : Type} `{!FrameAlloc F}.

(** [(vaddr + memsz + 0xFFF) & ~0xFFF] and the flags of the mapping. *)
Definition seg_start (m : memory) (ph : Z) : Z := Z.land (ph_vaddr m ph) Paging.ADDR_MASK.
Definition seg_end (m : memory) (ph : Z) : Z :=
  Z.land (u32 (ph_vaddr m ph + ph_memsz m ph + 0xFFF)) Paging.ADDR_MASK.
Definition seg_flags (m : memory) (ph : Z) : Z :=
  let flags := Z.lor Paging.PTE_PRESENT Paging.PTE_USER in
  if Z.land (ph_flags m ph) PF_W =? 0 then flags else Z.lor flags Paging.PTE_WRITABLE.

(** The zeroing of a frame and the copy of the file bytes of the page at [va]. *)
Definition fill_page (data ph va frame : Z) (m : memory) : memory :=
  let m := fill8 (Z.to_nat PAGE_SIZE) frame (λ _ _, 0) m in
  let page_va_start := va in
  let page_va_end := u32 (va + PAGE_SIZE) in
  let seg_va_start := ph_vaddr m ph in
  let seg_va_end := u32 (ph_vaddr m ph + ph_filesz m ph) in
  let copy_start := if seg_va_start <? page_va_start then page_va_start else seg_va_start in
  let copy_end := if page_va_end <? seg_va_end then page_va_end else seg_va_end in
  if copy_start <? copy_end then
    let file_off := u32 (ph_offset m ph + u32 (copy_start - ph_vaddr m ph)) in
    let dst_off := u32 (copy_start - page_va_start) in
    let copy_len := u32 (copy_end - copy_start) in
    fill8 (Z.to_nat copy_len) (frame + dst_off) (λ j m, load8 m (data + u32 (file_off + j))) m
  else m.

(** One iteration of the loop over the pages of a segment: [true] continues,
    [false] is the early [return 0] when no frame is left. *)
Definition load_page (data pd_phys ph flags va : Z) (fs : F) (m : memory) : outcome (bool * F * memory) :=
  let '(frame, fs) := alloc_frame fs in
  if frame =? 0 then Done (false, fs, m)
  else
    let m := fill_page data ph va frame m in
    let! (fs, m) := Paging.paging_map_into pd_phys va frame flags fs m in
    Done (true, fs, m).

Fixpoint load_pages (fuel : nat) (data pd_phys ph flags va last : Z) (fs : F) (m : memory)
    : outcome (bool * F * memory) :=
  match fuel with
  | O => Diverged
  | S fuel' =>
      if va <? last then
        let! (go, fs, m) := load_page data pd_phys ph flags va fs m in
        if go : bool then load_pages fuel' data pd_phys ph flags (u32 (va + PAGE_SIZE)) last fs m
        else Done (false, fs, m)
      else Done (true, fs, m)
  end.

Definition page_fuel (va last : Z) : nat := S (Z.to_nat ((last - va) / PAGE_SIZE)).

Definition load_segment (data pd_phys i : Z) (fs : F) (m : memory) : outcome (bool * F * memory) :=
  let ph := elf32_get_phdr m data i in
  if (ph =? 0) || negb (ph_type m ph =? PT_LOAD) then Done (true, fs, m)
  else if ph_memsz m ph =? 0 then Done (true, fs, m)
  else
    let start := seg_start m ph in
    let last := seg_end m ph in
    load_pages (page_fuel start last) data pd_phys ph (seg_flags m ph) start last fs m.

Fixpoint load_segments (n : nat) (data pd_phys i : Z) (fs : F) (m : memory) : outcome (bool * F * memory) :=
  match n with
  | O => Done (true, fs, m)
  | S n' =>
      let! (go, fs, m) := load_segment data pd_phys i fs m in
      if go : bool then load_segments n' data pd_phys (i + 1) fs m else Done (false, fs, m)
  end.

(** The flag of the result is the return value 1 or 0. *)
Definition elf32_load (data pd_phys : Z) (fs : F) (m : memory) : outcome (bool * F * memory) :=
  let count := elf32_phdr_count m data in
  load_segments (Z.to_nat count) data pd_phys 0 fs m.

End load.

(** ** The contents of a page *)

(** The byte the program sees at address [a] of a segment: a file byte below
    [vaddr + filesz], zero elsewhere. *)
Definition segment_byte (m : memory) (data ph a : Z) : Z :=
  if (ph_vaddr m ph <=? a) && (a <? ph_vaddr m ph + ph_filesz m ph)
  then load8 m (data + ph_offset m ph + (a - ph_vaddr m ph)) else 0.

(** The page [q] does not overlap the addresses [lo, hi). *)
Definition clear_of (lo hi q : Z) : Prop := q + PAGE_SIZE <= lo ∨ hi <= q.

(** The program header and the file bytes of its segment lie in [lo, hi) and
    their sizes do not wrap around. *)
Record segment_ok (m : memory) (lo hi data ph : Z) : Prop := {
  sg_ph : lo <= ph ∧ ph + sizeof_phdr <= hi;
  sg_file : lo <= data ∧ data + ph_offset m ph + ph_filesz m ph <= hi;
  sg_offset : ph_offset m ph + ph_filesz m ph < 2 ^ 32;
  sg_vaddr : ph_vaddr m ph + ph_filesz m ph < 2 ^ 32
}.

Section image.
Variables (lo hi : Z).

(** Memories that agree on the image agree on everything the loader reads. *)
Lemma image_fields (m m' : memory) (data ph : Z) :
  agree_on (λ a, lo <= a < hi) m m' → segment_ok m lo hi data ph →
  ph_offset m' ph = ph_offset m ph ∧ ph_vaddr m' ph = ph_vaddr m ph ∧
  ph_filesz m' ph = ph_filesz m ph ∧ ∀ a, segment_byte m' data ph a = segment_byte m data ph a.
Proof.
  intros Hag [H1 H2 H3 H4]. unfold sizeof_phdr in H1.
  assert (∀ k, 0 <= k <= 28 → load32 m' (ph + k) = load32 m (ph + k)) as Hl.
  { intros k Hk. eapply agree_on_load32; [exact Hag |]. simpl. lia. }
  assert (ph_offset m' ph = ph_offset m ph) as E1 by (apply Hl; lia).
  assert (ph_vaddr m' ph = ph_vaddr m ph) as E2 by (apply Hl; lia).
  assert (ph_filesz m' ph = ph_filesz m ph) as E3 by (apply Hl; lia).
  split_and!; try done. intros a. unfold segment_byte. rewrite E1, E2, E3.
  pose proof (load32_range m (ph + 4)) as Ho. change (load32 m (ph + 4)) with (ph_offset m ph) in Ho.
  unfold is_u32 in Ho. zcases; simpl; try done. apply Hag. lia.
Qed.

Lemma image_segment_ok (m m' : memory) (data ph : Z) :
  agree_on (λ a, lo <= a < hi) m m' → segment_ok m lo hi data ph → segment_ok m' lo hi data ph.
Proof.
  intros Hag Hs. destruct (image_fields m m' data ph Hag Hs) as (E1 & E2 & E3 & _).
  destruct Hs as [H1 H2 H3 H4]. split; rewrite ?E1, ?E2, ?E3; done.
Qed.

Lemma fill_page_spec (m : memory) (data ph va frame : Z) :
  segment_ok m lo hi data ph → page_addr frame → clear_of lo hi frame →
  va mod PAGE_SIZE = 0 → 0 <= va → va + PAGE_SIZE < 2 ^ 32 →
  (∀ o, 0 <= o < PAGE_SIZE → load8 (fill_page data ph va frame m) (frame + o) = segment_byte m data ph (va + o)) ∧
  agree_outside frame (frame + PAGE_SIZE) m (fill_page data ph va frame m).
Proof.
  intros Hs Hf Hcl Hva H0 Hlt. unfold clear_of in Hcl. unfold fill_page.
  destruct (fill8_spec (Z.to_nat PAGE_SIZE) frame (λ _ _, 0) m) as [Z1 Z2]; [done |].
  set (m1 := fill8 _ _ _ _) in *. unfold PAGE_SIZE in *. change (Z.of_nat (Z.to_nat 4096)) with 4096 in Z1, Z2.
  assert (agree_on (λ a, lo <= a < hi) m m1) as Hag.
  { eapply agree_on_weaken; [exact Z1 |]. simpl. lia. }
  destruct (image_fields m m1 data ph Hag Hs) as (E1 & E2 & E3 & _). rewrite E1, E2, E3.
  destruct Hs as [S1 S2 S3 S4]. pose proof (load32_range m (ph + 4)) as R1. pose proof (load32_range m (ph + 8)) as R2.
  pose proof (load32_range m (ph + 16)) as R3. fold (ph_offset m ph) (ph_vaddr m ph) (ph_filesz m ph) in R1, R2, R3.
  set (off := ph_offset m ph) in *. set (vad := ph_vaddr m ph) in *. set (fsz := ph_filesz m ph) in *.
  rewrite (u32_id (va + 4096)), (u32_id (vad + fsz)) by (unfold is_u32 in *; lia).
  set (cs := if vad <? va then va else vad). set (ce := if va + 4096 <? vad + fsz then va + 4096 else vad + fsz).
  assert (cs = Z.max va vad ∧ ce = Z.min (va + 4096) (vad + fsz)) as [Hcs Hce].
  { unfold cs, ce. split; zcases; lia. }
  unfold is_u32 in *. unfold segment_byte. fold off vad fsz. clearbody cs ce.
  destruct (Z.ltb_spec cs ce) as [Hlt'|Hge].
  - rewrite (u32_id (cs - vad)), (u32_id (off + (cs - vad))), (u32_id (cs - va)), (u32_id (ce - cs)) by (unfold is_u32; lia).
    set (g := λ j m, load8 m (data + u32 (off + (cs - vad) + j))).
    destruct (fill8_spec (Z.to_nat (ce - cs)) (frame + (cs - va)) g m1) as [F1 F2].
    { intros j m2 Hj Hag2. unfold g. rewrite u32_id by (unfold is_u32; lia).
      apply Hag2. unfold is_u32 in *. lia. }
    rewrite Z2Nat.id in F1, F2 by lia. split.
    + intros o Ho. destruct (decide (cs <= va + o < ce)) as [Hin|Hout].
      * replace (frame + o) with (frame + (cs - va) + (va + o - cs)) by lia. rewrite F2 by lia. unfold g.
        rewrite u32_id by (unfold is_u32; lia). rewrite u8_id by apply load8_range.
        replace (data + (off + (cs - vad) + (va + o - cs))) with (data + off + (va + o - vad)) by lia.
        rewrite Hag by lia. destruct (Z.leb_spec vad (va + o)), (Z.ltb_spec (va + o) (vad + fsz)); simpl; lia || done.
      * rewrite F1 by lia. rewrite Z2 by lia.
        destruct (Z.leb_spec vad (va + o)), (Z.ltb_spec (va + o) (vad + fsz)); simpl; lia || done.
    + eapply agree_outside_trans; [exact Z1 |]. eapply agree_outside_weaken; [exact F1 | lia | lia].
  - split; [| exact Z1]. intros o Ho. rewrite Z2 by lia.
    destruct (Z.leb_spec vad (va + o)), (Z.ltb_spec (va + o) (vad + fsz)); simpl; lia || done.
Qed.

(** Only the frame is written, whatever the header says. *)
Lemma fill_page_outside (m : memory) (data ph va frame : Z) :
  0 <= va → va + PAGE_SIZE < 2 ^ 32 → agree_outside frame (frame + PAGE_SIZE) m (fill_page data ph va frame m).
Proof.
  intros H0 Hlt. unfold fill_page. pose proof (fill8_outside (Z.to_nat PAGE_SIZE) frame (λ _ _, 0) m) as Z1.
  generalize dependent (fill8 (Z.to_nat PAGE_SIZE) frame (λ _ _, 0) m). intros m1 Z1.
  rewrite Z2Nat.id in Z1 by (unfold PAGE_SIZE; lia). unfold PAGE_SIZE in *. rewrite (u32_id (va + 4096)) by (unfold is_u32; lia).
  pose proof (load32_range m1 (ph + 8)) as R1. fold (ph_vaddr m1 ph) in R1. unfold is_u32 in R1.
  pose proof (u32_range (ph_vaddr m1 ph + ph_filesz m1 ph)) as R2. unfold is_u32 in R2.
  set (cs := if ph_vaddr m1 ph <? va then va else ph_vaddr m1 ph).
  set (ce := if va + 4096 <? _ then va + 4096 else _).
  assert (va <= cs ∧ ce <= va + 4096) as [Hcs Hce] by (unfold cs, ce; split; zcases; lia).
  clearbody cs ce. destruct (Z.ltb_spec cs ce) as [Hlt'|]; [| done].
  rewrite (u32_id (cs - va)), (u32_id (ce - cs)) by (unfold is_u32; lia). eapply agree_outside_trans; [exact Z1 |].
  eapply agree_outside_weaken; [apply fill8_outside | lia | rewrite Z2Nat.id; lia].
Qed.

(** ** Pages and segments *)

(** Pages of four KiB by number. *)
Lemma same_page_range (va w : Z) :
  is_u32 va → is_u32 w → w mod PAGE_SIZE = 0 → Paging.same_page va w → w <= va < w + PAGE_SIZE.
Proof.
  unfold Paging.same_page, is_u32, PAGE_SIZE. intros Hva Hw Hm [E1 E2].
  destruct (Paging.index_div va) as [P1 P2], (Paging.index_div w) as [Q1 Q2]. rewrite P1, Q1 in E1. rewrite P2, Q2 in E2. zlia.
Qed.

Lemma aligned_same_page (p q : Z) :
  p mod PAGE_SIZE = 0 → q mod PAGE_SIZE = 0 → is_u32 p → is_u32 q → Paging.same_page p q → p = q.
Proof.
  unfold Paging.same_page, is_u32, PAGE_SIZE. intros Hp Hq Hpr Hqr [E1 E2].
  destruct (Paging.index_div p) as [P1 P2], (Paging.index_div q) as [Q1 Q2].
  rewrite P1, Q1 in E1. rewrite P2, Q2 in E2. zlia.
Qed.

Lemma seg_flags_bits (m : memory) (ph : Z) :
  0 <= seg_flags m ph < 4096 ∧ Z.testbit (seg_flags m ph) 0 = true ∧ Z.testbit (seg_flags m ph) 2 = true ∧
  Z.testbit (seg_flags m ph) 1 = Z.testbit (ph_flags m ph) 1.
Proof.
  unfold seg_flags, PF_W. rewrite Paging.land_bit by lia. by destruct (Z.testbit (ph_flags m ph) 1).
Qed.

(** The page range of a segment. *)
Lemma seg_range (m : memory) (ph : Z) :
  seg_start m ph mod PAGE_SIZE = 0 ∧ seg_end m ph mod PAGE_SIZE = 0 ∧ 0 <= seg_start m ph ∧
  seg_end m ph <= 2 ^ 32 - PAGE_SIZE ∧
  (ph_vaddr m ph + ph_memsz m ph + 0xFFF < 2 ^ 32 →
   seg_start m ph <= ph_vaddr m ph ∧ ph_vaddr m ph + ph_memsz m ph <= seg_end m ph).
Proof.
  unfold seg_start, seg_end. pose proof (load32_range m (ph + 8)) as R1. pose proof (load32_range m (ph + 20)) as R2.
  fold (ph_vaddr m ph) (ph_memsz m ph) in R1, R2.
  destruct (Paging.masked_base (ph_vaddr m ph) R1) as (A1 & A2 & A3).
  destruct (Paging.masked_base (u32 (ph_vaddr m ph + ph_memsz m ph + 0xFFF)) (u32_range _)) as (B1 & B2 & B3).
  split_and!; [done | done | done | lia |]. intros Hnw. unfold is_u32 in R1, R2.
  rewrite !Paging.mask_page by (apply u32_range || done). rewrite u32_id by (unfold is_u32; lia). zlia.
Qed.

(** ** The loader invariant *)

Section loader.
Context {F : Type} `{!FrameAlloc F}.
Variable pd : Z.
(** A property of all frames the loader may be given. *)
Variable fresh : Z → Prop.

(** The address space is well formed and the image overlaps neither it nor any
    frame the allocator could hand out. *)
Record loader_inv (fs : F) (m : memory) : Prop := {
  li_frames : frames_ok fs;
  li_space : Paging.space_ok fs m pd;
  li_free f : page_addr f → in_use fs f = false → clear_of lo hi f;
  li_fresh f : page_addr f → in_use fs f = false → fresh f;
  li_pd : clear_of lo hi pd;
  li_tables i : Paging.is_index i → Paging.present m pd i = true → clear_of lo hi (Paging.table m pd i)
}.

(** The page at [va] is mapped for ring 3 to a frame of its own that holds
    [content]. *)
Definition page_loaded (fs : F) (m : memory) (va : Z) (content : Z → Z) : Prop :=
  ∃ f, (page_addr f ∧ fresh f) ∧ in_use fs f = true ∧ f ≠ pd ∧
    (∀ i, Paging.is_index i → Paging.present m pd i = true → Paging.table m pd i ≠ f) ∧
    (∀ va', is_u32 va' → Paging.same_page va' va →
       Paging.translate (Paging.Access true false) m pd va' = Some (f + va' mod 4096)) ∧
    ∀ o, 0 <= o < PAGE_SIZE → load8 m (f + o) = content (va + o).

(** A fresh frame [f] is written: the invariant and the loaded pages stay. *)
Lemma fresh_frame_inv (fs fs' : F) (m m' : memory) (f : Z) :
  loader_inv fs m → frames_ok fs' → page_addr f → in_use fs f = false →
  (∀ b, page_addr b → in_use fs' b = (b =? f) || in_use fs b) →
  agree_outside f (f + PAGE_SIZE) m m' →
  loader_inv fs' m' ∧ f ≠ pd ∧ agree_on (λ a, lo <= a < hi) m m' ∧
  (∀ i, Paging.is_index i → Paging.present m' pd i = true → Paging.table m' pd i ≠ f) ∧
  ∀ va content, page_loaded fs m va content → page_loaded fs' m' va content.
Proof.
  intros [L1 L2 L3 Lf L4 L5] Hok Hf Hu Hu' Hag.
  destruct (Paging.create_keeps_space fs fs' m m' f pd L2 Hf Hu Hu' Hag) as (K1 & K2 & K3).
  assert (∀ i, Paging.is_index i → Paging.present m' pd i = Paging.present m pd i ∧
                                   Paging.table m' pd i = Paging.table m pd i) as Hent.
  { intros i Hi. unfold Paging.present, Paging.table. by rewrite K2. }
  assert (f ≠ pd) as Hfp.
  { intros ->. rewrite (proj2 (Paging.so_pd L2) Hf) in Hu. done. }
  assert (∀ i, Paging.is_index i → Paging.present m' pd i = true → Paging.table m' pd i ≠ f) as Htab.
  { intros i Hi. destruct (Hent i Hi) as [-> ->]. intros Hp Heq.
    destruct (Paging.so_table L2 i Hi Hp) as [[_ Hr] _]. rewrite Heq in Hr. rewrite (Hr Hf) in Hu. done. }
  split_and!; [| done | | done |].
  - split; [done | done | | | done |].
    + intros g Hg. rewrite Hu' by done. intros Hgu. apply L3; [done |]. by destruct (in_use fs g), (g =? f).
    + intros g Hg. rewrite Hu' by done. intros Hgu. apply Lf; [done |]. by destruct (in_use fs g), (g =? f).
    + intros i Hi. destruct (Hent i Hi) as [-> ->]. by apply L5.
  - eapply agree_on_weaken; [exact Hag |]. pose proof (L3 f Hf Hu) as Hc. unfold clear_of in Hc. simpl. lia.
  - intros va content (g & [G1 G1'] & G2 & G3 & G4 & G5 & G6). exists g.
    assert (g ≠ f) as Hgf by congruence. pose proof (page_addr_apart g f G1 Hf Hgf) as Hap.
    split_and!; [done | done | | done | | |].
    + by rewrite Hu', G2, orb_true_r.
    + intros i Hi. destruct (Hent i Hi) as [-> ->]. by apply G4.
    + intros va' Hva' Hsp. rewrite K3 by done. by apply G5.
    + intros o Ho. rewrite <- G6 by done. apply Hag. unfold PAGE_SIZE in *. lia.
Qed.

Section mapped.
Variables (fs fs' : F) (m m' : memory) (va f flags t : Z).
Hypothesis (Hinv : loader_inv fs m).
Hypothesis (Hva : is_u32 va).
Hypothesis (Hf : page_addr f).
Hypothesis (Hfl : 0 <= flags < 4096).
Hypothesis (Hm : Paging.mapped fs m fs' m' pd va flags (Z.lor (Z.land f Paging.ADDR_MASK) flags) t).

Lemma mapped_table_clear : clear_of lo hi t.
Proof.
  destruct (Paging.present m pd (Paging.pd_index va)) eqn:Hp.
  - destruct (Paging.md_old _ _ _ _ _ _ _ _ _ Hm Hp) as [-> _].
    apply (li_tables _ _ Hinv); [by apply Paging.pd_index_range | done].
  - destruct (Paging.md_new _ _ _ _ _ _ _ _ _ Hm Hp) as (Ht & Hu & _). by apply (li_free _ _ Hinv).
Qed.

Lemma mapped_loader_inv : loader_inv fs' m'.
Proof.
  pose proof (li_space _ _ Hinv) as Hs. split.
  - apply Hm.
  - by eapply Paging.mapped_space_ok.
  - intros g Hg Hu. apply (li_free _ _ Hinv); [done |]. destruct (in_use fs g) eqn:Hug; [| done].
    rewrite (Paging.mapped_in_use _ _ _ _ _ _ _ _ _ Hm g Hg Hug) in Hu. done.
  - intros g Hg Hu. apply (li_fresh _ _ Hinv); [done |]. destruct (in_use fs g) eqn:Hug; [| done].
    rewrite (Paging.mapped_in_use _ _ _ _ _ _ _ _ _ Hm g Hg Hug) in Hu. done.
  - apply (li_pd _ _ Hinv).
  - intros i Hi. destruct (decide (i = Paging.pd_index va)) as [->|Hne].
    + rewrite (Paging.md_table _ _ _ _ _ _ _ _ _ Hm). intros _. apply mapped_table_clear.
    + unfold Paging.present, Paging.table. rewrite (Paging.mapped_pde _ _ _ _ _ _ _ _ _ Hm Hs Hva i Hi Hne).
      by apply (li_tables _ _ Hinv).
Qed.

Lemma mapped_image : agree_on (λ a, lo <= a < hi) m m'.
Proof.
  eapply agree_on_weaken; [apply (Paging.md_frame _ _ _ _ _ _ _ _ _ Hm) |].
  pose proof mapped_table_clear as Ht. pose proof (li_pd _ _ Hinv) as Hpd.
  pose proof (Paging.pd_index_range va Hva) as Hi. unfold clear_of, Paging.is_index, PAGE_SIZE in *. simpl. lia.
Qed.

(** Frames in use outside the directory and its tables keep their status and bytes. *)
Lemma mapped_frame (g : Z) :
  page_addr g → in_use fs g = true → g ≠ pd →
  (∀ i, Paging.is_index i → Paging.present m pd i = true → Paging.table m pd i ≠ g) →
  in_use fs' g = true ∧ agree_on (λ a, g <= a < g + PAGE_SIZE) m m' ∧
  ∀ i, Paging.is_index i → Paging.present m' pd i = true → Paging.table m' pd i ≠ g.
Proof.
  intros Hg Hu Hne Ht. split; [by apply (Paging.mapped_in_use _ _ _ _ _ _ _ _ _ Hm) |].
  apply (Paging.mapped_bytes _ _ _ _ _ _ _ _ _ Hm (li_space _ _ Hinv) Hva); [| done | done].
  split; [by apply Paging.page_addr_base | done].
Qed.

Lemma mapped_keeps_page (va2 : Z) (content : Z → Z) :
  ~ Paging.same_page va2 va → page_loaded fs m va2 content → page_loaded fs' m' va2 content.
Proof.
  intros Hne (g & [G1 G1'] & G2 & G3 & G4 & G5 & G6). destruct (mapped_frame g G1 G2 G3 G4) as (M1 & M2 & M3).
  exists g. split_and!; try done.
  - intros va' Hva' Hsp. apply (Paging.mapped_translate_mono _ _ _ _ _ _ _ _ _ Hm (li_space _ _ Hinv) Hva); [done | | by apply G5].
    unfold Paging.same_page in *. destruct Hsp as [-> ->]. done.
  - intros o Ho. rewrite M2 by lia. by apply G6.
Qed.

Lemma mapped_user_page (va' : Z) :
  Z.testbit flags 0 = true → Z.testbit flags 2 = true → Paging.same_page va' va →
  Paging.translate (Paging.Access true false) m' pd va' = Some (f + va' mod 4096).
Proof.
  intros F0 F2 Hsp. rewrite (Paging.mapped_translate _ _ _ _ _ _ _ _ _ Hm) by done.
  destruct (Paging.lor_flags_value f flags (page_addr_u32 f Hf) Hfl) as [V1 V2].
  pose proof (Paging.md_present _ _ _ _ _ _ _ _ _ Hm) as Hp. unfold Paging.present in Hp.
  unfold Paging.permits. rewrite !V2 by lia. rewrite Hp, F0, F2, (Paging.md_user _ _ _ _ _ _ _ _ _ Hm), F2, V1.
  simpl. do 2 f_equal. rewrite Paging.mask_page by by apply page_addr_u32.
  destruct Hf as [_ Hmod]. unfold PAGE_SIZE in Hmod. lia.
Qed.

End mapped.

(** How loading fails when the frames run out: a return value 0, or the panic of
    [paging_map_into]. *)
Definition out_of_frames (r : outcome (bool * F * memory)) : Prop :=
  (∃ fs' m', r = Done (false, fs', m')) ∨ r = Panicked "paging_map_into: out of physical memory".

(** The entries of the directory allow writing, as the kernel sets them. *)
Definition writable_dir (m : memory) : Prop :=
  ∀ i, Paging.is_index i → Paging.present m pd i = true → Z.testbit (Paging.entry m pd i) 1 = true.

(** A page mapped for ring 3 and, if the flags say so, for writing. *)
Lemma mapped_writable (fs fs' : F) (m m' : memory) (va f flags t : Z) :
  loader_inv fs m → is_u32 va → page_addr f → 0 <= flags < 4096 →
  Paging.mapped fs m fs' m' pd va flags (Z.lor (Z.land f Paging.ADDR_MASK) flags) t → writable_dir m →
  writable_dir m' ∧ ∀ va', Z.testbit flags 0 = true → Z.testbit flags 1 = true → Z.testbit flags 2 = true →
    Paging.same_page va' va → Paging.translate (Paging.Access true true) m' pd va' = Some (f + va' mod 4096).
Proof.
  intros Hinv Hva Hf Hfl Hm Hw. pose proof (Paging.md_present _ _ _ _ _ _ _ _ _ Hm) as Hp. unfold Paging.present in Hp.
  assert (Z.testbit (Paging.entry m' pd (Paging.pd_index va)) 1 = true) as Hw1.
  { rewrite (Paging.md_write _ _ _ _ _ _ _ _ _ Hm). destruct (Paging.present m pd (Paging.pd_index va)) eqn:E; [| done].
    simpl. apply Hw; [by apply Paging.pd_index_range | done]. }
  split.
  - intros i Hi. destruct (decide (i = Paging.pd_index va)) as [->|Hne]; [done |]. unfold Paging.present.
    rewrite (Paging.mapped_pde _ _ _ _ _ _ _ _ _ Hm (li_space _ _ Hinv) Hva i Hi Hne). by apply Hw.
  - intros va' F0 F1 F2 Hsp. rewrite (Paging.mapped_translate _ _ _ _ _ _ _ _ _ Hm) by done.
    destruct (Paging.lor_flags_value f flags (page_addr_u32 f Hf) Hfl) as [V1 V2].
    unfold Paging.permits. rewrite !V2 by lia. rewrite Hp, F0, F1, F2, Hw1, (Paging.md_user _ _ _ _ _ _ _ _ _ Hm), F2, V1.
    simpl. do 2 f_equal. rewrite Paging.mask_page by by apply page_addr_u32. destruct Hf as [_ Hmod]. unfold PAGE_SIZE in Hmod. lia.
Qed.

(** A frame [f] that was free is written and mapped for ring 3 at [va]. *)
Record page_given (fs : F) (m m1 : memory) (va f flags : Z) (fs' : F) (m' : memory) : Prop := {
  pg_inv : loader_inv fs' m';
  pg_image : agree_on (λ a, lo <= a < hi) m m';
  pg_page : page_loaded fs' m' va (λ a, load8 m1 (f + (a - va)));
  pg_others va2 content : ~ Paging.same_page va2 va → page_loaded fs m va2 content → page_loaded fs' m' va2 content;
  pg_mono a va2 x : is_u32 va2 → ~ Paging.same_page va2 va →
    Paging.translate a m pd va2 = Some x → Paging.translate a m' pd va2 = Some x;
  pg_writable : writable_dir m → writable_dir m' ∧
    (Z.testbit flags 1 = true → ∀ va', Paging.same_page va' va →
       Paging.translate (Paging.Access true true) m' pd va' = Some (f + va' mod 4096));
  pg_count : frames_free fs - 2 <= frames_free fs'
}.

Lemma give_page_spec (fs fs1 : F) (m m1 : memory) (va f flags : Z) :
  loader_inv fs m → page_addr f → in_use fs f = false → frames_ok fs1 →
  (∀ b, page_addr b → in_use fs1 b = (b =? f) || in_use fs b) → frames_free fs1 = frames_free fs - 1 →
  agree_outside f (f + PAGE_SIZE) m m1 → is_u32 va →
  0 <= flags < 4096 → Z.testbit flags 0 = true → Z.testbit flags 2 = true →
  (∃ fs' m', Paging.paging_map_into pd va f flags fs1 m1 = Done (fs', m') ∧ page_given fs m m1 va f flags fs' m') ∨
  (Paging.paging_map_into pd va f flags fs1 m1 = Panicked "paging_map_into: out of physical memory" ∧ frames_free fs < 2).
Proof.
  intros Hinv Hf Hu Hok Hu1 Hn Hag Hv Hfl F0 F2.
  destruct (fresh_frame_inv fs fs1 m m1 f Hinv Hok Hf Hu Hu1 Hag) as (I1 & I2 & I3 & I4 & I5).
  destruct (Paging.create_keeps_space fs fs1 m m1 f pd (li_space _ _ Hinv) Hf Hu Hu1 Hag) as (_ & K2 & K3).
  assert (in_use fs1 f = true) as Hf1 by by rewrite Hu1, Z.eqb_refl.
  destruct (Paging.map_into_cases fs1 m1 pd va f flags) as [(fs2 & m2 & t & -> & Hm)|(-> & Hz & _)];
    [done | apply I1 | done | by apply page_addr_u32 | done | | right; split; [done | lia]].
  left. exists fs2, m2. split; [done |].
  destruct (mapped_frame fs1 fs2 m1 m2 va f flags t I1 Hv Hm f Hf Hf1 I2 I4) as (M1 & M2 & M3). split.
  - by eapply mapped_loader_inv.
  - etransitivity; [exact I3 | by eapply mapped_image].
  - exists f. split_and!; try done.
    + by apply (li_fresh _ _ Hinv).
    + intros va' Hva' Hsp. by eapply mapped_user_page.
    + intros o Ho. rewrite M2 by (unfold PAGE_SIZE in *; lia). f_equal. lia.
  - intros va2 content Hne Hl. eapply mapped_keeps_page; [done | done | done | done |]. by apply I5.
  - intros a va2 x Hva2 Hne Ht. apply (Paging.mapped_translate_mono _ _ _ _ _ _ _ _ _ Hm (li_space _ _ I1) Hv); [done | done |].
    by rewrite K3.
  - intros Hw. destruct (mapped_writable fs1 fs2 m1 m2 va f flags t I1 Hv Hf Hfl Hm) as [W1 W2].
    { intros i Hi. unfold Paging.present. rewrite K2 by done. by apply Hw. }
    split; [done | auto].
  - pose proof (Paging.md_count _ _ _ _ _ _ _ _ _ Hm). lia.
Qed.

(** One page of a segment. *)
Lemma load_page_spec (fs : F) (m : memory) (data ph flags va : Z) :
  loader_inv fs m → segment_ok m lo hi data ph →
  va mod PAGE_SIZE = 0 → 0 <= va → va + PAGE_SIZE < 2 ^ 32 →
  0 <= flags < 4096 → Z.testbit flags 0 = true → Z.testbit flags 2 = true →
  (∃ fs' m', load_page data pd ph flags va fs m = Done (true, fs', m') ∧
     loader_inv fs' m' ∧ agree_on (λ a, lo <= a < hi) m m' ∧
     page_loaded fs' m' va (segment_byte m data ph) ∧
     (∀ va2 content, ~ Paging.same_page va2 va → page_loaded fs m va2 content → page_loaded fs' m' va2 content) ∧
     (∀ a va2 x, is_u32 va2 → ~ Paging.same_page va2 va →
        Paging.translate a m pd va2 = Some x → Paging.translate a m' pd va2 = Some x) ∧
     (writable_dir m → writable_dir m') ∧
     frames_free fs - 2 <= frames_free fs') ∨
  (out_of_frames (load_page data pd ph flags va fs m) ∧ frames_free fs < 2).
Proof.
  intros Hinv Hseg Hva H0 Hlt Hfl F0 F2. unfold load_page.
  destruct (alloc_frame_spec fs (li_frames _ _ Hinv)) as [(f & fs1 & -> & Hf & Hu & Hok & Hn & Hu1)|[-> Hz]];
    [| right; split; [left; by exists fs, m | lia]].
  destruct (Z.eqb_spec f 0); [by apply page_addr_nonzero in Hf |].
  assert (is_u32 va) as Hv by (unfold is_u32, PAGE_SIZE in *; lia).
  destruct (fill_page_spec m data ph va f Hseg Hf (li_free _ _ Hinv f Hf Hu) Hva H0 Hlt) as [C1 C2].
  destruct (give_page_spec fs fs1 m (fill_page data ph va f m) va f flags) as [(fs2 & m2 & -> & G)|[-> Hz]]; try done;
    [| right; split; [by right | lia]].
  left. cbn [obind]. exists fs2, m2. split; [done |]. destruct G as [G1 G2 (g & [P1 P1'] & P2 & P3 & P4 & P5 & P6) G4 G5 G6 G7].
  split_and!; [done | done | | done | done | intros Hw; by apply G6 | done].
  exists g. split_and!; try done. intros o Ho. rewrite P6 by done. replace (f + (va + o - va)) with (f + o) by lia. by apply C1.
Qed.

Lemma page_loaded_ext (fs : F) (m : memory) (va : Z) (c1 c2 : Z → Z) :
  (∀ a, c1 a = c2 a) → page_loaded fs m va c1 → page_loaded fs m va c2.
Proof.
  intros He (f & [H1 H1'] & H2 & H3 & H4 & H5 & H6). exists f. split_and!; try done.
  intros o Ho. by rewrite H6, He.
Qed.

(** All pages from [va] up to [last]. *)
Lemma load_pages_spec (n fuel : nat) (fs : F) (m : memory) (data ph flags va last : Z) :
  loader_inv fs m → segment_ok m lo hi data ph →
  va mod PAGE_SIZE = 0 → last = va + PAGE_SIZE * Z.of_nat n → 0 <= va → last <= 2 ^ 32 - PAGE_SIZE →
  0 <= flags < 4096 → Z.testbit flags 0 = true → Z.testbit flags 2 = true → (n < fuel)%nat →
  (∃ fs' m', load_pages fuel data pd ph flags va last fs m = Done (true, fs', m') ∧
     loader_inv fs' m' ∧ agree_on (λ a, lo <= a < hi) m m' ∧
     (∀ p, va <= p < last → p mod PAGE_SIZE = 0 → page_loaded fs' m' p (segment_byte m data ph)) ∧
     (∀ p content, is_u32 p → p mod PAGE_SIZE = 0 → p < va ∨ last <= p →
        page_loaded fs m p content → page_loaded fs' m' p content) ∧
     (∀ a va2 x, is_u32 va2 → va2 < va ∨ last <= va2 →
        Paging.translate a m pd va2 = Some x → Paging.translate a m' pd va2 = Some x) ∧
     (writable_dir m → writable_dir m') ∧
     frames_free fs - 2 * Z.of_nat n <= frames_free fs') ∨
  (out_of_frames (load_pages fuel data pd ph flags va last fs m) ∧ frames_free fs < 2 * Z.of_nat n).
Proof.
  revert fuel fs m va. induction n as [|n IH]; intros fuel fs m va Hinv Hseg Hva Hlast H0 Hle Hfl F0 F2 Hfuel;
    (destruct fuel as [|fuel]; [lia |]); cbn [load_pages]; unfold PAGE_SIZE in *.
  - destruct (Z.ltb_spec va last); [lia |]. left. exists fs, m. split_and!; try done; intros; lia.
  - destruct (Z.ltb_spec va last); [| lia].
    destruct (load_page_spec fs m data ph flags va Hinv Hseg) as [(fs1 & m1 & -> & I1 & I2 & I3 & I4 & Im & Iw & In)|[Hfail Hn]];
      try done; unfold PAGE_SIZE; [lia | |];
      [| right; split; [destruct Hfail as [(fs1 & m1 & ->)| ->]; [left; by exists fs1, m1 | by right] | lia]].
    cbn [obind]. rewrite (u32_id (va + 4096)) by (unfold is_u32; lia).
    destruct (image_fields m m1 data ph I2 Hseg) as (_ & _ & _ & Eb).
    destruct (IH fuel fs1 m1 (va + 4096)) as [(fs2 & m2 & -> & J1 & J2 & J3 & J4 & Jm & Jw & Jn)|[Hfail Hn]];
      try done; try lia; [by eapply image_segment_ok | zlia | | right; split; [done | lia]].
    left. exists fs2, m2. split_and!; [done | done | by etransitivity | | | | auto | lia].
    + intros p Hp Hpm. destruct (decide (p = va)) as [->|].
      * apply J4; [unfold is_u32; lia | done | lia | done].
      * eapply page_loaded_ext; [exact Eb |]. apply J3; [zlia | done].
    + intros p content Hpu Hpm Hout Hl. apply J4; [done | done | lia |]. apply I4; [| done].
      intros Hsp. apply aligned_same_page in Hsp; [lia | done | done | done | unfold is_u32; lia].
    + intros a va2 x Hu2 Hout Ht. apply Jm; [done | lia |]. apply Im; [done | | done]. intros Hsp.
      apply same_page_range in Hsp; unfold PAGE_SIZE in *; [lia | done | unfold is_u32; lia | done].
Qed.

(** ** Whole images *)

(** A program header the loader acts on. *)
Definition is_load (m : memory) (ph : Z) : bool :=
  negb (ph =? 0) && (ph_type m ph =? PT_LOAD) && negb (ph_memsz m ph =? 0).

(** The ELF header, the program headers and the file bytes lie in [lo, hi), and
    no two segments share a page. *)
Record image_ok (m : memory) (data : Z) : Prop := {
  im_header : lo <= data ∧ data + 52 <= hi;
  im_phdr i : 0 <= i < eh_phnum m data →
    lo <= elf32_get_phdr m data i ∧ elf32_get_phdr m data i + sizeof_phdr <= hi;
  im_segment i : 0 <= i < eh_phnum m data → is_load m (elf32_get_phdr m data i) = true →
    segment_ok m lo hi data (elf32_get_phdr m data i) ∧
    seg_start m (elf32_get_phdr m data i) <= seg_end m (elf32_get_phdr m data i);
  im_apart i j : 0 <= i < j → j < eh_phnum m data →
    is_load m (elf32_get_phdr m data i) = true → is_load m (elf32_get_phdr m data j) = true →
    seg_end m (elf32_get_phdr m data i) <= seg_start m (elf32_get_phdr m data j) ∨
    seg_end m (elf32_get_phdr m data j) <= seg_start m (elf32_get_phdr m data i)
}.

(** How many pages the loader maps for a program header. *)
Definition seg_pages (m : memory) (ph : Z) : Z :=
  if is_load m ph then (seg_end m ph - seg_start m ph) / PAGE_SIZE else 0.

(** The pages of segment [ph] are loaded with what the image in [m] says. *)
Definition segment_loaded (m : memory) (data ph : Z) (fs' : F) (m' : memory) : Prop :=
  ∀ p, seg_start m ph <= p < seg_end m ph → p mod PAGE_SIZE = 0 →
    page_loaded fs' m' p (segment_byte m data ph).

Lemma load_segment_spec (fs : F) (m : memory) (data i : Z) :
  loader_inv fs m → 
  let ph := elf32_get_phdr m data i in
  (is_load m ph = true → segment_ok m lo hi data ph ∧ seg_start m ph <= seg_end m ph) →
  (∃ fs' m', load_segment data pd i fs m = Done (true, fs', m') ∧
     loader_inv fs' m' ∧ agree_on (λ a, lo <= a < hi) m m' ∧
     (is_load m ph = true → segment_loaded m data ph fs' m') ∧
     (∀ p content, is_u32 p → p mod PAGE_SIZE = 0 →
        (is_load m ph = true → p < seg_start m ph ∨ seg_end m ph <= p) →
        page_loaded fs m p content → page_loaded fs' m' p content) ∧
     (∀ a va x, is_u32 va → (is_load m ph = true → va < seg_start m ph ∨ seg_end m ph <= va) →
        Paging.translate a m pd va = Some x → Paging.translate a m' pd va = Some x) ∧
     (writable_dir m → writable_dir m') ∧
     frames_free fs - 2 * seg_pages m ph <= frames_free fs') ∨
  (out_of_frames (load_segment data pd i fs m) ∧ frames_free fs < 2 * seg_pages m ph).
Proof.
  intros Hinv ph Hok.
  assert (load_segment data pd i fs m = if is_load m ph then
      load_pages (page_fuel (seg_start m ph) (seg_end m ph)) data pd ph (seg_flags m ph)
        (seg_start m ph) (seg_end m ph) fs m else Done (true, fs, m)) as ->.
  { unfold load_segment, is_load. fold ph. destruct (ph =? 0), (ph_type m ph =? PT_LOAD), (ph_memsz m ph =? 0); done. }
  unfold seg_pages. destruct (is_load m ph) eqn:Hl; [| left; exists fs, m; split_and!; done || lia].
  destruct (Hok eq_refl) as [Hseg Hle]. destruct (seg_range m ph) as (R1 & R2 & R3 & R4 & _).
  destruct (seg_flags_bits m ph) as (G1 & G2 & G3 & _). unfold PAGE_SIZE in *.
  destruct (load_pages_spec (Z.to_nat ((seg_end m ph - seg_start m ph) / 4096))
    (page_fuel (seg_start m ph) (seg_end m ph)) fs m data ph (seg_flags m ph) (seg_start m ph) (seg_end m ph))
    as [(fs' & m' & -> & J1 & J2 & J3 & J4 & Jm & Jw & Jn)|[Hfail Hn]]; try done;
    [unfold PAGE_SIZE; zlia | unfold page_fuel, PAGE_SIZE; lia | | right; split; [done | zlia]].
  left. exists fs', m'. split_and!; [done | done | done | done | | | done | zlia].
  - intros p content Hp Hpm Hout. apply J4; auto.
  - intros a va x Hva Hout. apply Jm; auto.
Qed.

(** Everything the loader reads is in the image. *)
Lemma image_same (m m' : memory) (data : Z) :
  agree_on (λ a, lo <= a < hi) m m' → image_ok m data →
  eh_phnum m' data = eh_phnum m data ∧
  ∀ i, 0 <= i < eh_phnum m data → let ph := elf32_get_phdr m data i in
    elf32_get_phdr m' data i = ph ∧ is_load m' ph = is_load m ph ∧
    seg_start m' ph = seg_start m ph ∧ seg_end m' ph = seg_end m ph.
Proof.
  intros Hag [H1 H2 _ _].
  assert (∀ k, 0 <= k <= 50 → load16 m' (data + k) = load16 m (data + k)) as L16.
  { intros k Hk. eapply agree_on_load16; [exact Hag | |]; simpl; lia. }
  assert (∀ k, 0 <= k <= 48 → load32 m' (data + k) = load32 m (data + k)) as L32.
  { intros k Hk. eapply agree_on_load32; [exact Hag |]. simpl. lia. }
  assert (eh_phnum m' data = eh_phnum m data) as E1 by (apply L16; lia).
  split; [done |]. intros i Hi ph.
  assert (elf32_get_phdr m' data i = ph) as E2.
  { unfold ph, elf32_get_phdr. rewrite E1. unfold eh_phoff, eh_phentsize. by rewrite L32, L16 by lia. }
  destruct (H2 i Hi) as [P1 P2]. fold ph in P1, P2. unfold sizeof_phdr in P2.
  assert (∀ k, 0 <= k <= 28 → load32 m' (ph + k) = load32 m (ph + k)) as Lp.
  { intros k Hk. eapply agree_on_load32; [exact Hag |]. simpl. lia. }
  assert (ph_type m' ph = ph_type m ph) as T1.
  { unfold ph_type. pose proof (Lp 0 ltac:(lia)) as L0. by rewrite Z.add_0_r in L0. }
  assert (ph_vaddr m' ph = ph_vaddr m ph) as T2 by (apply Lp; lia).
  assert (ph_memsz m' ph = ph_memsz m ph) as T3 by (apply Lp; lia).
  unfold is_load, seg_start, seg_end. by rewrite T1, T2, T3.
Qed.

Lemma image_ok_same (m m' : memory) (data : Z) :
  agree_on (λ a, lo <= a < hi) m m' → image_ok m data → image_ok m' data.
Proof.
  intros Hag Hi. destruct (image_same m m' data Hag Hi) as [E1 E2].
  assert (∀ i, 0 <= i < eh_phnum m data → elf32_get_phdr m' data i = elf32_get_phdr m data i) as Ep
    by (intros i Hii; apply (E2 i Hii)).
  split; rewrite ?E1.
  - apply Hi.
  - intros i Hii. rewrite Ep by done. by apply (im_phdr _ _ Hi).
  - intros i Hii. destruct (E2 i Hii) as (-> & -> & -> & ->). intros Hl.
    destruct (im_segment _ _ Hi i Hii Hl). split; [by eapply image_segment_ok | done].
  - intros i j Hij Hj. destruct (E2 i ltac:(lia)) as (-> & -> & -> & ->).
    destruct (E2 j ltac:(lia)) as (-> & -> & -> & ->). by apply (im_apart _ _ Hi).
Qed.

(** How many pages the headers [i .. i + n - 1] need. *)
Fixpoint image_pages (m : memory) (data : Z) (n : nat) (i : Z) : Z :=
  match n with
  | O => 0
  | S n' => seg_pages m (elf32_get_phdr m data i) + image_pages m data n' (i + 1)
  end.

Lemma image_pages_same (m m' : memory) (data : Z) (n : nat) (i : Z) :
  agree_on (λ a, lo <= a < hi) m m' → image_ok m data → 0 <= i → i + Z.of_nat n <= eh_phnum m data →
  image_pages m' data n i = image_pages m data n i.
Proof.
  intros Hag Him. destruct (image_same m m' data Hag Him) as [_ E]. revert i.
  induction n as [|n IH]; intros i Hi Hn; cbn [image_pages]; [done |]. rewrite IH by lia. f_equal.
  destruct (E i ltac:(lia)) as (E1 & E2 & E3 & E4). unfold seg_pages. by rewrite E1, E2, E3, E4.
Qed.

Lemma image_pages_nonneg (m : memory) (data : Z) (n : nat) (i : Z) :
  image_ok m data → 0 <= i → i + Z.of_nat n <= eh_phnum m data → 0 <= image_pages m data n i.
Proof. clear fresh.
  intros Him. revert i. induction n as [|n IH]; intros i Hi Hn; cbn [image_pages]; [lia |].
  pose proof (IH (i + 1)). unfold seg_pages.
  destruct (is_load m (elf32_get_phdr m data i)) eqn:Hl; [| lia].
  destruct (im_segment _ _ Him i ltac:(lia) Hl) as [_ Hle]. unfold PAGE_SIZE. zlia.
Qed.

Lemma load_segments_spec (n : nat) (i : Z) (fs : F) (m : memory) (data : Z) :
  loader_inv fs m → image_ok m data → 0 <= i → i + Z.of_nat n = eh_phnum m data →
  (∃ fs' m', load_segments n data pd i fs m = Done (true, fs', m') ∧
     loader_inv fs' m' ∧ agree_on (λ a, lo <= a < hi) m m' ∧
     (∀ j, i <= j < i + Z.of_nat n → is_load m (elf32_get_phdr m data j) = true →
        segment_loaded m data (elf32_get_phdr m data j) fs' m') ∧
     (∀ p content, is_u32 p → p mod PAGE_SIZE = 0 →
       (∀ j, i <= j < i + Z.of_nat n → is_load m (elf32_get_phdr m data j) = true →
          p < seg_start m (elf32_get_phdr m data j) ∨ seg_end m (elf32_get_phdr m data j) <= p) →
       page_loaded fs m p content → page_loaded fs' m' p content) ∧
     (∀ a va x, is_u32 va →
       (∀ j, i <= j < i + Z.of_nat n → is_load m (elf32_get_phdr m data j) = true →
          va < seg_start m (elf32_get_phdr m data j) ∨ seg_end m (elf32_get_phdr m data j) <= va) →
       Paging.translate a m pd va = Some x → Paging.translate a m' pd va = Some x) ∧
     (writable_dir m → writable_dir m') ∧
     frames_free fs - 2 * image_pages m data n i <= frames_free fs') ∨
  (out_of_frames (load_segments n data pd i fs m) ∧ frames_free fs < 2 * image_pages m data n i).
Proof.
  revert i fs m. induction n as [|n IH]; intros i fs m Hinv Him Hi0 Hn; cbn [load_segments].
  { left. exists fs, m. split_and!; try done; [intros; lia | cbn; lia]. }
  destruct (load_segment_spec fs m data i Hinv) as [(fs1 & m1 & -> & I1 & I2 & I3 & I4 & Im & Iw & In)|[Hfail Hlt]];
    [apply (im_segment _ _ Him); lia | |].
  2: { right. split; [destruct Hfail as [(fs1 & m1 & ->)| ->]; [left; by exists fs1, m1 | by right] |].
       cbn [image_pages]. pose proof (image_pages_nonneg m data n (i + 1) Him). lia. }
  cbn [obind]. destruct (image_same m m1 data I2 Him) as [E1 E2].
  destruct (IH (i + 1) fs1 m1) as [(fs2 & m2 & -> & J1 & J2 & J3 & J4 & Jm & Jw & Jn)|[Hfail Hlt]];
    [done | by eapply image_ok_same | lia | lia | |].
  2: { right. split; [done |]. cbn [image_pages].
       rewrite (image_pages_same m m1) in Hlt by (done || lia). lia. }
  left. exists fs2, m2. split_and!; [done | done | by etransitivity | | | | auto |].
  4: { cbn [image_pages]. rewrite (image_pages_same m m1) in Jn by (done || lia). lia. }
  - intros j Hj Hl. destruct (E2 j ltac:(lia)) as (Q1 & Q2 & Q3 & Q4).
    destruct (decide (j = i)) as [->|Hne].
    + intros p Hp Hpm. apply J4; [| done | | by apply I3].
      { destruct (seg_range m (elf32_get_phdr m data i)) as (_ & _ & R3 & R4 & _). unfold is_u32, PAGE_SIZE in *. lia. }
      intros k Hk. destruct (E2 k ltac:(lia)) as (-> & -> & -> & ->). intros Hlk.
      destruct (im_apart _ _ Him i k) as [H|H]; [lia | lia | done | done | left; lia | right; lia].
    + assert (is_load m1 (elf32_get_phdr m1 data j) = true) as Hl1 by by rewrite Q1, Q2.
      pose proof (J3 j ltac:(lia) Hl1) as Hs. rewrite Q1 in Hs. unfold segment_loaded in *. rewrite Q3, Q4 in Hs.
      intros p Hp Hpm. destruct (im_segment _ _ Him j ltac:(lia) Hl) as [Hsg _].
      destruct (image_fields m m1 data _ I2 Hsg) as (_ & _ & _ & Eb).
      eapply page_loaded_ext; [exact Eb | by apply Hs].
  - intros p content Hpu Hpm Hout Hl. apply J4; [done | done | |].
    + intros k Hk. destruct (E2 k ltac:(lia)) as (-> & -> & -> & ->). apply Hout. lia.
    + apply I4; [done | done | apply Hout; lia | done].
  - intros a va x Hva Hout Ht. apply Jm; [done | |].
    + intros k Hk. destruct (E2 k ltac:(lia)) as (-> & -> & -> & ->). apply Hout. lia.
    + apply Im; [done | apply Hout; lia | done].
Qed.

(** Ring 3 sees the bytes of a loaded segment. *)
Lemma segment_visible (m : memory) (data ph : Z) (fs' : F) (m' : memory) (a : Z) :
  segment_loaded m data ph fs' m' → ph_vaddr m ph + ph_memsz m ph + 0xFFF < 2 ^ 32 →
  ph_vaddr m ph <= a < ph_vaddr m ph + ph_memsz m ph →
  ∃ pa, Paging.translate (Paging.Access true false) m' pd a = Some pa ∧ load8 m' pa = segment_byte m data ph a.
Proof.
  intros Hs Hnw Ha. destruct (seg_range m ph) as (R1 & R2 & R3 & R4 & R5). destruct (R5 Hnw) as [R6 R7]. unfold PAGE_SIZE in *.
  destruct (Hs (a - a mod 4096)) as (f & _ & _ & _ & _ & Ht & Hb); [zlia | unfold PAGE_SIZE; zlia |].
  assert (is_u32 a) as Hau by (unfold is_u32; lia).
  exists (f + a mod 4096). split.
  - apply Ht; [done |]. unfold Paging.same_page.
    destruct (Paging.index_div a) as [-> ->], (Paging.index_div (a - a mod 4096)) as [-> ->]. zlia.
  - rewrite Hb by (unfold PAGE_SIZE; zlia). f_equal. lia.
Qed.

(** ** Properties *)


End loader.

End image.

(** ** Any image *)

(** Loading an arbitrary image, well formed or not, by induction over its pages:
    [I] holds if every page keeps it, where the page belongs to a segment whose
    header was read in a state that satisfies [I] too.  The page loop of a segment
    never wraps around the address space, so the loader returns or panics. *)
Section induction.
Context {F : Type} `{!FrameAlloc F}.
Variables (E : string → Prop) (I : F → memory → Prop) (data pd : Z).
Abbreviation loads := (ensures E (λ x : bool * F * memory, I (snd (fst x)) (snd x))).

Lemma load_pages_ensures (fuel : nat) (ph flags va last : Z) (fs : F) (m : memory) :
  (∀ va' fs m, va <= va' < last → va' mod PAGE_SIZE = 0 → I fs m → loads (load_page data pd ph flags va' fs m)) →
  0 <= va → va mod PAGE_SIZE = 0 → last <= 2 ^ 32 - PAGE_SIZE →
  (Z.to_nat ((last - va + PAGE_SIZE - 1) / PAGE_SIZE) < fuel)%nat → I fs m →
  loads (load_pages fuel data pd ph flags va last fs m).
Proof.
  revert va fs m. induction fuel as [|fuel IH]; intros va fs m Hstep H0 Hva Hl Hf HI; [lia |].
  cbn [load_pages]. destruct (Z.ltb_spec va last) as [Hlt|]; [| done].
  eapply ensures_bind; [apply Hstep; [lia | done | done] |]. intros [[go fs1] m1] HI1.
  destruct go; [| done]. unfold PAGE_SIZE in *. rewrite (u32_id (va + 4096)) by (unfold is_u32; lia).
  apply IH; [intros va' fs' m' Hr; apply Hstep; lia | lia | zlia | lia | zlia | done].
Qed.

Lemma load_segments_ensures (n : nat) (i : Z) (fs : F) (m : memory) :
  (∀ fsh mh j, I fsh mh → i <= j < i + Z.of_nat n → let ph := elf32_get_phdr mh data j in is_load mh ph = true →
     ∀ va fs m, seg_start mh ph <= va < seg_end mh ph → va mod PAGE_SIZE = 0 → I fs m →
       loads (load_page data pd ph (seg_flags mh ph) va fs m)) →
  I fs m → loads (load_segments n data pd i fs m).
Proof.
  revert i fs m. induction n as [|n IH]; intros i fs m Hstep HI; cbn [load_segments]; [done |].
  assert (loads (load_segment data pd i fs m)) as Hs.
  { unfold load_segment. set (ph := elf32_get_phdr m data i).
    assert (is_load m ph = negb ((ph =? 0) || negb (ph_type m ph =? PT_LOAD)) && negb (ph_memsz m ph =? 0)) as Hl.
    { unfold is_load. by rewrite negb_orb, negb_involutive. }
    destruct (_ || _); [done |]. destruct (_ =? 0); [done |]. destruct (seg_range m ph) as (R1 & R2 & R3 & R4 & _).
    apply load_pages_ensures; [| done | done | done | | done].
    - intros va' fs' m' Hr Hm HI'. by apply (Hstep fs m i HI ltac:(lia) Hl).
    - unfold page_fuel, PAGE_SIZE in *. zlia. }
  eapply ensures_bind; [exact Hs |]. intros [[go fs1] m1] HI1. destruct go; [| done].
  apply IH; [| done]. intros fsh mh j Hh Hj. apply (Hstep fsh mh j Hh). lia.
Qed.

Lemma elf32_load_ensures (fs : F) (m : memory) :
  (∀ fsh mh j, I fsh mh → 0 <= j < eh_phnum m data → let ph := elf32_get_phdr mh data j in is_load mh ph = true →
     ∀ va fs m, seg_start mh ph <= va < seg_end mh ph → va mod PAGE_SIZE = 0 → I fs m →
       loads (load_page data pd ph (seg_flags mh ph) va fs m)) →
  I fs m → loads (elf32_load data pd fs m).
Proof.
  intros Hstep HI. apply load_segments_ensures; [| done]. intros fsh mh j Hh Hj. apply (Hstep fsh mh j Hh).
  pose proof (load16_range m (data + 44)) as Hr. fold (eh_phnum m data) in Hr. unfold elf32_phdr_count in Hj. lia.
Qed.

End induction.

Section termination.
Context {F : Type} `{!FrameAlloc F}.

Lemma load_page_total (data pd ph flags va : Z) (fs : F) (m : memory) :
  load_page data pd ph flags va fs m ≠ Diverged.
Proof.
  unfold load_page. destruct (alloc_frame fs) as [frame fs1]. destruct (frame =? 0); [done |].
  unfold Paging.paging_map_into, Paging.fresh_table. destruct (alloc_frame fs1) as [t fs2].
  destruct (_ =? 0); [destruct (t =? 0) | destruct (negb _)]; done.
Qed.

(** The loader terminates on every image, well formed or not. *)
Theorem elf32_load_terminates (data pd : Z) (fs : F) (m : memory) :
  elf32_load data pd fs m ≠ Diverged.
Proof.
  assert (ensures (λ _, True) (λ _, True) (elf32_load data pd fs m)) as H; [| by destruct (elf32_load data pd fs m)].
  apply (elf32_load_ensures (λ _, True) (λ _ _, True)); [| done]. intros _ mh j _ _ ph _ va fs' m' _ _ _.
  pose proof (load_page_total data pd ph (seg_flags mh ph) va fs' m'). by destruct (load_page _ _ _ _ _ _ _).
Qed.

End termination.

(** ** Witness *)

#[local] Existing Instance Pmm.pmm_frames.

(** An image at 0x8000 with one PT_LOAD segment of four file bytes and eight
    memory bytes at 32 MiB. *)
Definition demo_image : memory :=
  store32 (store32 (store32 (store32 (store32 (store32 (store32 (store32 (store32 (store32 ∅
    (0x8000 + 28) 52) (0x8000 + 40) (32 * 2 ^ 16)) (0x8000 + 44) 1)
    0x8034 1) 0x8038 84) 0x803C 0x2000000) 0x8044 4) 0x8048 8) 0x804C 6) 0x8054 0xDEADBEEF.

Lemma demo_image_outside : agree_outside 0x8000 0x9000 ∅ demo_image.
Proof.
  unfold demo_image.
  repeat (eapply agree_outside_trans;
    [| eapply agree_outside_weaken; [apply agree_store32 | lia | lia]]); reflexivity.
Qed.

Lemma demo_image_ok : image_ok 0x8000 0x9000 demo_image 0x8000.
Proof.
  assert (eh_phnum demo_image 0x8000 = 1) as Hn by (vm_compute; done).
  split; rewrite ?Hn.
  - lia.
  - intros i Hi. replace i with 0 by lia. vm_compute. done.
  - intros i Hi _. replace i with 0 by lia. split; [split; vm_compute; done | vm_compute; done].
  - intros; lia.
Qed.

Lemma demo_loader_inv : loader_inv 0x8000 0x9000 0x11000 (λ _, True) Pmm.demo_pmm demo_image.
Proof.
  assert (∀ i, Paging.is_index i → Paging.present demo_image 0x11000 i = false) as Hnp.
  { intros i Hi. unfold Paging.present. rewrite (Paging.entry_agree _ _ _ _ _ demo_image_outside);
      [by rewrite Z.bits_0 |]. unfold Paging.is_index in *. simpl. lia. }
  split.
  - exact Paging.demo_frames_ok.
  - split; [apply Paging.demo_reserved | |]; intros; rewrite Hnp in *; done.
  - intros f Hf Hu. unfold clear_of. destruct (decide (f = 0x8000)) as [->|Hne].
    + vm_compute in Hu. done.
    + unfold page_addr, PAGE_SIZE in *. zlia.
  - done.
  - unfold clear_of, PAGE_SIZE. lia.
  - intros i Hi. by rewrite Hnp.
Qed.


End Elf.
