(* ===== verification/Process.v ===== *)
(** * Processes and scheduling

    Models [kernel/process.c] and the rest of [kernel/scheduler.c] on the whole
    kernel state: creation of kernel processes and of processes from ELF images,
    exit, reaping, freeing, the timer tick, yielding and the switch.  The state
    composes the frame allocator (any instance of [FrameAlloc]), physical
    memory, the heap, the PCBs and queues, the processor's registers, the TSS
    stack pointer and the console.

    A function that switches contexts returns the state the next process sees;
    the code after the switch runs when the old process is switched back in. *)

From S2P Require Import Prelude Memory Frames Vga Pmm Kmalloc Paging Scheduler Context Elf.

Module Process.
Import Scheduler.

(** ** Kernel state *)

Record kernel (F : Type) : Type := Kernel {
  k_frames : F;
  k_mem : memory;
  k_heap : Kmalloc.heap;
  k_procs : procs;
  k_cpu : Context.cpu;
  k_esp0 : Z;
  k_paging : Paging.paging;
  k_vga : Vga.vga
}.
Arguments Kernel {F} _ _ _ _ _ _ _ _.
Arguments k_frames {F} _.
Arguments k_mem {F} _.
Arguments k_heap {F} _.
Arguments k_procs {F} _.
Arguments k_cpu {F} _.
Arguments k_esp0 {F} _.
Arguments k_paging {F} _.
Arguments k_vga {F} _.

(** Addresses the linker assigns. *)
Record link : Type := Link {
  l_kernel_pd : Z;
  l_idle_pcb : Z;
  l_stack_top : Z;
  l_process_exit : Z;
  l_user_mode_trampoline : Z;
  l_do_switch_return : Z
}.

Definition sizeof_process : Z := 188.
Definition USER_STACK_PAGES : Z := 4.
Definition USER_STACK_BASE : Z := 0x500000.

(** ** [kstrncpy] *)

(** [n] is the room left before the terminator. *)
Fixpoint kstrncpy_loop (n : nat) (i : Z) (dst src : list Z) : list Z :=
  match n with
  | O => aset dst i 0
  | S n' =>
      if aget src i =? 0 then aset dst i 0
      else kstrncpy_loop n' (i + 1) (aset dst i (aget src i)) src
  end.

Definition kstrncpy (dst src : list Z) (n : Z) : list Z := kstrncpy_loop (Z.to_nat (n - 1)) 0 dst src.

Section kernel.
Context {F : Type} `{!FrameAlloc F}.
Variable lk : link.

Definition with_frames (v : F) (k : kernel F) : kernel F :=
  Kernel v (k_mem k) (k_heap k) (k_procs k) (k_cpu k) (k_esp0 k) (k_paging k) (k_vga k).
Definition with_mem (v : memory) (k : kernel F) : kernel F :=
  Kernel (k_frames k) v (k_heap k) (k_procs k) (k_cpu k) (k_esp0 k) (k_paging k) (k_vga k).
Definition with_procs (v : procs) (k : kernel F) : kernel F :=
  Kernel (k_frames k) (k_mem k) (k_heap k) v (k_cpu k) (k_esp0 k) (k_paging k) (k_vga k).
Definition with_cpu (v : Context.cpu) (k : kernel F) : kernel F :=
  Kernel (k_frames k) (k_mem k) (k_heap k) (k_procs k) v (k_esp0 k) (k_paging k) (k_vga k).
Definition with_esp0 (v : Z) (k : kernel F) : kernel F :=
  Kernel (k_frames k) (k_mem k) (k_heap k) (k_procs k) (k_cpu k) v (k_paging k) (k_vga k).
Definition with_vga (v : Vga.vga) (k : kernel F) : kernel F :=
  Kernel (k_frames k) (k_mem k) (k_heap k) (k_procs k) (k_cpu k) (k_esp0 k) (k_paging k) v.

(** [p->field] and [p->field = v] in the kernel state. *)
Definition kpcb (k : kernel F) (p : Z) : process := pcb (k_procs k) p.
Definition kedit (p : Z) (f : process → process) (k : kernel F) : kernel F :=
  with_procs (edit p f (k_procs k)) k.

(** Calls into the other components. *)
Definition k_free_frame (a : Z) (k : kernel F) : kernel F := with_frames (free_frame a (k_frames k)) k.

Definition k_free_pd (pd : Z) (k : kernel F) : kernel F :=
  with_frames (Paging.paging_free_pd pd (k_frames k) (k_mem k)) k.

Definition k_kfree (p : Z) (k : kernel F) : outcome (kernel F) :=
  let! m := Kmalloc.kfree p (k_heap k) (k_mem k) in
  Done (with_mem m k).

Definition k_mark_zombie (p : Z) (k : kernel F) : outcome (kernel F) :=
  let! s := scheduler_mark_zombie p (k_procs k) in
  Done (with_procs s k).

Definition tss_set_kernel_stack (esp0 : Z) (k : kernel F) : kernel F := with_esp0 esp0 k.

Definition print_ok (msg : string) (v : Vga.vga) : Vga.vga :=
  let v := Vga.vga_set_color Vga.VGA_COLOR_LIGHT_GREEN v in
  let v := Vga.kprint (Vga.chars msg ++ [Vga.NEWLINE]) v in
  Vga.vga_set_color Vga.VGA_COLOR_LIGHT_GREY v.

(** ** [process_init] and [scheduler_init] *)

Definition process_init (k : kernel F) : kernel F :=
  let idle := l_idle_pcb lk in
  let s := k_procs k in
  let s := edit idle (set_pid (next_pid s)) s in
  let s := with_next_pid (u32 (next_pid s + 1)) s in
  let s := edit idle (set_state PROCESS_RUNNING) s in
  let s := edit idle (set_parent_pid 0) s in
  let s := edit idle (set_priority 0) s in
  let s := edit idle (set_ticks_remaining 1) s in
  let s := edit idle (set_sleep_ticks 0) s in
  let s := edit idle (set_exit_code 0) s in
  let s := edit idle (set_next 0) s in
  let s := edit idle (λ p, set_name (kstrncpy (name p) (Vga.chars "idle") 32) p) s in
  let s := edit idle (set_esp 0) s in
  let s := edit idle (set_kernel_stack_top (l_stack_top lk)) s in
  let s := with_current idle s in
  let s := edit idle (set_cr3 (Paging.kernel_pd_phys (k_paging k))) s in
  let '(_, s) := proc_table_add idle s in
  let k := with_procs s k in
  with_vga (print_ok "[OK] Process subsystem initialized (idle PID=0)" (k_vga k)) k.

Definition scheduler_init (k : kernel F) : kernel F :=
  let s := with_size 0 (with_tail 0 (with_head 0 (k_procs k))) in
  let idle := process_current s in
  let s := if idle =? 0 then s
           else edit idle (set_state PROCESS_RUNNING) (scheduler_enqueue idle s) in
  let k := with_procs s k in
  with_vga (print_ok "[OK] Scheduler initialized (round-robin + priority)" (k_vga k)) k.

(** ** [process_create] *)

(** The fields set before the kernel stack is allocated. *)
Definition init_pcb (pname : list Z) (prio proc : Z) (s : procs) : procs :=
  let s := edit proc (set_pid (next_pid s)) s in
  let s := with_next_pid (u32 (next_pid s + 1)) s in
  let s := edit proc (set_parent_pid (if current_process s =? 0 then 0 else pid (pcb s (current_process s)))) s in
  let s := edit proc (set_state PROCESS_READY) s in
  let s := edit proc (set_priority (if prio =? 0 then 1 else prio)) s in
  let s := edit proc (λ p, set_ticks_remaining (priority p) p) s in
  let s := edit proc (set_sleep_ticks 0) s in
  let s := edit proc (set_exit_code 0) s in
  let s := edit proc (set_next 0) s in
  edit proc (λ p, set_name (kstrncpy (name p) pname 32) p) s.

(** The kernel stack and the frame on it that [context_switch] restores. *)
Definition init_stack (entry proc stack_lo stack_hi : Z) (k : kernel F) : kernel F :=
  let k := kedit proc (set_stack_frame_lo stack_lo) k in
  let k := kedit proc (set_stack_frame_hi stack_hi) k in
  let k := kedit proc (set_kernel_stack_top (u32 (stack_hi + PAGE_SIZE))) k in
  let '(stack, m) :=
    Context.initial_frame (kernel_stack_top (kpcb k proc)) (l_process_exit lk) entry (k_mem k) in
  let k := with_mem m k in
  kedit proc (set_esp stack) k.

(** The end of [process_create], from the kernel stack on. *)
Definition create_enqueue (entry proc stack_lo stack_hi : Z) (k : kernel F) : outcome (Z * kernel F) :=
  let k := init_stack entry proc stack_lo stack_hi k in
  let k := with_procs (scheduler_enqueue proc (k_procs k)) k in
  let '(r, s) := proc_table_add proc (k_procs k) in
  let k := with_procs s k in
  if negb (r =? 0) then
    let! s := scheduler_dequeue proc (k_procs k) in
    let k := with_procs s k in
    let k := k_free_frame (stack_frame_lo (kpcb k proc)) k in
    let k := k_free_frame (stack_frame_hi (kpcb k proc)) k in
    let k := k_free_pd (cr3 (kpcb k proc)) k in
    let! k := k_kfree proc k in
    Done (0, k)
  else Done (proc, k).

(** The body once the PCB is allocated and zeroed and has its directory. *)
Definition create_with_pd (pname : list Z) (entry prio proc : Z) (k : kernel F) : outcome (Z * kernel F) :=
  let k := with_procs (init_pcb pname prio proc (k_procs k)) k in
  let '(stack_lo, fs) := alloc_frame (k_frames k) in
  let '(stack_hi, fs) := alloc_frame fs in
  let k := with_frames fs k in
  if (stack_lo =? 0) || (stack_hi =? 0) then
    let k := if stack_lo =? 0 then k else k_free_frame stack_lo k in
    let k := if stack_hi =? 0 then k else k_free_frame stack_hi k in
    let k := k_free_pd (cr3 (kpcb k proc)) k in
    let! k := k_kfree proc k in
    Done (0, k)
  else
    create_enqueue entry proc stack_lo stack_hi k.

Definition process_create (pname : list Z) (entry prio : Z) (k : kernel F) : outcome (Z * kernel F) :=
  let! (proc, m) := Kmalloc.kmalloc sizeof_process (k_heap k) (k_mem k) in
  let k := with_mem m k in
  if proc =? 0 then Done (0, k)
  else
    let k := kedit proc (λ _, zero_pcb) k in
    let '(pd, fs, m) := Paging.paging_create_user_pd (l_kernel_pd lk) (k_frames k) (k_mem k) in
    let k := with_mem m (with_frames fs k) in
    let k := kedit proc (set_cr3 pd) k in
    if cr3 (kpcb k proc) =? 0 then
      let! k := k_kfree proc k in
      Done (0, k)
    else create_with_pd pname entry prio proc k.

(** ** [process_free] *)

Definition process_free (proc : Z) (k : kernel F) : outcome (kernel F) :=
  if proc =? 0 then Done k
  else
    let k := with_procs (proc_table_remove proc (k_procs k)) k in
    let k := k_free_frame (stack_frame_lo (kpcb k proc)) k in
    let k := k_free_frame (stack_frame_hi (kpcb k proc)) k in
    let k := k_free_pd (cr3 (kpcb k proc)) k in
    k_kfree proc k.

(** ** [scheduler_reap_zombies] *)

Fixpoint reap_loop (fuel : nat) (prev cur : Z) (k : kernel F) : outcome (kernel F) :=
  match fuel with
  | O => Diverged
  | S fuel' =>
      if cur =? 0 then Done k
      else if negb (is_pid_alive (parent_pid (kpcb k cur)) (k_procs k)) then
        let orphan := cur in
        let cur := next (kpcb k cur) in
        let k := with_procs (unlink_zombie prev orphan (k_procs k)) k in
        let! k := process_free orphan k in
        reap_loop fuel' prev cur k
      else reap_loop fuel' cur (next (kpcb k cur)) k
  end.

Definition scheduler_reap_zombies (k : kernel F) : outcome (kernel F) :=
  reap_loop (walk_fuel (k_procs k)) 0 (zombie_head (k_procs k)) k.

(** ** Switching *)

Definition do_switch (nx : Z) (k : kernel F) : kernel F :=
  let old := process_current (k_procs k) in
  if old =? nx then k
  else
    let k := if bool_decide (state (kpcb k old) = PROCESS_RUNNING)
             then kedit old (set_state PROCESS_READY) k else k in
    let k := kedit nx (set_state PROCESS_RUNNING) k in
    let k := kedit nx (λ p, set_ticks_remaining (priority p) p) k in
    let k := tss_set_kernel_stack (kernel_stack_top (kpcb k nx)) k in
    let k := with_procs (process_set_current nx (k_procs k)) k in
    let '(c, m, s) := Context.call_context_switch old nx (l_do_switch_return lk) (k_cpu k) (k_mem k) (k_procs k) in
    with_cpu c (with_mem m (with_procs s k)).

(** The part of the tick after reaping: waking, accounting and preemption. *)
Definition tick_accounting (cur : Z) (k : kernel F) : kernel F :=
  let k := if 0 <? ticks_remaining (kpcb k cur)
           then kedit cur (λ p, set_ticks_remaining (ticks_remaining p - 1) p) k else k in
  if (ticks_remaining (kpcb k cur) =? 0) && (0 <? queue_size (k_procs k)) then
    let '(nx, s) := pick_next (k_procs k) in
    let k := with_procs s k in
    if negb (nx =? 0) && negb (nx =? cur) then do_switch nx k
    else kedit cur (λ p, set_ticks_remaining (priority p) p) k
  else k.

Definition scheduler_tick (k : kernel F) : outcome (kernel F) :=
  let cur := process_current (k_procs k) in
  if cur =? 0 then Done k
  else
    let! k := scheduler_reap_zombies k in
    let! s := wake_loop (walk_fuel (k_procs k)) (queue_head (k_procs k)) (k_procs k) in
    Done (tick_accounting cur (with_procs s k)).

Definition scheduler_yield (k : kernel F) : kernel F :=
  let cur := process_current (k_procs k) in
  let '(nx, s) := pick_next (k_procs k) in
  let k := with_procs s k in
  if (nx =? 0) || (nx =? cur) then k else do_switch nx k.

(** ** [process_exit] *)

(** The processor halts with interrupts disabled if [scheduler_yield] returns. *)
Definition process_exit (code : Z) (k : kernel F) : outcome (kernel F) :=
  let cur := current_process (k_procs k) in
  let k := kedit cur (set_exit_code code) k in
  let k := kedit cur (set_state PROCESS_ZOMBIE) k in
  let! k := k_mark_zombie cur k in
  Done (scheduler_yield k).

(** ** [process_create_from_elf] *)

Definition fail_zombie (proc : Z) (k : kernel F) : outcome (Z * kernel F) :=
  let k := kedit proc (set_state PROCESS_ZOMBIE) k in
  let! k := k_mark_zombie proc k in
  Done (0, k).

(** The loop that maps the user stack; the result is the flag for success, the
    stack top so far and the state. *)
Fixpoint map_user_stack (n : nat) (i proc stack_top : Z) (k : kernel F) : outcome (bool * Z * kernel F) :=
  match n with
  | O => Done (true, stack_top, k)
  | S n' =>
      let '(frame, fs) := alloc_frame (k_frames k) in
      let k := with_frames fs k in
      if frame =? 0 then Done (false, stack_top, k)
      else
        let va := USER_STACK_BASE + i * PAGE_SIZE in
        let! (fs, m) := Paging.paging_map_into (cr3 (kpcb k proc)) va frame
          (Z.lor (Z.lor Paging.PTE_PRESENT Paging.PTE_WRITABLE) Paging.PTE_USER) (k_frames k) (k_mem k) in
        map_user_stack n' (i + 1) proc (va + PAGE_SIZE) (with_mem m (with_frames fs k))
  end.

Definition process_create_from_elf (pname : list Z) (elf_data prio : Z) (k : kernel F) : outcome (Z * kernel F) :=
  match Elf.elf32_validate (k_mem k) elf_data with
  | None => Done (0, k)
  | Some entry =>
      let! (proc, k) := process_create pname (l_user_mode_trampoline lk) prio k in
      if proc =? 0 then Done (0, k)
      else
        let! (ok, fs, m) := Elf.elf32_load elf_data (cr3 (kpcb k proc)) (k_frames k) (k_mem k) in
        let k := with_mem m (with_frames fs k) in
        if negb ok then fail_zombie proc k
        else
          let! (ok, stack_top, k) := map_user_stack (Z.to_nat USER_STACK_PAGES) 0 proc USER_STACK_BASE k in
          if negb ok then fail_zombie proc k
          else
            let k := kedit proc (set_user_entry entry) k in
            let k := kedit proc (set_user_stack_top stack_top) k in
            Done (proc, k)
  end.

(** [user_mode_trampoline]: the TSS stack and the entry point and stack pointer
    handed to [enter_usermode]. *)
Definition user_mode_trampoline (k : kernel F) : kernel F * (Z * Z) :=
  let self := process_current (k_procs k) in
  let k := tss_set_kernel_stack (kernel_stack_top (kpcb k self)) k in
  (k, (user_entry (kpcb k self), user_stack_top (kpcb k self))).

End kernel.

End Process.
