(* ===== verification/Invariant.v ===== *)
(** * The kernel invariant

    How the components share memory: the heap, the kernel's page tables, the
    free frames and the frames of the processes are disjoint; the run queue, the
    zombie list and the process table agree.  The lemmas say which steps keep
    the invariant: taking frames, writing outside the page tables, changing
    PCBs, adding a process.  The last section builds a concrete kernel that
    satisfies it. *)

From S2P Require Import Prelude Memory Frames Vga Pmm Kmalloc Paging Scheduler Context Elf Process.

Module Invariant.
Import Scheduler Process.

Section invariant.
Context {F : Type} `{!FrameAlloc F}.
Variable lk : link.

Definition in_page (b a : Z) : Prop := b <= a < b + PAGE_SIZE.

(** The frames of process [p]: its kernel stack and what its directory owns. *)
Definition holds (k : kernel F) (p b : Z) : Prop :=
  b = stack_frame_lo (kpcb k p) ∨ b = stack_frame_hi (kpcb k p) ∨
  Paging.owned (k_mem k) (cr3 (kpcb k p)) b.

(** The pages of the kernel's address space. *)
Definition kernel_page (m : memory) (b : Z) : Prop :=
  b = l_kernel_pd lk ∨
  ∃ i, Paging.is_index i ∧ Paging.present m (l_kernel_pd lk) i = true ∧ b = Paging.table m (l_kernel_pd lk) i.

(** [R] is the memory of the heap, [live] the allocated heap pointers, [l] the
    run queue and [z] the zombie list.  The heap, the free frames and the frames
    of the processes are disjoint, and so are the frames of two processes. *)
Record kernel_inv (k : kernel F) (R : Z → Prop) (live : gset Z) (l z : list Z) : Prop := {
  ki_frames : frames_ok (k_frames k);
  ki_heap : Kmalloc.heap_view (k_heap k) (k_mem k) R live;
  ki_space : Paging.space_ok (k_frames k) (k_mem k) (l_kernel_pd lk);
  ki_pd b a : kernel_page (k_mem k) b → in_page b a → ~ R a;
  ki_free b a : page_addr b → in_use (k_frames k) b = false → in_page b a → ~ R a;
  ki_queue : queue_inv (k_procs k) l z;
  ki_table : table_ok (k_procs k) l z;
  ki_idle : l_idle_pcb lk ≠ 0 ∧ ~ R (l_idle_pcb lk);
  ki_live p : p ∈ current_process (k_procs k) :: l ++ z → p = l_idle_pcb lk ∨ p ∈ live;
  ki_held p b : p ∈ l ++ z → p ≠ l_idle_pcb lk → holds k p b →
    page_addr b ∧ in_use (k_frames k) b = true ∧ ~ kernel_page (k_mem k) b ∧ ∀ a, in_page b a → ~ R a;
  ki_stack p : p ∈ l ++ z → p ≠ l_idle_pcb lk →
    stack_frame_lo (kpcb k p) ≠ stack_frame_hi (kpcb k p) ∧
    ∀ b, b = stack_frame_lo (kpcb k p) ∨ b = stack_frame_hi (kpcb k p) →
         ~ Paging.owned (k_mem k) (cr3 (kpcb k p)) b;
  ki_disjoint p q b : p ∈ l ++ z → q ∈ l ++ z → p ≠ l_idle_pcb lk → q ≠ l_idle_pcb lk →
    holds k p b → holds k q b → p = q
}.

(** Bytes that are neither in the heap nor in a free frame. *)
Definition kept (R : Z → Prop) (fs : F) (a : Z) : Prop :=
  ~ R a ∧ ∀ f, page_addr f → in_use fs f = false → ~ in_page f a.

Lemma kept_reserved (R : Z → Prop) (fs : F) (b a : Z) :
  Paging.reserved fs b → (∀ a, in_page b a → ~ R a) → in_page b a → kept R fs a.
Proof.
  intros [Hb Hu] HR Ha. split; [by apply HR |]. intros f Hf Huf Hfa.
  destruct (decide (f = b)) as [->|Hne]; [rewrite (Hu Hf) in Huf; done |].
  pose proof (Paging.page_base_apart f b (Paging.page_addr_base f Hf) Hb Hne). unfold in_page in *. lia.
Qed.

(** The directory itself and its page tables above the identity window. *)
Definition table_page (m : memory) (pd b : Z) : Prop :=
  b = pd ∨ ∃ i, Paging.is_index i ∧ Paging.IDENTITY_PT_COUNT <= i ∧ Paging.present m pd i = true ∧ b = Paging.table m pd i.

Lemma table_page_owned (m : memory) (pd b : Z) : table_page m pd b → Paging.owned m pd b.
Proof. intros [->|(i & H1 & H2 & H3 & ->)]; [by left | right; exists i; auto]. Qed.

(** The frames of a directory are decided by the bytes of these pages. *)
Lemma owned_agree (P : Z → Prop) (m m' : memory) (pd b : Z) :
  agree_on P m m' → (∀ c a, table_page m pd c → in_page c a → P a) →
  Paging.owned m' pd b ↔ Paging.owned m pd b.
Proof.
  intros Hag HP.
  assert (∀ c i, table_page m pd c → Paging.is_index i → Paging.entry m' c i = Paging.entry m c i) as He.
  { intros c i Hc Hi. eapply Paging.entry_agree; [exact Hag |]. intros a Ha. apply (HP c); [done |].
    unfold in_page, PAGE_SIZE, Paging.is_index in *. lia. }
  assert (∀ i, Paging.is_index i → Paging.entry m' pd i = Paging.entry m pd i) as Hpd.
  { intros i. apply He. by left. }
  assert (∀ i, Paging.is_index i → Paging.present m' pd i = Paging.present m pd i ∧
    Paging.table m' pd i = Paging.table m pd i) as Hpt.
  { intros i Hi. unfold Paging.present, Paging.table. by rewrite Hpd. }
  assert (∀ i, Paging.is_index i → Paging.IDENTITY_PT_COUNT <= i → Paging.present m pd i = true →
    Paging.leaf m' (Paging.table m pd i) b ↔ Paging.leaf m (Paging.table m pd i) b) as Ht.
  { intros i Hi Hge Hp. set (t := Paging.table m pd i).
    assert (∀ j, Paging.is_index j → Paging.entry m' t j = Paging.entry m t j) as Hj.
    { intros j. apply He. right. by exists i. }
    unfold Paging.leaf, Paging.present, Paging.table.
    split; intros (j & Hi' & H1 & H2); exists j; rewrite Hj in * by done; done. }
  unfold Paging.owned. split; (intros [Hb|(i & Hi & Hge & Hp & Hb)]; [by left | right; exists i]);
    destruct (Hpt i Hi) as [E1 E2]; rewrite E1, E2 in *; rewrite Ht in * by done; done.
Qed.

Lemma table_page_agree (P : Z → Prop) (m m' : memory) (pd b : Z) :
  agree_on P m m' → (∀ a, in_page pd a → P a) → table_page m' pd b ↔ table_page m pd b.
Proof.
  intros Hag HP. assert (∀ i, Paging.is_index i → Paging.present m' pd i = Paging.present m pd i ∧
    Paging.table m' pd i = Paging.table m pd i) as Hpt.
  { intros i Hi. unfold Paging.present, Paging.table. rewrite (Paging.entry_agree P m m' pd i Hag); [done |].
    intros a Ha. apply HP. unfold in_page, PAGE_SIZE, Paging.is_index in *. lia. }
  unfold table_page. split; (intros [Hb|(i & Hi & Hge & Hp & Hb)]; [by left | right; exists i]);
    destruct (Hpt i Hi) as [E1 E2]; rewrite E1, E2 in *; done.
Qed.

(** The bytes of the kernel's directory and of the directories and tables of the
    processes. *)
Definition mapping_byte (k : kernel F) (l z : list Z) (a : Z) : Prop :=
  in_page (l_kernel_pd lk) a ∨
  ∃ p b, p ∈ l ++ z ∧ p ≠ l_idle_pcb lk ∧ table_page (k_mem k) (cr3 (kpcb k p)) b ∧ in_page b a.

Lemma mapping_kept (k : kernel F) (R : Z → Prop) (live : gset Z) (l z : list Z) (m' : memory) :
  kernel_inv k R live l z → agree_on (kept R (k_frames k)) (k_mem k) m' →
  agree_on (mapping_byte k l z) (k_mem k) m'.
Proof.
  intros Hk Hag. eapply agree_on_weaken; [exact Hag |]. intros a [Ha|(p & b & Hp & Hi & Hb & Ha)].
  - apply (kept_reserved R _ (l_kernel_pd lk)); [apply (Paging.so_pd (ki_space _ _ _ _ _ Hk)) | | done].
    intros c. apply (ki_pd _ _ _ _ _ Hk). by left.
  - destruct (ki_held _ _ _ _ _ Hk p b Hp Hi ltac:(right; right; by apply table_page_owned)) as (H1 & H2 & _ & H3).
    apply (kept_reserved R _ b); [| done | done]. split; [by apply Paging.page_addr_base | done].
Qed.

(** What a write outside the directories and tables leaves alone. *)
Section kept.
Variables (k : kernel F) (R : Z → Prop) (live : gset Z) (l z : list Z) (m' : memory).
Hypothesis Hk : kernel_inv k R live l z.
Hypothesis Hag : agree_on (mapping_byte k l z) (k_mem k) m'.

Lemma kernel_pde_kept (i : Z) :
  Paging.is_index i → Paging.entry m' (l_kernel_pd lk) i = Paging.entry (k_mem k) (l_kernel_pd lk) i.
Proof.
  intros Hi. eapply Paging.entry_agree; [exact Hag |]. intros a Ha. left.
  unfold in_page, PAGE_SIZE, Paging.is_index in *. lia.
Qed.

Lemma kernel_entry_kept (i : Z) :
  Paging.is_index i →
  Paging.present m' (l_kernel_pd lk) i = Paging.present (k_mem k) (l_kernel_pd lk) i ∧
  Paging.table m' (l_kernel_pd lk) i = Paging.table (k_mem k) (l_kernel_pd lk) i.
Proof. intros Hi. unfold Paging.present, Paging.table. by rewrite kernel_pde_kept. Qed.

Lemma kernel_page_kept (b : Z) : kernel_page m' b ↔ kernel_page (k_mem k) b.
Proof.
  unfold kernel_page. split; (intros [H|(i & Hi & Hp & Ht)]; [by left | right; exists i]);
    destruct (kernel_entry_kept i Hi) as [E1 E2]; rewrite E1, E2 in *; done.
Qed.

Lemma kernel_page_reserved (b : Z) : kernel_page (k_mem k) b → Paging.reserved (k_frames k) b.
Proof.
  pose proof (ki_space _ _ _ _ _ Hk) as [S1 S2 _]. intros [->|(i & Hi & Hp & ->)]; [done | by apply S2].
Qed.

Lemma owned_kept (p b : Z) :
  p ∈ l ++ z → p ≠ l_idle_pcb lk →
  Paging.owned m' (cr3 (kpcb k p)) b ↔ Paging.owned (k_mem k) (cr3 (kpcb k p)) b.
Proof.
  intros Hp Hi. eapply owned_agree; [exact Hag |]. intros c a Hc Ha. right. by exists p, c.
Qed.

Lemma table_page_kept (p b : Z) :
  p ∈ l ++ z → p ≠ l_idle_pcb lk →
  table_page m' (cr3 (kpcb k p)) b ↔ table_page (k_mem k) (cr3 (kpcb k p)) b.
Proof.
  intros Hp Hi. eapply table_page_agree; [exact Hag |]. intros a Ha. right. exists p, (cr3 (kpcb k p)).
  split_and!; [done | done | by left | done].
Qed.

Lemma holds_kept (fs' : F) (p b : Z) :
  p ∈ l ++ z → p ≠ l_idle_pcb lk → holds (with_mem m' (with_frames fs' k)) p b ↔ holds k p b.
Proof. intros Hp Hi. unfold holds. cbn [k_mem with_mem with_frames]. by rewrite (owned_kept p b Hp Hi). Qed.

(** A step that takes frames, and writes outside the directories and tables. *)
Lemma inv_step (live' : gset Z) (fs' : F) :
  frames_ok fs' → (∀ b, page_addr b → in_use (k_frames k) b = true → in_use fs' b = true) →
  Kmalloc.heap_view (k_heap k) m' R live' → live ⊆ live' →
  kernel_inv (with_mem m' (with_frames fs' k)) R live' l z.
Proof.
  intros Hok Hu Hh Hlv.
  assert (∀ b, Paging.reserved (k_frames k) b → Paging.reserved fs' b) as Hr.
  { intros b [H1 H2]. split; [done | auto]. }
  split; cbn [k_frames k_mem k_heap k_procs with_mem with_frames]; try apply Hk.
  - done.
  - done.
  - destruct (ki_space _ _ _ _ _ Hk) as [S1 S2 S3]. split.
    + by apply Hr.
    + intros i Hi. destruct (kernel_entry_kept i Hi) as [-> ->]. intros Hp. destruct (S2 i Hi Hp). auto.
    + intros i j Hi Hj. destruct (kernel_entry_kept i Hi) as [-> ->], (kernel_entry_kept j Hj) as [-> ->]. by apply S3.
  - intros b a Hb. apply (ki_pd _ _ _ _ _ Hk). by apply kernel_page_kept.
  - intros b a Hb Hub. apply (ki_free _ _ _ _ _ Hk); [done |].
    destruct (in_use (k_frames k) b) eqn:E; [rewrite (Hu b Hb E) in Hub; done | done].
  - intros p Hp. destruct (ki_live _ _ _ _ _ Hk p Hp); [by left | right; set_solver].
  - intros p b Hp Hi Hb. apply holds_kept in Hb; [| done | done].
    destruct (ki_held _ _ _ _ _ Hk p b Hp Hi Hb) as (H1 & H2 & H3 & H4). split_and!; [done | auto | | done].
    by rewrite kernel_page_kept.
  - intros p Hp Hi. destruct (ki_stack _ _ _ _ _ Hk p Hp Hi) as [H1 H2]. split; [done |].
    intros b Hb Ho. apply (H2 b Hb). by apply (owned_kept p b Hp Hi).
  - intros p q b Hp Hq Hpi Hqi H1 H2. apply holds_kept in H1; [| done | done]. apply holds_kept in H2; [| done | done].
    by apply (ki_disjoint _ _ _ _ _ Hk p q b).
Qed.

End kept.

(** The fields of a PCB that name its frames. *)
Definition same_resources (s s' : procs) (p : Z) : Prop :=
  stack_frame_lo (pcb s' p) = stack_frame_lo (pcb s p) ∧
  stack_frame_hi (pcb s' p) = stack_frame_hi (pcb s p) ∧ cr3 (pcb s' p) = cr3 (pcb s p).

Lemma links_resources (s s' : procs) (p : Z) : links_only s s' → same_resources s s' p.
Proof.
  intros Hl. pose proof (lk_pcb _ _ Hl p) as H. unfold same_resources.
  destruct (pcb s' p), (pcb s p). simpl in *. inversion H. done.
Qed.

(** A step on the PCBs and queues that keeps every queued process's frames. *)
Lemma inv_procs (k : kernel F) (R : Z → Prop) (live : gset Z) (l z l' z' : list Z) (s' : procs) :
  kernel_inv k R live l z → queue_inv s' l' z' → table_ok s' l' z' →
  (∀ p, p ∈ l' ++ z' → p ∈ l ++ z ∧ same_resources (k_procs k) s' p) →
  current_process s' ∈ current_process (k_procs k) :: l ++ z →
  kernel_inv (with_procs s' k) R live l' z'.
Proof.
  intros Hk Hq Ht Hp Hc.
  assert (∀ p b, p ∈ l' ++ z' → holds (with_procs s' k) p b ↔ holds k p b) as Hhold.
  { intros p b Hin. destruct (Hp p Hin) as [_ (E1 & E2 & E3)].
    unfold holds, kpcb. cbn [k_procs k_mem with_procs]. by rewrite E1, E2, E3. }
  split; cbn [k_frames k_mem k_heap k_procs with_procs]; try apply Hk.
  - done.
  - done.
  - intros p Hin. apply (ki_live _ _ _ _ _ Hk). apply elem_of_cons in Hin as [->|Hin]; [done |].
    apply elem_of_cons. right. by apply Hp.
  - intros p b Hin Hi Hb. apply Hhold in Hb; [| done]. by apply (ki_held _ _ _ _ _ Hk p b); [apply Hp | |].
  - intros p Hin Hi. destruct (Hp p Hin) as [Hin' (E1 & E2 & E3)].
    unfold kpcb. cbn [k_procs with_procs]. rewrite E1, E2, E3. by apply (ki_stack _ _ _ _ _ Hk p).
  - intros p q b Hin Hin' Hi Hi' H1 H2. apply Hhold in H1; [| done]. apply Hhold in H2; [| done].
    apply (ki_disjoint _ _ _ _ _ Hk p q b); [by apply Hp | by apply Hp | done..].
Qed.

(** A new process at the tail of the run queue whose frames nobody holds. *)
Lemma inv_add (k : kernel F) (R : Z → Prop) (live : gset Z) (l z : list Z) (p : Z) (s' : procs) :
  kernel_inv k R live l z → queue_inv s' (l ++ [p]) z → table_ok s' (l ++ [p]) z →
  (∀ q, q ∈ l ++ z → same_resources (k_procs k) s' q) →
  current_process s' = current_process (k_procs k) → p ∈ live → p ≠ l_idle_pcb lk →
  (∀ b, holds (with_procs s' k) p b → page_addr b ∧ in_use (k_frames k) b = true ∧
        ~ kernel_page (k_mem k) b ∧ (∀ a, in_page b a → ~ R a) ∧
        ∀ q, q ∈ l ++ z → q ≠ l_idle_pcb lk → ~ holds k q b) →
  stack_frame_lo (pcb s' p) ≠ stack_frame_hi (pcb s' p) →
  (∀ b, b = stack_frame_lo (pcb s' p) ∨ b = stack_frame_hi (pcb s' p) →
        ~ Paging.owned (k_mem k) (cr3 (pcb s' p)) b) →
  kernel_inv (with_procs s' k) R live (l ++ [p]) z.
Proof.
  intros Hk Hq Ht Hsame Hc Hpl Hpi Hnew Hlh Hown.
  assert (∀ q, q ∈ (l ++ [p]) ++ z ↔ q = p ∨ q ∈ l ++ z) as Hin by set_solver.
  assert (∀ q b, q ∈ l ++ z → holds (with_procs s' k) q b ↔ holds k q b) as Hhold.
  { intros q b Hq'. destruct (Hsame q Hq') as (E1 & E2 & E3).
    unfold holds, kpcb. cbn [k_procs k_mem with_procs]. by rewrite E1, E2, E3. }
  split; cbn [k_frames k_mem k_heap k_procs with_procs]; try apply Hk.
  - done.
  - done.
  - intros q. rewrite Hc, elem_of_cons, Hin. pose proof (ki_live _ _ _ _ _ Hk q) as Hl.
    rewrite elem_of_cons in Hl. intros [?|[->|?]]; auto.
  - intros q b. rewrite Hin. intros [->|Hq'] Hi Hb.
    + destruct (Hnew b Hb) as (? & ? & ? & ? & _). done.
    + apply Hhold in Hb; [| done]. by apply (ki_held _ _ _ _ _ Hk q b).
  - intros q. rewrite Hin. intros [->|Hq'] Hi; [done |]. destruct (Hsame q Hq') as (E1 & E2 & E3).
    unfold kpcb. cbn [k_procs with_procs]. rewrite E1, E2, E3. by apply (ki_stack _ _ _ _ _ Hk q).
  - intros q r b. rewrite !Hin. intros [->|Hq'] [->|Hr'] Hi Hi' H1 H2; [done | | |].
    + destruct (Hnew b H1) as (_ & _ & _ & _ & Hno). exfalso. apply (Hno r Hr' Hi'). by apply Hhold.
    + destruct (Hnew b H2) as (_ & _ & _ & _ & Hno). exfalso. apply (Hno q Hq' Hi). by apply Hhold.
    + apply Hhold in H1; [| done]. apply Hhold in H2; [| done]. by apply (ki_disjoint _ _ _ _ _ Hk q r b).
Qed.

End invariant.

(** ** A concrete kernel *)

#[local] Existing Instance Pmm.pmm_frames.

(** A kernel with three free frames, a heap of one page at 1 MiB, an empty
    directory at 0x10000 and the idle process at 0x9000. *)
Definition demo_link : link := Link 0x10000 0x9000 0x90000 0x101000 0x102000 0x103000.
Definition demo_frames : Pmm.pmm := free_frame 0x22000 Pmm.demo_pmm.
Definition demo_procs : procs :=
  Procs (<[0x9000 := set_cr3 0x10000 (set_state PROCESS_RUNNING zero_pcb)]> ∅) 1 0x9000
    (0x9000 :: replicate 15 0) 0x9000 0x9000 1 0.
Definition demo_kernel : kernel Pmm.pmm :=
  Kernel demo_frames Kmalloc.demo_memory Kmalloc.demo_heap demo_procs (Context.demo_cpu 0x8F000) 0x90000
    (Paging.PagingState 0x10000 0x10000 true) (Vga.Vga (replicate 2000 0) 0 0 7).
Definition demo_region (a : Z) : Prop := 0x100000 <= a < 0x101000.

Lemma demo_frames_spec :
  frames_ok demo_frames ∧
  ∀ b, page_addr b → in_use demo_frames b = negb (b =? 0x22000) && in_use Pmm.demo_pmm b.
Proof.
  destruct (free_frame_spec Pmm.demo_pmm 0x22000 Paging.demo_frames_ok) as (H1 & _ & H2); [| done |].
  - unfold page_addr, PAGE_SIZE, MAX_FRAMES. zlia.
  - split; [exact H1 | exact H2].
Qed.

Lemma demo_heap_view : Kmalloc.heap_view Kmalloc.demo_heap Kmalloc.demo_memory demo_region ∅.
Proof.
  exists [Kmalloc.demo_block]. split_and!; [exact Kmalloc.demo_inv | |].
  - intros a. rewrite Kmalloc.covers_cons, Kmalloc.covers_nil. unfold demo_region. intros [H|[]].
    change (Kmalloc.b_addr Kmalloc.demo_block) with 0x100000 in H.
    change (Kmalloc.b_end Kmalloc.demo_block) with 0x101000 in H. lia.
  - intros p. rewrite Kmalloc.allocated_cons, Kmalloc.allocated_nil. split; [set_solver |]. intros [[H _]|[]]. done.
Qed.

Lemma demo_kernel_queue : queue_inv demo_procs [0x9000] [] ∧ table_ok demo_procs [0x9000] [].
Proof.
  assert (∀ p : Z, p ∈ [0x9000] ++ [] → p = 0x9000) as H by (intros p; set_solver). split; split; try done.
  - apply NoDup_singleton.
  - intros p ->%H. split; [done | by eexists].
  - apply (bool_decide_unpack (NoDup _)). vm_compute. done.
  - intros p Hp. unfold demo_procs. cbn [proc_table app]. rewrite elem_of_cons, elem_of_replicate. set_solver.
  - intros p q ->%H ->%H. done.
  - intros p ->%H. vm_compute. done.
Qed.

(** Any frames and memory in which the heap page is as here and the directory has
    at most one page table, at 0x11000. *)
Lemma plain_kernel_inv (fs : Pmm.pmm) (m : memory) :
  frames_ok fs → in_use fs 0x10000 = true → in_use fs 0x11000 = true → in_use fs 0x100000 = true →
  Kmalloc.heap_view Kmalloc.demo_heap m demo_region ∅ →
  (∀ i, Paging.is_index i → Paging.present m 0x10000 i = true → i = 0 ∧ Paging.table m 0x10000 i = 0x11000) →
  kernel_inv demo_link (with_mem m (with_frames fs demo_kernel)) demo_region ∅ [0x9000] [].
Proof.
  intros Hok U1 U3 U2 Hh He. destruct demo_kernel_queue as [Hq Ht].
  assert (∀ p : Z, p ∈ [0x9000] ++ [] → p = 0x9000) as H by (intros p; set_solver).
  split; cbn [demo_kernel with_mem with_frames k_frames k_mem k_heap k_procs demo_link l_kernel_pd l_idle_pcb].
  - exact Hok.
  - exact Hh.
  - split.
    + split; [unfold Paging.page_base, PAGE_SIZE; zlia | done].
    + intros i Hi Hp. destruct (He i Hi Hp) as [_ ->]. split; [| done]. split; [unfold Paging.page_base, PAGE_SIZE; zlia | done].
    + intros i j Hi Hj [-> _]%He [-> _]%He _; done.
  - intros b a [->|(i & Hi & Hp & ->)]; [unfold in_page, demo_region, PAGE_SIZE; cbn; lia |].
    cbn [demo_link l_kernel_pd] in *. destruct (He i Hi Hp) as [_ ->]. unfold in_page, demo_region, PAGE_SIZE. lia.
  - intros b a Hb Hf Ha. destruct (decide (b = 0x100000)) as [->|Hne]; [congruence |].
    assert (page_addr 0x100000) as Hpa by (unfold page_addr, PAGE_SIZE, MAX_FRAMES; zlia).
    pose proof (page_addr_apart b 0x100000 Hb Hpa Hne). unfold in_page, demo_region, PAGE_SIZE in *. lia.
  - exact Hq.
  - exact Ht.
  - unfold demo_region. lia.
  - intros p. cbn [current_process demo_procs]. rewrite elem_of_cons. intros [->|Hp]; [by left | left; by apply H].
  - intros p b ->%H. done.
  - intros p ->%H. done.
  - intros p q b ->%H ->%H. done.
Qed.

Lemma demo_kernel_inv : kernel_inv demo_link demo_kernel demo_region ∅ [0x9000] [].
Proof.
  destruct demo_frames_spec as [Hok Hu]. apply (plain_kernel_inv demo_frames Kmalloc.demo_memory Hok).
  - by rewrite Hu by (unfold page_addr, PAGE_SIZE, MAX_FRAMES; zlia).
  - by rewrite Hu by (unfold page_addr, PAGE_SIZE, MAX_FRAMES; zlia).
  - by rewrite Hu by (unfold page_addr, PAGE_SIZE, MAX_FRAMES; zlia).
  - exact demo_heap_view.
  - intros i Hi Hp. exfalso. unfold Paging.is_index in Hi. destruct (Kmalloc.write_page_block_spec 0x100000 ∅) as [_ Hag].
    unfold Paging.present in Hp. rewrite (Paging.entry_agree _ _ _ _ _ Hag) in Hp; [discriminate Hp |]. intros b Hb. simpl. lia.
Qed.

(** The same kernel with a zombie child of the idle process at 0x100010: stack
    frames 0x30000 and 0x31000, an empty directory at 0x32000. *)
Definition demo_zombie : process :=
  set_pid 1 (set_state PROCESS_ZOMBIE (set_cr3 0x32000 (set_stack_frame_lo 0x30000 (set_stack_frame_hi 0x31000 zero_pcb)))).
Definition demo_procs2 : procs :=
  Procs (<[0x100010 := demo_zombie]> (pcbs demo_procs)) 2 0x9000 (0x9000 :: 0x100010 :: replicate 14 0) 0x9000 0x9000 1 0x100010.
Definition demo_kernel2 : kernel Pmm.pmm :=
  with_procs demo_procs2 (with_mem Kmalloc.demo_memory2 demo_kernel).

Lemma demo_heap2 :
  Kmalloc.heap_view Kmalloc.demo_heap Kmalloc.demo_memory2 demo_region {[0x100010]} ∧
  agree_on (λ a, ~ demo_region a) Kmalloc.demo_memory Kmalloc.demo_memory2.
Proof.
  assert (Kmalloc.kmalloc 100 Kmalloc.demo_heap Kmalloc.demo_memory = Done (0x100010, Kmalloc.demo_memory2)) as E
    by (vm_compute; done).
  destruct (Kmalloc.view_alloc _ _ _ _ 100 demo_heap_view) as [H|(p & m' & H & _ & _ & _ & _ & Hv & Hag)]; [lia | |].
  - rewrite E in H. discriminate.
  - rewrite E in H. injection H as <- <-. rewrite union_empty_r_L in Hv. exact (conj Hv Hag).
Qed.

Lemma demo_entries2 (b i : Z) :
  0 <= b → b + 4096 <= 0x100000 → Paging.is_index i → Paging.entry Kmalloc.demo_memory2 b i = 0.
Proof.
  intros Hb Hb' Hi. unfold Paging.is_index in Hi. change 0 with (Paging.entry ∅ b i).
  transitivity (Paging.entry Kmalloc.demo_memory b i).
  - eapply Paging.entry_agree; [apply demo_heap2 |]. intros a Ha. unfold demo_region. lia.
  - destruct (Kmalloc.write_page_block_spec 0x100000 ∅) as [_ Hag].
    eapply Paging.entry_agree; [exact Hag |]. intros a Ha. simpl. lia.
Qed.

Lemma demo_kernel2_queue :
  queue_inv demo_procs2 [0x9000] [0x100010] ∧ table_ok demo_procs2 [0x9000] [0x100010].
Proof.
  assert (∀ p : Z, p ∈ [0x9000] ++ [0x100010] → p = 0x9000 ∨ p = 0x100010) as H by (intros p; set_solver).
  split; split; try done.
  - apply (bool_decide_unpack (NoDup _)). vm_compute. done.
  - intros p [->| ->]%H; (split; [done | by eexists]).
  - apply (bool_decide_unpack (NoDup _)). vm_compute. done.
  - intros p Hp. unfold demo_procs2. cbn [proc_table app]. rewrite !elem_of_cons, elem_of_replicate. set_solver.
  - intros p q [->| ->]%H [->| ->]%H; vm_compute; done.
  - intros p [->| ->]%H; vm_compute; done.
Qed.

Lemma demo_kernel2_inv : kernel_inv demo_link demo_kernel2 demo_region {[0x100010]} [0x9000] [0x100010].
Proof.
  destruct demo_frames_spec as [Hok Hu]. destruct demo_kernel2_queue as [Hq Ht]. destruct demo_kernel_inv as [_ _ _ _ I5 _ _ I8 _ _ _ _].
  assert (∀ p : Z, p ∈ [0x9000] ++ [0x100010] → p ≠ 0x9000 → p = 0x100010) as H by (intros p; set_solver).
  assert (∀ b, holds demo_kernel2 0x100010 b ↔ b = 0x30000 ∨ b = 0x31000 ∨ b = 0x32000) as Hh.
  { intros b. unfold holds. change (cr3 (kpcb demo_kernel2 0x100010)) with 0x32000.
    unfold Paging.owned. split; [| naive_solver]. intros [Hb|[Hb|[Hb|(i & Hi & _ & Hp & _)]]]; [auto..|].
    unfold Paging.present in Hp. change (k_mem demo_kernel2) with Kmalloc.demo_memory2 in Hp.
    rewrite demo_entries2, Z.bits_0 in Hp by (done || lia). done. }
  assert (∀ i, Paging.is_index i → Paging.present Kmalloc.demo_memory2 0x10000 i = false) as He.
  { intros i Hi. unfold Paging.present. by rewrite demo_entries2, Z.bits_0 by (done || lia). }
  split; try done.
  - apply demo_heap2.
  - split; change (k_mem demo_kernel2) with Kmalloc.demo_memory2; cbn [demo_link l_kernel_pd].
    + split; [unfold Paging.page_base, PAGE_SIZE; zlia |]. intros Hp.
      change (k_frames demo_kernel2) with demo_frames. rewrite Hu by done. done.
    + intros i Hi. by rewrite He.
    + intros i j Hi _. by rewrite He.
  - intros b a [->|(i & Hi & Hp & _)]; [unfold in_page, demo_region, PAGE_SIZE; cbn; lia |].
    change (k_mem demo_kernel2) with Kmalloc.demo_memory2 in Hp. cbn [demo_link l_kernel_pd] in Hp. by rewrite He in Hp.
  - intros p. change (current_process (k_procs demo_kernel2)) with 0x9000. cbn [demo_link l_idle_pcb]. set_solver.
  - intros p b Hp Hi. rewrite (H p Hp Hi), Hh. change (k_mem demo_kernel2) with Kmalloc.demo_memory2.
    intros Hb. assert (page_addr b) as Hpa by (unfold page_addr, PAGE_SIZE, MAX_FRAMES; destruct Hb as [->|[->| ->]]; zlia).
    split_and!; [done | | |].
    + change (k_frames demo_kernel2) with demo_frames. rewrite Hu by done. by destruct Hb as [->|[->| ->]].
    + unfold kernel_page. cbn [demo_link l_kernel_pd]. intros [->|(i & Hi' & Hp' & _)]; [lia |]. by rewrite He in Hp'.
    + unfold in_page, demo_region, PAGE_SIZE. lia.
  - intros p Hp Hi. rewrite (H p Hp Hi). split; [vm_compute; done |]. intros b Hb Ho.
    assert (b = 0x32000) as ->.
    { destruct Ho as [->|(i & Hi' & _ & Hp' & _)]; [done |]. unfold Paging.present in Hp'.
      change (k_mem demo_kernel2) with Kmalloc.demo_memory2 in Hp'.
      change (cr3 (kpcb demo_kernel2 0x100010)) with 0x32000 in Hp'.
      rewrite demo_entries2, Z.bits_0 in Hp' by (done || lia). done. }
    vm_compute in Hb. by destruct Hb.
  - intros p q b Hp Hq' Hpi Hqi _ _. by rewrite (H p Hp Hpi), (H q Hq' Hqi).
Qed.

End Invariant.
