(* ===== verification/Create.v ===== *)
(** * Creating processes

    [process_create] of [kernel/process.c] keeps the kernel invariant on every
    path, gives back what it took when it fails, and hands over a process that
    [context_switch] can start. *)

From S2P Require Import Prelude Memory Frames Vga Pmm Kmalloc Paging Scheduler Context Elf Process Invariant.

Module Create.
Import Scheduler Process Invariant.

(** ** Creation *)

Section creation.
Context {F : Type} `{!FrameAlloc F}.
Variable lk : link.

(** The PCB [process_create] fills in, before and after it has its stack. *)
Definition ready_pcb (pname : list Z) (prio pd : Z) (s : procs) : process :=
  let pr := if prio =? 0 then 1 else prio in
  Process (next_pid s) (kstrncpy (replicate 32 0) pname 32) PROCESS_READY 0 pd
    (if current_process s =? 0 then 0 else pid (pcb s (current_process s))) pr pr 0 0 0 0 0 0 0
    (replicate 8 (FdEntry 0 0 0)) 0.

Definition stack_pcb (lo hi : Z) (p : process) : process :=
  set_esp (hi + PAGE_SIZE - 40)
    (set_kernel_stack_top (hi + PAGE_SIZE) (set_stack_frame_hi hi (set_stack_frame_lo lo p))).

Lemma init_pcb_eq (pname : list Z) (prio p pd : Z) (s : procs) :
  current_process s ≠ p → pcb s p = set_cr3 pd zero_pcb →
  init_pcb pname prio p s =
    with_next_pid (u32 (next_pid s + 1)) (edit p (λ _, ready_pcb pname prio pd s) s).
Proof.
  intros Hc Hp. unfold init_pcb. cbv zeta. set (s1 := edit p (set_pid (next_pid s)) s).
  change (with_next_pid (u32 (next_pid s1 + 1)) s1)
    with (edit p (set_pid (next_pid s)) (with_next_pid (u32 (next_pid s + 1)) s)). clear s1.
  set (s2 := with_next_pid _ s). change (current_process (edit p (set_pid (next_pid s)) s2)) with (current_process s).
  rewrite pcb_edit_ne by done. rewrite !edit_edit. unfold s2, edit, with_next_pid, with_pcbs. simpl.
  change (pcb (Procs _ _ _ _ _ _ _ _) p) with (pcb s p). rewrite Hp. reflexivity.
Qed.

Lemma init_stack_spec (entry p lo hi : Z) (k : kernel F) :
  page_addr hi → is_u32 entry → is_u32 (l_process_exit lk) →
  ∃ m', init_stack lk entry p lo hi k = with_mem m' (kedit p (stack_pcb lo hi) k) ∧
    Context.stack_at m' (hi + PAGE_SIZE - 40) [0; 0; 0; 0; 0; 0; 0; 0x202; entry; l_process_exit lk] ∧
    agree_outside hi (hi + PAGE_SIZE) (k_mem k) m'.
Proof.
  intros Hhi He Hx. unfold page_addr, MAX_FRAMES, PAGE_SIZE in Hhi.
  destruct (Context.initial_frame_spec (hi + PAGE_SIZE) (l_process_exit lk) entry (k_mem k)) as (H1 & H2 & H3);
    [unfold PAGE_SIZE; lia | done | done |].
  exists (snd (Context.initial_frame (hi + PAGE_SIZE) (l_process_exit lk) entry (k_mem k))).
  split_and!; [| done | eapply agree_outside_weaken; [exact H3 | unfold PAGE_SIZE; lia..]].
  unfold init_stack. cbv zeta. unfold kedit, kpcb. cbn [k_procs with_procs k_mem].
  rewrite pcb_edit_eq, !edit_edit, u32_id by (unfold is_u32, PAGE_SIZE; lia).
  assert (∀ v q, kernel_stack_top (set_kernel_stack_top v q) = v) as -> by (intros v q; by destruct q).
  destruct (Context.initial_frame _ _ _ _) as [sp m']. simpl in H1. subst sp.
  unfold with_mem, with_procs. cbn [k_procs]. rewrite !edit_edit. done.
Qed.

Lemma table_ok_ext (s s' : procs) (l z : list Z) :
  table_ok s l z → proc_table s' = proc_table s → next_pid s <= next_pid s' →
  (∀ q, q ∈ l ++ z → pid (pcb s' q) = pid (pcb s q)) → table_ok s' l z.
Proof.
  intros Ht Htab Hn Hpid. split; rewrite ?Htab; try apply Ht.
  - intros p q Hp Hq. rewrite !Hpid by done. by apply Ht.
  - intros p Hp. rewrite Hpid by done. pose proof (to_bound _ _ _ Ht p Hp). lia.
Qed.

(** PCBs other than [p] keep everything but their links. *)
Definition others_kept (p : Z) (s s' : procs) : Prop :=
  current_process s' = current_process s ∧
  ∀ q, q ≠ p → set_next 0 (pcb s' q) = set_next 0 (pcb s q).

Lemma others_trans (p : Z) (s1 s2 s3 : procs) : others_kept p s1 s2 → others_kept p s2 s3 → others_kept p s1 s3.
Proof. intros [C1 H1] [C2 H2]. split; [congruence |]. intros q Hq. by rewrite H2, H1. Qed.

Lemma others_pid (p q : Z) (s s' : procs) : others_kept p s s' → q ≠ p → pid (pcb s' q) = pid (pcb s q).
Proof.
  intros [_ H] Hq. specialize (H q Hq). destruct (pcb s' q), (pcb s q). simpl in *. by inversion H.
Qed.

Lemma others_resources (p q : Z) (s s' : procs) : others_kept p s s' → q ≠ p → same_resources s s' q.
Proof.
  intros [_ H] Hq. specialize (H q Hq). unfold same_resources.
  destruct (pcb s' q), (pcb s q). simpl in *. by inversion H.
Qed.

(** State in the middle of [process_create]: the PCB [p] is allocated and has the
    fresh directory [pd]. *)
Record half_built (fs0 : F) (k : kernel F) (R : Z → Prop) (live : gset Z) (l z : list Z) (p pd : Z) : Prop := {
  hb_frames : took fs0 (k_frames k) {[pd]};
  hb_heap : Kmalloc.heap_view (k_heap k) (k_mem k) R live;
  hb_live : p ∈ live;
  hb_free b a : page_addr b → in_use fs0 b = false → in_page b a → ~ R a;
  hb_queue : queue_inv (k_procs k) l z;
  hb_table : table_ok (k_procs k) l z;
  hb_new : p ≠ 0 ∧ p ∉ l ++ z ∧ current_process (k_procs k) ≠ p;
  hb_pcb : pcb (k_procs k) p = set_cr3 pd zero_pcb;
  hb_pd i : Paging.is_index i → Paging.IDENTITY_PT_COUNT <= i → Paging.present (k_mem k) pd i = false;
  hb_pid : 0 <= next_pid (k_procs k) < 2 ^ 32 - 1
}.

(** The state after a failure: what was taken is given back. *)
Record undone (fs0 : F) (k k' : kernel F) (R : Z → Prop) (live : gset Z) (l z : list Z) (p : Z) : Prop := {
  un_rest : k' = with_procs (k_procs k') (with_mem (k_mem k') (with_frames (k_frames k') k));
  un_frames : took fs0 (k_frames k') ∅;
  un_heap : Kmalloc.heap_view (k_heap k) (k_mem k') R (live ∖ {[p]});
  un_mem : agree_on (kept R fs0) (k_mem k) (k_mem k');
  un_queue : queue_inv (k_procs k') l z;
  un_table : table_ok (k_procs k') l z;
  un_slots : proc_table (k_procs k') = proc_table (k_procs k);
  un_others : others_kept p (k_procs k) (k_procs k')
}.

(** Giving back the directory and the PCB. *)
Lemma undo_pd (fs0 : F) (k : kernel F) (R : Z → Prop) (live : gset Z) (p pd : Z) :
  took fs0 (k_frames k) {[pd]} → Kmalloc.heap_view (k_heap k) (k_mem k) R live → p ∈ live →
  (∀ i, Paging.is_index i → Paging.IDENTITY_PT_COUNT <= i → Paging.present (k_mem k) pd i = false) →
  ∃ fs' m', k_kfree p (k_free_pd pd k) = Done (with_mem m' (with_frames fs' k)) ∧ took fs0 fs' ∅ ∧
    Kmalloc.heap_view (k_heap k) m' R (live ∖ {[p]}) ∧ agree_on (λ a, ~ R a) (k_mem k) m'.
Proof.
  intros Ht Hh Hp Hpd. destruct (Kmalloc.view_free _ _ _ _ p Hh Hp) as (m' & Hf & Hh' & Hag).
  assert (page_addr pd) as Hpa by (apply Ht; set_solver).
  exists (free_frame pd (k_frames k)), m'. split_and!; [| | done | done].
  - unfold k_kfree, k_free_pd. cbn [k_heap k_mem with_frames]. rewrite Hf. cbn [obind].
    by rewrite Paging.free_pd_empty by (done || by apply page_addr_nonzero).
  - pose proof (took_free _ _ _ pd Ht ltac:(set_solver)) as H. by rewrite difference_diag_L in H.
Qed.

(** The state after success. *)
Record created (fs0 : F) (k k' : kernel F) (R : Z → Prop) (live : gset Z) (l z : list Z) (p pd lo hi : Z)
    (pname : list Z) (entry prio : Z) : Prop := {
  cr_rest : k' = with_procs (k_procs k') (with_mem (k_mem k') (with_frames (k_frames k') k));
  cr_frames : took fs0 (k_frames k') ({[hi]} ∪ ({[lo]} ∪ {[pd]}));
  cr_distinct : lo ≠ pd ∧ hi ≠ pd ∧ hi ≠ lo;
  cr_heap : Kmalloc.heap_view (k_heap k) (k_mem k') R live;
  cr_mem : agree_on (kept R fs0) (k_mem k) (k_mem k');
  cr_pd : agree_outside hi (hi + PAGE_SIZE) (k_mem k) (k_mem k');
  cr_queue : queue_inv (k_procs k') (l ++ [p]) z;
  cr_table : table_ok (k_procs k') (l ++ [p]) z;
  cr_others : others_kept p (k_procs k) (k_procs k');
  cr_pcb : set_next 0 (pcb (k_procs k') p) = stack_pcb lo hi (ready_pcb pname prio pd (k_procs k));
  cr_stack : Context.stack_at (k_mem k') (hi + PAGE_SIZE - 40)
    [0; 0; 0; 0; 0; 0; 0; 0x202; entry; l_process_exit lk]
}.

Section half_built.
Variables (fs0 : F) (k : kernel F) (R : Z → Prop) (live : gset Z) (l z : list Z) (p pd : Z).
Variables (pname : list Z) (entry prio : Z).
Hypothesis Hk : half_built fs0 k R live l z p pd.

Let s1 : procs := init_pcb pname prio p (k_procs k).

Lemma init_done :
  pcb s1 p = ready_pcb pname prio pd (k_procs k) ∧ others_kept p (k_procs k) s1 ∧
  queue_inv s1 l z ∧ table_ok s1 l z ∧ proc_table s1 = proc_table (k_procs k) ∧
  next_pid s1 = next_pid (k_procs k) + 1.
Proof.
  destruct (hb_new _ _ _ _ _ _ _ _ Hk) as (Hp0 & Hpl & Hc). pose proof (hb_pid _ _ _ _ _ _ _ _ Hk) as Hn.
  unfold s1. rewrite (init_pcb_eq pname prio p pd); [| done | apply Hk].
  set (s := with_next_pid _ _).
  assert (others_kept p (k_procs k) s) as Ho.
  { split; [done |]. intros q Hq. unfold s. change (pcb (with_next_pid ?v ?x) q) with (pcb x q). by rewrite pcb_edit_ne. }
  assert (next_pid s = next_pid (k_procs k) + 1) as Hs by (apply u32_id; unfold is_u32; lia).
  split_and!; [| done | | | done | done].
  - unfold s. change (pcb (with_next_pid ?v ?x) p) with (pcb x p). by rewrite pcb_edit_eq.
  - destruct (queue_inv_edit _ l z p (λ _, ready_pcb pname prio pd (k_procs k)) (hb_queue _ _ _ _ _ _ _ _ Hk) Hpl).
    by split.
  - eapply table_ok_ext; [apply Hk | done | lia |]. intros q Hq. apply (others_pid p); [done |]. by intros ->.
Qed.

(** No frames for the stack. *)
Lemma create_no_stack (fs' : F) :
  took fs0 fs' {[pd]} →
  ∃ k', k_kfree p (k_free_pd (cr3 (kpcb (with_frames fs' (with_procs s1 k)) p)) (with_frames fs' (with_procs s1 k))) = Done k' ∧
        undone fs0 k k' R live l z p.
Proof.
  intros Ht. destruct init_done as (Hpcb & Ho & Hq & Htab & Hsl & _).
  unfold kpcb. cbn [k_procs with_procs with_frames]. rewrite Hpcb. change (cr3 (ready_pcb _ _ _ _)) with pd.
  destruct (undo_pd fs0 (with_frames fs' (with_procs s1 k)) R live p pd) as (fs2 & m2 & E & Ht2 & Hh2 & Hag);
    [done | apply Hk | apply Hk | apply Hk |].
  eexists. split; [exact E |]. split; try done.
  eapply agree_on_weaken; [exact Hag |]. by intros a [Ha _].
Qed.

Section stacked.
Variables (fs3 : F) (lo hi : Z).
Hypothesis Hfs : took fs0 fs3 ({[hi]} ∪ ({[lo]} ∪ {[pd]})).
Hypothesis Hne : lo ≠ pd ∧ hi ≠ pd ∧ hi ≠ lo.

Let s3 : procs := scheduler_enqueue p (edit p (stack_pcb lo hi) s1).

Lemma enqueued :
  set_next 0 (pcb s3 p) = stack_pcb lo hi (ready_pcb pname prio pd (k_procs k)) ∧
  others_kept p (k_procs k) s3 ∧ queue_inv s3 (l ++ [p]) z ∧
  proc_table s3 = proc_table (k_procs k) ∧ next_pid s3 = next_pid (k_procs k) + 1.
Proof.
  destruct init_done as (Hpcb & [Hoc Hop] & Hq & Htab & Hsl & Hn). destruct (hb_new _ _ _ _ _ _ _ _ Hk) as (Hp0 & Hpl & Hc).
  pose proof (table_bound _ _ _ Htab Hq) as Hb. rewrite length_app in Hb. unfold MAX_PROCESSES in Hb.
  destruct (enqueue_spec (edit p (stack_pcb lo hi) s1) l z p) as [Hq3 Hl];
    [by apply queue_inv_edit | done | done | lia |]. fold s3 in Hq3, Hl. split_and!.
  - rewrite (lk_pcb _ _ Hl p), !pcb_edit_eq, Hpcb. done.
  - split; [by rewrite (lk_current _ _ Hl) |]. intros q Hqp. by rewrite (lk_pcb _ _ Hl q), !pcb_edit_ne, Hop.
  - done.
  - by rewrite (lk_table _ _ Hl).
  - by rewrite (lk_next_pid _ _ Hl).
Qed.

(** The table has room. *)
Lemma create_added (t : list Z) :
  table_add p (proc_table (k_procs k)) = Some t → table_ok (with_table t s3) (l ++ [p]) z.
Proof.
  intros Hadd. destruct enqueued as (Hpcb & Ho & Hq & Hsl & Hn). destruct (hb_new _ _ _ _ _ _ _ _ Hk) as (Hp0 & Hpl & _).
  pose proof (hb_table _ _ _ _ _ _ _ _ Hk) as Ht.
  assert (p ∉ proc_table (k_procs k)) as Hpt by (by rewrite (to_members _ _ _ Ht)).
  destruct (table_add_spec _ _ _ Hadd Hp0 Hpt) as (A1 & A2 & A3).
  assert (∀ q, q ∈ (l ++ [p]) ++ z ↔ q = p ∨ q ∈ l ++ z) as Hin by set_solver.
  assert (pid (pcb s3 p) = next_pid (k_procs k)) as Hpid.
  { apply (f_equal pid) in Hpcb. by destruct (pcb s3 p). }
  assert (∀ q, q ∈ l ++ z → pid (pcb s3 q) = pid (pcb (k_procs k) q)) as Hoth.
  { intros q Hq'. apply (others_pid p); [done |]. by intros ->. }
  split; cbn [proc_table with_table next_pid].
  - rewrite A1. apply Ht.
  - apply A3, Ht.
  - intros q Hq'. by rewrite A2, Hin, (to_members _ _ _ Ht).
  - change (pcb (with_table t s3)) with (pcb s3). intros q r. rewrite !Hin.
    pose proof (to_bound _ _ _ Ht) as Hb.
    intros [->|Hq'] [->|Hr']; rewrite ?Hpid, ?Hoth by done; [done | | | by apply Ht].
    + intros He. specialize (Hb r Hr'). lia.
    + intros He. specialize (Hb q Hq'). lia.
  - change (pcb (with_table t s3)) with (pcb s3). intros q. rewrite Hin, Hn. pose proof (hb_pid _ _ _ _ _ _ _ _ Hk).
    intros [->|Hq']; [rewrite Hpid; lia |]. rewrite Hoth by done. pose proof (to_bound _ _ _ Ht q Hq'). lia.
Qed.

(** The table is full. *)
Lemma create_full (m' : memory) :
  Kmalloc.heap_view (k_heap k) m' R live → agree_on (kept R fs0) (k_mem k) m' →
  (∀ i, Paging.is_index i → Paging.IDENTITY_PT_COUNT <= i → Paging.present m' pd i = false) →
  ∃ s4 k', scheduler_dequeue p s3 = Done s4 ∧
    (let k := with_procs s4 (with_mem m' (with_frames fs3 k)) in
     let k := k_free_frame (stack_frame_lo (kpcb k p)) k in
     let k := k_free_frame (stack_frame_hi (kpcb k p)) k in
     k_kfree p (k_free_pd (cr3 (kpcb k p)) k)) = Done k' ∧
    undone fs0 k k' R live l z p.
Proof.
  intros Hh Hag Hpd. destruct enqueued as (Hpcb & [Hoc Hop] & Hq & Hsl & Hn).
  destruct (hb_new _ _ _ _ _ _ _ _ Hk) as (Hp0 & Hpl & _).
  destruct (dequeue_spec s3 (l ++ [p]) z p Hq) as (s4 & Hd & Hq4 & Hl4). exists s4.
  rewrite filter_app, filter_all in Hq4 by (intros y Hy ->; set_solver).
  rewrite filter_cons, decide_False, filter_nil, app_nil_r in Hq4 by tauto.
  destruct (links_resources s3 s4 p Hl4) as (E1 & E2 & E3).
  assert (stack_frame_lo (pcb s3 p) = lo ∧ stack_frame_hi (pcb s3 p) = hi ∧ cr3 (pcb s3 p) = pd) as (F1 & F2 & F3).
  { destruct (pcb s3 p). simpl in Hpcb. injection Hpcb as -> -> -> -> -> -> -> -> -> -> -> -> -> -> -> ->. done. }
  unfold kpcb, k_free_frame. cbn [k_procs k_frames with_procs with_frames with_mem]. cbv zeta.
  cbn [k_procs k_frames with_procs with_frames with_mem]. rewrite E1, E2, E3, F1, F2, F3.
  assert (took fs0 (free_frame hi (free_frame lo fs3)) {[pd]}) as Ht.
  { pose proof (took_free _ _ _ lo Hfs ltac:(set_solver)) as T1. pose proof (took_free _ _ _ hi T1 ltac:(set_solver)) as T2.
    by replace (({[hi]} ∪ ({[lo]} ∪ {[pd]})) ∖ {[lo]} ∖ {[hi]} : gset Z) with ({[pd]} : gset Z) in T2 by set_solver. }
  destruct (undo_pd fs0 (with_frames (free_frame hi (free_frame lo fs3))
    (with_procs s4 (with_mem m' (with_frames fs3 k)))) R live p pd) as (fs5 & m5 & E & Ht5 & Hh5 & Hag5);
    [done | done | apply Hk | done |].
  eexists. split; [done |]. split; [exact E |].
  assert (others_kept p (k_procs k) s4) as Ho4.
  { split; [by rewrite (lk_current _ _ Hl4) |]. intros q Hqp. by rewrite (lk_pcb _ _ Hl4 q), Hop. }
  split; try done.
  - intros a Ha. rewrite <- (Hag a Ha). apply Hag5. apply Ha.
  - cbn [k_procs with_mem with_frames with_procs]. eapply table_ok_ext; [apply Hk | | |].
    + by rewrite (lk_table _ _ Hl4).
    + rewrite (lk_next_pid _ _ Hl4), Hn. lia.
    + intros q Hq'. apply (others_pid p); [done |]. by intros ->.
  - cbn [k_procs with_mem with_frames with_procs]. by rewrite (lk_table _ _ Hl4).
Qed.

Lemma create_enqueue_spec :
  is_u32 entry → is_u32 (l_process_exit lk) →
  ∃ r k', create_enqueue lk entry p lo hi (with_frames fs3 (with_procs s1 k)) = Done (r, k') ∧
    ((r = 0 ∧ undone fs0 k k' R live l z p ∧ 0 ∉ proc_table (k_procs k)) ∨
     (r = p ∧ created fs0 k k' R live l z p pd lo hi pname entry prio)).
Proof.
  intros He Hx. pose proof Hfs as (_ & HX & _ & _). destruct (HX hi ltac:(set_solver)) as [Hhi Hfree].
  destruct (HX pd ltac:(set_solver)) as [Hpd _].
  destruct (init_stack_spec entry p lo hi (with_frames fs3 (with_procs s1 k)) Hhi He Hx) as (m' & Hst & Hstack & Hag).
  unfold create_enqueue. rewrite Hst. clear Hst. cbv zeta.
  unfold kedit. cbn [k_procs k_mem with_mem with_procs with_frames] in Hag |- *. fold s3.
  destruct enqueued as (Hpcb & Ho & Hq & Hsl & Hn).
  assert (Kmalloc.heap_view (k_heap k) m' R live) as Hh.
  { eapply Kmalloc.view_frame; [apply Hk |]. eapply agree_on_weaken; [exact Hag |]. intros a Ha.
    destruct (decide (hi <= a < hi + PAGE_SIZE)) as [Hin|]; [| lia].
    by destruct (hb_free _ _ _ _ _ _ _ _ Hk hi a Hhi Hfree Hin). }
  assert (agree_on (kept R fs0) (k_mem k) m') as Hkept.
  { eapply agree_on_weaken; [exact Hag |]. intros a [_ Ha]. specialize (Ha hi Hhi Hfree). unfold in_page in Ha. lia. }
  assert (∀ i, Paging.is_index i → Paging.IDENTITY_PT_COUNT <= i → Paging.present m' pd i = false) as Hpres.
  { intros i Hi Hge. rewrite <- (hb_pd _ _ _ _ _ _ _ _ Hk i Hi Hge). unfold Paging.present. f_equal.
    eapply Paging.entry_agree; [exact Hag |]. pose proof (page_addr_apart pd hi Hpd Hhi ltac:(intros ->; tauto)).
    unfold Paging.is_index, PAGE_SIZE in *. intros b Hb. lia. }
  unfold proc_table_add. rewrite Hsl. destruct (table_add p (proc_table (k_procs k))) as [t|] eqn:Et; cbn [Z.eqb negb].
  - eexists p, _. split; [reflexivity |]. right. split; [done |].
    split; try done; [destruct Hq; by split | by apply create_added].
  - cbn [k_procs with_procs]. destruct (create_full m' Hh Hkept Hpres) as (s4 & k' & -> & E & Hu). cbn [obind].
    exists 0, k'. split; [| left; split_and!; [done | done | by apply table_add_full in Et]].
    etransitivity; [| apply (f_equal (λ o, obind o (λ k, Done (0, k))) E)]. done.
Qed.

End stacked.

End half_built.

Lemma create_with_pd_spec (fs0 : F) (k : kernel F) (R : Z → Prop) (live : gset Z) (l z : list Z) (p pd : Z)
    (pname : list Z) (entry prio : Z) :
  half_built fs0 k R live l z p pd → is_u32 entry → is_u32 (l_process_exit lk) →
  ∃ r k', create_with_pd lk pname entry prio p k = Done (r, k') ∧
    ((r = 0 ∧ undone fs0 k k' R live l z p ∧ (frames_free fs0 < 3 ∨ 0 ∉ proc_table (k_procs k))) ∨
     (r = p ∧ ∃ lo hi, created fs0 k k' R live l z p pd lo hi pname entry prio)).
Proof.
  intros Hk He Hx. unfold create_with_pd. cbv zeta. cbn [k_frames with_procs].
  pose proof (hb_frames _ _ _ _ _ _ _ _ Hk) as T1. pose proof T1 as (_ & _ & Hf1 & _).
  rewrite size_singleton in Hf1. destruct (alloc_frame (k_frames k)) as [lo fs2] eqn:E1.
  destruct (alloc_frame fs2) as [hi fs3] eqn:E2.
  destruct (took_alloc _ _ _ _ _ T1 E1) as [(Hlo & Hlo' & Hlopd & _ & T2)|(-> & -> & H0)].
  2:{ rewrite E1 in E2. injection E2 as <- <-. cbn [Z.eqb orb].
      destruct (create_no_stack fs0 k R live l z p pd pname prio Hk (k_frames k) T1) as (k' & -> & Hu).
      exists 0, k'. split; [done |]. left. split_and!; [done | done | left; lia]. }
  pose proof T2 as (Hok2 & _ & Hf2 & _). rewrite size_union, !size_singleton in Hf2 by set_solver.
  destruct (Z.eqb_spec lo 0); [done |]. cbn [orb].
  destruct (took_alloc _ _ _ _ _ T2 E2) as [(Hhi & Hhi' & Hhipd & _ & T3)|(-> & -> & H0)].
  2:{ cbn [Z.eqb orb]. pose proof (took_free _ _ _ lo T2 ltac:(set_solver)) as T.
      replace (({[lo]} ∪ {[pd]}) ∖ {[lo]} : gset Z) with ({[pd]} : gset Z) in T by set_solver.
      destruct (create_no_stack fs0 k R live l z p pd pname prio Hk _ T) as (k' & E & Hu).
      unfold k_free_frame. cbn [k_frames with_frames]. exists 0, k'. split; [| left; split_and!; [done | done | left; lia]].
      etransitivity; [| apply (f_equal (λ o, obind o (λ k, Done (0, k))) E)]. done. }
  destruct (Z.eqb_spec hi 0); [done |]. cbn [orb].
  destruct (create_enqueue_spec fs0 k R live l z p pd pname entry prio Hk fs3 lo hi T3 ltac:(set_solver) He Hx)
    as (r & k' & E & [(Hr & Hu & Hfull)|[Hr Hc]]); exists r, k'; (split; [exact E |]).
  - left. split_and!; [done | done | by right].
  - right. split; [done |]. by exists lo, hi.
Qed.

Lemma owned_fresh (m : memory) (pd b : Z) :
  (∀ i, Paging.is_index i → Paging.IDENTITY_PT_COUNT <= i → Paging.present m pd i = false) →
  Paging.owned m pd b ↔ b = pd.
Proof.
  intros H. split; [| by left]. intros [Hb|(i & Hi & Hge & Hp & _)]; [done |]. by rewrite H in Hp.
Qed.

(** A process just created joins the invariant. *)
Lemma created_inv (k k1 k' : kernel F) (R : Z → Prop) (live live1 : gset Z) (l z : list Z) (p pd lo hi : Z)
    (pname : list Z) (entry prio : Z) :
  kernel_inv lk k R live l z → half_built (k_frames k) k1 R live1 l z p pd →
  created (k_frames k) k1 k' R live1 l z p pd lo hi pname entry prio →
  k1 = with_procs (k_procs k1) (with_mem (k_mem k1) (with_frames (k_frames k1) k)) →
  others_kept p (k_procs k) (k_procs k1) → live ⊆ live1 → p ≠ l_idle_pcb lk →
  agree_on (kept R (k_frames k)) (k_mem k) (k_mem k1) →
  kernel_inv lk k' R live1 (l ++ [p]) z.
Proof.
  intros Hk Hb Hc Hk1 Ho1 Hlv Hpi Hag1. destruct (hb_new _ _ _ _ _ _ _ _ Hb) as (Hp0 & Hpl & _).
  destruct Hc as [Hrest Ht Hne Hh Hm Hpd Hq Htab [Ho2 Ho2'] Hpcb _]. pose proof Ht as (Hok & HX & _ & _).
  assert (agree_on (kept R (k_frames k)) (k_mem k) (k_mem k')) as Hag.
  { intros a Ha. rewrite (Hm a Ha). by apply Hag1. }
  rewrite Hk1 in Hrest, Hh. rewrite Hrest. cbn [k_heap with_procs with_mem with_frames] in Hh |- *.
  pose proof (inv_step lk k R live l z (k_mem k') Hk (mapping_kept lk k R live l z _ Hk Hag) live1 (k_frames k') Hok (λ b, took_mono _ _ _ b Ht) Hh Hlv) as Hstep.
  assert (stack_frame_lo (pcb (k_procs k') p) = lo ∧ stack_frame_hi (pcb (k_procs k') p) = hi ∧
          cr3 (pcb (k_procs k') p) = pd) as (F1 & F2 & F3).
  { destruct (pcb (k_procs k') p). simpl in Hpcb. injection Hpcb as -> -> -> -> -> -> -> -> -> -> -> -> -> -> -> ->. done. }
  assert (∀ b, Paging.owned (k_mem k') pd b ↔ b = pd) as Hown.
  { intros b. apply owned_fresh. intros i Hi Hge. rewrite <- (hb_pd _ _ _ _ _ _ _ _ Hb i Hi Hge).
    unfold Paging.present. f_equal. eapply Paging.entry_agree; [exact Hpd |].
    pose proof (page_addr_apart pd hi ltac:(apply HX; set_solver) ltac:(apply HX; set_solver) ltac:(intros ->; tauto)).
    unfold Paging.is_index, PAGE_SIZE in *. intros c Hc. lia. }
  apply (inv_add lk (with_mem (k_mem k') (with_frames (k_frames k') k)) R live1 l z p (k_procs k')); try done.
  - intros q Hq'. apply (others_resources p); [| by intros ->]. destruct Ho1 as [Ho1 Ho1'].
    split; [by rewrite Ho2 |]. intros r Hr. by rewrite Ho2', Ho1'.
  - rewrite Ho2. apply Ho1.
  - apply Hb.
  - intros b. unfold holds at 1, kpcb. cbn [k_procs k_mem k_frames with_procs with_mem with_frames]. rewrite F1, F2, F3, Hown.
    intros HbX. assert (b ∈ ({[hi]} ∪ ({[lo]} ∪ {[pd]}) : gset Z)) as Hin by set_solver.
    destruct (HX b Hin) as [Hpa Hfr]. split_and!; [done | by apply (took_in_use _ _ _ _ Ht) | | intros a; by apply (ki_free _ _ _ _ _ _ Hk b) |].
    + rewrite (kernel_page_kept lk k l z _ (mapping_kept lk k R live l z _ Hk Hag)). intros Hkp.
      apply (kernel_page_reserved lk k R live l z Hk) in Hkp as [_ Hu]. rewrite (Hu Hpa) in Hfr. done.
    + intros q Hq' Hqi Hh'. apply (holds_kept lk k l z _ (mapping_kept lk k R live l z _ Hk Hag)) in Hh'; [| done | done].
      destruct (ki_held _ _ _ _ _ _ Hk q b Hq' Hqi Hh') as (_ & Hu & _). congruence.
  - rewrite F1, F2. intuition congruence.
  - intros b. rewrite F1, F2, F3. cbn [k_mem with_mem]. rewrite Hown. intros [->| ->]; tauto.
Qed.

(** So does the state after a failure. *)
Lemma undone_inv (k k1 k' : kernel F) (R : Z → Prop) (live live1 : gset Z) (l z : list Z) (p : Z) :
  kernel_inv lk k R live l z → undone (k_frames k) k1 k' R live1 l z p → p ∉ l ++ z →
  k1 = with_procs (k_procs k1) (with_mem (k_mem k1) (with_frames (k_frames k1) k)) →
  others_kept p (k_procs k) (k_procs k1) → live1 ∖ {[p]} = live →
  agree_on (kept R (k_frames k)) (k_mem k) (k_mem k1) →
  kernel_inv lk k' R live l z.
Proof.
  intros Hk [Hrest Ht Hh Hm Hq Htab _ [Ho2 Ho2']] Hpl Hk1 [Ho1 Ho1'] Hlv Hag1. pose proof Ht as (Hok & _).
  assert (agree_on (kept R (k_frames k)) (k_mem k) (k_mem k')) as Hag.
  { intros a Ha. rewrite (Hm a Ha). by apply Hag1. }
  rewrite Hk1 in Hrest, Hh. rewrite Hrest. cbn [k_heap with_procs with_mem with_frames] in Hh |- *. rewrite Hlv in Hh.
  pose proof (inv_step lk k R live l z (k_mem k') Hk (mapping_kept lk k R live l z _ Hk Hag) live (k_frames k') Hok (λ b, took_mono _ _ _ b Ht) Hh ltac:(done)) as Hstep.
  apply (inv_procs lk _ R live l z l z (k_procs k') Hstep); [done | done | |].
  - intros q Hq'. split; [done |]. apply (others_resources p); [| by intros ->].
    split; [by rewrite Ho2, Ho1 |]. intros r Hr. by rewrite Ho2', Ho1'.
  - cbn [k_procs with_mem with_frames]. rewrite Ho2, Ho1. by left.
Qed.

(** The beginning of [process_create]: a fresh PCB and directory. *)
Lemma create_begins (k : kernel F) (R : Z → Prop) (live : gset Z) (l z : list Z) (p pd : Z) (m1 m2 : memory) (fs' : F) :
  kernel_inv lk k R live l z → 0 <= next_pid (k_procs k) < 2 ^ 32 - 1 →
  p ≠ 0 → p ∉ live → R p → Kmalloc.heap_view (k_heap k) m1 R ({[p]} ∪ live) →
  alloc_frame (k_frames k) = (pd, fs') → page_addr pd →
  (∀ i, Paging.is_index i → Paging.entry m2 pd i =
     if i <? Paging.IDENTITY_PT_COUNT then Paging.entry m1 (l_kernel_pd lk) i else 0) →
  agree_outside pd (pd + PAGE_SIZE) m1 m2 →
  let k1 := kedit p (set_cr3 pd) (with_mem m2 (with_frames fs' (kedit p (λ _, zero_pcb) (with_mem m1 k)))) in
  half_built (k_frames k) k1 R ({[p]} ∪ live) l z p pd ∧ others_kept p (k_procs k) (k_procs k1).
Proof.
  intros Hk Hn Hp0 Hpl HRp Hh Hal Hpd He Hag k1. pose proof (ki_idle _ _ _ _ _ _ Hk) as [_ HRi].
  assert (p ≠ l_idle_pcb lk) as Hpi by (by intros ->).
  assert (p ∉ current_process (k_procs k) :: l ++ z) as Hnew.
  { intros Hin. by destruct (ki_live _ _ _ _ _ _ Hk p Hin). }
  rewrite not_elem_of_cons in Hnew. destruct Hnew as [Hc Hpz].
  destruct (took_alloc _ _ _ _ _ (took_none _ (ki_frames _ _ _ _ _ _ Hk)) Hal)
    as [(_ & _ & _ & Hfree & Ht)|(-> & _)]; [| by apply page_addr_nonzero in Hpd].
  rewrite union_empty_r_L in Ht.
  assert (others_kept p (k_procs k) (k_procs k1)) as Ho.
  { split; [done |]. intros q Hq. unfold k1, kedit. cbn [k_procs with_procs with_mem with_frames]. by rewrite !pcb_edit_ne. }
  split; [| done]. split; unfold k1, kedit; cbn [k_procs k_frames k_mem k_heap with_procs with_mem with_frames].
  - done.
  - eapply Kmalloc.view_frame; [exact Hh |]. eapply agree_on_weaken; [exact Hag |]. intros a Ha.
    destruct (decide (in_page pd a)) as [Hin|Hin]; [| unfold in_page in Hin; lia].
    by destruct (ki_free _ _ _ _ _ _ Hk pd a Hpd Hfree Hin).
  - set_solver.
  - apply Hk.
  - apply queue_inv_edit; [apply queue_inv_edit; [apply Hk | done] | done].
  - eapply table_ok_ext; [apply Hk | done | done |]. intros q Hq.
    apply (others_pid p); [exact Ho | by intros ->].
  - by split_and!.
  - by rewrite !pcb_edit_eq.
  - intros i Hi Hge. unfold Paging.present. rewrite He by done.
    destruct (Z.ltb_spec i Paging.IDENTITY_PT_COUNT); [lia | apply Z.bits_0].
  - done.
Qed.

(** No directory: only the PCB is given back. *)
Lemma create_no_pd (k : kernel F) (R : Z → Prop) (live : gset Z) (l z : list Z) (p : Z) (m1 : memory) :
  kernel_inv lk k R live l z → p ∉ live → R p → Kmalloc.heap_view (k_heap k) m1 R ({[p]} ∪ live) →
  agree_on (λ a, ~ R a) (k_mem k) m1 →
  ∃ k', k_kfree p (kedit p (set_cr3 0) (with_mem m1 (with_frames (k_frames k) (kedit p (λ _, zero_pcb) (with_mem m1 k))))) = Done k' ∧
    kernel_inv lk k' R live l z ∧ k_frames k' = k_frames k ∧ others_kept p (k_procs k) (k_procs k') ∧
    p ∉ current_process (k_procs k) :: l ++ z ∧ agree_on (λ a, ~ R a) (k_mem k) (k_mem k').
Proof.
  intros Hk Hpl HRp Hh Hag. destruct (Kmalloc.view_free _ _ _ _ p Hh ltac:(set_solver)) as (m2 & Hf & Hh2 & Hag2).
  eexists. split; [unfold k_kfree; cbn [k_heap k_mem with_mem with_frames with_procs kedit]; rewrite Hf; reflexivity |].
  replace (({[p]} ∪ live) ∖ {[p]}) with live in Hh2 by set_solver.
  assert (p ∉ current_process (k_procs k) :: l ++ z) as Hpc.
  { intros Hin. pose proof (ki_idle _ _ _ _ _ _ Hk) as [_ HRi]. destruct (ki_live _ _ _ _ _ _ Hk p Hin) as [->|]; done. }
  assert (p ∉ l ++ z) as Hpz by (intros Hin; apply Hpc; by right).
  set (s' := edit p (set_cr3 0) (edit p (λ _, zero_pcb) (k_procs k))).
  assert (∀ q, q ∈ l ++ z → pcb s' q = pcb (k_procs k) q) as Hq.
  { intros q Hq. unfold s'. rewrite !pcb_edit_ne; [done | by intros -> | by intros ->]. }
  split; [| split; [done |]; split; [| split; [exact Hpc |]; by etransitivity]].
  2:{ split; [done |]. intros q Hqp. change (set_next 0 (pcb s' q) = set_next 0 (pcb (k_procs k) q)). unfold s'. by rewrite !pcb_edit_ne. }
  refine (inv_procs lk (with_mem m2 (with_frames (k_frames k) k)) R live l z l z s' _ _ _ _ _).
  - apply (inv_step lk k R live l z m2 Hk); [apply (mapping_kept lk k R live l z _ Hk) | apply Hk | done | done | done].
    intros a [Ha _]. rewrite (Hag2 a Ha). by apply Hag.
  - apply queue_inv_edit; [apply queue_inv_edit; [apply Hk | done] | done].
  - eapply table_ok_ext; [apply Hk | done | done |]. intros q Hin. by rewrite Hq.
  - intros q Hin. split; [done |]. unfold same_resources. cbn [k_procs with_mem with_frames]. by rewrite Hq.
  - by left.
Qed.

(** What the caller learns of a process just created. *)
Lemma created_facts (k k1 k' : kernel F) (R : Z → Prop) (live live1 : gset Z) (l z : list Z) (p pd lo hi : Z)
    (pname : list Z) (entry prio : Z) :
  half_built (k_frames k) k1 R live1 l z p pd →
  created (k_frames k) k1 k' R live1 l z p pd lo hi pname entry prio →
  others_kept p (k_procs k) (k_procs k1) → next_pid (k_procs k1) = next_pid (k_procs k) →
  process_lookup (next_pid (k_procs k)) (k_procs k') = p ∧
  set_next 0 (kpcb k' p) = stack_pcb lo hi (ready_pcb pname prio pd (k_procs k)) ∧
  ∀ i, Paging.is_index i → Paging.entry (k_mem k') pd i = Paging.entry (k_mem k1) pd i.
Proof.
  intros Hb [_ Ht Hne _ _ Hag Hq Htab _ Hpcb _] Ho Hn. destruct (hb_new _ _ _ _ _ _ _ _ Hb) as (_ & _ & Hc).
  assert (ready_pcb pname prio pd (k_procs k1) = ready_pcb pname prio pd (k_procs k)) as Hr.
  { unfold ready_pcb. rewrite Hn. destruct Ho as [Hcur Ho]. rewrite Hcur in Hc |- *.
    by rewrite (others_pid p _ (k_procs k) (k_procs k1)). }
  rewrite Hr in Hpcb. split_and!; [| done |].
  - replace (next_pid (k_procs k)) with (pid (pcb (k_procs k') p)).
    + eapply process_lookup_spec; [exact Htab | done | set_solver].
    + apply (f_equal pid) in Hpcb. by destruct (pcb (k_procs k') p).
  - intros i Hi. eapply Paging.entry_agree; [exact Hag |]. destruct Ht as (_ & HX & _).
    pose proof (page_addr_apart pd hi ltac:(apply HX; set_solver) ltac:(apply HX; set_solver) ltac:(intros ->; tauto)).
    unfold Paging.is_index, PAGE_SIZE in *. intros c Hc'. lia.
Qed.

Lemma fresh_pcb (l : list Z) : ∃ p : Z, p ∉ l.
Proof. exists (fresh l). apply infinite_is_fresh. Qed.

End creation.
(** ** Properties *)

Section properties.
Context {F : Type} `{!FrameAlloc F}.
Variable lk : link.

Lemma process_create_spec (k : kernel F) (R : Z → Prop) (live : gset Z) (l z : list Z)
    (pname : list Z) (entry prio : Z) :
  kernel_inv lk k R live l z → is_u32 entry → is_u32 (l_process_exit lk) →
  0 <= next_pid (k_procs k) < 2 ^ 32 - 1 →
  ∃ r k', process_create lk pname entry prio k = Done (r, k') ∧
    (∃ p, p ∉ current_process (k_procs k) :: l ++ z ∧ others_kept p (k_procs k) (k_procs k') ∧ (r = 0 ∨ r = p)) ∧
    agree_on (kept R (k_frames k)) (k_mem k) (k_mem k') ∧
    ((r = 0 ∧ kernel_inv lk k' R live l z ∧ took (k_frames k) (k_frames k') ∅ ∧
      (Kmalloc.kmalloc sizeof_process (k_heap k) (k_mem k) = Done (0, k_mem k) ∨
       frames_free (k_frames k) < 3 ∨ 0 ∉ proc_table (k_procs k))) ∨
     (r ∉ live ∧ kernel_inv lk k' R ({[r]} ∪ live) (l ++ [r]) z ∧
      process_lookup (next_pid (k_procs k)) (k_procs k') = r ∧
      ∃ pd lo hi, took (k_frames k) (k_frames k') ({[hi]} ∪ ({[lo]} ∪ {[pd]})) ∧
        set_next 0 (kpcb k' r) = stack_pcb lo hi (ready_pcb pname prio pd (k_procs k)) ∧
        Context.stack_at (k_mem k') (hi + PAGE_SIZE - 40)
          [0; 0; 0; 0; 0; 0; 0; 0x202; entry; l_process_exit lk] ∧
        ∀ i, Paging.is_index i → Paging.entry (k_mem k') pd i =
          if i <? Paging.IDENTITY_PT_COUNT then Paging.entry (k_mem k) (l_kernel_pd lk) i else 0)).
Proof.
  intros Hk He Hx Hn. unfold process_create.
  destruct (Kmalloc.view_alloc _ _ _ _ sizeof_process (ki_heap _ _ _ _ _ _ Hk)) as [Hm|(p & m1 & Hm & Hp0 & _ & Hpl & HRp & Hh1 & Hag1)];
    [unfold sizeof_process; lia | |].
  { rewrite Hm. cbn [obind Z.eqb]. exists 0, (with_mem (k_mem k) k). split; [done |].
    replace (with_mem (k_mem k) k) with k by (by destruct k). split.
    { destruct (fresh_pcb (current_process (k_procs k) :: l ++ z)) as [p Hp]. exists p. split_and!; [done | done | by left]. }
    split; [apply agree_on_refl |]. left. split_and!; [done | done | apply took_none, Hk | by left]. }
  rewrite Hm. cbn [obind]. destruct (Z.eqb_spec p 0); [lia |].
  assert (agree_on (kept R (k_frames k)) (k_mem k) m1) as Hkept1.
  { eapply agree_on_weaken; [exact Hag1 |]. by intros a [Ha _]. }
  cbn [k_frames k_mem with_mem kedit with_procs].
  destruct (Paging.create_cases (l_kernel_pd lk) (k_frames k) m1 (ki_frames _ _ _ _ _ _ Hk) (Paging.so_pd (ki_space _ _ _ _ _ _ Hk)))
    as [(pd & fs' & m2 & Hcr & Hal & Hpd & Hfree & Hok' & Hu' & He2 & Hag2)|[Hcr H0]]; rewrite Hcr.
  - destruct (create_begins lk k R live l z p pd m1 m2 fs' Hk Hn n Hpl HRp Hh1 Hal Hpd He2 Hag2) as [Hb Ho].
    set (k1 := kedit p (set_cr3 pd) _) in *.
    assert (agree_on (kept R (k_frames k)) (k_mem k) (k_mem k1)) as Hkept2.
    { intros a Ha. rewrite <- (Hkept1 a Ha). apply Hag2. destruct Ha as [_ Ha]. specialize (Ha pd Hpd Hfree).
      unfold in_page in Ha. lia. }
    unfold kpcb at 1. rewrite (hb_pcb _ _ _ _ _ _ _ _ Hb). change (cr3 (set_cr3 pd zero_pcb)) with pd.
    destruct (Z.eqb_spec pd 0); [by apply page_addr_nonzero in Hpd |].
    destruct (hb_new _ _ _ _ _ _ _ _ Hb) as (_ & Hpz & Hc).
    assert (p ∉ current_process (k_procs k) :: l ++ z) as Hnew.
    { rewrite <- (proj1 Ho). rewrite not_elem_of_cons. split; [by apply not_eq_sym | done]. }
    destruct (create_with_pd_spec lk _ k1 R _ l z p pd pname entry prio Hb He Hx)
      as (r & k' & E & [(-> & Hun & Hwhy)|(-> & lo & hi & Hcd)]).
    + exists 0, k'. split; [exact E |]. split.
      { exists p. split_and!; [done | eapply others_trans; [exact Ho | apply Hun] | by left]. }
      split; [etransitivity; [exact Hkept2 | apply Hun] |]. left. split_and!; [done | | apply Hun | by right].
      eapply (undone_inv lk k k1); [done | exact Hun | done | done | done | set_solver | done].
    + exists p, k'. split; [exact E |]. split.
      { exists p. split_and!; [done | eapply others_trans; [exact Ho | apply Hcd] | by right]. }
      split; [etransitivity; [exact Hkept2 | apply Hcd] |]. right. split; [done |].
      pose proof (created_inv lk k k1 k' R live _ l z p pd lo hi pname entry prio Hk Hb Hcd eq_refl Ho ltac:(set_solver)) as Hinv.
      destruct (created_facts lk k k1 k' R live _ l z p pd lo hi pname entry prio Hb Hcd Ho eq_refl) as (F1 & F2 & F3).
      pose proof (ki_idle _ _ _ _ _ _ Hk) as [_ HRi]. split_and!; [apply Hinv; [by intros -> | done] | done |].
      exists pd, lo, hi. split_and!; [apply Hcd | done | apply Hcd |]. intros i Hi.
      rewrite F3, <- (kernel_pde_kept lk k l z m1 (mapping_kept lk k R live l z _ Hk Hkept1) i Hi) by done. by apply He2.
  - destruct (create_no_pd lk k R live l z p m1 Hk Hpl HRp Hh1 Hag1) as (k' & E & Hinv & Hfs & Hok & Hnew & Hag).
    unfold kpcb, kedit. cbn [k_procs with_procs with_mem with_frames]. rewrite !pcb_edit_eq. cbn [cr3 set_cr3 Z.eqb].
    exists 0, k'. split; [etransitivity; [| apply (f_equal (λ o, obind o (λ k, Done (0, k))) E)]; done |].
    split; [exists p; split_and!; [done | done | by left] |]. split; [eapply agree_on_weaken; [exact Hag |]; by intros a [Ha _] |].
    left. rewrite Hfs. split_and!; [done | done | apply took_none, Hk | right; left; lia].
Qed.

(** C4. [process_create] from a kernel state that satisfies the invariant
    terminates and keeps it on every path.  A failure (no heap block, fewer than
    three free frames, or no slot in the process table) returns NULL and gives
    back every frame and heap block it took.  A success appends the new process
    to the run queue: it has the next PID, is READY with its priority as time
    slice, owns exactly a directory and two stack frames that were free before,
    shares the kernel's identity-mapped entries, and its stack holds the frame
    from which [context_switch] starts it at [entry] with [process_exit] as
    return address; [process_lookup] finds it by its PID.  On every path the PCBs of
    the other processes keep all but their queue link, and memory changes only in
    the heap and in frames that were free. *)
Theorem process_create_correct (k : kernel F) (R : Z → Prop) (live : gset Z) (l z : list Z)
    (pname : list Z) (entry prio : Z) :
  kernel_inv lk k R live l z → is_u32 entry → is_u32 (l_process_exit lk) →
  0 <= next_pid (k_procs k) < 2 ^ 32 - 1 →
  ∃ r k', process_create lk pname entry prio k = Done (r, k') ∧
    (∃ p, p ∉ current_process (k_procs k) :: l ++ z ∧ others_kept p (k_procs k) (k_procs k') ∧ (r = 0 ∨ r = p)) ∧
    agree_on (kept R (k_frames k)) (k_mem k) (k_mem k') ∧
    ((r = 0 ∧ kernel_inv lk k' R live l z ∧ took (k_frames k) (k_frames k') ∅ ∧
      (Kmalloc.kmalloc sizeof_process (k_heap k) (k_mem k) = Done (0, k_mem k) ∨
       frames_free (k_frames k) < 3 ∨ 0 ∉ proc_table (k_procs k))) ∨
     (r ∉ live ∧ kernel_inv lk k' R ({[r]} ∪ live) (l ++ [r]) z ∧
      process_lookup (next_pid (k_procs k)) (k_procs k') = r ∧
      ∃ pd lo hi, took (k_frames k) (k_frames k') ({[hi]} ∪ ({[lo]} ∪ {[pd]})) ∧
        set_next 0 (kpcb k' r) = stack_pcb lo hi (ready_pcb pname prio pd (k_procs k)) ∧
        Context.stack_at (k_mem k') (hi + PAGE_SIZE - 40)
          [0; 0; 0; 0; 0; 0; 0; 0x202; entry; l_process_exit lk] ∧
        ∀ i, Paging.is_index i → Paging.entry (k_mem k') pd i =
          if i <? Paging.IDENTITY_PT_COUNT then Paging.entry (k_mem k) (l_kernel_pd lk) i else 0)).
Proof. exact (process_create_spec k R live l z pname entry prio). Qed.

End properties.

(** ** Witnesses *)

#[local] Existing Instance Pmm.pmm_frames.

Lemma process_create_correct_witness :
  kernel_inv demo_link demo_kernel demo_region ∅ [0x9000] [] ∧
  ∃ r k', process_create demo_link [97; 0] 0x104000 3 demo_kernel = Done (r, k').
Proof.
  split; [exact demo_kernel_inv |].
  destruct (process_create_correct demo_link demo_kernel demo_region ∅ [0x9000] [] [97; 0] 0x104000 3) as (r & k' & E & _);
    [exact demo_kernel_inv | unfold is_u32; lia | unfold is_u32; simpl; lia | simpl; lia |].
  by exists r, k'.
Defined.

End Create.
