(* ===== verification/Reap.v ===== *)
(** * Freeing and reaping processes

    [process_free] and [scheduler_reap_zombies]: which zombies are reaped, and
    that exactly their frames and heap blocks become free. *)

From S2P Require Import Prelude Memory Frames Vga Pmm Kmalloc Paging Scheduler Context Elf Process Invariant Create.

Module Reap.
Import Scheduler Process Invariant Create.

Section freeing.
Context {F : Type} `{!FrameAlloc F}.
Variable lk : link.

(** A process leaves: its frames and its PCB are free again. *)
Lemma inv_remove (k : kernel F) (R : Z → Prop) (live : gset Z) (l z z' : list Z) (p : Z) (fs' : F) (m' : memory) (s' : procs) :
  kernel_inv lk k R live l z → p ∈ l ++ z → p ≠ l_idle_pcb lk →
  Paging.released (holds k p) (k_frames k) fs' →
  Kmalloc.heap_view (k_heap k) m' R (live ∖ {[p]}) → agree_on (λ a, ~ R a) (k_mem k) m' →
  queue_inv s' l z' → table_ok s' l z' →
  (∀ q, q ∈ l ++ z' → q ∈ l ++ z ∧ q ≠ p ∧ same_resources (k_procs k) s' q) →
  current_process s' = current_process (k_procs k) → current_process (k_procs k) ≠ p →
  kernel_inv lk (with_procs s' (with_mem m' (with_frames fs' k))) R (live ∖ {[p]}) l z'.
Proof.
  intros Hk Hp Hpi [Hok Hrel] Hh Hag Hq Ht Hin Hc Hcp.
  assert (agree_on (kept R (k_frames k)) (k_mem k) m') as Hkept.
  { eapply agree_on_weaken; [exact Hag |]. by intros a [Ha _]. }
  set (k' := with_procs s' (with_mem m' (with_frames fs' k))).
  assert (∀ q b, q ∈ l ++ z' → q ≠ l_idle_pcb lk → holds k' q b ↔ holds k q b) as Hhold.
  { intros q b Hq' Hqi. destruct (Hin q Hq') as (Hq0 & _ & E1 & E2 & E3). unfold k', holds, kpcb.
    cbn [k_procs k_mem with_procs with_mem with_frames]. rewrite E1, E2, E3.
    by rewrite (owned_kept lk k l z m' (mapping_kept lk k R live l z _ Hk Hkept) q b). }
  assert (∀ b, Paging.reserved (k_frames k) b → ~ holds k p b → Paging.reserved fs' b) as Hres.
  { intros b [Hb Hu] Hno. split; [done |]. intros Ha. apply Hrel; auto. }
  assert (∀ b, kernel_page lk (k_mem k) b → ~ holds k p b) as Hkp.
  { intros b Hkb Hb. by destruct (ki_held _ _ _ _ _ _ Hk p b Hp Hpi Hb) as (_ & _ & ? & _). }
  split; unfold k'; cbn [k_frames k_mem k_heap k_procs with_procs with_mem with_frames]; try done; try apply Hk.
  - destruct (ki_space _ _ _ _ _ _ Hk) as [S1 S2 S3].
    pose proof (kernel_entry_kept lk k l z m' (mapping_kept lk k R live l z _ Hk Hkept)) as He. split.
    + apply Hres; [done |]. apply Hkp. by left.
    + intros i Hi. destruct (He i Hi) as [-> ->]. intros Hpr. destruct (S2 i Hi Hpr). split; [| done].
      apply Hres; [done |]. apply Hkp. right. by exists i.
    + intros i j Hi Hj. destruct (He i Hi) as [-> ->], (He j Hj) as [-> ->]. by apply S3.
  - intros b a Hb. apply (ki_pd _ _ _ _ _ _ Hk). by apply (kernel_page_kept lk k l z m' (mapping_kept lk k R live l z _ Hk Hkept)).
  - intros b a Hb Hf Ha HR. destruct (in_use (k_frames k) b) eqn:Hu; [| by apply (ki_free _ _ _ _ _ _ Hk b a)].
    assert (~ holds k p b) as Hnb.
    { intros Hhb. destruct (ki_held _ _ _ _ _ _ Hk p b Hp Hpi Hhb) as (_ & _ & _ & HnR). by apply (HnR a). }
    assert (in_use fs' b = true) by (by apply Hrel). congruence.
  - intros q. rewrite Hc. intros Hq'.
    assert (q ∈ current_process (k_procs k) :: l ++ z ∧ q ≠ p) as [H1 H2].
    { apply elem_of_cons in Hq' as [->|Hq']; [split; [by left | done] |]. destruct (Hin q Hq') as (? & ? & _).
      split; [by right | done]. }
    destruct (ki_live _ _ _ _ _ _ Hk q H1); [by left | right; set_solver].
  - intros q b Hq' Hqi Hb. apply Hhold in Hb; [| done | done]. destruct (Hin q Hq') as (Hq0 & Hqp & _).
    destruct (ki_held _ _ _ _ _ _ Hk q b Hq0 Hqi Hb) as (H1 & H2 & H3 & H4). split_and!; [done | | | done].
    + apply Hrel; [done |]. split; [done |]. intros Hb'. apply Hqp. by apply (ki_disjoint _ _ _ _ _ _ Hk q p b).
    + by rewrite (kernel_page_kept lk k l z m' (mapping_kept lk k R live l z _ Hk Hkept)).
  - intros q Hq' Hqi. destruct (Hin q Hq') as (Hq0 & _ & E1 & E2 & E3). unfold kpcb. cbn [k_procs with_procs].
    rewrite E1, E2, E3. destruct (ki_stack _ _ _ _ _ _ Hk q Hq0 Hqi) as [H1 H2]. split; [done |].
    intros b Hb Ho. apply (H2 b Hb). by apply (owned_kept lk k l z m' (mapping_kept lk k R live l z _ Hk Hkept) q b).
  - intros q r b Hq' Hr' Hqi Hri H1 H2. apply Hhold in H1; [| done | done]. apply Hhold in H2; [| done | done].
    apply (ki_disjoint _ _ _ _ _ _ Hk q r b); [by apply Hin | by apply Hin | done..].
Qed.

(** Giving back the frames of a process. *)
Lemma frames_released (k : kernel F) (R : Z → Prop) (live : gset Z) (l z : list Z) (p : Z) :
  kernel_inv lk k R live l z → p ∈ l ++ z → p ≠ l_idle_pcb lk →
  Paging.released (holds k p) (k_frames k)
    (Paging.paging_free_pd (cr3 (kpcb k p))
      (free_frame (stack_frame_hi (kpcb k p)) (free_frame (stack_frame_lo (kpcb k p)) (k_frames k))) (k_mem k)).
Proof.
  intros Hk Hp Hpi. pose proof (λ b, ki_held _ _ _ _ _ _ Hk p b Hp Hpi) as Hh. unfold holds in Hh.
  pose proof (Paging.released_free _ (stack_frame_lo (kpcb k p)) (ki_frames _ _ _ _ _ _ Hk)) as R1.
  specialize (R1 ltac:(apply Hh; auto)).
  pose proof (Paging.released_free _ (stack_frame_hi (kpcb k p)) (proj1 R1) ltac:(apply Hh; auto)) as R2.
  assert (page_addr (cr3 (kpcb k p))) as Hpd by (apply Hh; right; right; by left).
  pose proof (Paging.free_pd_spec (cr3 (kpcb k p)) (k_mem k) _ (proj1 R2) (page_addr_nonzero _ Hpd)
    ltac:(intros b Hb; apply Hh; auto)) as R3.
  eapply Paging.released_ext; [eapply Paging.released_trans; [eapply Paging.released_trans; [exact R1 | exact R2] | exact R3] |].
  intros b. unfold holds. tauto.
Qed.

Lemma table_ok_remove (s s1 : procs) (l z z' : list Z) (p : Z) :
  table_ok s l z → links_only s s1 → p ≠ 0 →
  (∀ q, q ∈ l ++ z' ↔ q ∈ l ++ z ∧ q ≠ p) → table_ok (proc_table_remove p s1) l z'.
Proof.
  intros Ht Hl Hp0 Hin.
  destruct (table_remove_spec p (proc_table s1) Hp0) as (T1 & T2 & T3); [rewrite (lk_table _ _ Hl); apply Ht |].
  assert (∀ q, pid (pcb (proc_table_remove p s1) q) = pid (pcb s q)) as Hpid.
  { intros q. change (pcb (proc_table_remove p s1) q) with (pcb s1 q). pose proof (lk_pcb _ _ Hl q) as H.
    destruct (pcb s1 q), (pcb s q). simpl in *. by inversion H. }
  split; cbn [proc_table proc_table_remove with_table next_pid].
  - rewrite T1, (lk_table _ _ Hl). apply Ht.
  - done.
  - intros q Hq. rewrite T3, Hin, (lk_table _ _ Hl), (to_members _ _ _ Ht) by done. tauto.
  - intros q r Hq Hr. rewrite !Hpid. apply Hin in Hq as [Hq _]. apply Hin in Hr as [Hr _]. by apply Ht.
  - intros q Hq. rewrite Hpid, (lk_next_pid _ _ Hl). apply Hin in Hq as [Hq _]. by apply Ht.
Qed.

(** What freeing and reaping leave of the PCBs and the kernel: everything but
    the lists, the table and the links. *)
Definition same_pcbs (k k' : kernel F) : Prop :=
  k' = with_procs (k_procs k') (with_mem (k_mem k') (with_frames (k_frames k') k)) ∧
  next_pid (k_procs k') = next_pid (k_procs k) ∧ current_process (k_procs k') = current_process (k_procs k) ∧
  ∀ q, set_next 0 (kpcb k' q) = set_next 0 (kpcb k q).

Lemma reap_one (k : kernel F) (R : Z → Prop) (live : gset Z) (l z1 z2 : list Z) (p : Z) :
  kernel_inv lk k R live l (z1 ++ p :: z2) → p ≠ l_idle_pcb lk → current_process (k_procs k) ≠ p →
  ∃ k', process_free p (with_procs (unlink_zombie (default 0 (last z1)) p (k_procs k)) k) = Done k' ∧
    kernel_inv lk k' R (live ∖ {[p]}) l (z1 ++ z2) ∧
    Paging.released (holds k p) (k_frames k) (k_frames k') ∧ same_pcbs k k' ∧
    agree_on (λ a, ~ R a) (k_mem k) (k_mem k').
Proof.
  intros Hk Hpi Hcp. assert (p ∈ l ++ z1 ++ p :: z2) as Hp by set_solver.
  pose proof (ki_queue _ _ _ _ _ _ Hk) as Hq. pose proof (ki_table _ _ _ _ _ _ Hk) as Ht.
  destruct (qi_live Hq p Hp) as [Hp0 _].
  assert (p ∈ live) as Hpl by (destruct (ki_live _ _ _ _ _ _ Hk p ltac:(by right)); done).
  destruct (unlink_zombie_spec _ _ _ _ _ Hq) as [Hq1 Hl1]. set (s1 := unlink_zombie _ _ _) in *.
  destruct (links_resources _ _ p Hl1) as (E1 & E2 & E3).
  destruct (Kmalloc.view_free _ _ _ _ p (ki_heap _ _ _ _ _ _ Hk) Hpl) as (m' & Hf & Hh & Hag).
  unfold process_free. destruct (Z.eqb_spec p 0); [done |]. eexists. split.
  { unfold k_kfree, k_free_pd, k_free_frame, kpcb. cbn [k_heap k_mem k_frames k_procs with_frames with_procs].
    rewrite Hf. cbn [obind]. reflexivity. }
  unfold kpcb. cbn [k_procs with_procs with_frames k_frames k_mem].
  change (pcb (proc_table_remove p s1) p) with (pcb s1 p). rewrite E1, E2, E3.
  pose proof (frames_released k R live l _ p Hk Hp Hpi) as Hrel.
  assert (∀ q, q ∈ l ++ z1 ++ z2 ↔ q ∈ l ++ z1 ++ p :: z2 ∧ q ≠ p) as Hin.
  { pose proof (qi_nodup Hq) as Hnd. rewrite app_assoc in Hnd. apply NoDup_app in Hnd as (_ & Hd & Hc%NoDup_cons).
    intros q. split; [| set_solver]. intros Hq'. split; [set_solver |]. intros ->.
    rewrite app_assoc, elem_of_app in Hq'. destruct Hq' as [Hq'|]; [apply (Hd p Hq'); set_solver | tauto]. }
  split_and!; [| exact Hrel | | done].
  - refine (inv_remove k R live l _ (z1 ++ z2) p _ m' (proc_table_remove p s1) Hk Hp Hpi Hrel Hh Hag _ _ _ _ Hcp).
    + destruct Hq1. by split.
    + by apply (table_ok_remove (k_procs k) s1 l (z1 ++ p :: z2)).
    + intros q Hq'. apply Hin in Hq' as [H1 H2]. split_and!; [done | done |]. exact (links_resources _ _ q Hl1).
    + exact (lk_current _ _ Hl1).
  - split_and!; [done | exact (lk_next_pid _ _ Hl1) | exact (lk_current _ _ Hl1) | exact (lk_pcb _ _ Hl1)].
Qed.

(** A zombie nobody can wait for any more. *)
Definition orphan (k : kernel F) (p : Z) : bool := negb (is_pid_alive (parent_pid (kpcb k p)) (k_procs k)).

Lemma same_pcbs_fields (k k' : kernel F) (q : Z) :
  same_pcbs k k' →
  pid (kpcb k' q) = pid (kpcb k q) ∧ state (kpcb k' q) = state (kpcb k q) ∧
  parent_pid (kpcb k' q) = parent_pid (kpcb k q) ∧ same_resources (k_procs k) (k_procs k') q.
Proof.
  intros (_ & _ & _ & H). specialize (H q). unfold same_resources. fold (kpcb k q) (kpcb k' q).
  destruct (kpcb k' q), (kpcb k q). simpl in *. by inversion H.
Qed.

(** Removing a zombie does not change who is alive. *)
Lemma orphan_same (k k' : kernel F) (R : Z → Prop) (live live' : gset Z) (l z z' : list Z) (p q : Z) :
  kernel_inv lk k R live l z → kernel_inv lk k' R live' l z' → same_pcbs k k' →
  (∀ r, r ∈ l ++ z' → r ∈ l ++ z) → (∀ r, r ∈ l ++ z → r = p ∨ r ∈ l ++ z') → state (kpcb k p) = PROCESS_ZOMBIE →
  orphan k' q = orphan k q.
Proof.
  intros Hk Hk' Hs H1 H2 Hst. unfold orphan. f_equal. apply eq_true_iff_eq.
  destruct (same_pcbs_fields k k' q Hs) as (_ & _ & -> & _).
  rewrite (is_pid_alive_spec _ _ _ _ (ki_table _ _ _ _ _ _ Hk) (ki_queue _ _ _ _ _ _ Hk)),
    (is_pid_alive_spec _ _ _ _ (ki_table _ _ _ _ _ _ Hk') (ki_queue _ _ _ _ _ _ Hk')).
  split; intros [Hid (r & Hr & Hf)]; (split; [done |]); exists r;
    destruct (same_pcbs_fields k k' r Hs) as (F1 & F2 & _); unfold kpcb in *; rewrite F1, F2 in *.
  - auto.
  - destruct (H2 r Hr) as [->|Hr']; [| done]. tauto.
Qed.

Lemma holds_same (k k' : kernel F) (R : Z → Prop) (live : gset Z) (l z : list Z) (q b : Z) :
  kernel_inv lk k R live l z → same_pcbs k k' → agree_on (λ a, ~ R a) (k_mem k) (k_mem k') →
  q ∈ l ++ z → q ≠ l_idle_pcb lk → holds k' q b ↔ holds k q b.
Proof.
  intros Hk Hs Hag Hq Hi. destruct (same_pcbs_fields k k' q Hs) as (_ & _ & _ & E1 & E2 & E3).
  unfold holds. unfold kpcb at 1 2 3. rewrite E1, E2, E3. fold (kpcb k q).
  rewrite (owned_kept lk k l z (k_mem k')); [done | apply (mapping_kept lk k R live l z _ Hk) | done | done].
  eapply agree_on_weaken; [exact Hag |]. by intros a [Ha _].
Qed.

Lemma same_pcbs_trans (k1 k2 k3 : kernel F) : same_pcbs k1 k2 → same_pcbs k2 k3 → same_pcbs k1 k3.
Proof.
  intros (E1 & A1 & A2 & A3) (E2 & B1 & B2 & B3). split_and!.
  - by rewrite E1 in E2.
  - by rewrite B1.
  - by rewrite B2.
  - intros q. by rewrite B3.
Qed.

(** [k'] is [k] after the reaper has gone through [z2], having kept [z1]. *)
Record reaped (k k' : kernel F) (R : Z → Prop) (live : gset Z) (l z1 z2 : list Z) : Prop := {
  re_inv : kernel_inv lk k' R (live ∖ list_to_set (filter (λ p, orphan k p = true) z2)) l
             (z1 ++ filter (λ p, orphan k p = false) z2);
  re_frames : Paging.released (λ b, ∃ p, p ∈ z2 ∧ orphan k p = true ∧ holds k p b) (k_frames k) (k_frames k');
  re_pcbs : same_pcbs k k';
  re_mem : agree_on (λ a, ~ R a) (k_mem k) (k_mem k')
}.

(** The zombies the reaper may meet: neither idle nor running. *)
Definition reapable (k : kernel F) (p : Z) : Prop :=
  p ≠ l_idle_pcb lk ∧ p ≠ current_process (k_procs k) ∧ state (kpcb k p) = PROCESS_ZOMBIE.

Lemma reaped_nil (k : kernel F) (R : Z → Prop) (live : gset Z) (l z1 : list Z) :
  kernel_inv lk k R live l (z1 ++ []) → reaped k k R live l z1 [].
Proof.
  intros Hk. split.
  - by rewrite !filter_nil, list_to_set_nil, difference_empty_L.
  - eapply Paging.released_ext; [apply Paging.released_nothing, Hk |]. set_solver.
  - split_and!; [by destruct k | done..].
  - done.
Qed.

Lemma reaped_orphan (k k1 k' : kernel F) (R : Z → Prop) (live : gset Z) (l z1 z2 : list Z) (p : Z) :
  kernel_inv lk k R live l (z1 ++ p :: z2) → kernel_inv lk k1 R (live ∖ {[p]}) l (z1 ++ z2) →
  Paging.released (holds k p) (k_frames k) (k_frames k1) → same_pcbs k k1 →
  agree_on (λ a, ~ R a) (k_mem k) (k_mem k1) → orphan k p = true → (∀ q, q ∈ p :: z2 → reapable k q) →
  reaped k1 k' R (live ∖ {[p]}) l z1 z2 → reaped k k' R live l z1 (p :: z2).
Proof.
  intros Hk Hk1 Hr1 Hs1 Hag1 Ho Hz [Hk' Hr Hs Hm].
  assert (∀ q, orphan k1 q = orphan k q) as Horph.
  { intros q. apply (orphan_same k k1 R live (live ∖ {[p]}) l (z1 ++ p :: z2) (z1 ++ z2) p q Hk Hk1 Hs1);
      [set_solver | set_solver | apply Hz; set_solver]. }
  split; [| | by eapply same_pcbs_trans | by etransitivity].
  - rewrite !filter_cons, decide_True, decide_False by congruence.
    assert (∀ o, filter (λ q, orphan k1 q = o) z2 = filter (λ q, orphan k q = o) z2) as Hfl.
    { intros o. apply list_filter_iff. intros q. by rewrite Horph. }
    rewrite !Hfl in Hk'. by rewrite list_to_set_cons, <- difference_difference_l_L.
  - eapply Paging.released_ext; [eapply Paging.released_trans; [exact Hr1 | exact Hr] |]. intros b.
    assert (∀ q, q ∈ z2 → holds k1 q b ↔ holds k q b) as Hhs.
    { intros q Hq'. apply (holds_same k k1 R live l (z1 ++ p :: z2)); [done | done | done | set_solver |].
      apply Hz. set_solver. }
    setoid_rewrite elem_of_cons. setoid_rewrite Horph. split.
    + intros [Hb|(q & Hq' & Ho' & Hb)]; [by exists p; auto |]. exists q. rewrite Hhs in Hb by done. auto.
    + intros (q & [->|Hq'] & Ho' & Hb); [by left | right]. exists q. by rewrite Hhs.
Qed.

Lemma reaped_kept (k k' : kernel F) (R : Z → Prop) (live : gset Z) (l z1 z2 : list Z) (p : Z) :
  orphan k p = false → reaped k k' R live l (z1 ++ [p]) z2 → reaped k k' R live l z1 (p :: z2).
Proof.
  intros Ho [Hk' Hr Hs Hm]. split; [| | done | done].
  - rewrite !filter_cons, decide_False, decide_True by congruence. by rewrite <- app_assoc in Hk'.
  - eapply Paging.released_ext; [exact Hr |]. intros b. setoid_rewrite elem_of_cons. split.
    + intros (q & Hq' & Hb). exists q. auto.
    + intros (q & [->|Hq'] & Ho' & Hb); [congruence |]. by exists q.
Qed.

Lemma reap_loop_spec (R : Z → Prop) (l z2 : list Z) (fuel : nat) (k : kernel F) (live : gset Z) (z1 : list Z) :
  (length z2 < fuel)%nat → kernel_inv lk k R live l (z1 ++ z2) → (∀ p, p ∈ z2 → reapable k p) →
  ∃ k', reap_loop fuel (default 0 (last z1)) (default 0 (head z2)) k = Done k' ∧ reaped k k' R live l z1 z2.
Proof.
  revert fuel k live z1. induction z2 as [|p z2 IH]; intros [|fuel] k live z1 Hfuel Hk Hz; try (simpl in Hfuel; lia).
  { exists k. split; [done | by apply reaped_nil]. }
  simpl in Hfuel. assert (p ∈ l ++ z1 ++ p :: z2) as Hp by set_solver. pose proof (ki_queue _ _ _ _ _ _ Hk) as Hq.
  destruct (qi_live Hq p Hp) as [Hp0 _]. destruct (Hz p) as (Hpi & Hpc & Hst); [set_solver |].
  assert (next (kpcb k p) = default 0 (head z2)) as Hnext.
  { pose proof (qi_zombies Hq) as Hc. apply chain_app in Hc as (r & _ & [-> Hc]). exact (chain_head _ _ _ Hc). }
  cbn [reap_loop head from_option id]. destruct (Z.eqb_spec p 0); [done |]. fold (orphan k p). rewrite Hnext.
  destruct (orphan k p) eqn:Ho.
  - destruct (reap_one k R live l z1 z2 p Hk Hpi ltac:(done)) as (k1 & -> & Hk1 & Hr1 & Hs1 & Hag1). cbn [obind].
    destruct (IH fuel k1 (live ∖ {[p]}) z1 ltac:(lia) Hk1) as (k' & E & Hre).
    { intros q Hq'. unfold reapable. destruct (same_pcbs_fields k k1 q Hs1) as (_ & -> & _).
      destruct Hs1 as (_ & _ & -> & _). apply Hz. set_solver. }
    exists k'. split; [exact E |]. by apply (reaped_orphan k k1 k' R live l z1 z2 p).
  - destruct (IH fuel k live (z1 ++ [p]) ltac:(lia)) as (k' & E & Hre).
    { by rewrite <- app_assoc. }
    { intros q Hq'. apply Hz. set_solver. }
    rewrite last_snoc in E. exists k'. split; [exact E | by apply reaped_kept].
Qed.

Lemma reap_zombies_spec (k : kernel F) (R : Z → Prop) (live : gset Z) (l z : list Z) :
  kernel_inv lk k R live l z → (∀ p, p ∈ z → reapable k p) →
  ∃ k', scheduler_reap_zombies k = Done k' ∧ reaped k k' R live l [] z.
Proof.
  intros Hk Hz. pose proof (ki_queue _ _ _ _ _ _ Hk) as Hq. unfold scheduler_reap_zombies.
  rewrite (chain_head _ _ _ (qi_zombies Hq)). apply (reap_loop_spec R l z _ k live []); [| done | done].
  apply chain_fuel_enough.
  - by apply qi_nodup, NoDup_app in Hq as (_ & _ & ?).
  - intros p Hp. apply (qi_live Hq). set_solver.
Qed.

End freeing.

(** ** Properties *)

Section properties.
Context {F : Type} `{!FrameAlloc F}.
Variable lk : link.


End properties.

(** ** Witnesses *)

#[local] Existing Instance Pmm.pmm_frames.


End Reap.
