(* ===== verification/Dispatch.v ===== *)
(** * Dispatching

    [do_switch], [scheduler_yield], [scheduler_tick] and [process_exit] on the
    whole kernel state: who runs next, what the processor and the PCBs hold
    after the switch, and that the kernel invariant is kept. *)

From S2P Require Import Prelude Memory Frames Vga Pmm Kmalloc Paging Scheduler Context Elf Process Invariant Create Reap.

Module Dispatch.
Import Scheduler Process Invariant Create Reap.

Section switching.
Context {F : Type} `{!FrameAlloc F}.
Variable lk : link.

(** Room for the words [context_switch] saves, and a machine state of 32 bits. *)
Definition switchable (k : kernel F) (old nx : Z) : Prop :=
  Context.cpu_ok (k_cpu k) ∧ 44 <= Context.r_esp (k_cpu k) < 2 ^ 32 ∧ is_u32 old ∧ is_u32 nx ∧
  is_u32 (l_do_switch_return lk).

(** The effect of a switch on the PCBs. *)
Definition switched (old nx sp : Z) (s : procs) : procs :=
  let s := if bool_decide (state (pcb s old) = PROCESS_RUNNING) then edit old (set_state PROCESS_READY) s else s in
  let s := edit nx (λ p, set_ticks_remaining (priority p) p) (edit nx (set_state PROCESS_RUNNING) s) in
  edit old (set_esp sp) (with_current nx s).

Lemma with_procs_procs (s s' : procs) (k : kernel F) : with_procs s (with_procs s' k) = with_procs s k.
Proof. done. Qed.

Lemma with_procs_esp0 (s : procs) (e : Z) (k : kernel F) : with_procs s (with_esp0 e k) = with_esp0 e (with_procs s k).
Proof. done. Qed.

Lemma do_switch_spec (k : kernel F) (nx : Z) :
  let old := current_process (k_procs k) in
  old ≠ nx → switchable k old nx →
  ∃ m' c', do_switch lk nx k =
      with_cpu (Context.restore_registers m' c') (with_mem m'
        (with_procs (switched old nx (Context.r_esp (k_cpu k) - 44) (k_procs k))
          (with_esp0 (kernel_stack_top (kpcb k nx)) k))) ∧
    Context.r_esp c' = esp (kpcb k nx) ∧ Context.r_cr3 c' = cr3 (kpcb k nx) ∧
    Context.stack_at m' (Context.r_esp (k_cpu k) - 44)
      (Context.saved_words (k_cpu k) (l_do_switch_return lk) ++ [old; nx]) ∧
    agree_outside (Context.r_esp (k_cpu k) - 44) (Context.r_esp (k_cpu k)) (k_mem k) m'.
Proof.
  intros old Hne (Hc & Hsp & Ho & Hn & Hr). unfold do_switch, process_current. fold old.
  destruct (Z.eqb_spec old nx); [done |]. cbv zeta. unfold kedit, kpcb, tss_set_kernel_stack, process_set_current.
  set (k1 := if bool_decide _ then _ else _).
  assert (k1 = with_procs (if bool_decide (state (pcb (k_procs k) old) = PROCESS_RUNNING)
    then edit old (set_state PROCESS_READY) (k_procs k) else k_procs k) k) as ->.
  { unfold k1. destruct (bool_decide _); [done |]. by destruct k. }
  set (s1 := if bool_decide _ then _ else _).
  assert (pcb s1 nx = pcb (k_procs k) nx) as Hnx.
  { unfold s1. destruct (bool_decide _); [by rewrite pcb_edit_ne | done]. }
  cbn [k_procs k_cpu k_mem with_procs with_esp0]. rewrite edit_edit.
  set (f := λ x, set_ticks_remaining _ _). set (s2 := with_current nx (edit nx f s1)).
  destruct (Context.call_saves old nx (l_do_switch_return lk) (k_cpu k) (k_mem k) s2 Hc Ho Hn Hr Hsp)
    as (Hst & Hag & c' & E1 & E2 & E3).
  assert (pcb (edit old (set_esp (Context.r_esp (k_cpu k) - 44)) s2) nx = f (pcb (k_procs k) nx)) as Hp2.
  { rewrite pcb_edit_ne by done. unfold s2. change (pcb (with_current nx ?x) nx) with (pcb x nx).
    by rewrite pcb_edit_eq, Hnx. }
  rewrite Hp2 in E1, E2. set (m' := Context.push_all _ _ _) in *. clearbody m'. exists m', c'. rewrite E3. split_and!; [| | | exact Hst | exact Hag].
  - rewrite with_procs_procs, with_procs_esp0, with_procs_procs. unfold switched. rewrite pcb_edit_eq, Hnx, edit_edit.
    do 3 f_equal. unfold f. by destruct (pcb (k_procs k) nx).
  - rewrite E1. unfold f. by destruct (pcb (k_procs k) nx).
  - rewrite E2. unfold f. by destruct (pcb (k_procs k) nx).
Qed.

Section switched.
Variables (old nx sp : Z) (s : procs).
Hypothesis Hne : old ≠ nx.

Let parked : process := if bool_decide (state (pcb s old) = PROCESS_RUNNING)
  then set_state PROCESS_READY (pcb s old) else pcb s old.

Lemma switched_old : pcb (switched old nx sp s) old = set_esp sp parked.
Proof.
  unfold switched, parked. cbv zeta. rewrite pcb_edit_eq. change (pcb (with_current nx ?x) old) with (pcb x old).
  rewrite edit_edit, pcb_edit_ne by done. destruct (bool_decide _); [by rewrite pcb_edit_eq | done].
Qed.

Lemma switched_new :
  pcb (switched old nx sp s) nx = set_ticks_remaining (priority (pcb s nx)) (set_state PROCESS_RUNNING (pcb s nx)).
Proof.
  unfold switched. cbv zeta. rewrite pcb_edit_ne by done. change (pcb (with_current nx ?x) nx) with (pcb x nx).
  rewrite edit_edit, pcb_edit_eq.
  assert (∀ p, set_ticks_remaining (priority (set_state PROCESS_RUNNING p)) (set_state PROCESS_RUNNING p) =
    set_ticks_remaining (priority p) (set_state PROCESS_RUNNING p)) as -> by (by intros []).
  destruct (bool_decide _); [by rewrite pcb_edit_ne | done].
Qed.

Lemma switched_other (q : Z) : q ≠ old → q ≠ nx → pcb (switched old nx sp s) q = pcb s q.
Proof.
  intros Hq1 Hq2. unfold switched. cbv zeta. rewrite pcb_edit_ne by done.
  change (pcb (with_current nx ?x) q) with (pcb x q). rewrite !pcb_edit_ne by done.
  destruct (bool_decide _); [by rewrite pcb_edit_ne | done].
Qed.

Lemma switched_queue (l z : list Z) : queue_inv s l z → queue_inv (switched old nx sp s) l z.
Proof.
  intros Hq. unfold switched. cbv zeta. apply queue_inv_edit_data; [| by intros []].
  match goal with |- queue_inv (with_current nx ?x) l z => assert (queue_inv x l z) as Hx; [| by destruct Hx; split] end.
  do 2 (apply queue_inv_edit_data; [| by intros []]).
  destruct (bool_decide _); [apply queue_inv_edit_data; [done | by intros []] | done].
Qed.

Lemma switched_rest :
  current_process (switched old nx sp s) = nx ∧ next_pid (switched old nx sp s) = next_pid s ∧
  proc_table (switched old nx sp s) = proc_table s ∧ queue_size (switched old nx sp s) = queue_size s.
Proof. unfold switched. cbv zeta. by destruct (bool_decide _). Qed.

Lemma switched_data (q : Z) :
  pid (pcb (switched old nx sp s) q) = pid (pcb s q) ∧ priority (pcb (switched old nx sp s) q) = priority (pcb s q) ∧
  same_resources s (switched old nx sp s) q.
Proof.
  unfold same_resources. destruct (decide (q = old)) as [->|]; [| destruct (decide (q = nx)) as [->|]].
  - rewrite switched_old. unfold parked. destruct (bool_decide _); by destruct (pcb s old).
  - rewrite switched_new. by destruct (pcb s nx).
  - by rewrite switched_other.
Qed.

End switched.

(** The stack the switch saves to holds no heap, directory or table. *)
Definition stack_clear (k : kernel F) (R : Z → Prop) (l z : list Z) : Prop :=
  ∀ a, Context.r_esp (k_cpu k) - 44 <= a < Context.r_esp (k_cpu k) → ~ R a ∧ ~ mapping_byte lk k l z a.

(** A process running on its own kernel stack does not disturb them. *)
Lemma own_stack_clear (k : kernel F) (R : Z → Prop) (live : gset Z) (l z : list Z) (p : Z) :
  kernel_inv lk k R live l z → p ∈ l ++ z → p ≠ l_idle_pcb lk →
  stack_frame_hi (kpcb k p) + 44 <= Context.r_esp (k_cpu k) <= stack_frame_hi (kpcb k p) + PAGE_SIZE →
  stack_clear k R l z.
Proof.
  intros Hk Hp Hi Hsp a Ha. set (hi := stack_frame_hi (kpcb k p)) in *.
  assert (holds k p hi) as Hhi by (right; by left).
  destruct (ki_held _ _ _ _ _ _ Hk p hi Hp Hi Hhi) as (Hpa & Hu & Hkp & HR).
  assert (in_page hi a) as Hin by (unfold in_page; lia). split; [by apply HR |].
  assert (∀ b, Paging.page_base b → b ≠ hi → ~ in_page b a) as Hap.
  { intros b Hb Hne Hba. pose proof (Paging.page_base_apart b hi Hb (Paging.page_addr_base hi Hpa) Hne).
    unfold in_page in *. lia. }
  intros [Hpd|(q & b & Hq & Hqi & Hb & Hba)].
  - apply (Hap (l_kernel_pd lk)); [apply (Paging.so_pd (ki_space _ _ _ _ _ _ Hk)) | | done].
    intros Heq. apply Hkp. left. congruence.
  - apply table_page_owned in Hb. assert (holds k q b) as Hqb by (right; by right).
    destruct (ki_held _ _ _ _ _ _ Hk q b Hq Hqi Hqb) as (Hpb & _).
    apply (Hap b); [by apply Paging.page_addr_base | | done]. intros ->.
    assert (q = p) as -> by (by apply (ki_disjoint _ _ _ _ _ _ Hk q p hi)).
    destruct (ki_stack _ _ _ _ _ _ Hk p Hp Hi) as [_ Hst]. apply (Hst hi); [by right | done].
Qed.

(** The invariant across a switch. *)
Lemma inv_switch (k : kernel F) (R : Z → Prop) (live : gset Z) (l z : list Z) (nx : Z) :
  kernel_inv lk k R live l z → nx ∈ l ++ z → current_process (k_procs k) ≠ nx →
  switchable k (current_process (k_procs k)) nx → stack_clear k R l z →
  kernel_inv lk (do_switch lk nx k) R live l z.
Proof.
  intros Hk Hnx Hne Hsw Hcl. destruct (do_switch_spec k nx Hne Hsw) as (m' & c' & -> & _ & _ & _ & Hag).
  set (old := current_process (k_procs k)) in *.
  assert (kernel_inv lk (with_mem m' (with_frames (k_frames k) k)) R live l z) as H1.
  { apply (inv_step lk k R live l z m' Hk); [| apply Hk | done | | done].
    - eapply agree_on_weaken; [exact Hag |]. intros a Ha. specialize (Hcl a). simpl.
      destruct (decide (Context.r_esp (k_cpu k) - 44 <= a < Context.r_esp (k_cpu k))); [by destruct Hcl | lia].
    - eapply Kmalloc.view_frame; [apply Hk |]. eapply agree_on_weaken; [exact Hag |]. intros a Ha. specialize (Hcl a). simpl.
      destruct (decide (Context.r_esp (k_cpu k) - 44 <= a < Context.r_esp (k_cpu k))); [by destruct Hcl | lia]. }
  pose proof (switched_data old nx (Context.r_esp (k_cpu k) - 44) (k_procs k) Hne) as Hd.
  destruct (switched_rest old nx (Context.r_esp (k_cpu k) - 44) (k_procs k)) as (E1 & E2 & E3 & _).
  set (s' := switched old nx _ _) in *.
  assert (kernel_inv lk (with_procs s' (with_mem m' (with_frames (k_frames k) k))) R live l z) as H2.
  { apply (inv_procs lk _ R live l z l z s' H1).
    - apply switched_queue, Hk.
    - eapply table_ok_ext; [apply Hk | done | by rewrite E2 |]. intros q _. apply Hd.
    - intros q Hq. split; [done | apply Hd].
    - rewrite E1. by right. }
  destruct H2. by split.
Qed.

End switching.

(** ** Scheduling states *)

Section dispatch.
Context {F : Type} `{!FrameAlloc F}.
Variable lk : link.

(** Outside the scheduler exactly the current process is RUNNING; the others of
    the run queue are READY or BLOCKED, and idle can always run. *)
Record sched_inv (s : procs) (l z : list Z) : Prop := {
  si_current : current_process s ∈ l;
  si_running : state (pcb s (current_process s)) = PROCESS_RUNNING;
  si_waiting q : q ∈ l → q ≠ current_process s →
    state (pcb s q) = PROCESS_READY ∨ state (pcb s q) = PROCESS_BLOCKED;
  si_zombie q : q ∈ z → state (pcb s q) = PROCESS_ZOMBIE;
  si_idle : l_idle_pcb lk ∈ l ∧ state (pcb s (l_idle_pcb lk)) ≠ PROCESS_BLOCKED
}.

(** The processor can save its registers on the current stack. *)
Definition machine_ok (k : kernel F) (l : list Z) : Prop :=
  Context.cpu_ok (k_cpu k) ∧ 44 <= Context.r_esp (k_cpu k) < 2 ^ 32 ∧ is_u32 (l_do_switch_return lk) ∧
  is_u32 (current_process (k_procs k)) ∧ ∀ p, p ∈ l → is_u32 p.

Lemma table_ok_links (s s' : procs) (l l' z z' : list Z) :
  table_ok s l z → links_only s s' → (∀ q, q ∈ l' ++ z' ↔ q ∈ l ++ z) → table_ok s' l' z'.
Proof.
  intros Ht Hl Hin.
  assert (∀ q, pid (pcb s' q) = pid (pcb s q)) as Hpid.
  { intros q. pose proof (lk_pcb _ _ Hl q) as H. destruct (pcb s' q), (pcb s q). simpl in *. by inversion H. }
  split; rewrite ?(lk_table _ _ Hl), ?(lk_next_pid _ _ Hl); try apply Ht.
  - intros p Hp0. rewrite Hin. by apply Ht.
  - intros p q. rewrite !Hin, !Hpid. apply Ht.
  - intros p. rewrite Hin, Hpid. apply Ht.
Qed.

(** Rotating the queue keeps everything. *)
Lemma inv_rotate (k : kernel F) (R : Z → Prop) (live : gset Z) (l l' z : list Z) (s' : procs) :
  kernel_inv lk k R live l z → queue_inv s' l' z → links_only (k_procs k) s' → l' ≡ₚ l →
  current_process (k_procs k) ∈ l ++ z → kernel_inv lk (with_procs s' k) R live l' z.
Proof.
  intros Hk Hq Hl Hp Hc. apply (inv_procs lk k R live l z l' z s' Hk Hq).
  - eapply table_ok_links; [apply Hk | done |]. intros q. by rewrite Hp.
  - intros q Hin. rewrite Hp in Hin. split; [done | by apply links_resources].
  - rewrite (lk_current _ _ Hl). by right.
Qed.

Lemma stack_clear_links (k : kernel F) (R : Z → Prop) (l l' z z' : list Z) (s' : procs) :
  stack_clear lk k R l z → links_only (k_procs k) s' → (∀ q, q ∈ l' ++ z' ↔ q ∈ l ++ z) →
  stack_clear lk (with_procs s' k) R l' z'.
Proof.
  intros Hcl Hl Hp a Ha. destruct (Hcl a Ha) as [H1 H2]. split; [done |].
  intros [Hm|(p & b & Hin & Hi & Hb & Hba)]; apply H2; [by left | right]. exists p, b. rewrite Hp in Hin.
  destruct (links_resources _ _ p Hl) as (_ & _ & E). unfold kpcb in *. cbn [k_procs k_mem with_procs] in Hb.
  rewrite E in Hb. done.
Qed.

Lemma links_sched (s s' : procs) (l z : list Z) : sched_inv s l z → links_only s s' → sched_inv s' l z.
Proof.
  intros [S1 S2 S3 S4 [S5 S6]] Hl. pose proof (λ q, links_state _ _ q Hl) as E. pose proof (lk_current _ _ Hl) as Ec.
  split; rewrite ?Ec; [done | by rewrite E | intros q; rewrite E; apply S3 | intros q; rewrite E; apply S4 | by rewrite E].
Qed.

Lemma switched_state (old nx sp : Z) (s : procs) (q : Z) :
  old ≠ nx →
  state (pcb (switched old nx sp s) q) =
    if decide (q = nx) then PROCESS_RUNNING
    else if decide (q = old) then
      (if decide (state (pcb s old) = PROCESS_RUNNING) then PROCESS_READY else state (pcb s old))
    else state (pcb s q).
Proof.
  intros Hne. destruct (decide (q = nx)) as [->|]; [rewrite switched_new by done; by destruct (pcb s nx) |].
  destruct (decide (q = old)) as [->|]; [| by rewrite switched_other].
  rewrite switched_old by done. destruct (decide (state (pcb s old) = PROCESS_RUNNING)) as [E|E].
  - rewrite bool_decide_true by done. by destruct (pcb s old).
  - rewrite bool_decide_false by done. by destruct (pcb s old).
Qed.

(** Switching to a READY process, away from the running process or from one that
    has just become a zombie. *)
Lemma switched_sched (s : procs) (l z : list Z) (nx sp : Z) :
  let old := current_process s in
  nx ∈ l → state (pcb s nx) = PROCESS_READY → NoDup (l ++ z) →
  (old ∈ l ∧ state (pcb s old) = PROCESS_RUNNING ∨ old ∈ z) →
  (∀ q, q ∈ l → q ≠ old → state (pcb s q) = PROCESS_READY ∨ state (pcb s q) = PROCESS_BLOCKED) →
  (∀ q, q ∈ z → state (pcb s q) = PROCESS_ZOMBIE) →
  l_idle_pcb lk ∈ l → state (pcb s (l_idle_pcb lk)) ≠ PROCESS_BLOCKED →
  sched_inv (switched old nx sp s) l z.
Proof.
  intros old Hnx Hrd Hnd Hold Hw Hz Hil Hib. apply NoDup_app in Hnd as (_ & Hdis & _).
  assert (old ≠ nx) as Hne by (intros E; destruct Hold as [[_ Ho]|Ho]; [congruence | rewrite E in Ho; by apply (Hdis nx)]).
  destruct (switched_rest old nx sp s) as (E1 & _).
  split; rewrite ?E1; [done | by rewrite switched_state, decide_True | | |].
  - intros q Hq Hqn. rewrite switched_state, decide_False by done. destruct (decide (q = old)) as [->|]; [| by apply Hw].
    left. destruct Hold as [[_ Ho]|Ho]; [by rewrite decide_True | by destruct (Hdis old)].
  - intros q Hq. rewrite switched_state by done. destruct (decide (q = nx)) as [->|]; [by destruct (Hdis nx) |].
    destruct (decide (q = old)) as [->|]; [| by apply Hz]. rewrite decide_False; [by apply Hz |].
    rewrite (Hz old Hq). done.
  - split; [done |]. rewrite switched_state by done. destruct (decide (_ = nx)); [done |].
    destruct (decide (_ = old)) as [E|]; [| done]. rewrite <- E. by destruct (decide _).
Qed.

(** What the processor and the PCBs hold after a switch to [nx]: its stack, its
    directory, a full time slice; the old process can be resumed from the frame
    saved on its stack. *)
Record dispatched (k k' : kernel F) (nx : Z) : Prop := {
  di_current : current_process (k_procs k') = nx;
  di_esp0 : k_esp0 k' = kernel_stack_top (kpcb k nx);
  di_cr3 : Context.r_cr3 (k_cpu k') = cr3 (kpcb k nx);
  di_slice : ticks_remaining (kpcb k' nx) = priority (kpcb k nx);
  di_restored : ∃ c, Context.r_esp c = esp (kpcb k nx) ∧ k_cpu k' = Context.restore_registers (k_mem k') c;
  di_saved : esp (kpcb k' (current_process (k_procs k))) = Context.r_esp (k_cpu k) - 44 ∧
    Context.stack_at (k_mem k') (Context.r_esp (k_cpu k) - 44)
      (Context.saved_words (k_cpu k) (l_do_switch_return lk) ++ [current_process (k_procs k); nx])
}.

Lemma restore_cr3 (m : memory) (c : Context.cpu) : Context.r_cr3 (Context.restore_registers m c) = Context.r_cr3 c.
Proof. done. Qed.

Lemma switch_dispatched (k : kernel F) (nx : Z) :
  current_process (k_procs k) ≠ nx → switchable lk k (current_process (k_procs k)) nx →
  dispatched k (do_switch lk nx k) nx ∧
  k_procs (do_switch lk nx k) =
    switched (current_process (k_procs k)) nx (Context.r_esp (k_cpu k) - 44) (k_procs k).
Proof.
  intros Hne Hsw. destruct (do_switch_spec lk k nx Hne Hsw) as (m' & c' & -> & E1 & E2 & Hst & _).
  split; [| done]. split; unfold kpcb; cbn [k_procs k_cpu k_mem k_esp0 k_frames with_procs with_cpu with_mem with_esp0].
  - apply switched_rest.
  - done.
  - by rewrite restore_cr3.
  - rewrite switched_new by done. by destruct (pcb (k_procs k) nx).
  - by exists c'.
  - split; [| done]. rewrite switched_old by done. by destruct (bool_decide _), (pcb (k_procs k) (current_process (k_procs k))).
Qed.

Lemma switch_frames (k : kernel F) (nx : Z) :
  current_process (k_procs k) ≠ nx → switchable lk k (current_process (k_procs k)) nx →
  k_frames (do_switch lk nx k) = k_frames k.
Proof. intros Hne Hsw. by destruct (do_switch_spec lk k nx Hne Hsw) as (m' & c' & -> & _). Qed.

Lemma switch_exit_code (k : kernel F) (nx q : Z) :
  current_process (k_procs k) ≠ nx → switchable lk k (current_process (k_procs k)) nx →
  exit_code (kpcb (do_switch lk nx k) q) = exit_code (kpcb k q).
Proof.
  intros Hne Hsw. destruct (switch_dispatched k nx Hne Hsw) as [_ E]. unfold kpcb. rewrite E.
  set (old := current_process (k_procs k)) in *. destruct (decide (q = old)) as [->|].
  { rewrite switched_old by done. destruct (bool_decide _); by destruct (pcb (k_procs k) old). }
  destruct (decide (q = nx)) as [->|]; [rewrite switched_new by done; by destruct (pcb (k_procs k) nx) |].
  by rewrite switched_other.
Qed.

(** What the switch uses of a PCB. *)
Definition same_image (p q : process) : Prop :=
  kernel_stack_top q = kernel_stack_top p ∧ cr3 q = cr3 p ∧ priority q = priority p ∧ esp q = esp p.

Lemma dispatched_from (k k1 k' : kernel F) (nx : Z) :
  dispatched k1 k' nx → same_image (kpcb k nx) (kpcb k1 nx) → k_cpu k1 = k_cpu k →
  current_process (k_procs k1) = current_process (k_procs k) → dispatched k k' nx.
Proof.
  intros [D1 D2 D3 D4 D5 D6] (E1 & E2 & E3 & E4) Ec Ep. rewrite Ec, Ep in D6.
  split; [done | congruence | congruence | congruence | | done]. destruct D5 as (c & H1 & H2). exists c. by rewrite H1.
Qed.

Lemma links_image (s s' : procs) (q : Z) : set_next 0 (pcb s' q) = set_next 0 (pcb s q) → same_image (pcb s q) (pcb s' q).
Proof. intros H. unfold same_image. destruct (pcb s' q), (pcb s q). simpl in *. by inversion H. Qed.

Lemma wake_image (p : process) : same_image p (wake p).
Proof. unfold same_image, wake. destruct (_ && _); [| done]. destruct p. simpl. by destruct (_ =? 0). Qed.

(** One dispatch: pick the first READY process, rotate past it, switch. *)
Lemma dispatch_spec (k : kernel F) (R : Z → Prop) (live : gset Z) (l z : list Z) :
  let s := k_procs k in
  let old := current_process s in
  kernel_inv lk k R live l z → machine_ok k l → stack_clear lk k R l z →
  (old ∈ l ∧ state (pcb s old) = PROCESS_RUNNING ∨ old ∈ z) →
  (∀ q, q ∈ l → q ≠ old → state (pcb s q) = PROCESS_READY ∨ state (pcb s q) = PROCESS_BLOCKED) →
  (∀ q, q ∈ z → state (pcb s q) = PROCESS_ZOMBIE) →
  l_idle_pcb lk ∈ l → state (pcb s (l_idle_pcb lk)) ≠ PROCESS_BLOCKED →
  let nx := fst (pick_next s) in
  let k1 := with_procs (snd (pick_next s)) k in
  (∃ l1 l2, l = l1 ++ nx :: l2 ∧ Forall (λ q, ready s q = false) l1 ∧ ready s nx = true ∧ nx ≠ 0 ∧ nx ≠ old ∧
     kernel_inv lk (do_switch lk nx k1) R live (l2 ++ l1 ++ [nx]) z ∧
     sched_inv (k_procs (do_switch lk nx k1)) (l2 ++ l1 ++ [nx]) z ∧ dispatched k (do_switch lk nx k1) nx ∧
     k_frames (do_switch lk nx k1) = k_frames k ∧
     ∀ q, exit_code (kpcb (do_switch lk nx k1) q) = exit_code (kpcb k q)) ∨
  (Forall (λ q, ready s q = false) l ∧ nx = 0 ∧ kernel_inv lk k1 R live l z ∧ links_only s (snd (pick_next s))).
Proof.
  intros s old Hk (M1 & M2 & M3 & M4 & M5) Hcl Hold Hw Hz Hil Hib nx k1. pose proof (ki_queue _ _ _ _ _ _ Hk) as Hq.
  assert (old ∈ l ++ z) as Hin by (rewrite elem_of_app; tauto).
  destruct (pick_next_cases s l z Hq) as [(l1 & p & l2 & El & Hf & Hr & Ep & Hq1 & Hl)|(Hf & Ep & Hq1 & Hl)]; fold nx in Ep.
  2:{ right. split_and!; [done | done | by apply (inv_rotate k R live l) | done]. }
  left. exists l1, l2. subst p. rewrite <- El. assert (nx ∈ l) as Hnx by (rewrite El; apply elem_mid).
  assert (l2 ++ l1 ++ [nx] ≡ₚ l) as Hp.
  { rewrite El, app_assoc, (Permutation_app_comm l2 l1), <- app_assoc. apply Permutation_app_head.
    symmetry. apply Permutation_cons_append. }
  assert (state (pcb s nx) = PROCESS_READY) as Hst by (by apply bool_decide_eq_true in Hr).
  destruct (qi_live Hq nx ltac:(by apply elem_of_app; left)) as [Hnx0 _].
  assert (nx ≠ old) as Hne.
  { intros ->. destruct Hold as [[_ Ho]|Ho]; [congruence |]. rewrite (Hz old Ho) in Hst. done. }
  assert (current_process (k_procs k1) = old) as Ec by exact (lk_current _ _ Hl).
  assert (∀ q, state (pcb (k_procs k1) q) = state (pcb s q)) as Hs by (intros q; by apply links_state).
  assert (switchable lk k1 (current_process (k_procs k1)) nx) as Hsw by (rewrite Ec; exact (conj M1 (conj M2 (conj M4 (conj (M5 nx Hnx) M3))))).
  pose proof (inv_rotate k R live l _ z _ Hk Hq1 Hl Hp Hin) as Hk1. fold k1 in Hk1.
  destruct (switch_dispatched k1 nx ltac:(congruence) Hsw) as [Hd Hpr].
  split_and!; [done | done | done | done | done | | | | |].
  - apply inv_switch; [done | rewrite Hp; apply elem_of_app; by left | congruence | done | eapply stack_clear_links; [done | done |]].
    intros q. by rewrite Hp.
  - rewrite Hpr. apply switched_sched.
    + by rewrite Hp.
    + by rewrite Hs.
    + exact (qi_nodup Hq1).
    + rewrite Ec, Hs, Hp. done.
    + intros q. rewrite Ec, Hs, Hp. apply Hw.
    + intros q. rewrite Hs. apply Hz.
    + by rewrite Hp.
    + by rewrite Hs.
  - apply (dispatched_from k k1); [done | apply links_image, Hl | done | done].
  - rewrite switch_frames; [done | congruence | done].
  - intros q. rewrite switch_exit_code by (done || congruence). pose proof (lk_pcb _ _ Hl q) as H. unfold kpcb, k1.
    cbn [k_procs with_procs]. fold s. destruct (pcb (pick_next s).2 q), (pcb s q). simpl in *. by inversion H.
Qed.

(** ** Changing data of PCBs *)

(** [s'] differs from [s] in PCB fields that neither link, name nor locate. *)
Record data_only (s s' : procs) : Prop := {
  do_rest : s' = with_pcbs (pcbs s') s;
  do_next q : next (pcb s' q) = next (pcb s q);
  do_pid q : pid (pcb s' q) = pid (pcb s q);
  do_res q : same_resources s s' q;
  do_live q : is_Some (pcbs s !! q) → is_Some (pcbs s' !! q)
}.

Lemma data_edit (s : procs) (p : Z) (f : process → process) :
  (∀ x, next (f x) = next x ∧ pid (f x) = pid x ∧ stack_frame_lo (f x) = stack_frame_lo x ∧
        stack_frame_hi (f x) = stack_frame_hi x ∧ cr3 (f x) = cr3 x) → data_only s (edit p f s).
Proof.
  intros Hf. assert (∀ q, pcb (edit p f s) q = if decide (q = p) then f (pcb s q) else pcb s q) as H.
  { intros q. destruct (decide (q = p)) as [->|]; [apply pcb_edit_eq | by apply pcb_edit_ne]. }
  split; [done | | | | intros q; apply live_edit].
  - intros q. rewrite H. destruct (decide (q = p)); [apply Hf | done].
  - intros q. rewrite H. destruct (decide (q = p)); [apply Hf | done].
  - intros q. unfold same_resources. rewrite H. destruct (decide (q = p)); [| done].
    destruct (Hf (pcb s q)) as (_ & _ & ? & ? & ?). done.
Qed.

Lemma data_queue (s s' : procs) (l z : list Z) : data_only s s' → queue_inv s l z → queue_inv s' l z.
Proof.
  intros [E Hn _ _ Hl] Hq. rewrite E in *. split; try apply Hq.
  - eapply chain_ext; [| apply Hq]. auto.
  - eapply chain_ext; [| apply Hq]. auto.
  - intros q Hin. destruct (qi_live Hq q Hin). split; [done | by apply Hl].
Qed.

Lemma inv_data (k : kernel F) (R : Z → Prop) (live : gset Z) (l z : list Z) (s' : procs) :
  kernel_inv lk k R live l z → data_only (k_procs k) s' → current_process (k_procs k) ∈ l ++ z →
  kernel_inv lk (with_procs s' k) R live l z.
Proof.
  intros Hk Hd Hc. pose proof (do_rest _ _ Hd) as E. apply (inv_procs lk k R live l z l z s' Hk).
  - eapply data_queue; [done | apply Hk].
  - eapply table_ok_ext; [apply Hk | by rewrite E | by rewrite E |]. intros q _. apply Hd.
  - intros q Hq. split; [done | apply Hd].
  - rewrite E. by right.
Qed.

Lemma stack_clear_data (k : kernel F) (R : Z → Prop) (l z : list Z) (s' : procs) :
  stack_clear lk k R l z → data_only (k_procs k) s' → stack_clear lk (with_procs s' k) R l z.
Proof.
  intros Hcl Hd a Ha. destruct (Hcl a Ha) as [H1 H2]. split; [done |].
  intros [Hm|(p & b & Hin & Hi & Hb & Hba)]; apply H2; [by left | right]. exists p, b.
  destruct (do_res _ _ Hd p) as (_ & _ & E). unfold kpcb in *. cbn [k_procs k_mem with_procs] in Hb.
  rewrite E in Hb. done.
Qed.

(** ** Leaving *)

(** A process of the run queue becomes a zombie. *)
Lemma mark_inv (k : kernel F) (R : Z → Prop) (live : gset Z) (l z : list Z) (p : Z) (f : process → process) :
  kernel_inv lk k R live l z → p ∈ l → current_process (k_procs k) ∈ l ++ z → data_only (k_procs k) (edit p f (k_procs k)) →
  ∃ s', scheduler_mark_zombie p (edit p f (k_procs k)) = Done s' ∧ links_only (edit p f (k_procs k)) s' ∧
    kernel_inv lk (with_procs s' k) R live (filter (λ x, x ≠ p) l) (p :: z) ∧
    ∀ q, q ∈ filter (λ x, x ≠ p) l ++ p :: z ↔ q ∈ l ++ z.
Proof.
  intros Hk Hin Hc Hd. set (s1 := edit p f (k_procs k)) in *. pose proof (ki_queue _ _ _ _ _ _ Hk) as Hq.
  pose proof (inv_data k R live l z s1 Hk Hd Hc) as Hk1. pose proof (qi_nodup Hq) as (_ & Hdis & _)%NoDup_app.
  destruct (mark_zombie_spec s1 l z p) as (s2 & E & Hq2 & Hl2); [by eapply data_queue | | by apply Hdis | |].
  { apply (qi_live Hq). set_solver. }
  { apply Hd. apply (qi_live Hq). set_solver. }
  assert (∀ q, q ∈ filter (λ x, x ≠ p) l ++ p :: z ↔ q ∈ l ++ z) as Hmem.
  { intros q. rewrite !elem_of_app, elem_of_cons, list_elem_of_filter. destruct (decide (q = p)) as [->|]; tauto. }
  exists s2. split_and!; [done | done | | done].
  apply (inv_procs lk (with_procs s1 k) R live l z _ _ s2 Hk1 Hq2).
  - eapply table_ok_links; [apply Hk1 | done | done].
  - intros q Hq'. rewrite Hmem in Hq'. split; [done | by apply links_resources].
  - rewrite (lk_current _ _ Hl2). by left.
Qed.

(** The state [process_exit] reaches before it yields. *)
Lemma exit_marks (k : kernel F) (R : Z → Prop) (live : gset Z) (l z : list Z) (code : Z) :
  let cur := current_process (k_procs k) in
  kernel_inv lk k R live l z → sched_inv (k_procs k) l z → stack_clear lk k R l z →
  ∃ s', k_mark_zombie cur (kedit cur (set_state PROCESS_ZOMBIE) (kedit cur (set_exit_code code) k)) = Done (with_procs s' k) ∧
    kernel_inv lk (with_procs s' k) R live (filter (λ x, x ≠ cur) l) (cur :: z) ∧
    stack_clear lk (with_procs s' k) R (filter (λ x, x ≠ cur) l) (cur :: z) ∧
    current_process s' = cur ∧ exit_code (pcb s' cur) = code ∧ state (pcb s' cur) = PROCESS_ZOMBIE ∧
    ∀ q, q ≠ cur → state (pcb s' q) = state (pcb (k_procs k) q).
Proof.
  intros cur Hk Hs Hcl. unfold k_mark_zombie, kedit. cbn [k_procs with_procs]. rewrite edit_edit.
  set (f := λ x, set_state PROCESS_ZOMBIE (set_exit_code code x)). pose proof (si_current _ _ _ Hs) as Hin. fold cur in Hin.
  assert (data_only (k_procs k) (edit cur f (k_procs k))) as Hd by (apply data_edit; by intros []).
  destruct (mark_inv k R live l z cur f Hk Hin ltac:(set_solver) Hd) as (s2 & -> & Hl2 & Hk2 & Hmem).
  set (s1 := edit cur f (k_procs k)) in *. exists s2. cbn [obind]. split; [done |].
  pose proof (lk_pcb _ _ Hl2 cur) as Hp. unfold s1 in Hp. rewrite pcb_edit_eq in Hp. split_and!; [done | | | | |].
  - apply (stack_clear_links (with_procs s1 k) R l _ z _ s2); [by apply stack_clear_data | done | done].
  - exact (lk_current _ _ Hl2).
  - apply (f_equal exit_code) in Hp. unfold f in Hp. by destruct (pcb s2 cur), (pcb (k_procs k) cur).
  - apply (f_equal state) in Hp. unfold f in Hp. by destruct (pcb s2 cur), (pcb (k_procs k) cur).
  - intros q Hne. rewrite (links_state _ _ q Hl2). unfold s1. by rewrite pcb_edit_ne.
Qed.

(** A new process: the PCBs of the others keep all but their link, so the scheduling
    states stay, and the new one joins the queue or the zombies with its state. *)
Lemma sched_others (s s' : procs) (l z : list Z) (p : Z) :
  sched_inv s l z → p ∉ current_process s :: l ++ z → others_kept p s s' →
  sched_inv s' l z ∧ (state (pcb s' p) = PROCESS_READY → sched_inv s' (l ++ [p]) z) ∧
  (state (pcb s' p) = PROCESS_ZOMBIE → sched_inv s' l (p :: z)).
Proof.
  intros [S1 S2 S3 S4 [S5 S6]] Hp [Ec Ho].
  assert (∀ q, q ∈ current_process s :: l ++ z → state (pcb s' q) = state (pcb s q)) as Hst.
  { intros q Hq. assert (q ≠ p) as Hqp by (by intros ->). apply Ho in Hqp. apply (f_equal state) in Hqp.
    by destruct (pcb s' q), (pcb s q). }
  assert (∀ q, q ∈ l → q ∈ current_process s :: l ++ z) as Hl by (intros q Hq; right; apply elem_of_app; by left).
  assert (∀ q, q ∈ z → q ∈ current_process s :: l ++ z) as Hz by (intros q Hq; right; apply elem_of_app; by right).
  assert (sched_inv s' l z) as [T1 T2 T3 T4 [T5 T6]].
  { split; rewrite ?Ec; [done | by rewrite Hst by (by left) | | |].
    - intros q Hq Hne. rewrite Hst by auto. by apply S3.
    - intros q Hq. rewrite Hst by auto. by apply S4.
    - split; [done |]. by rewrite Hst by auto. }
  split_and!; [by split | |]; intros Hr; (split; [try (apply elem_of_app; by left); done | done | | | split; [try (apply elem_of_app; by left); done | done]]).
  - intros q [Hq|Hq%list_elem_of_singleton]%elem_of_app Hne; [by apply T3 | left; by rewrite Hq].
  - done.
  - done.
  - intros q [->|Hq]%elem_of_cons; [done | by apply T4].
Qed.

(** ** The tick *)

Lemma wake_data (s s' : procs) (l z : list Z) :
  (∀ q, pcb s' q = if decide (q ∈ l) then wake (pcb s q) else pcb s q) → s' = with_pcbs (pcbs s') s →
  (∀ q, is_Some (pcbs s !! q) → is_Some (pcbs s' !! q)) → data_only s s'.
Proof.
  intros Hp E Hl.
  assert (∀ x, next (wake x) = next x ∧ pid (wake x) = pid x ∧ stack_frame_lo (wake x) = stack_frame_lo x ∧
    stack_frame_hi (wake x) = stack_frame_hi x ∧ cr3 (wake x) = cr3 x) as Hw.
  { intros x. unfold wake. destruct (_ && _); [| done]. destruct x. simpl. by destruct (_ =? 0). }
  split; [done | | | | done].
  - intros q. rewrite Hp. destruct (decide (q ∈ l)); [apply Hw | done].
  - intros q. rewrite Hp. destruct (decide (q ∈ l)); [apply Hw | done].
  - intros q. unfold same_resources. rewrite Hp. destruct (decide (q ∈ l)); [| done].
    destruct (Hw (pcb s q)) as (_ & _ & ? & ? & ?). done.
Qed.

Lemma wake_states (p : process) :
  (state p ≠ PROCESS_BLOCKED → wake p = p) ∧
  (state p = PROCESS_BLOCKED → state (wake p) = PROCESS_READY ∨ state (wake p) = PROCESS_BLOCKED).
Proof.
  unfold wake. split; intros H.
  - by rewrite bool_decide_false.
  - rewrite bool_decide_true by done. destruct (0 <? sleep_ticks p); simpl; [| by right].
    destruct p. simpl in *. destruct (_ =? 0); simpl; auto.
Qed.

(** Waking keeps the scheduling states. *)
Lemma wake_sched (s s' : procs) (l z : list Z) :
  sched_inv s l z → (∀ q, q ∈ l → q ∉ z) → s' = with_pcbs (pcbs s') s →
  (∀ q, pcb s' q = if decide (q ∈ l) then wake (pcb s q) else pcb s q) → sched_inv s' l z.
Proof.
  intros [S1 S2 S3 S4 [S5 S6]] Hdis E Hp.
  assert (current_process s' = current_process s) as Ec by (by rewrite E).
  assert (∀ q, q ∈ l → pcb s' q = wake (pcb s q)) as Hl by (intros q Hq; by rewrite Hp, decide_True).
  split; rewrite ?Ec; [done | | | |].
  - rewrite Hl by done. rewrite (proj1 (wake_states _)); congruence.
  - intros q Hq Hne. rewrite Hl by done. destruct (S3 q Hq Hne) as [H|H].
    + rewrite (proj1 (wake_states _)) by congruence. by left.
    + by apply (proj2 (wake_states _)).
  - intros q Hq. rewrite Hp, decide_False; [by apply S4 | naive_solver].
  - split; [done |]. rewrite Hl by done. by rewrite (proj1 (wake_states _)).
Qed.

(** The same state with another time slice for [p]. *)
Lemma slice_sched (s : procs) (l z : list Z) (p : Z) (f : process → Z) :
  sched_inv s l z → sched_inv (edit p (λ x, set_ticks_remaining (f x) x) s) l z.
Proof.
  intros [S1 S2 S3 S4 [S5 S6]].
  assert (∀ q, state (pcb (edit p (λ x, set_ticks_remaining (f x) x) s) q) = state (pcb s q)) as H.
  { intros q. destruct (decide (q = p)) as [->|]; [rewrite pcb_edit_eq; by destruct (pcb s p) | by rewrite pcb_edit_ne]. }
  split; [done | by rewrite H | intros q; rewrite H; apply S3 | intros q; rewrite H; apply S4 | by rewrite H].
Qed.

Lemma slice_keeps (k : kernel F) (R : Z → Prop) (live : gset Z) (l z : list Z) (p : Z) (f : process → Z) :
  let k1 := kedit p (λ x, set_ticks_remaining (f x) x) k in
  kernel_inv lk k R live l z → sched_inv (k_procs k) l z →
  kernel_inv lk k1 R live l z ∧ sched_inv (k_procs k1) l z ∧ (machine_ok k l → machine_ok k1 l) ∧
  (stack_clear lk k R l z → stack_clear lk k1 R l z) ∧ (∀ q, ready (k_procs k1) q = ready (k_procs k) q) ∧
  (∀ q, same_image (kpcb k q) (kpcb k1 q)) ∧ ticks_remaining (kpcb k1 p) = f (kpcb k p).
Proof.
  intros k1 Hk Hs. set (g := λ x, set_ticks_remaining (f x) x) in *.
  assert (data_only (k_procs k) (edit p g (k_procs k))) as Hd by (apply data_edit; by intros []).
  assert (∀ q, kpcb k1 q = if decide (q = p) then g (kpcb k q) else kpcb k q) as Hp.
  { intros q. unfold kpcb, k1, kedit. cbn [k_procs with_procs].
    destruct (decide (q = p)) as [->|]; [apply pcb_edit_eq | by apply pcb_edit_ne]. }
  split_and!.
  - apply inv_data; [done | done |]. pose proof (si_current _ _ _ Hs). set_solver.
  - by apply slice_sched.
  - done.
  - intros Hcl. by apply stack_clear_data.
  - intros q. unfold ready. fold (kpcb k1 q) (kpcb k q). rewrite Hp. destruct (decide (q = p)); [| done].
    unfold g. by destruct (kpcb k q).
  - intros q. rewrite Hp. destruct (decide (q = p)); [| done]. unfold g. by destruct (kpcb k q).
  - rewrite Hp, decide_True by done. unfold g. by destruct (kpcb k p).
Qed.

(** How the tick ends for a process whose slice is used up. *)
Record preempted (k k' : kernel F) (R : Z → Prop) (live : gset Z) (l z l' : list Z) (rd : Z → bool) : Prop := {
  pr_inv : kernel_inv lk k' R live l' z;
  pr_sched : sched_inv (k_procs k') l' z;
  pr_next : (∃ l1 nx l2, l = l1 ++ nx :: l2 ∧ Forall (λ q, rd q = false) l1 ∧ rd nx = true ∧
               l' = l2 ++ l1 ++ [nx] ∧ dispatched k k' nx) ∨
            (Forall (λ q, rd q = false) l ∧ l' = l ∧ k_cpu k' = k_cpu k ∧
               current_process (k_procs k') = current_process (k_procs k) ∧
               ticks_remaining (kpcb k' (current_process (k_procs k))) = priority (kpcb k (current_process (k_procs k))))
}.

Lemma tick_preempts (k : kernel F) (R : Z → Prop) (live : gset Z) (l z : list Z) :
  let cur := current_process (k_procs k) in
  kernel_inv lk k R live l z → sched_inv (k_procs k) l z → machine_ok k l → stack_clear lk k R l z →
  ticks_remaining (kpcb k cur) = 0 →
  k_frames (tick_accounting lk cur k) = k_frames k ∧
  ∃ l', preempted k (tick_accounting lk cur k) R live l z l' (ready (k_procs k)).
Proof.
  intros cur Hk Hs Hm Hcl Ht. pose proof (ki_queue _ _ _ _ _ _ Hk) as Hq. pose proof Hs as [S1 S2 S3 S4 [S5 S6]].
  unfold tick_accounting. rewrite Ht. cbn [Z.ltb Z.compare Z.eqb andb]. rewrite Ht. cbn [Z.eqb andb].
  assert (0 <? queue_size (k_procs k) = true) as ->.
  { rewrite (qi_size Hq). destruct l; [set_solver |]. apply Z.ltb_lt. simpl. lia. }
  pose proof (dispatch_spec k R live l z Hk Hm Hcl ltac:(left; done) S3 S4 S5 S6) as Hd. cbv zeta in Hd. fold cur in Hd.
  destruct (pick_next (k_procs k)) as [nx s'] eqn:Ep. cbn [fst snd] in Hd.
  destruct Hd as [(l1 & l2 & El & Hf & Hr & Hnx & Hne & Hk' & Hs' & Hd & Hfr & _)|(Hf & -> & Hk' & Hl)].
  - destruct (Z.eqb_spec nx 0); [done |]. destruct (Z.eqb_spec nx cur); [done |]. cbn [negb andb]. split; [done |].
    exists (l2 ++ l1 ++ [nx]). split; [done | done |]. left. by exists l1, nx, l2.
  - cbn [Z.eqb negb andb].
    assert (sched_inv (k_procs (with_procs s' k)) l z) as Hs'.
    { by apply (links_sched (k_procs k)). }
    destruct (slice_keeps (with_procs s' k) R live l z cur priority Hk' Hs') as (K1 & K2 & _ & _ & _ & _ & K3).
    split; [done |]. exists l. split; [done | done |]. right. split_and!; [done | done | done | exact (lk_current _ _ Hl) |].
    destruct (links_image (k_procs k) s' cur (lk_pcb _ _ Hl cur)) as (_ & _ & E & _). exact (eq_trans K3 E).
Qed.

(** Accounting for a process with more than one tick left, or with one or none. *)
Lemma tick_accounting_spec (k : kernel F) (R : Z → Prop) (live : gset Z) (l z : list Z) :
  let cur := current_process (k_procs k) in
  let t := ticks_remaining (kpcb k cur) in
  let k' := tick_accounting lk cur k in
  kernel_inv lk k R live l z → sched_inv (k_procs k) l z → machine_ok k l → stack_clear lk k R l z → 0 <= t →
  k_frames k' = k_frames k ∧
  ((1 < t ∧ kernel_inv lk k' R live l z ∧ sched_inv (k_procs k') l z ∧ k_cpu k' = k_cpu k ∧
     current_process (k_procs k') = cur ∧ ticks_remaining (kpcb k' cur) = t - 1) ∨
   (t <= 1 ∧ ∃ l', preempted k k' R live l z l' (ready (k_procs k)))).
Proof.
  intros cur t k' Hk Hs Hm Hcl Ht.
  destruct (slice_keeps k R live l z cur (λ p, ticks_remaining p - 1) Hk Hs) as (K1 & K2 & K3 & K4 & K5 & K6 & K7).
  set (k1 := kedit cur _ k) in *. destruct (decide (t = 0)) as [H0|H0].
  { destruct (tick_preempts k R live l z Hk Hs Hm Hcl H0) as [Hf Hp]. split; [done |]. right. split; [lia | done]. }
  assert (k' = if (t - 1 =? 0) && (0 <? queue_size (k_procs k)) then tick_accounting lk cur k1 else k1) as ->.
  { change (ticks_remaining (kpcb k1 cur) = t - 1) in K7. unfold k'. unfold tick_accounting at 1. fold t.
    destruct (Z.ltb_spec 0 t); [| lia]. fold k1. rewrite K7. change (queue_size (k_procs k1)) with (queue_size (k_procs k)).
    destruct ((t - 1 =? 0) && _) eqn:Eb; [| done]. apply andb_true_iff in Eb as [E1%Z.eqb_eq E2].
    unfold tick_accounting. rewrite K7, E1. cbn [Z.ltb Z.compare]. rewrite K7, E1.
    change (queue_size (k_procs k1)) with (queue_size (k_procs k)). by rewrite E2. }
  destruct (Z.eqb_spec (t - 1) 0) as [H1|H1]; cbn [andb].
  - assert (0 <? queue_size (k_procs k) = true) as ->.
    { rewrite (qi_size (ki_queue _ _ _ _ _ _ Hk)). pose proof (si_current _ _ _ Hs). destruct l; [set_solver |].
      apply Z.ltb_lt. simpl. lia. }
    destruct (tick_preempts k1 R live l z K1 K2 (K3 Hm) (K4 Hcl)) as [Hf (l' & [P1 P2 P3])]; [exact (eq_trans K7 H1) |].
    split; [done |]. right. split; [lia |]. exists l'. split; [done | done |].
    destruct P3 as [(l1 & nx & l2 & El & Q1 & Q2 & Q3 & Q4)|(Q1 & Q2 & Q3 & Q4 & Q5)]; [left | right].
    + exists l1, nx, l2. split_and!; [done | | by rewrite <- K5 | done | by apply (dispatched_from k k1)].
      eapply Forall_impl; [exact Q1 |]. intros q Hq. rewrite <- K5. exact Hq.
    + split_and!; [| done | done | done |].
      * eapply Forall_impl; [exact Q1 |]. intros q Hq. rewrite <- K5. exact Hq.
      * rewrite <- (proj1 (proj2 (proj2 (K6 (current_process (k_procs k)))))). exact Q5.
  - split; [done |]. left. split_and!; [lia | done | done | done | done | done].
Qed.

(** Reaping keeps the scheduling states and the stack. *)
Lemma reaped_sched (k k' : kernel F) (R : Z → Prop) (live : gset Z) (l z : list Z) :
  kernel_inv lk k R live l z → sched_inv (k_procs k) l z → reaped lk k k' R live l [] z →
  sched_inv (k_procs k') l (filter (λ p, orphan k p = false) z) ∧
  (machine_ok k l → machine_ok k' l) ∧
  (stack_clear lk k R l z → stack_clear lk k' R l (filter (λ p, orphan k p = false) z)).
Proof.
  intros Hk [S1 S2 S3 S4 [S5 S6]] [_ _ Hs Hm]. pose proof Hs as (E & _ & Ec & _).
  assert (∀ q, state (pcb (k_procs k') q) = state (pcb (k_procs k) q)) as Hst.
  { intros q. destruct (same_pcbs_fields k k' q Hs) as (_ & H & _). exact H. }
  assert (k_cpu k' = k_cpu k) as Hcpu by exact (f_equal k_cpu E). split_and!.
  - split; rewrite ?Ec; [done | by rewrite Hst | intros q; rewrite Hst; apply S3 | | by rewrite Hst].
    intros q Hq. rewrite Hst. apply S4. by apply list_elem_of_filter in Hq as [_ Hq].
  - unfold machine_ok. by rewrite Hcpu, Ec.
  - intros Hcl a Ha. rewrite Hcpu in Ha. destruct (Hcl a Ha) as [H1 H2]. split; [done |].
    intros [Hpd|(p & b & Hp & Hi & Hb & Hba)]; apply H2; [by left | right]. exists p, b.
    assert (p ∈ l ++ z) as Hin.
    { rewrite elem_of_app in *. destruct Hp as [?|Hp]; [by left | right]. by apply list_elem_of_filter in Hp as [_ Hp]. }
    split_and!; [done | done | | done]. destruct (same_pcbs_fields k k' p Hs) as (_ & _ & _ & _ & _ & E3).
    unfold kpcb in Hb at 1. rewrite E3 in Hb. apply (table_page_kept lk k l z (k_mem k')); [| done | done | exact Hb].
    apply (mapping_kept lk k R live l z _ Hk). eapply agree_on_weaken; [exact Hm |]. by intros x [Hx _].
Qed.

(** READY once the sleepers have been woken. *)
Definition woken (k : kernel F) (q : Z) : bool := bool_decide (state (wake (kpcb k q)) = PROCESS_READY).

Lemma wake_next (p q : process) : set_next 0 p = set_next 0 q → state (wake p) = state (wake q) ∧ same_image q (wake p).
Proof.
  intros H. unfold wake, same_image. destruct p, q. simpl in *. inversion H; subst. destruct (_ && _); simpl; [| done].
  destruct (_ =? 0); done.
Qed.

Lemma wake_ticks (p : process) : ticks_remaining (wake p) = ticks_remaining p.
Proof. unfold wake. destruct (_ && _); [| done]. destruct p. simpl. by destruct (_ =? 0). Qed.

(** The state the accounting starts from: reaped and woken. *)
Lemma tick_prepared (k : kernel F) (R : Z → Prop) (live : gset Z) (l z : list Z) :
  let z' := filter (λ p, orphan k p = false) z in
  let live' := live ∖ list_to_set (filter (λ p, orphan k p = true) z) in
  kernel_inv lk k R live l z → sched_inv (k_procs k) l z → machine_ok k l → stack_clear lk k R l z →
  ∃ k1 s2, scheduler_reap_zombies k = Done k1 ∧
    wake_loop (walk_fuel (k_procs k1)) (queue_head (k_procs k1)) (k_procs k1) = Done s2 ∧
    let k2 := with_procs s2 k1 in
    kernel_inv lk k2 R live' l z' ∧ sched_inv s2 l z' ∧ machine_ok k2 l ∧ stack_clear lk k2 R l z' ∧
    k_cpu k2 = k_cpu k ∧ current_process s2 = current_process (k_procs k) ∧
    Paging.released (λ b, ∃ p, p ∈ z ∧ orphan k p = true ∧ holds k p b) (k_frames k) (k_frames k2) ∧
    ∀ q, q ∈ l → ready s2 q = woken k q ∧ same_image (kpcb k q) (kpcb k2 q) ∧
                 ticks_remaining (kpcb k2 q) = ticks_remaining (kpcb k q).
Proof.
  intros z' live' Hk Hs Hm Hcl. pose proof (qi_nodup (ki_queue _ _ _ _ _ _ Hk)) as (_ & Hdis & _)%NoDup_app.
  destruct (reap_zombies_spec lk k R live l z Hk) as (k1 & E1 & Hre).
  { intros p Hp. split_and!; [| | by apply Hs].
    - intros ->. apply (Hdis (l_idle_pcb lk)); [apply Hs | done].
    - intros ->. apply (Hdis (current_process (k_procs k))); [apply Hs | done]. }
  pose proof (re_inv _ _ _ _ _ _ _ _ Hre) as Hk1. rewrite app_nil_l in Hk1. pose proof (re_pcbs _ _ _ _ _ _ _ _ Hre) as Hsp.
  destruct (reaped_sched k k1 R live l z Hk Hs Hre) as (Hs1 & Hm1 & Hcl1).
  destruct (wake_spec _ _ _ (ki_queue _ _ _ _ _ _ Hk1)) as (s2 & E2 & Hq2 & Hp2 & Er2 & Hl2).
  pose proof (wake_data (k_procs k1) s2 l z' Hp2 Er2 Hl2) as Hd. exists k1, s2.
  pose proof Hsp as (Ek & _ & Ec & Hnx).
  split; [done |]. split; [done |]. cbv zeta. split_and!.
  - apply inv_data; [done | done |]. rewrite Ec. pose proof (si_current _ _ _ Hs). set_solver.
  - apply (wake_sched (k_procs k1)); [done | | done | done]. intros q Hq Hz. apply (Hdis q Hq).
    by apply list_elem_of_filter in Hz as [_ Hz].
  - unfold machine_ok. cbn [k_procs k_cpu with_procs]. rewrite Er2. by apply Hm1.
  - apply stack_clear_data; [by apply Hcl1 | done].
  - exact (f_equal k_cpu Ek).
  - rewrite Er2. exact Ec.
  - exact (re_frames _ _ _ _ _ _ _ _ Hre).
  - intros q Hq. destruct (wake_next (kpcb k1 q) (kpcb k q) (Hnx q)) as [Hw1 Hw2].
    assert (kpcb (with_procs s2 k1) q = wake (kpcb k1 q)) as Hp.
    { unfold kpcb. cbn [k_procs with_procs]. by rewrite Hp2, decide_True. }
    unfold ready, woken. fold (kpcb (with_procs s2 k1) q). change (pcb s2 q) with (kpcb (with_procs s2 k1) q).
    rewrite Hp, Hw1. split_and!; [done | done |]. rewrite wake_ticks.
    specialize (Hnx q). destruct (kpcb k1 q), (kpcb k q). simpl in *. by inversion Hnx.
Qed.

Lemma yield_spec (k : kernel F) (R : Z → Prop) (live : gset Z) (l z : list Z) :
  let s := k_procs k in
  let old := current_process s in
  let k' := scheduler_yield lk k in
  kernel_inv lk k R live l z → machine_ok k l → stack_clear lk k R l z →
  (old ∈ l ∧ state (pcb s old) = PROCESS_RUNNING ∨ old ∈ z) →
  (∀ q, q ∈ l → q ≠ old → state (pcb s q) = PROCESS_READY ∨ state (pcb s q) = PROCESS_BLOCKED) →
  (∀ q, q ∈ z → state (pcb s q) = PROCESS_ZOMBIE) →
  l_idle_pcb lk ∈ l → state (pcb s (l_idle_pcb lk)) ≠ PROCESS_BLOCKED →
  (∃ l1 nx l2, l = l1 ++ nx :: l2 ∧ Forall (λ q, ready s q = false) l1 ∧ ready s nx = true ∧
     kernel_inv lk k' R live (l2 ++ l1 ++ [nx]) z ∧ sched_inv (k_procs k') (l2 ++ l1 ++ [nx]) z ∧
     dispatched k k' nx ∧ ∀ q, exit_code (kpcb k' q) = exit_code (kpcb k q)) ∨
  (Forall (λ q, ready s q = false) l ∧ kernel_inv lk k' R live l z ∧
     k' = with_procs (k_procs k') k ∧ links_only s (k_procs k')).
Proof.
  intros s old k' Hk Hm Hcl H1 H2 H3 H4 H5.
  pose proof (dispatch_spec k R live l z Hk Hm Hcl H1 H2 H3 H4 H5) as Hd. cbv zeta in Hd. fold s old in Hd.
  unfold k', scheduler_yield, process_current. fold s old.
  destruct (pick_next s) as [nx s'] eqn:Ep. cbn [fst snd] in Hd.
  destruct Hd as [(l1 & l2 & El & Hf & Hr & Hnx & Hne & Hk' & Hs' & Hd & _ & Hx)|(Hf & -> & Hk' & Hl)].
  - left. exists l1, nx, l2. destruct (Z.eqb_spec nx 0); [done |]. destruct (Z.eqb_spec nx old); [done |]. done.
  - right. done.
Qed.

End dispatch.

(** ** Properties *)

Section properties.
Context {F : Type} `{!FrameAlloc F}.
Variable lk : link.

Lemma scheduler_tick_spec (k : kernel F) (R : Z → Prop) (live : gset Z) (l z : list Z) :
  let cur := current_process (k_procs k) in
  let t := ticks_remaining (kpcb k cur) in
  let z' := filter (λ p, orphan k p = false) z in
  let live' := live ∖ list_to_set (filter (λ p, orphan k p = true) z) in
  kernel_inv lk k R live l z → sched_inv lk (k_procs k) l z → machine_ok lk k l → stack_clear lk k R l z → 0 <= t →
  ∃ k', scheduler_tick lk k = Done k' ∧
    Paging.released (λ b, ∃ p, p ∈ z ∧ orphan k p = true ∧ holds k p b) (k_frames k) (k_frames k') ∧
    ((1 < t ∧ kernel_inv lk k' R live' l z' ∧ sched_inv lk (k_procs k') l z' ∧ k_cpu k' = k_cpu k ∧
       current_process (k_procs k') = cur ∧ ticks_remaining (kpcb k' cur) = t - 1) ∨
     (t <= 1 ∧ ∃ l', preempted lk k k' R live' l z' l' (woken k))).
Proof.
  intros cur t z' live' Hk Hs Hm Hcl Ht.
  assert (cur ∈ l) as Hcur by apply Hs. destruct (qi_live (ki_queue _ _ _ _ _ _ Hk) cur) as [Hc0 _]; [apply elem_of_app; by left |].
  destruct (tick_prepared lk k R live l z Hk Hs Hm Hcl) as (k1 & s2 & E1 & E2 & Hk2 & Hs2 & Hm2 & Hcl2 & Ecpu & Ec & Hr & Hq).
  set (k2 := with_procs s2 k1) in *. destruct (Hq cur Hcur) as (_ & Himg & Htk). fold t in Htk.
  assert (scheduler_tick lk k = Done (tick_accounting lk cur k2)) as Et.
  { unfold scheduler_tick, process_current. fold cur. destruct (Z.eqb_spec cur 0); [done |].
    rewrite E1. cbn [obind]. rewrite E2. done. }
  pose proof (tick_accounting_spec lk k2 R live' l z' Hk2 Hs2 Hm2 Hcl2) as Ha. cbv zeta in Ha.
  change (current_process (k_procs k2)) with (current_process s2) in Ha. rewrite Ec in Ha. fold cur in Ha.
  destruct (Ha ltac:(lia)) as [Hf Hcase]. rewrite Htk in Hcase.
  exists (tick_accounting lk cur k2). split; [done |]. split; [by rewrite Hf |].
  destruct Hcase as [(H1 & H2 & H3 & H4 & H5 & H6)|(H1 & l' & [P1 P2 P3])]; [left | right].
  { split_and!; [done | done | done | congruence | done | done]. }
  split; [done |]. exists l'. split; [done | done |]. change (current_process (k_procs k2)) with (current_process s2) in P3.
  rewrite Ec in P3. destruct P3 as [(l1 & nx & l2 & El & Q1 & Q2 & Q3 & Q4)|(Q1 & Q2 & Q3 & Q4 & Q5)]; [left | right].
  - assert (nx ∈ l) as Hnx by (rewrite El; apply elem_mid). exists l1, nx, l2. destruct (Hq nx Hnx) as (R1 & R2 & _).
    split_and!; [done | | by rewrite <- R1 | done | by apply (dispatched_from lk k k2)].
    rewrite Forall_forall in *. intros q Hin. destruct (Hq q) as (R3 & _); [rewrite El; apply elem_of_app; by left |].
    rewrite <- R3. by apply Q1.
  - split_and!; [| done | congruence | done |].
    + rewrite Forall_forall in *. intros q Hin. destruct (Hq q Hin) as (R3 & _). rewrite <- R3. by apply Q1.
    + destruct Himg as (_ & _ & E & _). by rewrite Q5.
Qed.


Lemma scheduler_yield_spec (k : kernel F) (R : Z → Prop) (live : gset Z) (l z : list Z) :
  let k' := scheduler_yield lk k in
  kernel_inv lk k R live l z → sched_inv lk (k_procs k) l z → machine_ok lk k l → stack_clear lk k R l z →
  (∃ l1 nx l2, l = l1 ++ nx :: l2 ∧ Forall (λ q, ready (k_procs k) q = false) l1 ∧ ready (k_procs k) nx = true ∧
     kernel_inv lk k' R live (l2 ++ l1 ++ [nx]) z ∧ sched_inv lk (k_procs k') (l2 ++ l1 ++ [nx]) z ∧
     dispatched lk k k' nx) ∨
  (Forall (λ q, ready (k_procs k) q = false) l ∧ kernel_inv lk k' R live l z ∧ sched_inv lk (k_procs k') l z ∧
     k_cpu k' = k_cpu k ∧ k_mem k' = k_mem k ∧ current_process (k_procs k') = current_process (k_procs k)).
Proof.
  intros k' Hk Hs Hm Hcl. destruct (yield_spec lk k R live l z Hk Hm Hcl) as
    [(l1 & nx & l2 & H1 & H2 & H3 & H4 & H5 & H6 & _)|(H1 & H2 & H3 & H4)]; try apply Hs; [left; split; apply Hs | left | right].
  - by exists l1, nx, l2.
  - fold k' in H2. pose proof (lk_current _ _ H4) as Ec.
    split_and!; [done | done | by apply (links_sched lk (k_procs k)) | exact (f_equal k_cpu H3) | exact (f_equal k_mem H3) | done].
Qed.

(** C8. [scheduler_yield] keeps the kernel invariant and the scheduling states.  It
    dispatches the first READY process of the queue and rotates the queue just
    past it: the processor then has that process's stack, directory and TSS
    stack, the process has a full slice, and the yielding process is resumed
    from the frame saved on its stack.  If no process is READY the yielding
    process keeps running. *)
Theorem scheduler_yield_correct (k : kernel F) (R : Z → Prop) (live : gset Z) (l z : list Z) :
  let k' := scheduler_yield lk k in
  kernel_inv lk k R live l z → sched_inv lk (k_procs k) l z → machine_ok lk k l → stack_clear lk k R l z →
  (∃ l1 nx l2, l = l1 ++ nx :: l2 ∧ Forall (λ q, ready (k_procs k) q = false) l1 ∧ ready (k_procs k) nx = true ∧
     kernel_inv lk k' R live (l2 ++ l1 ++ [nx]) z ∧ sched_inv lk (k_procs k') (l2 ++ l1 ++ [nx]) z ∧
     dispatched lk k k' nx) ∨
  (Forall (λ q, ready (k_procs k) q = false) l ∧ kernel_inv lk k' R live l z ∧ sched_inv lk (k_procs k') l z ∧
     k_cpu k' = k_cpu k ∧ k_mem k' = k_mem k ∧ current_process (k_procs k') = current_process (k_procs k)).
Proof. exact (scheduler_yield_spec k R live l z). Qed.

Lemma process_exit_spec (k : kernel F) (R : Z → Prop) (live : gset Z) (l z : list Z) (code : Z) :
  let cur := current_process (k_procs k) in
  kernel_inv lk k R live l z → sched_inv lk (k_procs k) l z → machine_ok lk k l → stack_clear lk k R l z →
  cur ≠ l_idle_pcb lk →
  ∃ k' l1 nx l2, process_exit lk code k = Done k' ∧ filter (λ x, x ≠ cur) l = l1 ++ nx :: l2 ∧
    Forall (λ q, ready (k_procs k) q = false) l1 ∧ ready (k_procs k) nx = true ∧
    kernel_inv lk k' R live (l2 ++ l1 ++ [nx]) (cur :: z) ∧ sched_inv lk (k_procs k') (l2 ++ l1 ++ [nx]) (cur :: z) ∧
    current_process (k_procs k') = nx ∧ exit_code (kpcb k' cur) = code.
Proof.
  intros cur Hk Hs Hm Hcl Hi. destruct (exit_marks lk k R live l z code Hk Hs Hcl)
    as (s' & E & Hk1 & Hcl1 & Ec & Hcode & Hz & Hst). fold cur in E, Hk1, Hcl1, Ec, Hcode, Hz, Hst.
  pose proof Hs as [S1 S2 S3 S4 [S5 S6]].
  assert (∀ q, q ∈ filter (λ x, x ≠ cur) l → ready s' q = ready (k_procs k) q) as Hrd.
  { intros q [Hq _]%list_elem_of_filter. unfold ready. by rewrite Hst. }
  destruct (yield_spec lk (with_procs s' k) R live _ (cur :: z) Hk1) as
    [(l1 & nx & l2 & H1 & H2 & H3 & H4 & H5 & H6 & H7)|(H1 & _)]; cbn [k_procs with_procs] in *; rewrite ?Ec in *.
  - destruct Hm as (M1 & M2 & M3 & M4 & M5). unfold machine_ok. cbn [k_procs with_procs]. rewrite Ec.
    refine (conj M1 (conj M2 (conj M3 (conj M4 _)))). intros q [_ Hq]%list_elem_of_filter. by apply M5.
  - done.
  - right. by left.
  - intros q [Hq Hql]%list_elem_of_filter _. rewrite Hst by done. by apply S3.
  - intros q [->|Hq]%elem_of_cons; [done |]. destruct (decide (q = cur)) as [->|]; [done |]. rewrite Hst by done. by apply S4.
  - apply list_elem_of_filter. split; [by apply not_eq_sym | done].
  - by rewrite Hst by (by apply not_eq_sym).
  - exists (scheduler_yield lk (with_procs s' k)), l1, nx, l2. unfold process_exit. fold cur. rewrite E. cbn [obind].
    assert (∀ q, q ∈ l1 ++ nx :: l2 → ready s' q = ready (k_procs k) q) as Hr by (intros q; rewrite <- H1; apply Hrd).
    split_and!; [done | done | | by rewrite <- Hr by apply elem_mid | done | done | apply H6 |].
    + rewrite Forall_forall in *. intros q Hq. rewrite <- Hr by (apply elem_of_app; by left). by apply H2.
    + rewrite H7. exact Hcode.
  - exfalso. rewrite Forall_forall in H1. specialize (H1 (l_idle_pcb lk)).
    rewrite Hrd in H1 by (apply list_elem_of_filter; split; [by apply not_eq_sym | done]).
    unfold ready in H1. destruct (S3 (l_idle_pcb lk) S5 (not_eq_sym Hi)) as [H|H]; [| done].
    rewrite H in H1. by discriminate H1; apply list_elem_of_filter; split; [apply not_eq_sym |].
Qed.

(** C9. [process_exit] never reaches the halt behind it: as long as idle is in the
    run queue some process is READY, so the exiting process, now a ZOMBIE with
    its exit code on the zombie list and no longer in the run queue, is switched
    away from for good, and the first READY process runs. *)
Theorem process_exit_switches (k : kernel F) (R : Z → Prop) (live : gset Z) (l z : list Z) (code : Z) :
  let cur := current_process (k_procs k) in
  kernel_inv lk k R live l z → sched_inv lk (k_procs k) l z → machine_ok lk k l → stack_clear lk k R l z →
  cur ≠ l_idle_pcb lk →
  ∃ k' l1 nx l2, process_exit lk code k = Done k' ∧ filter (λ x, x ≠ cur) l = l1 ++ nx :: l2 ∧
    Forall (λ q, ready (k_procs k) q = false) l1 ∧ ready (k_procs k) nx = true ∧
    kernel_inv lk k' R live (l2 ++ l1 ++ [nx]) (cur :: z) ∧ sched_inv lk (k_procs k') (l2 ++ l1 ++ [nx]) (cur :: z) ∧
    current_process (k_procs k') = nx ∧ exit_code (kpcb k' cur) = code.
Proof. exact (process_exit_spec k R live l z code). Qed.

End properties.

(** ** Witnesses *)

#[local] Existing Instance Pmm.pmm_frames.

Lemma demo_stack_clear (k : kernel Pmm.pmm) (l z : list Z) (sp : Z) :
  kernel_inv demo_link k demo_region {[0x100010]} l z → k_cpu k = Context.demo_cpu sp →
  (∀ p b, p ∈ l ++ z → p ≠ 0x9000 → Paging.owned (k_mem k) (cr3 (kpcb k p)) b → b = 0x32000) →
  0x11000 + 44 <= sp <= 0x32000 ∨ 0x33000 + 44 <= sp <= 0x100000 → stack_clear demo_link k demo_region l z.
Proof.
  intros Hk Hc Ho Hsp a. rewrite Hc. change (Context.r_esp (Context.demo_cpu sp)) with sp. intros Ha.
  unfold demo_region. split; [lia |]. intros [Hpd|(p & b & Hp & Hi & Hb & Hba)].
  - unfold in_page, PAGE_SIZE in Hpd. cbn [demo_link l_kernel_pd] in Hpd. lia.
  - rewrite (Ho p b Hp Hi (table_page_owned _ _ _ Hb)) in Hba. unfold in_page, PAGE_SIZE in Hba. lia.
Qed.

Lemma demo_owned (b : Z) : Paging.owned Kmalloc.demo_memory2 0x32000 b → b = 0x32000.
Proof.
  intros [Hb|(i & Hi & _ & Hp & _)]; [done |]. unfold Paging.present in Hp.
  rewrite demo_entries2, Z.bits_0 in Hp by (done || lia). done.
Qed.

Lemma demo_machine (k : kernel Pmm.pmm) (l : list Z) (sp : Z) :
  k_cpu k = Context.demo_cpu sp → 44 <= sp < 2 ^ 32 → is_u32 (current_process (k_procs k)) →
  (∀ p, p ∈ l → is_u32 p) → machine_ok demo_link k l.
Proof.
  intros Hc Hsp Hcur Hl. unfold machine_ok. rewrite Hc. split; [by apply Context.demo_cpu_ok |].
  split; [exact Hsp |]. split; [unfold is_u32; cbn [demo_link l_do_switch_return]; lia |]. done.
Qed.


(** The process at 0x100010 runs on its own stack, idle waits. *)
Definition demo_procs3 : procs :=
  Procs (<[0x9000 := set_cr3 0x10000 zero_pcb]>
    (<[0x100010 := set_next 0x9000 (set_state PROCESS_RUNNING demo_zombie)]> ∅))
    2 0x100010 (0x9000 :: 0x100010 :: replicate 14 0) 0x100010 0x9000 2 0.
Definition demo_kernel3 : kernel Pmm.pmm :=
  with_cpu (Context.demo_cpu 0x31800) (with_procs demo_procs3 demo_kernel2).

Lemma demo_kernel3_inv : kernel_inv demo_link demo_kernel3 demo_region {[0x100010]} [0x100010; 0x9000] [].
Proof.
  assert (∀ p : Z, p ∈ [0x100010; 0x9000] ++ [] → p = 0x9000 ∨ p = 0x100010) as H by (intros p; set_solver).
  assert (kernel_inv demo_link (with_procs demo_procs3 demo_kernel2) demo_region {[0x100010]} [0x100010; 0x9000] []) as Hk.
  { apply (inv_procs demo_link demo_kernel2 demo_region _ [0x9000] [0x100010]).
    - exact demo_kernel2_inv.
    - split; try done.
      + apply (bool_decide_unpack (NoDup _)). vm_compute. done.
      + intros p [->| ->]%H; (split; [done | by eexists]).
    - split; try done.
      + apply (bool_decide_unpack (NoDup _)). vm_compute. done.
      + intros p Hp. unfold demo_procs3. cbn [proc_table app]. rewrite !elem_of_cons, elem_of_replicate. set_solver.
      + intros p q [->| ->]%H [->| ->]%H; vm_compute; done.
      + intros p [->| ->]%H; vm_compute; done.
    - intros p [->| ->]%H; (split; [set_solver | vm_compute; done]).
    - change (current_process demo_procs3) with 0x100010. set_solver. }
  destruct Hk. by split.
Qed.

Lemma demo_kernel3_sched : sched_inv demo_link (k_procs demo_kernel3) [0x100010; 0x9000] [].
Proof.
  split; try done.
  - apply list_elem_of_here.
  - intros q Hq Hne. change (current_process (k_procs demo_kernel3)) with 0x100010 in Hne.
    assert (q = 0x9000) as -> by set_solver. by left.
  - intros q []%not_elem_of_nil.
  - split; [apply list_elem_of_further, list_elem_of_here | done].
Qed.

Lemma demo_kernel3_machine : machine_ok demo_link demo_kernel3 [0x100010; 0x9000].
Proof.
  apply (demo_machine _ _ 0x31800); [done | lia | done |].
  intros p Hp. assert (p = 0x100010 ∨ p = 0x9000) as [->| ->] by set_solver; done.
Qed.

Lemma demo_kernel3_stack : stack_clear demo_link demo_kernel3 demo_region [0x100010; 0x9000] [].
Proof.
  apply (own_stack_clear demo_link demo_kernel3 demo_region {[0x100010]} _ _ 0x100010 demo_kernel3_inv);
    [set_solver | done | vm_compute; done].
Qed.

Lemma scheduler_yield_correct_witness :
  current_process (k_procs (scheduler_yield demo_link demo_kernel3)) = 0x9000 ∧
  Context.r_cr3 (k_cpu (scheduler_yield demo_link demo_kernel3)) = 0x10000.
Proof.
  destruct (scheduler_yield_correct demo_link demo_kernel3 demo_region {[0x100010]} [0x100010; 0x9000] [])
    as [(l1 & nx & l2 & El & _ & Hr & _ & _ & Hd)|(Hf & _)].
  - exact demo_kernel3_inv.
  - exact demo_kernel3_sched.
  - exact demo_kernel3_machine.
  - exact demo_kernel3_stack.
  - assert (nx = 0x9000) as ->.
    { assert (nx ∈ [0x100010; 0x9000]) as Hin by (rewrite El; set_solver).
      assert (nx = 0x100010 ∨ nx = 0x9000) as [->|] by set_solver; [vm_compute in Hr; done | done]. }
    split; [apply Hd | exact (di_cr3 _ _ _ _ Hd)].
  - rewrite Forall_forall in Hf. specialize (Hf 0x9000 ltac:(set_solver)). vm_compute in Hf. discriminate Hf.
Defined.

Lemma process_exit_switches_witness :
  ∃ k', process_exit demo_link 7 demo_kernel3 = Done k' ∧ exit_code (kpcb k' 0x100010) = 7.
Proof.
  destruct (process_exit_switches demo_link demo_kernel3 demo_region {[0x100010]} [0x100010; 0x9000] [] 7)
    as (k' & l1 & nx & l2 & E & _ & _ & _ & _ & _ & _ & Hx).
  - exact demo_kernel3_inv.
  - exact demo_kernel3_sched.
  - exact demo_kernel3_machine.
  - exact demo_kernel3_stack.
  - done.
  - exists k'. split; [exact E | exact Hx].
Defined.

End Dispatch.
