(* ===== verification/Space.v ===== *)
(** * Extending an address space

    The loader and [process_create_from_elf] give a process pages: each takes a
    frame, fills it and maps it with [paging_map_into] into the directory of the
    process.  Pages below 32 MiB go into the identity page tables, which every
    directory shares, the others into tables of the process.  The lemmas say that
    such a step keeps the kernel invariant, whatever the page and the flags, which
    bytes it can change, and what it does to the kernel's own translation. *)

From S2P Require Import Prelude Memory Frames Vga Pmm Kmalloc Paging Scheduler Context Elf Process Invariant.

Module Space.
Import Scheduler Process Invariant.

Section space.
Context {F : Type} `{!FrameAlloc F}.
Variable lk : link.
Variables (k : kernel F) (R : Z → Prop) (live : gset Z) (l z : list Z) (p : Z).
Abbreviation pd := (cr3 (kpcb k p)).
Abbreviation kpd := (l_kernel_pd lk).

(** The kernel with the frames [fs] and the memory [m]. *)
Definition within (fs : F) (m : memory) : kernel F := with_mem m (with_frames fs k).

(** A page outside the heap that is not the kernel directory and that no process
    holds. *)
Definition unheld (m : memory) (b : Z) : Prop :=
  (∀ a, in_page b a → ~ R a) ∧ b ≠ kpd ∧ ∀ q, q ∈ l ++ z → q ≠ l_idle_pcb lk → ~ holds (with_mem m k) q b.

(** The kernel invariant, with a well-formed directory of [p] whose low tables
    are those of the kernel at the same index, or nobody's. *)
Record building (fs : F) (m : memory) : Prop := {
  bg_inv : kernel_inv lk (within fs m) R live l z;
  bg_proc : p ∈ l ++ z ∧ p ≠ l_idle_pcb lk;
  bg_space : Paging.space_ok fs m pd;
  bg_low i : Paging.is_index i → i < Paging.IDENTITY_PT_COUNT → Paging.present m pd i = true →
    unheld m (Paging.table m pd i) ∧
    (kernel_page lk m (Paging.table m pd i) → Paging.present m kpd i = true ∧ Paging.table m kpd i = Paging.table m pd i)
}.

(** Bytes outside the free frames, the directory and its tables. *)
Definition untouched (fs : F) (m : memory) (a : Z) : Prop :=
  (∀ g, page_addr g → in_use fs g = false → ~ in_page g a) ∧ ~ in_page pd a ∧
  ∀ i, Paging.is_index i → Paging.present m pd i = true → ~ in_page (Paging.table m pd i) a.

Lemma bg_holds (fs : F) (m : memory) (b : Z) :
  building fs m → holds (with_mem m k) p b →
  page_addr b ∧ in_use fs b = true ∧ ~ kernel_page lk m b ∧ ∀ a, in_page b a → ~ R a.
Proof. intros [Hk [Hp Hi] _ _] Hb. exact (ki_held _ _ _ _ _ _ Hk p b Hp Hi Hb). Qed.

Lemma bg_holds_pd (m : memory) : holds (with_mem m k) p pd.
Proof. right. right. by left. Qed.

Lemma unheld_agree (m m' : memory) (b : Z) :
  (∀ q c, q ∈ l ++ z → q ≠ l_idle_pcb lk → holds (with_mem m' k) q c → holds (with_mem m k) q c) →
  unheld m b → unheld m' b.
Proof. intros H (H1 & H2 & H3). split_and!; [done | done |]. intros q Hq Hi Hb. apply (H3 q Hq Hi). by apply H. Qed.

(** A free frame is not in the heap and belongs to nobody. *)
Lemma free_page (fs : F) (m : memory) (b : Z) :
  building fs m → page_addr b → in_use fs b = false → unheld m b ∧ ~ kernel_page lk m b.
Proof.
  intros Hb Hpb Hub. pose proof (bg_inv _ _ Hb) as Hk.
  assert (~ kernel_page lk m b) as Hkp.
  { intros H. apply (kernel_page_reserved lk (within fs m) R live l z Hk) in H as [_ H]. change (page_addr b → in_use fs b = true) in H.
    rewrite H in Hub by done. done. }
  split; [| done]. split_and!.
  - intros a. by apply (ki_free _ _ _ _ _ _ Hk b a).
  - intros ->. apply Hkp. by left.
  - intros q Hq Hi H. destruct (ki_held _ _ _ _ _ _ Hk q b Hq Hi H) as (_ & H2 & _). change (in_use fs b = true) in H2. congruence.
Qed.

(** ** A fresh frame *)

Section fresh.
Variables (fs fs' : F) (m m' : memory) (f : Z).
Hypothesis Hb : building fs m.
Hypothesis Hok : frames_ok fs'.
Hypothesis Hf : page_addr f.
Hypothesis Hu : in_use fs f = false.
Hypothesis Hu' : ∀ b, page_addr b → in_use fs' b = (b =? f) || in_use fs b.
Hypothesis Hag : agree_outside f (f + PAGE_SIZE) m m'.

Lemma fresh_mapping : agree_on (mapping_byte lk (within fs m) l z) m m'.
Proof using Hb Hf Hu Hag.
  apply (mapping_kept lk (within fs m) R live l z m' (bg_inv _ _ Hb)). eapply agree_on_weaken; [exact Hag |].
  intros a [_ Ha]. specialize (Ha f Hf Hu). unfold in_page in Ha. simpl. lia.
Qed.

Lemma fresh_holds (q b : Z) :
  q ∈ l ++ z → q ≠ l_idle_pcb lk → holds (with_mem m' k) q b ↔ holds (with_mem m k) q b.
Proof using Hb Hf Hu Hag. exact (holds_kept lk (within fs m) l z m' fresh_mapping fs q b). Qed.

Lemma fresh_kernel_page (b : Z) : kernel_page lk m' b ↔ kernel_page lk m b.
Proof using Hb Hf Hu Hag. exact (kernel_page_kept lk (within fs m) l z m' fresh_mapping b). Qed.

(** Nobody has the frame. *)
Lemma fresh_unheld : unheld m' f ∧ ~ kernel_page lk m' f.
Proof using Hb Hf Hu Hag.
  destruct (free_page fs m f Hb Hf Hu) as [H1 H2]. split; [| by rewrite fresh_kernel_page].
  eapply unheld_agree; [| exact H1]. intros q c Hq Hqi. by apply fresh_holds.
Qed.

Lemma fresh_building : building fs' m'.
Proof using All.
  pose proof Hb as [Hk Hp Hs Hl]. destruct (Paging.create_keeps_space fs fs' m m' f pd Hs Hf Hu Hu' Hag) as (S1 & S2 & _).
  assert (∀ b, page_addr b → in_use fs b = true → in_use fs' b = true) as Hmono.
  { intros b Hpb Hub. by rewrite Hu', Hub, orb_true_r. }
  split; [| done | done |].
  - apply (inv_step lk (within fs m) R live l z m' Hk fresh_mapping live fs' Hok Hmono); [| done].
    eapply Kmalloc.view_frame; [apply Hk |]. eapply agree_on_weaken; [exact Hag |]. intros a Ha.
    destruct (decide (in_page f a)) as [Hin|Hin]; [by destruct (ki_free _ _ _ _ _ _ Hk f a Hf Hu Hin) |]. unfold in_page in Hin. simpl. lia.
  - intros i Hi Hlt. destruct (kernel_entry_kept lk (within fs m) l z m' fresh_mapping i Hi) as [E1 E2].
    unfold Paging.present, Paging.table. rewrite S2 by done. intros Hpr. destruct (Hl i Hi Hlt Hpr) as [H1 H2]. split.
    + eapply unheld_agree; [| exact H1]. intros q c Hq Hqi. by apply fresh_holds.
    + rewrite fresh_kernel_page. intros Hkp. destruct (H2 Hkp) as [H3 H4]. split; [exact (eq_trans E1 H3) | exact (eq_trans E2 H4)].
Qed.

Lemma fresh_untouched : agree_on (untouched fs m) m m' ∧ ∀ a, untouched fs m a → untouched fs' m' a.
Proof using All.
  pose proof Hb as [Hk Hp Hs Hl]. destruct (Paging.create_keeps_space fs fs' m m' f pd Hs Hf Hu Hu' Hag) as (_ & S2 & _). split.
  - eapply agree_on_weaken; [exact Hag |]. intros a (Ha & _). specialize (Ha f Hf Hu). unfold in_page in Ha. simpl. lia.
  - intros a (H1 & H2 & H3). split_and!; [| done |].
    + intros g Hg. rewrite Hu' by done. intros [_ Hug]%orb_false_iff. by apply H1.
    + intros i Hi. unfold Paging.present, Paging.table. rewrite S2 by done. by apply H3.
Qed.

End fresh.

(** ** Mapping a page *)

Section mapped.
Variables (fs fs' : F) (m m' : memory) (va f flags t : Z).
Hypothesis Hb : building fs m.
Hypothesis Hva : is_u32 va.
Hypothesis Hf : page_addr f.
Hypothesis Hu : in_use fs f = true.
Hypothesis Hfree : unheld m f ∧ ~ kernel_page lk m f.
Hypothesis Hloose : ∀ i, Paging.is_index i → Paging.present m pd i = true → Paging.table m pd i ≠ f.
Hypothesis Hfl : 0 <= flags < 4096.
Hypothesis Hm : Paging.mapped fs m fs' m' pd va flags (Z.lor (Z.land f Paging.ADDR_MASK) flags) t.
Abbreviation idx := (Paging.pd_index va).

Lemma map_index : Paging.is_index idx.
Proof using Hva. by apply Paging.pd_index_range. Qed.

(** The table written: one of the directory, or a frame that was free. *)
Lemma map_table :
  (Paging.present m pd idx = true ∧ t = Paging.table m pd idx ∧ fs' = fs) ∨
  (Paging.present m pd idx = false ∧ page_addr t ∧ in_use fs t = false ∧
   ∀ b, page_addr b → in_use fs' b = (b =? t) || in_use fs b).
Proof using Hm.
  destruct (Paging.present m pd idx) eqn:Hp; [left | right].
  - by destruct (Paging.md_old _ _ _ _ _ _ _ _ _ Hm Hp).
  - by destruct (Paging.md_new _ _ _ _ _ _ _ _ _ Hm Hp) as (? & ? & ?).
Qed.

Lemma map_in_use (b : Z) : page_addr b → in_use fs b = true → in_use fs' b = true.
Proof using Hm. exact (Paging.mapped_in_use _ _ _ _ _ _ _ _ _ Hm b). Qed.

Lemma map_frame : agree_on (λ a, ~ in_page pd a ∧ ~ in_page t a) m m'.
Proof using Hm Hva.
  eapply agree_on_weaken; [apply (Paging.md_frame _ _ _ _ _ _ _ _ _ Hm) |]. pose proof map_index as Hi.
  unfold in_page, Paging.is_index, PAGE_SIZE in *. simpl. lia.
Qed.

(** The table is outside the heap, is not the kernel directory, and no process
    but [p] can hold it. *)
Lemma map_table_clear :
  (∀ a, in_page t a → ~ R a) ∧ t ≠ kpd ∧ ∀ q, q ∈ l ++ z → q ≠ l_idle_pcb lk → q ≠ p → ~ holds (with_mem m k) q t.
Proof using Hb Hm Hva.
  pose proof Hb as [Hk [Hp Hpi] Hs Hl]. destruct map_table as [(Hpr & Ht & _)|(_ & Ht & Hft & _)].
  - destruct (decide (idx < Paging.IDENTITY_PT_COUNT)) as [Hlt|Hge].
    + destruct (Hl idx map_index Hlt Hpr) as [(H1 & H2 & H3) _]. rewrite Ht. split_and!; [done | done |]. auto.
    + assert (holds (with_mem m k) p t) as Hh.
      { right. right. right. exists idx. split_and!; [exact map_index | lia | done | by left]. }
      destruct (bg_holds fs m t Hb Hh) as (_ & _ & H3 & H4). split_and!; [done | |].
      * intros Heq. apply H3. by left.
      * intros q Hq Hi Hne Hqt. apply Hne. exact (ki_disjoint _ _ _ _ _ _ Hk q p t Hq Hp Hi Hpi Hqt Hh).
  - destruct (free_page fs m t Hb Ht Hft) as [(H1 & H2 & H3) _]. split_and!; [done | done |]. auto.
Qed.

(** The kernel directory is not written. *)
Lemma map_kernel_entry (i : Z) : Paging.is_index i → Paging.entry m' kpd i = Paging.entry m kpd i.
Proof using Hb Hm Hva.
  intros Hi. pose proof Hb as [Hk _ Hs _]. destruct map_table_clear as (_ & H2 & _).
  apply (Paging.mapped_page _ _ _ _ _ _ _ _ _ Hm Hs Hva); [apply (Paging.so_pd (ki_space _ _ _ _ _ _ Hk)) | | by apply not_eq_sym | done].
  intros Heq. destruct (bg_holds fs m pd Hb (bg_holds_pd m)) as (_ & _ & H3 & _). apply H3. by left.
Qed.

Lemma map_kernel_page (b : Z) : kernel_page lk m' b ↔ kernel_page lk m b.
Proof using Hb Hm Hva.
  unfold kernel_page, Paging.present, Paging.table.
  split; (intros [H|(i & Hi & H)]; [by left | right; exists i]); rewrite map_kernel_entry in * by done; done.
Qed.

(** The directories of the other processes keep what they own. *)
Lemma map_other (q b : Z) :
  q ∈ l ++ z → q ≠ l_idle_pcb lk → q ≠ p → Paging.owned m' (cr3 (kpcb k q)) b ↔ Paging.owned m (cr3 (kpcb k q)) b.
Proof using Hb Hm Hva.
  intros Hq Hi Hne. pose proof Hb as [Hk [Hp Hpi] Hs Hl]. destruct map_table_clear as (_ & _ & H3).
  apply (owned_agree _ m m' (cr3 (kpcb k q)) b map_frame).
  intros c a Hc Ha. assert (holds (with_mem m k) q c) as Hqc by (right; right; by apply table_page_owned).
  destruct (ki_held _ _ _ _ _ _ Hk q c Hq Hi Hqc) as (P1 & _). apply Paging.page_addr_base in P1.
  assert (c ≠ pd) as N1.
  { intros ->. apply Hne. exact (ki_disjoint _ _ _ _ _ _ Hk q p pd Hq Hp Hi Hpi Hqc (bg_holds_pd m)). }
  assert (c ≠ t) as N2 by (intros ->; by apply (H3 q)).
  pose proof (Paging.page_base_apart c pd P1 (proj1 (Paging.so_pd Hs)) N1).
  pose proof (Paging.page_base_apart c t P1 (proj1 (Paging.md_reserved _ _ _ _ _ _ _ _ _ Hm)) N2).
  unfold in_page in *. lia.
Qed.

(** What the directory owns afterwards. *)
Lemma map_owned (b : Z) :
  Paging.owned m' pd b → Paging.owned m pd b ∨
  (Paging.IDENTITY_PT_COUNT <= idx ∧ (b = f ∨ (Paging.present m pd idx = false ∧ b = t))).
Proof using Hb Hm Hva Hf Hfl.
  pose proof Hb as [_ _ Hs _]. intros [->|(i & Hi & Hge & Hpr & Hx)]; [left; by left |].
  destruct (decide (i = idx)) as [->|Hne].
  - rewrite (Paging.md_table _ _ _ _ _ _ _ _ _ Hm) in Hx. destruct Hx as [->|(j & Hj & Hpj & ->)].
    + destruct map_table as [(H1 & -> & _)|(H1 & _)]; [left; right; exists idx; split_and!; try done; by left | right; split; [done | by right]].
    + destruct (decide (j = Paging.pt_index va)) as [->|Hnj].
      * right. split; [done |]. left. unfold Paging.table. rewrite (Paging.md_pte _ _ _ _ _ _ _ _ _ Hm).
        destruct (Paging.lor_flags_value f flags (page_addr_u32 f Hf) Hfl) as [-> _].
        rewrite Paging.mask_page by by apply page_addr_u32. destruct Hf as [_ Hmod]. unfold PAGE_SIZE in Hmod. lia.
      * unfold Paging.present in Hpj. unfold Paging.table. rewrite (Paging.md_rest _ _ _ _ _ _ _ _ _ Hm j Hj Hnj) in *.
        destruct map_table as [(H1 & Ht & _)|(H1 & _)]; rewrite H1 in *; [| by rewrite Z.bits_0 in Hpj].
        left. right. exists idx. rewrite <- Ht. split_and!; [done | done | done | right; by exists j].
  - unfold Paging.present, Paging.table in Hpr, Hx. rewrite (Paging.mapped_pde _ _ _ _ _ _ _ _ _ Hm Hs Hva i Hi Hne) in Hpr, Hx.
    fold (Paging.present m pd i) in Hpr. fold (Paging.table m pd i) in Hx. destruct (Paging.so_table Hs i Hi Hpr) as [Hr Htp].
    pose proof (Paging.mapped_table_ne _ _ _ _ _ _ _ _ _ Hm Hs Hva i Hi Hne Hpr) as Htt.
    left. right. exists i. split_and!; [done | done | done |]. destruct Hx as [Hx|(j & Hj & Hpj & Hx)]; [by left | right; exists j].
    unfold Paging.present in *. unfold Paging.table at 1 in Hx.
    rewrite (Paging.mapped_page _ _ _ _ _ _ _ _ _ Hm Hs Hva _ _ (proj1 Hr) Htp Htt Hj) in Hpj, Hx. done.
Qed.

Lemma map_heap : Kmalloc.heap_view (k_heap k) m' R live.
Proof using Hb Hm Hva.
  pose proof (bg_inv _ _ Hb) as Hk. destruct map_table_clear as (H1 & _).
  destruct (bg_holds fs m pd Hb (bg_holds_pd m)) as (_ & _ & _ & H2).
  eapply Kmalloc.view_frame; [apply Hk |]. eapply agree_on_weaken; [exact map_frame |]. intros a Ha.
  split; intros Hin; [by apply (H2 a) | by apply (H1 a)].
Qed.

(** The pages a directory gains were nobody's. *)
Lemma map_own (q b : Z) :
  q ∈ l ++ z → q ≠ l_idle_pcb lk → Paging.owned m' (cr3 (kpcb k q)) b →
  Paging.owned m (cr3 (kpcb k q)) b ∨
  (q = p ∧ unheld m b ∧ page_addr b ∧ in_use fs' b = true ∧ ~ kernel_page lk m' b).
Proof using Hb Hm Hva Hf Hfl Hu Hfree.
  intros Hq Hi Ho. rewrite map_kernel_page. destruct (decide (q = p)) as [->|Hne]; [| left; by apply map_other].
  destruct (map_owned b Ho) as [H|[_ [->|[Hpr ->]]]]; [by left | |]; right.
  - destruct Hfree. split_and!; [done | done | done | by apply map_in_use | done].
  - destruct map_table as [(H1 & _)|(_ & H1 & H2 & H3)]; [congruence |].
    destruct (free_page fs m t Hb H1 H2) as [H4 H5]. split_and!; [done | done | done | by rewrite H3, Z.eqb_refl | done].
Qed.

Lemma map_held (q b : Z) :
  q ∈ l ++ z → q ≠ l_idle_pcb lk → holds (with_mem m' k) q b →
  holds (with_mem m k) q b ∨
  (q = p ∧ unheld m b ∧ page_addr b ∧ in_use fs' b = true ∧ ~ kernel_page lk m' b).
Proof using Hb Hm Hva Hf Hfl Hu Hfree.
  intros Hq Hi [H|[H|H]]; [left; by left | left; right; by left |].
  destruct (map_own q b Hq Hi H) as [Ho|Ho]; [left; right; by right | by right].
Qed.

Lemma map_inv : kernel_inv lk (within fs' m') R live l z.
Proof using Hb Hm Hva Hf Hfl Hu Hfree.
  pose proof Hb as [Hk [Hp Hpi] Hs Hl].
  assert (∀ b, Paging.reserved fs b → Paging.reserved fs' b) as Hres by exact (Paging.mapped_reserved _ _ _ _ _ _ _ _ _ Hm).
  split; cbn [k_frames k_mem k_heap k_procs within with_mem with_frames]; try apply Hk.
  - apply Hm.
  - exact map_heap.
  - destruct (ki_space _ _ _ _ _ _ Hk) as [S1 S2 S3]. split.
    + by apply Hres.
    + intros i Hi. unfold Paging.present, Paging.table. rewrite map_kernel_entry by done. intros Hpr.
      destruct (S2 i Hi Hpr). split; [by apply Hres | done].
    + intros i j Hi Hj. unfold Paging.present, Paging.table. rewrite !map_kernel_entry by done. by apply S3.
  - intros b a Hkb. apply (ki_pd _ _ _ _ _ _ Hk). by apply map_kernel_page.
  - intros b a Hpb Hub. apply (ki_free _ _ _ _ _ _ Hk); [done |]. cbn [k_frames within with_mem with_frames].
    destruct (in_use fs b) eqn:E; [| done]. rewrite (map_in_use b Hpb E) in Hub. done.
  - intros q b Hq Hi Hh. destruct (map_held q b Hq Hi Hh) as [H|(_ & (H1 & _) & H3)]; [| naive_solver].
    destruct (ki_held _ _ _ _ _ _ Hk q b Hq Hi H) as (H1 & H2 & H3 & H4).
    split_and!; [done | by apply map_in_use | by rewrite map_kernel_page | done].
  - intros q Hq Hi. destruct (ki_stack _ _ _ _ _ _ Hk q Hq Hi) as [H1 H2]. split; [done |]. intros b Hsb Hob.
    destruct (map_own q b Hq Hi Hob) as [H|(-> & (_ & _ & H3) & _)]; [by apply (H2 b) |].
    apply (H3 p Hp Hpi). destruct Hsb as [->| ->]; [by left | right; by left].
  - intros q r b Hq Hr Hqi Hri H1 H2.
    destruct (map_held q b Hq Hqi H1) as [H3|(-> & (_ & _ & H3) & _)], (map_held r b Hr Hri H2) as [H4|(-> & (_ & _ & H4) & _)].
    + exact (ki_disjoint _ _ _ _ _ _ Hk q r b Hq Hr Hqi Hri H3 H4).
    + by destruct (H4 q Hq Hqi).
    + by destruct (H3 r Hr Hri).
    + done.
Qed.

Lemma map_building : building fs' m'.
Proof using Hb Hm Hva Hf Hfl Hu Hfree Hloose.
  pose proof Hb as [Hk [Hp Hpi] Hs Hl]. split; [exact map_inv | done | by eapply Paging.mapped_space_ok |].
  assert (∀ b, unheld m b → (Paging.IDENTITY_PT_COUNT <= idx → b ≠ f ∧ b ≠ t) → unheld m' b) as Hkeep.
  { intros b (H1 & H2 & H3) Hn. split_and!; [done | done |]. intros q Hq Hi [H|[H|H]]; apply (H3 q Hq Hi).
    - by left.
    - right. by left.
    - right. right. destruct (decide (q = p)) as [->|Hne]; [| by apply map_other].
      destruct (map_owned b H) as [Ho|[Hge [->|[_ ->]]]]; [done | by destruct (Hn Hge) | by destruct (Hn Hge)]. }
  intros i Hi Hlt. unfold Paging.present at 2, Paging.table at 3. rewrite map_kernel_page, map_kernel_entry by done.
  fold (Paging.present m kpd i) (Paging.table m kpd i). destruct (decide (i = idx)) as [->|Hne].
  - rewrite (Paging.md_table _ _ _ _ _ _ _ _ _ Hm). intros _. destruct map_table as [(H1 & Ht & _)|(H1 & Ht & Hut & _)].
    + destruct (Hl idx Hi Hlt H1) as [H2 H3]. rewrite <- Ht in H2, H3. split; [apply Hkeep; [done | lia] | done].
    + destruct (free_page fs m t Hb Ht Hut) as [H2 H3]. split; [apply Hkeep; [done | lia] | done].
  - unfold Paging.present at 1, Paging.table. rewrite (Paging.mapped_pde _ _ _ _ _ _ _ _ _ Hm Hs Hva i Hi Hne).
    fold (Paging.present m pd i) (Paging.table m pd i). intros Hpr. destruct (Hl i Hi Hlt Hpr) as [H1 H2]. split; [| done].
    apply Hkeep; [done |]. intros _. split; [by apply Hloose | by eapply Paging.mapped_table_ne].
Qed.

Lemma map_untouched : agree_on (untouched fs m) m m' ∧ ∀ a, untouched fs m a → untouched fs' m' a.
Proof using Hb Hm Hva.
  pose proof (bg_space _ _ Hb) as Hs.
  assert (∀ a, untouched fs m a → ~ in_page t a) as Ht.
  { intros a (H1 & _ & H3). destruct map_table as [(H4 & -> & _)|(_ & H4 & H5 & _)]; [apply H3; [exact map_index | done] | by apply H1]. }
  split.
  - eapply agree_on_weaken; [exact map_frame |]. intros a Ha. split; [apply Ha | by apply Ht].
  - intros a Ha. pose proof Ha as (H1 & H2 & H3). split_and!; [| done |].
    + intros g Hg Hug. apply H1; [done |]. destruct (in_use fs g) eqn:E; [| done]. rewrite (map_in_use g Hg E) in Hug. done.
    + intros i Hi. destruct (decide (i = idx)) as [->|Hne].
      * rewrite (Paging.md_table _ _ _ _ _ _ _ _ _ Hm). intros _. by apply Ht.
      * unfold Paging.present, Paging.table. rewrite (Paging.mapped_pde _ _ _ _ _ _ _ _ _ Hm Hs Hva i Hi Hne). by apply H3.
Qed.

(** The kernel directory sees the new page where it shares the table, and no other
    change. *)
Lemma map_kernel_translate (a : Paging.access) (va' : Z) :
  is_u32 va' → ~ Paging.same_page va' va → Paging.translate a m' kpd va' = Paging.translate a m kpd va'.
Proof using Hb Hm Hva.
  intros Hva' Hns. pose proof Hb as [Hk [Hp Hpi] Hs Hl]. pose proof (ki_space _ _ _ _ _ _ Hk) as [S1 S2 S3].
  pose proof (Paging.pd_index_range va' Hva') as Hi. unfold Paging.translate. rewrite map_kernel_entry by done.
  destruct (Paging.permits a (Paging.entry m kpd (Paging.pd_index va'))) eqn:Hper; [| done].
  assert (Paging.present m kpd (Paging.pd_index va') = true) as Hpr.
  { unfold Paging.permits in Hper. unfold Paging.present. by destruct (Z.testbit _ 0). }
  fold (Paging.table m kpd (Paging.pd_index va')). set (c := Paging.table m kpd (Paging.pd_index va')).
  assert (kernel_page lk m c) as Hc by (right; by exists (Paging.pd_index va')).
  destruct (S2 _ Hi Hpr) as [[Hcb Hcu] _]. fold c in Hcb, Hcu. change (page_addr c → in_use fs c = true) in Hcu.
  assert (c ≠ pd) as Hcp.
  { intros E. destruct (bg_holds fs m pd Hb (bg_holds_pd m)) as (_ & _ & H & _). by rewrite E in Hc. }
  enough (Paging.entry m' c (Paging.pt_index va') = Paging.entry m c (Paging.pt_index va')) as -> by done.
  destruct (decide (c = t)) as [E|E]; [| apply (Paging.mapped_page _ _ _ _ _ _ _ _ _ Hm Hs Hva); [done | done | done | apply Paging.pt_index_range]].
  destruct map_table as [(H1 & Ht & _)|(_ & H1 & H2 & _)]; [| rewrite E in Hcu; rewrite Hcu in H2; done].
  assert (idx < Paging.IDENTITY_PT_COUNT) as Hlt.
  { destruct (decide (idx < Paging.IDENTITY_PT_COUNT)); [done |]. destruct (bg_holds fs m t Hb) as (_ & _ & H & _); [| by rewrite E in Hc].
    right. right. right. exists idx. split_and!; [exact map_index | lia | done | by left]. }
  destruct (Hl idx map_index Hlt H1) as [_ H3]. rewrite <- Ht, <- E in H3. destruct (H3 Hc) as [H4 H5].
  assert (Paging.pd_index va' = idx) as Heq by (apply S3; [done | exact map_index | done | done | exact (eq_sym H5)]).
  rewrite E. rewrite (Paging.md_rest _ _ _ _ _ _ _ _ _ Hm); [by rewrite H1 | apply Paging.pt_index_range |].
  intros Hpt. apply Hns. done.
Qed.

End mapped.

(** ** Pages one after the other *)

(** [fs'] and [m'] come from [fs] and [m] by giving [p] the pages at the addresses
    [W]. *)
Record extended (W : Z → Prop) (fs : F) (m : memory) (fs' : F) (m' : memory) : Prop := {
  ex_building : building fs' m';
  ex_mem : agree_on (untouched fs m) m m';
  ex_untouched a : untouched fs m a → untouched fs' m' a;
  ex_kernel a va : is_u32 va → (∀ w, W w → ~ Paging.same_page va w) →
    Paging.translate a m' kpd va = Paging.translate a m kpd va;
  ex_used b : page_addr b → in_use fs b = true → in_use fs' b = true
}.

Lemma extended_refl (W : Z → Prop) (fs : F) (m : memory) : building fs m → extended W fs m fs m.
Proof. intros Hb. split; [done | reflexivity | done | done | done]. Qed.

Lemma extended_trans (W : Z → Prop) (fs fs1 fs2 : F) (m m1 m2 : memory) :
  extended W fs m fs1 m1 → extended W fs1 m1 fs2 m2 → extended W fs m fs2 m2.
Proof.
  intros [A1 A2 A3 A4 A5] [B1 B2 B3 B4 B5]. split; [done | | auto | | auto].
  - intros a Ha. rewrite B2 by auto. by apply A2.
  - intros a va Hva Hw. rewrite B4 by done. by apply A4.
Qed.

Lemma extended_weaken (W W' : Z → Prop) (fs fs' : F) (m m' : memory) :
  extended W fs m fs' m' → (∀ w, W w → W' w) → extended W' fs m fs' m'.
Proof. intros [A1 A2 A3 A4 A5] H. split; try done. intros a va Hva Hw. apply A4; auto. Qed.

(** The panic of [paging_map_into]. *)
Definition out_of_memory (msg : string) : Prop := msg = "paging_map_into: out of physical memory"%string.

(** A frame is taken, written and mapped. *)
Lemma extend_page (fs fs1 : F) (m m1 : memory) (va f flags : Z) :
  building fs m → alloc_frame fs = (f, fs1) → f ≠ 0 → agree_outside f (f + PAGE_SIZE) m m1 →
  is_u32 va → 0 <= flags < 4096 →
  ensures out_of_memory (λ x : F * memory, extended (λ w, w = va) fs m (fst x) (snd x)) (Paging.paging_map_into pd va f flags fs1 m1).
Proof.
  intros Hb Hal H0 Hag Hva Hfl. pose proof Hb as [Hk _ Hs _].
  destruct (alloc_frame_spec fs (ki_frames _ _ _ _ _ _ Hk)) as [(f' & fs' & E & Hf & Hu & Hok & _ & Hu')|[E _]];
    rewrite Hal in E; [injection E as <- <- | by injection E].
  pose proof (fresh_building fs fs1 m m1 f Hb Hok Hf Hu Hu' Hag) as Hb1.
  destruct (fresh_untouched fs fs1 m m1 f Hb Hok Hf Hu Hu' Hag) as [U1 U2].
  pose proof (fresh_unheld fs m m1 f Hb Hf Hu Hag) as Hn.
  assert (in_use fs1 f = true) as Hu1 by (by rewrite Hu', Z.eqb_refl).
  destruct (Paging.create_keeps_space fs fs1 m m1 f pd Hs Hf Hu Hu' Hag) as (S1 & S2 & _).
  destruct (Paging.create_keeps_space fs fs1 m m1 f kpd (ki_space _ _ _ _ _ _ Hk) Hf Hu Hu' Hag) as (_ & _ & S3).
  assert (∀ i, Paging.is_index i → Paging.present m1 pd i = true → Paging.table m1 pd i ≠ f) as Hl.
  { intros i Hi. unfold Paging.present, Paging.table. rewrite S2 by done. intros Hpr Heq.
    destruct (Paging.so_table Hs i Hi Hpr) as [[_ Hr] _]. unfold Paging.table in Hr. rewrite Heq in Hr. rewrite (Hr Hf) in Hu. done. }
  destruct (Paging.map_into_cases fs1 m1 pd va f flags) as [(fs2 & m2 & t & -> & Hm)|(-> & _)];
    [done | done | done | by apply page_addr_u32 | done | | done].
  destruct (map_untouched fs1 fs2 m1 m2 va f flags t Hb1 Hva Hm) as [V1 V2].
  simpl. split; [by eapply map_building | | auto | |].
  - intros a Ha. rewrite V1 by auto. by apply U1.
  - intros a va' Hva' Hw. rewrite (map_kernel_translate fs1 fs2 m1 m2 va f flags t Hb1 Hva Hm a va' Hva') by (by apply Hw). by apply S3.
  - intros b Hpb Hub. apply (map_in_use fs1 fs2 m1 m2 va f flags t Hm b Hpb). by rewrite Hu', Hub, orb_true_r.
Qed.

End space.

End Space.
