(* ===== verification/Tlb.v ===== *)
(** * The translation caches

    The processor does not walk the page tables for every access: it caches the
    translations of pages in the TLB and the entries of the current directory in
    the paging-structure caches, fills both when it likes and drops entries when it
    likes.  [tlb_flush] of [kernel/paging.c] is [invlpg], which drops the
    translation of one page and all cached directory entries; loading CR3, in
    [paging_enable] and [context_switch], drops everything, since the kernel uses
    no global pages.

    The other files translate addresses with [Paging.translate], which walks the
    tables in memory.  The theorem here says that the processor with its caches
    does the same: the flushes the code makes are enough. *)

From S2P Require Import Prelude Memory Frames Vga Pmm Kmalloc Paging Scheduler Context Elf Process Invariant Space.

Module Tlb.
Import Paging.

(** ** The caches *)

(** A present entry: the frame it points to and what it permits. *)
Record tentry : Type := TEntry { te_frame : Z; te_user : bool; te_write : bool }.

Definition decode (e : Z) : option tentry :=
  if Z.testbit e 0 then Some (TEntry (Z.land e ADDR_MASK) (Z.testbit e 2) (Z.testbit e 1)) else None.

(** Cached translations by page number, and cached directory entries by index. *)
Record tlb : Type := Caches { pages : gmap Z tentry; dirs : gmap Z tentry }.

Definition vpn (va : Z) : Z := Z.shiftr va 12.

(** [invlpg] *)
Definition tlb_flush (virt : Z) (t : tlb) : tlb := Caches (delete (vpn virt) (pages t)) ∅.

(** [mov cr3], as [context_switch] and [paging_enable] do it. *)
Definition no_entries : tlb := Caches ∅ ∅.
Definition switch_cr3 (new old : Z) (t : tlb) : tlb := if new =? old then t else no_entries.

(** ** The processor *)

(** The walk, from a directory entry and from the directory. *)
Definition walk_table (m : memory) (va : Z) (d : tentry) : option tentry :=
  (λ p, TEntry (te_frame p) (te_user d && te_user p) (te_write d && te_write p)) <$>
    decode (entry m (te_frame d) (pt_index va)).

Definition walk (m : memory) (pd va : Z) : option tentry := decode (entry m pd (pd_index va)) ≫= walk_table m va.

Definition allows (a : access) (e : tentry) : bool :=
  (negb (acc_user a) || te_user e) && (negb (acc_user a && acc_write a) || te_write e).

(** An access: the cached translation, else a walk from the cached directory
    entry, else a walk from the directory. *)
Definition mmu (a : access) (t : tlb) (m : memory) (pd va : Z) : option Z :=
  let e :=
    match pages t !! vpn va with
    | Some e => Some e
    | None => match dirs t !! pd_index va with
              | Some d => walk_table m va d
              | None => walk m pd va
              end
    end in
  e ≫= λ e, if allows a e then Some (te_frame e + Z.land va 0xFFF) else None.

(** The processor changes its caches. *)
Inductive fills (m : memory) (pd : Z) : tlb → tlb → Prop :=
| fill_dir t i d : is_index i → decode (entry m pd i) = Some d → fills m pd t (Caches (pages t) (<[i := d]> (dirs t)))
| fill_page t va d e :
    is_u32 va → dirs t !! pd_index va = Some d ∨ decode (entry m pd (pd_index va)) = Some d →
    walk_table m va d = Some e → fills m pd t (Caches (<[vpn va := e]> (pages t)) (dirs t))
| evict t t' : pages t' ⊆ pages t → dirs t' ⊆ dirs t → fills m pd t t'.

(** ** Coherence *)

(** What is cached is in the tables; [virt] may be excepted. *)
Record coherent_except (P : Z → Prop) (t : tlb) (m : memory) (pd : Z) : Prop := {
  co_pages va e : is_u32 va → ~ P va → pages t !! vpn va = Some e → walk m pd va = Some e;
  co_dirs i d : is_index i → dirs t !! i = Some d → decode (entry m pd i) = Some d
}.

Definition coherent : tlb → memory → Z → Prop := coherent_except (λ _, False).

Lemma vpn_same (va va' : Z) : is_u32 va → is_u32 va' → vpn va = vpn va' ↔ same_page va va'.
Proof.
  unfold vpn, same_page, is_u32. intros H1 H2. destruct (index_div va) as [-> ->], (index_div va') as [-> ->].
  rewrite !Z.shiftr_div_pow2 by lia. change (2 ^ 12) with 4096. zlia.
Qed.

Lemma walk_same (m : memory) (pd va va' : Z) : same_page va va' → walk m pd va = walk m pd va'.
Proof. intros [E1 E2]. unfold walk, walk_table. by rewrite E1, E2. Qed.

(** The walk with the permissions checked at the end is [translate]. *)
Lemma translate_walk (a : access) (m : memory) (pd va : Z) :
  translate a m pd va = walk m pd va ≫= λ e, if allows a e then Some (te_frame e + Z.land va 0xFFF) else None.
Proof.
  unfold translate, walk, walk_table, permits, decode, allows. set (pde := entry m pd (pd_index va)).
  destruct (Z.testbit pde 0); [| done]. cbn [mbind option_bind te_frame te_user te_write andb].
  set (pte := entry m (Z.land pde ADDR_MASK) (pt_index va)). destruct (Z.testbit pte 0).
  - cbn [fmap option_fmap option_map mbind option_bind te_frame te_user te_write andb].
    by destruct (acc_user a), (acc_write a), (Z.testbit pde 2), (Z.testbit pde 1), (Z.testbit pte 2), (Z.testbit pte 1).
  - by destruct (_ && _).
Qed.

Lemma mmu_coherent (a : access) (t : tlb) (m : memory) (pd va : Z) :
  coherent t m pd → is_u32 va → mmu a t m pd va = translate a m pd va.
Proof.
  intros [H1 H2] Hva. rewrite translate_walk. unfold mmu. destruct (pages t !! vpn va) as [e|] eqn:E; [by rewrite (H1 va e) by (done || tauto) |].
  destruct (dirs t !! pd_index va) as [d|] eqn:Ed; [| done].
  unfold walk. by rewrite (H2 _ d (pd_index_range va Hva) Ed).
Qed.

Lemma no_entries_coherent (P : Z → Prop) (m : memory) (pd : Z) : coherent_except P no_entries m pd.
Proof. by split. Qed.

Lemma fills_coherent (P : Z → Prop) (t t' : tlb) (m : memory) (pd : Z) :
  (∀ va va', same_page va va' → P va → P va') →
  coherent_except P t m pd → fills m pd t t' → coherent_except P t' m pd.
Proof.
  intros HP [H1 H2] Hf. destruct Hf as [t i d Hi Hd | t va d e Hva Hd Hw | t t' Hp Hd]; split; cbn [pages dirs]; try done.
  - intros j d' Hj. destruct (decide (j = i)) as [->|Hne]; [rewrite lookup_insert_eq; intros [= <-]; exact Hd |].
    rewrite lookup_insert_ne by done. by apply H2.
  - intros va' e' Hva' Hn. destruct (decide (vpn va' = vpn va)) as [Heq|Hne].
    + rewrite Heq, lookup_insert_eq. intros [= <-]. apply vpn_same in Heq; [| done..]. rewrite (walk_same _ _ _ _ Heq).
      unfold walk. destruct Hd as [Hd|Hd]; [apply H2 in Hd; [| by apply pd_index_range] |]; by rewrite Hd.
    + rewrite lookup_insert_ne by done. by apply H1.
  - intros va e Hva Hn He. apply H1; [done | done |]. by eapply lookup_weaken.
  - intros i d Hi He. apply H2; [done |]. by eapply lookup_weaken.
Qed.

Lemma rtc_fills_coherent (P : Z → Prop) (t t' : tlb) (m : memory) (pd : Z) :
  (∀ va va', same_page va va' → P va → P va') →
  coherent_except P t m pd → rtc (fills m pd) t t' → coherent_except P t' m pd.
Proof. intros HP Hc Hr. induction Hr; [done |]. eauto using fills_coherent. Qed.

(** [invlpg] repairs the excepted page. *)
Lemma tlb_flush_coherent (virt : Z) (t : tlb) (m : memory) (pd : Z) :
  is_u32 virt → coherent_except (λ va, same_page va virt) t m pd → coherent (tlb_flush virt t) m pd.
Proof.
  intros Hv [H1 _]. split; cbn [tlb_flush pages dirs]; [| done]. intros va e Hva _ He.
  destruct (decide (vpn va = vpn virt)) as [Heq|Hne]; [by rewrite Heq, lookup_delete_eq in He |].
  rewrite lookup_delete_ne in He by done. apply H1; [done | | done]. rewrite <- vpn_same by done. done.
Qed.

(** Tables that change only at [P]. *)
Lemma coherent_change (P : Z → Prop) (t : tlb) (m m' : memory) (pd : Z) :
  (∀ i d, is_index i → decode (entry m pd i) = Some d → decode (entry m' pd i) = Some d) →
  (∀ va e, is_u32 va → ~ P va → walk m pd va = Some e → walk m' pd va = Some e) →
  coherent t m pd → coherent_except P t m' pd.
Proof. intros H1 H2 [C1 C2]. split; [| auto]. intros va e Hva Hn He. apply H2; [done | done |]. apply (C1 va e); [done | tauto | done]. Qed.

(** ** Mapping a page *)

Section map.
Context {F : Type} `{!FrameAlloc F}.

(** A page is mapped into [pd] while [cr3] is in force.  Either they are the same
    directory, and the directory entry is not given the user bit while it is in
    use; or tables are shared at the same index at most. *)
Record map_ok (fs : F) (m : memory) (cr3 pd virt flags : Z) : Prop := {
  mo_frames : frames_ok fs;
  mo_pd : space_ok fs m pd;
  mo_cr3 : space_ok fs m cr3;
  mo_virt : is_u32 virt;
  mo_own : pd = cr3 → present m pd (pd_index virt) = true → Z.testbit flags 2 = true →
    Z.testbit (entry m pd (pd_index virt)) 2 = true;
  mo_dir : pd ≠ cr3 → ∀ j, is_index j → present m cr3 j = true → table m cr3 j ≠ pd;
  mo_table : pd ≠ cr3 → present m pd (pd_index virt) = true →
    table m pd (pd_index virt) ≠ cr3 ∧
    ∀ j, is_index j → present m cr3 j = true → table m cr3 j = table m pd (pd_index virt) → j = pd_index virt
}.

Section mapped.
Variables (fs fs' : F) (m m' : memory) (cr3 pd virt flags v t : Z).
Hypothesis Hok : map_ok fs m cr3 pd virt flags.
Hypothesis Hm : mapped fs m fs' m' pd virt flags v t.

Lemma decode_present (e : Z) (d : tentry) : decode e = Some d → Z.testbit e 0 = true ∧ te_frame d = Z.land e ADDR_MASK.
Proof. unfold decode. destruct (Z.testbit e 0); [by intros [= <-] | done]. Qed.

(** The table written to is not the directory in force, and at most its table at
    the same index. *)
Lemma written_table : pd ≠ cr3 →
  t ≠ cr3 ∧ ∀ j, is_index j → present m cr3 j = true → table m cr3 j = t → present m pd (pd_index virt) = true ∧ j = pd_index virt.
Proof using Hok Hm.
  intros Hne. destruct (present m pd (pd_index virt)) eqn:Hp.
  - destruct (md_old _ _ _ _ _ _ _ _ _ Hm Hp) as [-> _]. destruct (mo_table _ _ _ _ _ _ Hok Hne Hp) as [H1 H2]. split; [done |].
    intros j Hj Hpj Heq. split; [done | by apply H2].
  - destruct (md_new _ _ _ _ _ _ _ _ _ Hm Hp) as (Ht & Hu & _). pose proof (mo_cr3 _ _ _ _ _ _ Hok) as Hc. split.
    + intros ->. rewrite (proj2 (so_pd Hc) Ht) in Hu. done.
    + intros j Hj Hpj Heq. destruct (so_table Hc j Hj Hpj) as [[_ Hr] _]. rewrite Heq in Hr. by rewrite (Hr Ht) in Hu.
Qed.

Lemma map_dirs (i : Z) (d : tentry) : is_index i → decode (entry m cr3 i) = Some d → decode (entry m' cr3 i) = Some d.
Proof using Hok Hm.
  intros Hi Hd. pose proof Hok as [_ Hs Hc Hv Hown _ _]. destruct (decode_present _ _ Hd) as [Hp _].
  destruct (decide (pd = cr3)) as [<-|Hne].
  - destruct (decide (i = pd_index virt)) as [->|Hni].
    + destruct (md_old _ _ _ _ _ _ _ _ _ Hm Hp) as [Ht _]. pose proof (md_present _ _ _ _ _ _ _ _ _ Hm) as P0.
      pose proof (md_user _ _ _ _ _ _ _ _ _ Hm) as P2. pose proof (md_write _ _ _ _ _ _ _ _ _ Hm) as P1.
      pose proof (md_table _ _ _ _ _ _ _ _ _ Hm) as Pt. unfold present, table in *. rewrite Hp in P1, P2. rewrite Ht in Pt.
      rewrite <- Hd. unfold decode. rewrite P0, P1, P2, Pt, Hp. cbn [negb orb andb]. do 2 f_equal.
      destruct (Z.testbit flags 2); [symmetry; by apply Hown | done].
    + by rewrite (mapped_pde fs fs' m m' pd virt flags v t).
  - rewrite (mapped_page fs fs' m m' pd virt flags v t); [done | done | done | done | apply (so_pd Hc) | by apply not_eq_sym | | done].
    apply not_eq_sym, written_table, Hne.
Qed.

Lemma map_walk (va : Z) (e : tentry) :
  is_u32 va → ~ same_page va virt → walk m cr3 va = Some e → walk m' cr3 va = Some e.
Proof using Hok Hm.
  intros Hva Hns. pose proof (pd_index_range va Hva) as Hi. pose proof (pt_index_range va) as Hj. unfold walk.
  destruct (decode (entry m cr3 (pd_index va))) as [d|] eqn:Hd; [| done]. rewrite (map_dirs _ d Hi Hd). simpl.
  destruct (decode_present _ _ Hd) as [Hp Hf]. fold (table m cr3 (pd_index va)) in Hf. unfold walk_table. rewrite Hf.
  assert (entry m' (table m cr3 (pd_index va)) (pt_index va) = entry m (table m cr3 (pd_index va)) (pt_index va)) as ->; [| done].
  pose proof Hok as [_ Hs Hc Hv _ Hdir _]. destruct (so_table Hc _ Hi Hp) as [[Hb _] Hne].
  destruct (decide (table m cr3 (pd_index va) = t)) as [Heq|Hnt].
  - assert (present m pd (pd_index virt) = true ∧ pd_index va = pd_index virt) as [Hpp Hix].
    { destruct (decide (pd = cr3)) as [<-|Hpc]; [| by apply (written_table Hpc)].
      destruct (decide (pd_index va = pd_index virt)) as [Hix|Hix]; [split; [by rewrite <- Hix | done] |].
      by destruct (mapped_table_ne fs fs' m m' pd virt flags v t Hm Hs Hv (pd_index va) Hi Hix Hp). }
    rewrite Heq, (md_rest _ _ _ _ _ _ _ _ _ Hm), Hpp; [done | done |]. intros E. by apply Hns.
  - apply (mapped_page fs fs' m m' pd virt flags v t); try done. destruct (decide (pd = cr3)) as [->|Hpc]; [done |]. by apply Hdir.
Qed.

End mapped.

(** ** The machine *)

(** The allocator and memory, CR3 and the caches. *)
Record machine : Type := Machine { t_frames : F; t_mem : memory; t_cr3 : Z; t_tlb : tlb }.

(** The bytes of a directory and of its tables. *)
Definition table_byte (m : memory) (pd a : Z) : Prop :=
  Invariant.in_page pd a ∨ ∃ i, is_index i ∧ present m pd i = true ∧ Invariant.in_page (table m pd i) a.

(** What happens: the processor fills its caches; memory other than the current
    tables is written; the kernel maps a page, where the processor may fill its
    caches between the stores and the flush; CR3 is loaded.  [kernel_pd] is the
    static directory. *)
Inductive tstep (kernel_pd : Z) : machine → machine → Prop :=
| step_fill fs m cr3 t t' : fills m cr3 t t' → tstep kernel_pd (Machine fs m cr3 t) (Machine fs m cr3 t')
| step_store fs fs' m m' cr3 t :
    agree_on (table_byte m cr3) m m' → tstep kernel_pd (Machine fs m cr3 t) (Machine fs' m' cr3 t)
| step_map_into fs fs' m m' cr3 t t' pd virt phys flags :
    map_ok fs m cr3 pd virt flags → is_u32 phys → 0 <= flags < 4096 →
    paging_map_into pd virt phys flags fs m = Done (fs', m') → rtc (fills m' cr3) t t' →
    tstep kernel_pd (Machine fs m cr3 t) (Machine fs' m' cr3 (tlb_flush virt t'))
| step_map fs fs' m m' cr3 t t' virt phys :
    map_ok fs m cr3 kernel_pd virt 3 → is_u32 phys →
    paging_map kernel_pd virt phys fs m = Done (fs', m') → rtc (fills m' cr3) t t' →
    tstep kernel_pd (Machine fs m cr3 t) (Machine fs' m' cr3 (tlb_flush virt t'))
| step_switch fs m cr3 cr3' t : tstep kernel_pd (Machine fs m cr3 t) (Machine fs m cr3' (switch_cr3 cr3' cr3 t)).

Definition machine_coherent (M : machine) : Prop := coherent (t_tlb M) (t_mem M) (t_cr3 M).

Lemma mapped_coherent (fs fs' : F) (m m' : memory) (cr3 pd virt flags v tb : Z) (t t' : tlb) :
  map_ok fs m cr3 pd virt flags → mapped fs m fs' m' pd virt flags v tb →
  coherent t m cr3 → rtc (fills m' cr3) t t' → coherent (tlb_flush virt t') m' cr3.
Proof.
  intros Hok Hm Hc Hr. apply tlb_flush_coherent; [apply Hok |]. eapply rtc_fills_coherent; [| | exact Hr].
  - intros va va' [E1 E2] [E3 E4]. split; congruence.
  - eapply coherent_change; [| | exact Hc].
    + intros i d. by apply (map_dirs fs fs' m m' cr3 pd virt flags v tb).
    + intros va e. by apply (map_walk fs fs' m m' cr3 pd virt flags v tb).
Qed.

Lemma store_coherent (t : tlb) (m m' : memory) (pd : Z) : agree_on (table_byte m pd) m m' → coherent t m pd → coherent t m' pd.
Proof.
  intros Hag.
  assert (∀ i, is_index i → entry m' pd i = entry m pd i) as He.
  { intros i Hi. eapply entry_agree; [exact Hag |]. intros b Hb. left. unfold is_index, Invariant.in_page, PAGE_SIZE in *. lia. }
  apply coherent_change; [intros i d Hi; by rewrite He |]. intros va e Hva _. unfold walk. pose proof (pd_index_range va Hva) as Hi.
  rewrite He by done. destruct (decode (entry m pd (pd_index va))) as [d|] eqn:Hd; [| done]. simpl.
  destruct (decode_present _ _ Hd) as [Hp Hf]. unfold walk_table. rewrite Hf. fold (table m pd (pd_index va)).
  rewrite (entry_agree _ _ _ (table m pd (pd_index va)) (pt_index va) Hag); [done |]. intros b Hb. right. exists (pd_index va).
  pose proof (pt_index_range va). unfold is_index, Invariant.in_page, PAGE_SIZE in *. split_and!; [lia.. | done | lia | lia].
Qed.

Lemma tstep_coherent (kernel_pd : Z) (M M' : machine) : machine_coherent M → tstep kernel_pd M M' → machine_coherent M'.
Proof.
  unfold machine_coherent. intros Hc Hs.
  destruct Hs as [fs m cr3 t t' Hf | fs fs' m m' cr3 t Hag | fs fs' m m' cr3 t t' pd virt phys flags Hok Hph Hfl E Hr
    | fs fs' m m' cr3 t t' virt phys Hok Hph E Hr | fs m cr3 cr3' t]; cbn [t_tlb t_mem t_cr3] in *.
  - by eapply fills_coherent; [| exact Hc | exact Hf].
  - by apply (store_coherent t m m').
  - destruct (map_into_cases fs m pd virt phys flags) as [(fs1 & m1 & tb & E1 & Hm)|[E1 _]]; [apply Hok.. | done | done | |];
      rewrite E in E1; [| done]. injection E1 as <- <-. by eapply mapped_coherent.
  - destruct (map_cases kernel_pd fs m virt phys) as [(fs1 & m1 & tb & E1 & Hm)|[E1 _]]; [apply Hok.. | done | |];
      rewrite E in E1; [| done]. injection E1 as <- <-. by eapply mapped_coherent.
  - unfold switch_cr3. destruct (Z.eqb_spec cr3' cr3) as [->|]; [done | apply no_entries_coherent].
Qed.

(** ** Properties *)

(** C16. The caches are invisible.  Start with empty caches, as a load of CR3 leaves
    them, and let the processor fill and drop entries at any time, also between a
    store to a page table and the [invlpg] that follows it, while the kernel writes
    other memory, maps pages with [paging_map] and [paging_map_into], into the
    current address space or another one that may share page tables with it, and
    switches address spaces, without a load of CR3 where it stays the same.  Then
    every access, answered from the TLB, from a cached directory entry or by a
    walk, is translated as the page tables in memory say. *)
Theorem tlb_transparent (kernel_pd : Z) (fs fs' : F) (m m' : memory) (cr3 cr3' : Z) (t' : tlb) (a : access) (va : Z) :
  rtc (tstep kernel_pd) (Machine fs m cr3 no_entries) (Machine fs' m' cr3' t') → is_u32 va →
  mmu a t' m' cr3' va = translate a m' cr3' va.
Proof.
  intros Hr Hva. apply mmu_coherent; [| done]. change (machine_coherent (Machine fs' m' cr3' t')).
  set (M' := Machine fs' m' cr3' t') in *. clearbody M'.
  assert (machine_coherent (Machine fs m cr3 no_entries)) as H by apply no_entries_coherent. revert H.
  induction Hr as [|M1 M2 M3 H1 _ IH]; [done |]. intros H. apply IH. by eapply tstep_coherent.
Qed.

End map.

(** The steps of loading a program are such steps: while the kernel directory is in
    force, mapping into the directory of a process that is being built meets the
    conditions, although the two share the identity tables. *)
Lemma building_map_ok {F : Type} `{!FrameAlloc F} (lk : Process.link) (k : Process.kernel F) (R : Z → Prop) (live : gset Z)
    (l z : list Z) (p : Z) (fs : F) (m : memory) (virt flags : Z) :
  Space.building lk k R live l z p fs m → is_u32 virt →
  map_ok fs m (Process.l_kernel_pd lk) (Scheduler.cr3 (Process.kpcb k p)) virt flags.
Proof.
  intros Hb Hv. pose proof Hb as [Hk [Hp Hi] Hs Hlow]. set (pd := Scheduler.cr3 (Process.kpcb k p)) in *.
  pose proof (Invariant.ki_space _ _ _ _ _ _ Hk) as Hks. change (space_ok fs m (Process.l_kernel_pd lk)) in Hks.
  destruct (Space.bg_holds lk k R live l z p fs m pd Hb (Space.bg_holds_pd k p m)) as (_ & _ & Hnk & _).
  pose proof (pd_index_range virt Hv) as Hix. split; try done.
  - apply Hk.
  - intros Heq. destruct Hnk. by left.
  - intros _ j Hj Hpj Heq. apply Hnk. right. by exists j.
  - intros _ Hpr. destruct (decide (pd_index virt < IDENTITY_PT_COUNT)) as [Hlt|Hge].
    + destruct (Hlow _ Hix Hlt Hpr) as [(_ & H1 & _) H2]. split; [done |]. intros j Hj Hpj Heq.
      destruct H2 as [H2 H3]; [right; by exists j |]. apply (so_inj Hks); [done | done | done | done |]. by rewrite H3.
    + destruct (Space.bg_holds lk k R live l z p fs m (table m pd (pd_index virt)) Hb) as (_ & _ & Hnt & _).
      { right. right. right. exists (pd_index virt). split_and!; [done | lia | done | by left]. }
      split; [intros Heq; apply Hnt; by left |]. intros j Hj Hpj Heq. destruct Hnt. right. by exists j.
Qed.

(** ** Witness *)

#[local] Existing Instance Pmm.pmm_frames.

(** While the directory at 0x11000 is in force and its entry 8 is cached, a page is
    mapped into the directory at 0x10000; then that one is switched to. *)
Lemma tlb_transparent_witness :
  ∃ fs' m' t', rtc (tstep 0x10000) (Machine Pmm.demo_pmm demo_memory 0x11000 no_entries) (Machine fs' m' 0x10000 t') ∧
    mmu (Access true true) t' m' 0x10000 0x2000123 = translate (Access true true) m' 0x10000 0x2000123.
Proof.
  destruct demo_map_done as (fs' & m' & E).
  set (t1 := Caches ∅ (<[8 := TEntry 0x12000 true true]> ∅)).
  assert (rtc (tstep 0x10000) (Machine Pmm.demo_pmm demo_memory 0x11000 no_entries)
    (Machine fs' m' 0x10000 (switch_cr3 0x10000 0x11000 (tlb_flush 0x2000000 t1)))) as Hr.
  { eapply rtc_l; [apply step_fill, (fill_dir _ _ _ 8 (TEntry 0x12000 true true)) |].
    - unfold is_index. lia.
    - destruct (demo_entry 8) as [_ ->]; [unfold is_index; lia | reflexivity].
    - eapply rtc_l; [eapply (step_map_into 0x10000 _ fs' _ m' _ _ t1 0x10000 0x2000000 0x20000 7); [| | | exact E | apply rtc_refl] | apply rtc_once, step_switch].
      + split; [exact demo_frames_ok | exact demo_kernel_ok | exact demo_user_ok | unfold is_u32; lia | lia | |].
        * intros _ j Hj Hpj. by apply (iso_dir2 _ _ _ demo_isolated).
        * intros _ Hp. exfalso. unfold present in Hp. change (pd_index 0x2000000) with 8 in Hp.
          destruct (demo_entry 8) as [Hd _]; [unfold is_index; lia |]. rewrite Hd in Hp. discriminate Hp.
      + unfold is_u32. lia.
      + lia. }
  eexists fs', m', _. split; [exact Hr |]. apply (tlb_transparent 0x10000 _ _ _ _ _ _ _ (Access true true) 0x2000123 Hr). unfold is_u32. lia.
Defined.

End Tlb.
