(* ===== verification/Keyboard.v ===== *)
(** * The PS/2 keyboard driver ([drivers/keyboard.c])

    The interrupt handler decodes scancodes of set 1, tracks the shift keys and
    pushes characters into a 256-byte circular buffer; [keyboard_getchar] pops
    them.  The byte the handler reads from port 0x60 is an argument of the model.

    The contract is a bounded first-in first-out queue: 255 characters at most,
    newest dropped when full.  [keyboard_refines_fifo] shows that the circular
    buffer implements it on every sequence of interrupts and reads. *)

From S2P Require Import Prelude Vga.

Module Keyboard.

(** ** The driver *)

Definition KEYBOARD_BUF_SIZE : Z := 256.

Definition QUOTE : Z := 34.

Definition sc_ascii : list Z :=
  [0; 0] ++ Vga.chars "1234567890-=" ++ [8; 9] ++ Vga.chars "qwertyuiop[]" ++ [10; 0] ++
  Vga.chars "asdfghjkl;'`" ++ [0] ++ Vga.chars "\zxcvbnm,./" ++ [0] ++ Vga.chars "*" ++ [0] ++
  Vga.chars " " ++ replicate 13 0 ++ Vga.chars "789-456+1230." ++ replicate 4 0.

Definition sc_ascii_shift : list Z :=
  [0; 0] ++ Vga.chars "!@#$%^&*()_+" ++ [8; 9] ++ Vga.chars "QWERTYUIOP{}" ++ [10; 0] ++
  Vga.chars "ASDFGHJKL:" ++ [QUOTE] ++ Vga.chars "~" ++ [0] ++ Vga.chars "|ZXCVBNM<>?" ++ [0] ++
  Vga.chars "*" ++ [0] ++ Vga.chars " " ++ replicate 13 0 ++ Vga.chars "789-456+1230." ++ replicate 4 0.

Record keyboard : Type := Keyboard {
  kb_buf : list Z;
  kb_head : Z;
  kb_tail : Z;
  shift : Z
}.

Definition with_shift (s : Z) (k : keyboard) : keyboard := Keyboard (kb_buf k) (kb_head k) (kb_tail k) s.

(** The static objects are zero at boot. *)
Definition kb_boot : keyboard := Keyboard (replicate 256 0) 0 0 0.

Definition kb_buf_push (c : Z) (k : keyboard) : keyboard :=
  let next := u8 (Z.rem (kb_head k + 1) KEYBOARD_BUF_SIZE) in
  if negb (next =? kb_tail k) then Keyboard (aset (kb_buf k) (kb_head k) c) next (kb_tail k) (shift k) else k.

Definition keyboard_handler (sc : Z) (k : keyboard) : keyboard :=
  if negb (Z.land sc 0x80 =? 0) then
    let released := u8 (Z.land sc 0x7F) in
    if (released =? 0x2A) || (released =? 0x36) then with_shift 0 k else k
  else if (sc =? 0x2A) || (sc =? 0x36) then with_shift 1 k
  else if sc <? Z.of_nat (length sc_ascii) then
    let c := if negb (shift k =? 0) then aget sc_ascii_shift sc else aget sc_ascii sc in
    if negb (c =? 0) then kb_buf_push c k else k
  else k.

Definition keyboard_getchar (k : keyboard) : Z * keyboard :=
  if kb_head k =? kb_tail k then (0, k)
  else (aget (kb_buf k) (kb_tail k),
        Keyboard (kb_buf k) (kb_head k) (u8 (Z.rem (kb_tail k + 1) KEYBOARD_BUF_SIZE)) (shift k)).

Definition keyboard_init (k : keyboard) : keyboard := k.

(** ** What happens to the driver *)

Inductive event : Type :=
| Scancode (sc : Z)
| Getchar.

(** The characters the reads return, oldest first. *)
Definition kb_step (e : event) (k : keyboard) : list Z * keyboard :=
  match e with
  | Scancode sc => ([], keyboard_handler (u8 sc) k)
  | Getchar => let '(c, k) := keyboard_getchar k in ([c], k)
  end.

Fixpoint kb_run (es : list event) (k : keyboard) : list Z * keyboard :=
  match es with
  | [] => ([], k)
  | e :: es => let '(o, k) := kb_step e k in let '(o', k) := kb_run es k in (o ++ o', k)
  end.

(** ** The contract: a bounded queue of typed characters *)

Record fifo : Type := Fifo { typed : list Z; shifted : bool }.

Inductive key : Type :=
| ShiftDown
| ShiftUp
| Char (plain upper : Z)
| NoKey.

(** Set 1: the code of a key, plus 128 when it is released. *)
Definition decode (sc : Z) : key :=
  if 128 <=? sc then if (sc =? 128 + 0x2A) || (sc =? 128 + 0x36) then ShiftUp else NoKey
  else if (sc =? 0x2A) || (sc =? 0x36) then ShiftDown
  else match sc_ascii !! Z.to_nat sc, sc_ascii_shift !! Z.to_nat sc with
       | Some p, Some u => Char p u
       | _, _ => NoKey
       end.

Definition fifo_push (c : Z) (q : fifo) : fifo :=
  if (Z.of_nat (length (typed q)) <? 255) && negb (c =? 0) then Fifo (typed q ++ [c]) (shifted q) else q.

Definition fifo_step (e : event) (q : fifo) : list Z * fifo :=
  match e with
  | Scancode sc =>
      ([], match decode (u8 sc) with
           | ShiftDown => Fifo (typed q) true
           | ShiftUp => Fifo (typed q) false
           | Char p u => fifo_push (if shifted q then u else p) q
           | NoKey => q
           end)
  | Getchar => match typed q with [] => ([0], q) | c :: l => ([c], Fifo l (shifted q)) end
  end.

Fixpoint fifo_run (es : list event) (q : fifo) : list Z * fifo :=
  match es with
  | [] => ([], q)
  | e :: es => let '(o, q) := fifo_step e q in let '(o', q) := fifo_run es q in (o ++ o', q)
  end.

(** ** The circular buffer holds the queue *)

(** The queue is in the [length q] cells from the read position on, wrapping
    around at 256. *)
Record holds (k : keyboard) (q : fifo) : Prop := {
  ho_len : length (kb_buf k) = 256%nat;
  ho_tail : 0 <= kb_tail k < 256;
  ho_room : (length (typed q) <= 255)%nat;
  ho_head : kb_head k = (kb_tail k + Z.of_nat (length (typed q))) mod 256;
  ho_cells i c : typed q !! i = Some c → aget (kb_buf k) ((kb_tail k + Z.of_nat i) mod 256) = c ∧ c ≠ 0;
  ho_shift : shifted q = negb (shift k =? 0)
}.

Lemma rem_256 (x : Z) : 0 <= x → u8 (Z.rem x KEYBOARD_BUF_SIZE) = x mod 256.
Proof. intros Hx. unfold u8, KEYBOARD_BUF_SIZE. rewrite Z.rem_mod_nonneg by lia. apply Zmod_mod. Qed.

Lemma push_holds (k : keyboard) (q : fifo) (c : Z) :
  holds k q → c ≠ 0 → holds (kb_buf_push c k) (fifo_push c q).
Proof.
  intros [H1 H2 H3 H4 H5 H6] Hc. pose proof (Z.mod_pos_bound (kb_tail k + Z.of_nat (length (typed q))) 256 ltac:(lia)) as Hh.
  unfold kb_buf_push, fifo_push. rewrite rem_256 by lia. destruct (Z.eqb_spec c 0); [done |].
  destruct (Z.ltb_spec (Z.of_nat (length (typed q))) 255) as [Hr|Hr]; cbn [andb negb].
  - destruct (Z.eqb_spec ((kb_head k + 1) mod 256) (kb_tail k)) as [He|_]; [exfalso; zlia |]. cbn [negb].
    split; cbn [kb_buf kb_head kb_tail typed shift shifted]; rewrite ?length_app; simpl; try done; try lia.
    + by rewrite length_aset.
    + rewrite H4. zlia.
    + intros i d [Hi|(Hi & Hd)]%lookup_app_Some.
      * destruct (H5 i d Hi) as [E ?]. apply lookup_lt_Some in Hi. rewrite aget_aset_ne; [done | lia | zlia |]. rewrite H4. zlia.
      * apply list_lookup_singleton_Some in Hd as [Hi0 ->]. split; [| done].
        replace ((kb_tail k + Z.of_nat i) mod 256) with (kb_head k) by (rewrite H4; do 2 f_equal; lia).
        apply aget_aset_eq. rewrite H1. lia.
  - destruct (Z.eqb_spec ((kb_head k + 1) mod 256) (kb_tail k)) as [_|He]; [by split | exfalso; apply He; zlia].
Qed.

Lemma shift_holds (k : keyboard) (q : fifo) (s : Z) (b : bool) :
  holds k q → b = negb (s =? 0) → holds (with_shift s k) (Fifo (typed q) b).
Proof. intros [] Hb. by split. Qed.

Lemma released_bit (sc : Z) : 0 <= sc < 256 → Z.land sc 0x80 = 128 * (sc / 128).
Proof. intros Hsc. pose proof (land_high_mask sc 7 8 ltac:(lia) Hsc) as E. change (Z.shiftl (Z.ones (8 - 7)) 7) with 0x80 in E. zlia. Qed.

Lemma handler_holds (k : keyboard) (q : fifo) (sc : Z) :
  0 <= sc < 256 → holds k q → holds (keyboard_handler sc k) (snd (fifo_step (Scancode sc) q)).
Proof.
  intros Hsc Hh. unfold keyboard_handler, fifo_step, decode. cbn [snd]. rewrite (u8_id sc) by (unfold is_u8; lia).
  rewrite released_bit by done. change 0x7F with (Z.ones 7). rewrite land_low_mask by lia.
  destruct (Z.leb_spec 128 sc).
  - replace (sc / 128) with 1 by zlia. change (negb (128 * 1 =? 0)) with true. cbv iota.
    rewrite (u8_id (sc mod 2 ^ 7)) by (unfold is_u8; zlia). replace (sc mod 2 ^ 7) with (sc - 128) by zlia.
    replace (sc =? 128 + 42) with (sc - 128 =? 42) by (zcases; done || lia).
    replace (sc =? 128 + 54) with (sc - 128 =? 54) by (zcases; done || lia).
    destruct ((sc - 128 =? 42) || (sc - 128 =? 54)); [by apply shift_holds | done].
  - replace (sc / 128) with 0 by zlia. change (negb (128 * 0 =? 0)) with false. cbv iota.
    destruct ((sc =? 42) || (sc =? 54)); [by apply shift_holds |].
    change (Z.of_nat (length sc_ascii)) with 88.
    destruct (Z.ltb_spec sc 88).
    + unfold aget. destruct (lookup_lt_is_Some_2 sc_ascii (Z.to_nat sc)) as [p Hp].
      { change (length sc_ascii) with 88%nat. lia. }
      destruct (lookup_lt_is_Some_2 sc_ascii_shift (Z.to_nat sc)) as [u Hu].
      { change (length sc_ascii_shift) with 88%nat. lia. }
      rewrite Hp, Hu, (ho_shift _ _ Hh). cbn [default from_option id].
      set (c := if negb (shift k =? 0) then u else p).
      destruct (Z.eqb_spec c 0) as [E|E]; cbn [negb].
      * unfold fifo_push. rewrite E, Z.eqb_refl, andb_false_r. done.
      * by apply push_holds.
    + rewrite (lookup_ge_None_2 sc_ascii) by (change (length sc_ascii) with 88%nat; lia). done.
Qed.

Lemma getchar_holds (k : keyboard) (q : fifo) :
  holds k q →
  fst (kb_step Getchar k) = fst (fifo_step Getchar q) ∧ holds (snd (kb_step Getchar k)) (snd (fifo_step Getchar q)).
Proof.
  intros Hh. pose proof Hh as [H1 H2 H3 H4 H5 H6]. unfold kb_step, keyboard_getchar, fifo_step.
  rewrite rem_256 by lia. destruct q as [[|c l] sh]; cbn [typed shifted length] in *.
  - replace (kb_head k) with (kb_tail k) by (rewrite H4; zlia). by rewrite Z.eqb_refl.
  - destruct (Z.eqb_spec (kb_head k) (kb_tail k)) as [E|_]; [exfalso; zlia |]. cbn [fst snd].
    destruct (H5 0%nat c eq_refl) as [E Hc]. replace ((kb_tail k + Z.of_nat 0) mod 256) with (kb_tail k) in E by zlia.
    split; [by rewrite E |]. split; cbn [kb_buf kb_head kb_tail typed shift shifted]; try done; try zlia.
    intros i d Hi. destruct (H5 (S i) d Hi) as [E' Hd]. split; [| done]. rewrite <- E'. f_equal. zlia.
Qed.

Lemma kb_step_holds (e : event) (k : keyboard) (q : fifo) :
  holds k q → fst (kb_step e k) = fst (fifo_step e q) ∧ holds (snd (kb_step e k)) (snd (fifo_step e q)).
Proof.
  destruct e as [sc|]; [| apply getchar_holds]. intros Hh. split; [done |].
  pose proof (u8_range sc) as Hr. pose proof (handler_holds k q (u8 sc) Hr Hh) as H.
  unfold fifo_step in *. by rewrite (u8_id (u8 sc)) in H by done.
Qed.

Lemma kb_run_holds (es : list event) (k : keyboard) (q : fifo) :
  holds k q → fst (kb_run es k) = fst (fifo_run es q) ∧ holds (snd (kb_run es k)) (snd (fifo_run es q)).
Proof.
  revert k q. induction es as [|e es IH]; intros k q Hh; cbn [kb_run fifo_run]; [done |].
  destruct (kb_step_holds e k q Hh) as [E1 H1].
  destruct (kb_step e k) as [o k1], (fifo_step e q) as [o' q1]. cbn [fst snd] in *. subst o'.
  destruct (IH k1 q1 H1) as [E2 H2]. destruct (kb_run es k1), (fifo_run es q1). cbn [fst snd] in *. by subst.
Qed.

(** C23. The keyboard driver implements its contract: on every sequence of
    scancode interrupts and reads, the 256-byte circular buffer returns exactly
    the characters a first-in first-out queue bounded to 255 characters would
    (the newest dropped when full, 0 when empty), with the shift state deciding
    between the two scancode tables; every queued character is non-zero, so a
    read returns 0 only when nothing is pending. *)
Theorem keyboard_refines_fifo (es : list event) :
  let q := snd (fifo_run es (Fifo [] false)) in
  fst (kb_run es kb_boot) = fst (fifo_run es (Fifo [] false)) ∧
  holds (snd (kb_run es kb_boot)) q ∧
  (fst (keyboard_getchar (snd (kb_run es kb_boot))) = 0 ↔ typed q = []).
Proof.
  intros q. destruct (kb_run_holds es kb_boot (Fifo [] false)) as [E H].
  { split; try done. simpl. lia. }
  fold q in H. split_and!; [done | done |].
  destruct (getchar_holds _ _ H) as [G _]. unfold kb_step in G.
  destruct (keyboard_getchar (snd (kb_run es kb_boot))) as [c k']. cbn [fst] in *.
  pose proof (ho_cells _ _ H 0%nat) as Hc. unfold fifo_step in G.
  destruct (typed q) as [|d l]; cbn [fst] in G; simplify_eq; [done |]. split; [| done].
  intros ->. by destruct (Hc 0 eq_refl).
Qed.

End Keyboard.
