(* ===== verification/Ramfs.v ===== *)
(** * The RAM file system ([kernel/ramfs.c], [kernel/ramfs.h])

    A flat table of sixteen files; an entry has a 31-character name and points
    at bytes that live elsewhere.  Names are C strings the caller points at: in
    kernel memory, or in the memory of a user process where a read can fault.
    A name is therefore a reader of its bytes, which may panic.

    The contract is a finite map from names to (address, size) pairs:
    [ramfs_register_refines] and [ramfs_lookup_refines] show that the table
    implements it, errors included. *)

From S2P Require Import Prelude.

Module Ramfs.

Definition RAMFS_MAX_FILES : Z := 16.
Definition RAMFS_MAX_NAME_LEN : Z := 32.

Record ramfs_file : Type := RamfsFile {
  name : list Z;
  data : Z;
  size : Z;
  in_use : Z
}.

Abbreviation ramfs := (list ramfs_file).

(** The zeroed static table. *)
Definition ramfs_boot : ramfs := replicate 16 (RamfsFile (replicate 32 0) 0 0 0).

(** The byte at an offset from a [const char *]. *)
Abbreviation reader := (Z → outcome Z).

(** The reader of a [char] array in the kernel's own data. *)
Definition array (l : list Z) : reader := λ i, Done (aget l i).

(** ** Operations *)

(** [while ( *a && *b) ...; return *a == *b;]  An entry's name ends within its 32
    bytes, so that 32 rounds are enough. *)
Fixpoint str_eq_from (fuel : nat) (i : Z) (a b : reader) : outcome bool :=
  match fuel with
  | O => Diverged
  | S fuel' =>
      let! x := a i in
      let! y := b i in
      if negb (x =? 0) && negb (y =? 0) then
        if negb (x =? y) then Done false else str_eq_from fuel' (i + 1) a b
      else Done (x =? y)
  end.

Definition str_eq : reader → reader → outcome bool := str_eq_from 32 0.

Fixpoint str_len_from (fuel : nat) (n : Z) (s : reader) : outcome Z :=
  match fuel with
  | O => Diverged
  | S fuel' =>
      let! c := s n in
      if negb (c =? 0) && (n <? RAMFS_MAX_NAME_LEN - 1) then str_len_from fuel' (n + 1) s else Done n
  end.

Definition str_len : reader → outcome Z := str_len_from 32 0.

Definition clear_use (e : ramfs_file) : ramfs_file := RamfsFile (name e) (data e) (size e) 0.

Definition ramfs_init (fs : ramfs) : ramfs := clear_use <$> fs.

Fixpoint lookup_from (i : Z) (fs : ramfs) (nm : reader) : outcome Z :=
  match fs with
  | [] => Done (-1)
  | e :: fs' =>
      if in_use e =? 0 then lookup_from (i + 1) fs' nm
      else
        let! eq := str_eq (array (name e)) nm in
        if eq : bool then Done i else lookup_from (i + 1) fs' nm
  end.

Definition ramfs_lookup (nm : reader) (fs : ramfs) : outcome Z := lookup_from 0 fs nm.

(** [for (j = 0; j <= len; j++) files[i].name[j] = name[j];] *)
Fixpoint copy_name (n : nat) (j : Z) (nm : reader) (dst : list Z) : outcome (list Z) :=
  match n with
  | O => Done dst
  | S n' => let! c := nm j in copy_name n' (j + 1) nm (aset dst j c)
  end.

Fixpoint register_from (i len : Z) (nm : reader) (d sz : Z) (fs : ramfs) : outcome (Z * ramfs) :=
  match fs with
  | [] => Done (-1, [])
  | e :: fs' =>
      if in_use e =? 0 then
        let! nbuf := copy_name (Z.to_nat (len + 1)) 0 nm (name e) in
        Done (i, RamfsFile nbuf d sz 1 :: fs')
      else
        let! r := register_from (i + 1) len nm d sz fs' in
        Done (fst r, e :: snd r)
  end.

Definition ramfs_register (nm : reader) (d sz : Z) (fs : ramfs) : outcome (Z * ramfs) :=
  let! len := str_len nm in
  let! last := nm len in
  if (len =? 0) || negb (last =? 0) then Done (-1, fs)
  else
    let! found := ramfs_lookup nm fs in
    if 0 <=? found then Done (-1, fs) else register_from 0 len nm d sz fs.

Definition ramfs_get (index : Z) (fs : ramfs) : option ramfs_file :=
  if (index <? 0) || (RAMFS_MAX_FILES <=? index) then None
  else e ← fs !! Z.to_nat index; if in_use e =? 0 then None else Some e.

Definition ramfs_capacity : Z := RAMFS_MAX_FILES.

(** ** Strings *)

(** The characters before the NUL. *)
Fixpoint cname (l : list Z) : list Z :=
  match l with
  | [] => []
  | c :: l' => if c =? 0 then [] else c :: cname l'
  end.

(** [nm] reads the string [s]. *)
Record reads (nm : reader) (s : list Z) : Prop := {
  rs_char i c : s !! i = Some c → nm (Z.of_nat i) = Done c ∧ c ≠ 0;
  rs_end : nm (Z.of_nat (length s)) = Done 0
}.

Lemma reads_tail (nm : reader) (c : Z) (s : list Z) :
  reads nm (c :: s) → reads (λ i, nm (i + 1)) s.
Proof.
  intros [H1 H2]. split.
  - intros i d Hi. destruct (H1 (S i) d Hi). by replace (Z.of_nat i + 1) with (Z.of_nat (S i)) by lia.
  - by replace (Z.of_nat (length s) + 1) with (Z.of_nat (length (c :: s))) by (simpl; lia).
Qed.

Lemma reads_head (nm : reader) (c : Z) (s : list Z) : reads nm (c :: s) → nm 0 = Done c ∧ c ≠ 0.
Proof. intros [H _]. by apply (H 0%nat). Qed.

Lemma array_cname (l : list Z) :
  (length (cname l) < length l)%nat → reads (array l) (cname l).
Proof.
  intros Hl. split.
  - unfold array, aget. clear Hl. induction l as [|x l IH]; intros i c Hi; [done |]. simpl in Hi.
    destruct (Z.eqb_spec x 0); [done |]. destruct i as [|i]; simpl in Hi; [by simplify_eq |].
    destruct (IH i c Hi) as [E ?]. split; [| done]. rewrite Nat2Z.id in *. exact E.
  - unfold array, aget. rewrite Nat2Z.id. f_equal. induction l as [|x l IH]; [done |].
    simpl in *. destruct (Z.eqb_spec x 0); [done |]. simpl in *. apply IH. lia.
Qed.

Lemma str_eq_from_shift (fuel : nat) (i : Z) (a b : reader) :
  str_eq_from fuel (i + 1) a b = str_eq_from fuel i (λ j, a (j + 1)) (λ j, b (j + 1)).
Proof. revert i. induction fuel as [|n IH]; intros i; [done |]. cbn [str_eq_from]. by rewrite IH. Qed.

Lemma reads_first (nm : reader) (s : list Z) : reads nm s → nm 0 = Done (default 0 (head s)) ∧ (default 0 (head s) = 0 ↔ s = []).
Proof.
  destruct s as [|c s]; intros H; [by split; [apply H |] |].
  destruct (reads_head _ _ _ H). split; [done |]. simpl. done.
Qed.

Lemma str_eq_spec (fuel : nat) (a b : reader) (s t : list Z) :
  reads a s → reads b t → (length s < fuel)%nat → str_eq_from fuel 0 a b = Done (bool_decide (s = t)).
Proof.
  revert a b s t. induction fuel as [|fuel IH]; intros a b s t Ha Hb Hf; [lia |]. cbn [str_eq_from].
  destruct (reads_first _ _ Ha) as [-> Ea], (reads_first _ _ Hb) as [-> Eb]. cbn [obind].
  destruct s as [|x s], t as [|y t]; cbn [head default from_option id] in *.
  - done.
  - destruct (Z.eqb_spec 0 y); [naive_solver |]. done.
  - destruct (Z.eqb_spec x 0); [naive_solver |]. done.
  - destruct (Z.eqb_spec x 0); [naive_solver |]. destruct (Z.eqb_spec y 0); [naive_solver |]. cbn [negb andb].
    destruct (Z.eqb_spec x y) as [->|Hne]; cbn [negb].
    + change 1 with (0 + 1). rewrite str_eq_from_shift, (IH _ _ s t); [| by eapply reads_tail | by eapply reads_tail | simpl in Hf; lia].
      f_equal. apply bool_decide_ext. naive_solver.
    + f_equal. symmetry. apply bool_decide_eq_false_2. naive_solver.
Qed.

Lemma str_len_spec (fuel : nat) (n : nat) (nm : reader) (s : list Z) :
  reads nm s → (n <= length s)%nat → (n <= 31)%nat → (31 - n < fuel)%nat →
  str_len_from fuel (Z.of_nat n) nm = Done (Z.of_nat (Nat.min (length s) 31)).
Proof.
  intros Hs. revert n. induction fuel as [|fuel IH]; intros n Hn Hn31 Hf; [lia |]. cbn [str_len_from].
  unfold RAMFS_MAX_NAME_LEN in *. destruct (decide (n = length s)) as [->|].
  - rewrite (rs_end _ _ Hs). simpl. do 2 f_equal. lia.
  - destruct (lookup_lt_is_Some_2 s n) as [c Hc]; [lia |]. destruct (rs_char _ _ Hs n c Hc) as [-> Hc0]. cbn [obind].
    destruct (Z.eqb_spec c 0); [done |]. destruct (Z.ltb_spec (Z.of_nat n) (32 - 1)); cbn [negb andb].
    + replace (Z.of_nat n + 1) with (Z.of_nat (S n)) by lia. apply IH; lia.
    + do 2 f_equal. lia.
Qed.

Lemma copy_name_spec (nm : reader) (s : list Z) (n : nat) (j : nat) (dst : list Z) :
  reads nm s → (length s < length dst)%nat → (j + n = S (length s))%nat →
  take j dst = take j (s ++ [0]) →
  ∃ dst', copy_name n (Z.of_nat j) nm dst = Done dst' ∧ length dst' = length dst ∧
    take (S (length s)) dst' = s ++ [0].
Proof.
  intros Hs. revert j dst. induction n as [|n IH]; intros j dst Hd Hj Ht; cbn [copy_name].
  - exists dst. split_and!; [done | done |]. replace (S (length s)) with j by lia. rewrite Ht.
    apply firstn_all2. rewrite length_app. simpl. lia.
  - assert (∃ c, nm (Z.of_nat j) = Done c ∧ (s ++ [0]) !! j = Some c) as (c & -> & Hc).
    { destruct (decide (j = length s)) as [->|]; [exists 0 |].
      - split; [exact (rs_end _ _ Hs) | by rewrite lookup_app_r, Nat.sub_diag by lia].
      - destruct (lookup_lt_is_Some_2 s j) as [c Hc]; [lia |]. exists c. split; [by apply (rs_char _ _ Hs) | by apply lookup_app_l_Some]. }
    cbn [obind]. replace (Z.of_nat j + 1) with (Z.of_nat (S j)) by lia.
    destruct (IH (S j) (aset dst (Z.of_nat j) c)) as (dst' & E & Hl & Hd'); [rewrite length_aset; done | lia | |].
    { rewrite (take_S_r _ _ _ Hc). rewrite (take_S_r _ _ c).
      - f_equal. unfold aset. rewrite Nat2Z.id, take_insert_ge by lia. done.
      - unfold aset. rewrite Nat2Z.id. apply list_lookup_insert_eq. lia. }
    exists dst'. rewrite length_aset in Hl. done.
Qed.

Lemma cname_take (l s : list Z) (n : nat) : take n l = s ++ [0] → (∀ i c, s !! i = Some c → c ≠ 0) → cname l = s.
Proof.
  revert l n. induction s as [|x s IH]; intros l n Ht Hs.
  - destruct l as [|y l], n; simpl in *; simplify_eq. done.
  - destruct l as [|y l], n; simpl in *; simplify_eq. destruct (Z.eqb_spec x 0) as [E|]; [by apply (Hs 0%nat) in E |].
    f_equal. apply (IH l n); [done |]. intros i. apply (Hs (S i)).
Qed.

(** ** The contract: a finite map *)

Definition binding (e : ramfs_file) : option (list Z * (Z * Z)) :=
  if in_use e =? 0 then None else Some (cname (name e), (data e, size e)).

Definition bindings (fs : ramfs) : list (list Z * (Z * Z)) := omap binding fs.

Definition files_map (fs : ramfs) : gmap (list Z) (Z * Z) := list_to_map (bindings fs).

(** Sixteen entries with 32-byte names; those in use end in a NUL, are not
    empty, and no two have the same name. *)
Record wf (fs : ramfs) : Prop := {
  wf_len : length fs = 16%nat;
  wf_name e : e ∈ fs → length (name e) = 32%nat;
  wf_cname e : e ∈ fs → in_use e ≠ 0 → (0 < length (cname (name e)) < 32)%nat;
  wf_nodup : NoDup (bindings fs).*1
}.

Lemma bindings_elem (fs : ramfs) (k : list Z) (v : Z * Z) :
  (k, v) ∈ bindings fs ↔ ∃ e, e ∈ fs ∧ in_use e ≠ 0 ∧ cname (name e) = k ∧ (data e, size e) = v.
Proof.
  unfold bindings. rewrite list_elem_of_omap. unfold binding. split.
  - intros (e & He & Hb). exists e. destruct (Z.eqb_spec (in_use e) 0); naive_solver.
  - intros (e & He & Hu & <- & <-). exists e. destruct (Z.eqb_spec (in_use e) 0); naive_solver.
Qed.

Lemma files_map_lookup (fs : ramfs) (s : list Z) (v : Z * Z) :
  wf fs → files_map fs !! s = Some v ↔ ∃ e, e ∈ fs ∧ in_use e ≠ 0 ∧ cname (name e) = s ∧ (data e, size e) = v.
Proof.
  intros Hwf. rewrite <- bindings_elem. symmetry. apply elem_of_list_to_map, Hwf.
Qed.

(** The search, from position [i] on. *)
Lemma lookup_from_spec (fs : ramfs) (i : Z) (nm : reader) (s : list Z) :
  reads nm s → (∀ e, e ∈ fs → length (name e) = 32%nat) →
  (∀ e, e ∈ fs → in_use e ≠ 0 → (0 < length (cname (name e)) < 32)%nat) →
  (∃ j e, lookup_from i fs nm = Done (i + Z.of_nat j) ∧ fs !! j = Some e ∧ in_use e ≠ 0 ∧ cname (name e) = s) ∨
  (lookup_from i fs nm = Done (-1) ∧ ∀ e, e ∈ fs → in_use e ≠ 0 → cname (name e) ≠ s).
Proof.
  intros Hs. revert i. induction fs as [|e fs IH]; intros i Hl Hn; cbn [lookup_from]; [right; split; [done | by intros e ?%not_elem_of_nil] |].
  destruct (IH (i + 1)) as [(j & e' & E & He' & Hu & Hc)|[E Hno]];
    [intros; apply Hl; by right | intros; apply Hn; [by right | done] | |].
  all: destruct (Z.eqb_spec (in_use e) 0) as [Eu|Eu].
  all: try (unfold str_eq; rewrite (str_eq_spec 32 _ nm (cname (name e)) s);
    [| apply array_cname; rewrite Hl by (by left); by apply Hn; [left |] | done | by apply Hn; [left |]]; cbn [obind];
    destruct (bool_decide_reflect (cname (name e) = s)) as [Es|Es]).
  - left. exists (S j), e'. rewrite E. split_and!; [f_equal; lia | done | done | done].
  - left. exists 0%nat, e. split_and!; [f_equal; lia | done | done | done].
  - left. exists (S j), e'. rewrite E. split_and!; [f_equal; lia | done | done | done].
  - right. split; [done |]. intros e' [->|He']%elem_of_cons; [done | by apply Hno].
  - left. exists 0%nat, e. split_and!; [f_equal; lia | done | done | done].
  - right. split; [done |]. intros e' [->|He']%elem_of_cons; [done | by apply Hno].
Qed.

Lemma lookup_spec (fs : ramfs) (nm : reader) (s : list Z) :
  wf fs → reads nm s →
  match files_map fs !! s with
  | Some v => ∃ j e, ramfs_lookup nm fs = Done (Z.of_nat j) ∧ fs !! j = Some e ∧ in_use e ≠ 0 ∧
      cname (name e) = s ∧ (data e, size e) = v
  | None => ramfs_lookup nm fs = Done (-1)
  end.
Proof.
  intros Hwf Hs. destruct (lookup_from_spec fs 0 nm s Hs (wf_name _ Hwf) (wf_cname _ Hwf))
    as [(j & e & E & He & Hu & Hc)|[E Hno]].
  - assert (files_map fs !! s = Some (data e, size e)) as ->.
    { apply files_map_lookup; [done |]. exists e. split_and!; try done. by eapply list_elem_of_lookup_2. }
    exists j, e. done.
  - destruct (files_map fs !! s) as [v|] eqn:Ev; [| exact E].
    apply files_map_lookup in Ev as (e & He & Hu & Hc & _); [| done]. by destruct (Hno e He Hu).
Qed.

Lemma register_from_spec (fs : ramfs) (i : Z) (nm : reader) (s : list Z) (d sz : Z) :
  reads nm s → (length s < 32)%nat → (∀ e, e ∈ fs → length (name e) = 32%nat) →
  (∃ l1 e0 l2 nb, fs = l1 ++ e0 :: l2 ∧ in_use e0 = 0 ∧ Forall (λ e, in_use e ≠ 0) l1 ∧
     length nb = 32%nat ∧ cname nb = s ∧
     register_from i (Z.of_nat (length s)) nm d sz fs = Done (i + Z.of_nat (length l1), l1 ++ RamfsFile nb d sz 1 :: l2)) ∨
  (Forall (λ e, in_use e ≠ 0) fs ∧ register_from i (Z.of_nat (length s)) nm d sz fs = Done (-1, fs)).
Proof.
  intros Hs Hl32. revert i. induction fs as [|e fs IH]; intros i Hl; cbn [register_from]; [by right |].
  destruct (Z.eqb_spec (in_use e) 0) as [Eu|Eu].
  - left. destruct (copy_name_spec nm s (S (length s)) 0 (name e) Hs) as (nb & E & Hn & Ht); [| lia | done |].
    { rewrite Hl by (by left). lia. }
    exists [], e, fs, nb. replace (Z.to_nat (Z.of_nat (length s) + 1)) with (S (length s)) by lia.
    change (Z.of_nat 0) with 0 in E. rewrite E. cbn [obind]. split_and!; try done.
    + rewrite Hn. apply Hl. by left.
    + apply (cname_take _ _ (S (length s))); [done |]. intros k c Hk. by apply (rs_char _ _ Hs k).
    + simpl. by rewrite Z.add_0_r.
  - destruct (IH (i + 1)) as [(l1 & e0 & l2 & nb & -> & H1 & H2 & H3 & H4 & E)|[H E]]; [intros; apply Hl; by right | left | right].
    + exists (e :: l1), e0, l2, nb. split_and!; try done; [by constructor |]. rewrite E. cbn [obind fst snd app length].
      do 2 f_equal. lia.
    + rewrite E. split; [by constructor | done].
Qed.

Lemma bindings_app (l1 l2 : ramfs) (e : ramfs_file) :
  bindings (l1 ++ e :: l2) = bindings l1 ++ (match binding e with Some b => [b] | None => [] end) ++ bindings l2.
Proof. unfold bindings. rewrite omap_app. simpl. destruct (binding e); done. Qed.

(** Filling a free entry with a new name. *)
Lemma fill_wf (l1 l2 : ramfs) (e0 : ramfs_file) (nb s : list Z) (d sz : Z) :
  wf (l1 ++ e0 :: l2) → in_use e0 = 0 → length nb = 32%nat → cname nb = s → (0 < length s < 32)%nat →
  files_map (l1 ++ e0 :: l2) !! s = None →
  wf (l1 ++ RamfsFile nb d sz 1 :: l2) ∧
  files_map (l1 ++ RamfsFile nb d sz 1 :: l2) = <[s := (d, sz)]> (files_map (l1 ++ e0 :: l2)).
Proof.
  intros [W1 W2 W3 W4] Hu Hnb Hc Hs Hno. set (e := RamfsFile nb d sz 1).
  assert (bindings (l1 ++ e0 :: l2) = bindings l1 ++ bindings l2) as E0.
  { rewrite bindings_app. unfold binding. by rewrite Hu. }
  assert (bindings (l1 ++ e :: l2) ≡ₚ (s, (d, sz)) :: bindings (l1 ++ e0 :: l2)) as Ep.
  { rewrite bindings_app, E0. unfold binding. simpl. rewrite Hc. by rewrite <- Permutation_middle. }
  assert (NoDup ((s, (d, sz)) :: bindings (l1 ++ e0 :: l2)).*1) as Hnd.
  { cbn [fmap list_fmap fst]. apply NoDup_cons. split; [| done]. by apply not_elem_of_list_to_map in Hno. }
  assert (∀ x, x ∈ l1 ++ e :: l2 → x = e ∨ x ∈ l1 ++ e0 :: l2) as Hin.
  { intros x. rewrite !elem_of_app, !elem_of_cons. tauto. }
  assert (NoDup (bindings (l1 ++ e :: l2)).*1) as Hnd'.
  { rewrite (fmap_Permutation fst _ _ Ep). exact Hnd. }
  split; [split |].
  - rewrite length_app in *. exact W1.
  - intros x [->|Hx]%Hin; [done | by apply W2].
  - intros x [->|Hx]%Hin Hux; [by subst s | by apply W3].
  - done.
  - unfold files_map. rewrite (list_to_map_proper _ _ Hnd' Ep). done.
Qed.

(** [ramfs_register] on a well-formed table. *)
Lemma register_spec (fs : ramfs) (nm : reader) (s : list Z) (d sz : Z) :
  wf fs → reads nm s →
  let bad := s = [] ∨ (31 < length s)%nat ∨ is_Some (files_map fs !! s) ∨ Forall (λ e, in_use e ≠ 0) fs in
  (bad ∧ ramfs_register nm d sz fs = Done (-1, fs)) ∨
  (¬ bad ∧ ∃ i fs', ramfs_register nm d sz fs = Done (i, fs') ∧ 0 <= i < 16 ∧ ramfs_get i fs = None ∧
     wf fs' ∧ files_map fs' = <[s := (d, sz)]> (files_map fs) ∧
     ∃ e, ramfs_get i fs' = Some e ∧ cname (name e) = s ∧ data e = d ∧ size e = sz).
Proof.
  intros Hwf Hs bad. remember (ramfs_register nm d sz fs) as r eqn:Er. unfold ramfs_register, str_len in Er.
  change (str_len_from 32 0 nm) with (str_len_from 32 (Z.of_nat 0) nm) in Er.
  rewrite (str_len_spec 32 0 nm s Hs) in Er by lia. cbn [obind] in Er.
  destruct (decide (31 < length s)%nat) as [Hlong|Hlong].
  { left. split; [right; by left |]. rewrite Nat.min_r in Er by lia.
    destruct (lookup_lt_is_Some_2 s 31) as [c Hc]; [lia |]. destruct (rs_char _ _ Hs 31%nat c Hc) as [E31 Hc0].
    rewrite E31 in Er. cbn [obind] in Er. by destruct (Z.eqb_spec c 0). }
  rewrite Nat.min_l, (rs_end _ _ Hs) in Er by lia. cbn [obind] in Er. rewrite orb_false_r in Er.
  destruct s as [|c0 s0]; [left; split; [by left | done] |]. set (s := c0 :: s0) in *.
  destruct (Z.eqb_spec (Z.of_nat (length s)) 0); [done |].
  pose proof (lookup_spec fs nm s Hwf Hs) as Hl. destruct (files_map fs !! s) as [v|] eqn:Ev.
  { destruct Hl as (j & e & E & _). left. split; [right; right; left; by eexists |]. rewrite E in Er. cbn [obind] in Er.
    by destruct (Z.leb_spec 0 (Z.of_nat j)); [| lia]. }
  rewrite Hl in Er. cbn [obind] in Er. destruct (Z.leb_spec 0 (-1)); [lia |].
  destruct (register_from_spec fs 0 nm s d sz Hs ltac:(lia) (wf_name _ Hwf)) as
    [(l1 & e0 & l2 & nb & -> & Hu & Hf & Hnb & Hc & E)|[Hf E]]; rewrite E in Er;
    [right | left; split; [by repeat right | done]].
  pose proof (wf_len _ Hwf) as Hlen. rewrite length_app in Hlen. simpl in Hlen.
  destruct (fill_wf l1 l2 e0 nb s d sz Hwf Hu Hnb Hc ltac:(simpl in *; lia) Ev) as [Hwf' Hm]. split.
  { intros [Hb|[Hb|[[v Hb]|Hb]]]; [done | lia | congruence |]. apply Forall_app in Hb as [_ [Hb _]%Forall_cons]. done. }
  exists (Z.of_nat (length l1)), (l1 ++ RamfsFile nb d sz 1 :: l2). split_and!; [exact Er | lia | lia | | done | done |].
  all: unfold ramfs_get, RAMFS_MAX_FILES; destruct (Z.ltb_spec (Z.of_nat (length l1)) 0); [lia |];
    destruct (Z.leb_spec 16 (Z.of_nat (length l1))); [lia |]; cbn [orb];
    rewrite Nat2Z.id, lookup_app_r, Nat.sub_diag by lia; simpl.
  - by rewrite Hu.
  - by eexists.
Qed.

(** ** Theorems *)

(** C24. [ramfs_register] implements insertion into a finite map: registering a
    name fails with -1 and changes nothing exactly when the name is empty,
    longer than 31 characters or already registered, or when all sixteen entries
    are in use; otherwise it returns the index of a free entry, and the map of the
    new table is the old one with the name bound to the given bytes.  The table
    stays well-formed. *)
Theorem ramfs_register_refines (fs : ramfs) (nm : reader) (s : list Z) (d sz : Z) :
  wf fs → reads nm s →
  let bad := s = [] ∨ (31 < length s)%nat ∨ is_Some (files_map fs !! s) ∨ Forall (λ e, in_use e ≠ 0) fs in
  (bad ∧ ramfs_register nm d sz fs = Done (-1, fs)) ∨
  (¬ bad ∧ ∃ i fs', ramfs_register nm d sz fs = Done (i, fs') ∧ 0 <= i < 16 ∧ ramfs_get i fs = None ∧
     wf fs' ∧ files_map fs' = <[s := (d, sz)]> (files_map fs) ∧
     ∃ e, ramfs_get i fs' = Some e ∧ cname (name e) = s ∧ data e = d ∧ size e = sz).
Proof. apply register_spec. Qed.

(** [ramfs_lookup] followed by [ramfs_get] is lookup in the map: a registered
    name gives the index of its entry, whose bytes are the registered ones; any
    other name, of any length, gives -1. *)
Theorem ramfs_lookup_refines (fs : ramfs) (nm : reader) (s : list Z) :
  wf fs → reads nm s →
  ∃ i, ramfs_lookup nm fs = Done i ∧ ((λ e, (data e, size e)) <$> ramfs_get i fs) = files_map fs !! s ∧
    (i = -1 ↔ files_map fs !! s = None).
Proof.
  intros Hwf Hs. pose proof (lookup_spec fs nm s Hwf Hs) as Hl. pose proof (wf_len _ Hwf) as Hlen.
  destruct (files_map fs !! s) as [v|]; [| by exists (-1)].
  destruct Hl as (j & e & E & He & Hu & _ & Hv). exists (Z.of_nat j). split; [done |]. apply lookup_lt_Some in He as Hj.
  split; [| split; [lia | done]]. unfold ramfs_get, RAMFS_MAX_FILES.
  destruct (Z.ltb_spec (Z.of_nat j) 0); [lia |]. destruct (Z.leb_spec 16 (Z.of_nat j)); [lia |]. cbn [orb].
  rewrite Nat2Z.id, He. cbn [mbind option_bind]. destruct (Z.eqb_spec (in_use e) 0); [done |]. simpl. by rewrite Hv.
Qed.

Lemma init_wf (fs : ramfs) :
  length fs = 16%nat → (∀ e, e ∈ fs → length (name e) = 32%nat) → wf (ramfs_init fs) ∧ files_map (ramfs_init fs) = ∅.
Proof.
  intros Hl Hn. assert (bindings (ramfs_init fs) = []) as E.
  { unfold bindings, ramfs_init. clear. induction fs as [|e fs IH]; [done |]. exact IH. }
  split; [split |].
  - unfold ramfs_init. by rewrite length_fmap.
  - intros e (e' & -> & He')%list_elem_of_fmap. exact (Hn e' He').
  - intros e (e' & -> & He')%list_elem_of_fmap Hu. by destruct Hu.
  - rewrite E. constructor.
  - unfold files_map. by rewrite E.
Qed.

Lemma ramfs_boot_wf : wf (ramfs_init ramfs_boot) ∧ files_map (ramfs_init ramfs_boot) = ∅.
Proof.
  apply init_wf; [done |]. intros e He. apply elem_of_replicate in He as [-> _]. done.
Qed.

(** ** Witnesses *)

Lemma array_reads (s : list Z) : Forall (λ c, c ≠ 0) s → reads (array (s ++ [0])) s.
Proof.
  intros Hs. split.
  - intros i c Hi. unfold array, aget. rewrite Nat2Z.id, (lookup_app_l_Some _ _ _ _ Hi). split; [done |].
    by eapply Forall_lookup_1 in Hs.
  - unfold array, aget. by rewrite Nat2Z.id, lookup_app_r, Nat.sub_diag by lia.
Qed.

Lemma ramfs_register_refines_witness :
  ∃ i fs', ramfs_register (array [104; 105; 0]) 0x5000 7 (ramfs_init ramfs_boot) = Done (i, fs') ∧
    files_map fs' !! [104; 105] = Some (0x5000, 7).
Proof.
  destruct (ramfs_register_refines (ramfs_init ramfs_boot) (array [104; 105; 0]) [104; 105] 0x5000 7) as
    [[Hb _]|[_ (i & fs' & E & _ & _ & _ & Hm & _)]].
  - apply ramfs_boot_wf.
  - apply (array_reads [104; 105]). repeat constructor; done.
  - exfalso. destruct Hb as [Hb|[Hb|[Hb|Hb]]]; [done | simpl in Hb; lia | |].
    + rewrite (proj2 ramfs_boot_wf) in Hb. destruct Hb as [x Hx]. discriminate Hx.
    + apply Forall_cons in Hb as [Hb _]. done.
  - exists i, fs'. split; [exact E |]. rewrite Hm. apply lookup_insert_eq.
Defined.

Lemma ramfs_lookup_refines_witness : ramfs_lookup (array [104; 105; 0]) (ramfs_init ramfs_boot) = Done (-1).
Proof.
  destruct (ramfs_lookup_refines (ramfs_init ramfs_boot) (array [104; 105; 0]) [104; 105]) as (i & E & _ & Hi).
  - apply ramfs_boot_wf.
  - apply (array_reads [104; 105]). repeat constructor; done.
  - rewrite E. f_equal. apply Hi. rewrite (proj2 ramfs_boot_wf). done.
Defined.

End Ramfs.
