(* ===== verification/Syscall.v ===== *)
(** * System calls ([kernel/syscall.c])

    The handler behind [int 0x80]: console output, exit, yield, and the
    open/read/close interface to the RAM file system with the per-process table
    of file descriptors.  Pointers the caller passes are dereferenced in ring 0
    under the caller's page directory: every byte goes through the page walk
    [Paging.translate], and an unmapped byte is a page fault, on which the kernel
    panics. *)

From S2P Require Import Prelude Memory Frames Vga Pmm Kmalloc Paging Scheduler Context Elf Process Ramfs.

Module Syscall.
Import Scheduler Process.

Definition SYS_WRITE : Z := 0.
Definition SYS_EXIT : Z := 1.
Definition SYS_YIELD : Z := 2.
Definition SYS_OPEN : Z := 3.
Definition SYS_READ : Z := 4.
Definition SYS_CLOSE : Z := 5.
Definition SYS_FORK : Z := 6.

(** [(uint32_t)-1] *)
Definition ERROR : Z := u32 (-1).

(** ** Memory through the page tables *)

Definition page_fault {A : Type} : outcome A := Panicked "Page fault".

Definition vload8 (m : memory) (pd va : Z) : outcome Z :=
  match Paging.translate Paging.supervisor m pd (u32 va) with
  | Some pa => Done (load8 m pa)
  | None => page_fault
  end.

Definition vstore8 (m : memory) (pd va v : Z) : outcome memory :=
  match Paging.translate Paging.supervisor m pd (u32 va) with
  | Some pa => Done (store8 m pa v)
  | None => page_fault
  end.

(** [for (i = 0; i < n; i++) vga_putchar(buf[i]);] *)
Fixpoint write_loop (n : nat) (i : Z) (m : memory) (pd buf : Z) (v : Vga.vga) : outcome Vga.vga :=
  match n with
  | O => Done v
  | S n' => let! c := vload8 m pd (buf + i) in write_loop n' (i + 1) m pd buf (Vga.vga_putchar c v)
  end.

(** [for (i = 0; i < n; i++) buf[i] = src[i];] *)
Fixpoint read_loop (n : nat) (i : Z) (pd buf src : Z) (m : memory) : outcome memory :=
  match n with
  | O => Done m
  | S n' =>
      let! b := vload8 m pd (src + i) in
      let! m := vstore8 m pd (buf + i) b in
      read_loop n' (i + 1) pd buf src m
  end.

(** ** File descriptors *)

Definition fd_get (p : process) (fd : Z) : fd_entry := default (FdEntry 0 0 0) (fds p !! Z.to_nat fd).
Definition fd_set (fd : Z) (e : fd_entry) (p : process) : process := set_fds (<[Z.to_nat fd := e]> (fds p)) p.

(** [for (fd = 3; fd < MAX_FDS_PER_PROCESS; fd++)]: [n] descriptors are left. *)
Fixpoint alloc_fd_from (n : nat) (fd : Z) (p : process) : Z :=
  match n with
  | O => -1
  | S n' => if fd_in_use (fd_get p fd) =? 0 then fd else alloc_fd_from n' (fd + 1) p
  end.

Definition alloc_fd (p : process) : Z := alloc_fd_from (Z.to_nat (MAX_FDS_PER_PROCESS - 3)) 3 p.

Section syscall.
Context {F : Type} `{!FrameAlloc F}.
Variable lk : link.
Variable fs : Ramfs.ramfs.

Definition cur_pd (k : kernel F) : Z := Context.r_cr3 (k_cpu k).

(** ** The calls *)

Definition sys_write (fd buf len : Z) (k : kernel F) : outcome (Z * kernel F) :=
  if negb (fd =? 1) || (buf =? 0) then Done (ERROR, k)
  else
    let! v := write_loop (Z.to_nat len) 0 (k_mem k) (cur_pd k) buf (k_vga k) in
    Done (len, with_vga v k).

Definition sys_exit (code : Z) (k : kernel F) : outcome (Z * kernel F) :=
  let! k := process_exit lk code k in
  Done (0, k).

Definition sys_yield (k : kernel F) : outcome (Z * kernel F) := Done (0, scheduler_yield lk k).

Definition user_string (k : kernel F) (path : Z) : Ramfs.reader := λ i, vload8 (k_mem k) (cur_pd k) (path + i).

Definition sys_open (path : Z) (k : kernel F) : outcome (Z * kernel F) :=
  if path =? 0 then Done (ERROR, k)
  else
    let! file_idx := Ramfs.ramfs_lookup (user_string k path) fs in
    if file_idx <? 0 then Done (ERROR, k)
    else
      let proc := process_current (k_procs k) in
      let fd := alloc_fd (kpcb k proc) in
      if fd <? 0 then Done (ERROR, k)
      else Done (u32 fd, kedit proc (fd_set fd (FdEntry 1 file_idx 0)) k).

Definition sys_read (fd buf len : Z) (k : kernel F) : outcome (Z * kernel F) :=
  if buf =? 0 then Done (ERROR, k)
  else if (fd <? 3) || (MAX_FDS_PER_PROCESS <=? fd) then Done (ERROR, k)
  else
    let proc := process_current (k_procs k) in
    let e := fd_get (kpcb k proc) fd in
    if fd_in_use e =? 0 then Done (ERROR, k)
    else
      match Ramfs.ramfs_get (file_idx e) fs with
      | None => Done (ERROR, k)
      | Some file =>
          let remaining := u32 (Ramfs.size file - fd_offset e) in
          let to_copy := if len <? remaining then len else remaining in
          let! m := read_loop (Z.to_nat to_copy) 0 (cur_pd k) buf (Ramfs.data file + fd_offset e) (k_mem k) in
          let e' := FdEntry (fd_in_use e) (file_idx e) (u32 (fd_offset e + to_copy)) in
          Done (to_copy, kedit proc (fd_set fd e') (with_mem m k))
      end.

Definition sys_close (fd : Z) (k : kernel F) : outcome (Z * kernel F) :=
  if (fd <? 3) || (MAX_FDS_PER_PROCESS <=? fd) then Done (ERROR, k)
  else
    let proc := process_current (k_procs k) in
    let e := fd_get (kpcb k proc) fd in
    if fd_in_use e =? 0 then Done (ERROR, k)
    else Done (0, kedit proc (fd_set fd (FdEntry 0 (-1) 0)) k).

(** [r->eax], [r->ebx], [r->ecx], [r->edx] are the arguments. *)
Definition syscall_handler (eax ebx ecx edx : Z) (k : kernel F) : outcome (Z * kernel F) :=
  if eax =? SYS_WRITE then sys_write (s32 ebx) ecx edx k
  else if eax =? SYS_EXIT then sys_exit (s32 ebx) k
  else if eax =? SYS_YIELD then sys_yield k
  else if eax =? SYS_OPEN then sys_open ebx k
  else if eax =? SYS_READ then sys_read (s32 ebx) ecx edx k
  else if eax =? SYS_CLOSE then sys_close (s32 ebx) k
  else
    let v := Vga.vga_set_color Vga.VGA_COLOR_LIGHT_RED (k_vga k) in
    let v := Vga.kprints "[syscall] unknown number: " v in
    let v := Vga.kprint_int (s32 eax) v in
    let v := Vga.kprint [Vga.NEWLINE] v in
    Done (ERROR, with_vga (Vga.vga_set_color Vga.VGA_COLOR_LIGHT_GREY v) k).

End syscall.

(** ** Copying through the page tables *)

(** The bytes the walk of [va] reads. *)
Definition walk_byte (m : memory) (pd va a : Z) : Prop :=
  (∃ i, 0 <= i < 4 ∧ a = pd + 4 * Paging.pd_index va + i) ∨
  (∃ i, 0 <= i < 4 ∧ a = Paging.table m pd (Paging.pd_index va) + 4 * Paging.pt_index va + i).

Lemma translate_agree (acc : Paging.access) (m m' : memory) (pd va : Z) :
  agree_on (walk_byte m pd va) m m' → Paging.translate acc m' pd va = Paging.translate acc m pd va.
Proof.
  intros Hag. unfold Paging.translate.
  assert (Paging.entry m' pd (Paging.pd_index va) = Paging.entry m pd (Paging.pd_index va)) as ->.
  { eapply Paging.entry_agree; [exact Hag |]. intros a Ha. left. exists (a - (pd + 4 * Paging.pd_index va)). lia. }
  destruct (Paging.permits acc _); [| done].
  change (Z.land (Paging.entry m pd (Paging.pd_index va)) Paging.ADDR_MASK) with (Paging.table m pd (Paging.pd_index va)).
  set (t := Paging.table m pd (Paging.pd_index va)).
  assert (Paging.entry m' t (Paging.pt_index va) = Paging.entry m t (Paging.pt_index va)) as ->; [| done].
  eapply Paging.entry_agree; [exact Hag |]. intros a Ha. right. exists (a - (t + 4 * Paging.pt_index va)). unfold t. lia.
Qed.

(** [n] bytes from [va] on are mapped, byte [i] at the physical address [pa i]. *)
Definition mapped_range (m : memory) (pd va n : Z) (pa : Z → Z) : Prop :=
  ∀ i, 0 <= i < n → Paging.translate Paging.supervisor m pd (u32 (va + i)) = Some (pa i).

(** A buffer whose bytes are distinct, none of them in a source range or in the
    page tables that map the two. *)
Record buffer_ok (m : memory) (pd buf src n : Z) (pb ps : Z → Z) : Prop := {
  bo_buf : mapped_range m pd buf n pb;
  bo_src : mapped_range m pd src n ps;
  bo_inj i j : 0 <= i < n → 0 <= j < n → pb i = pb j → i = j;
  bo_apart i j : 0 <= i < n → 0 <= j < n → pb i ≠ ps j;
  bo_walk i j : 0 <= i < n → 0 <= j < n →
    ~ walk_byte m pd (u32 (buf + j)) (pb i) ∧ ~ walk_byte m pd (u32 (src + j)) (pb i)
}.

Lemma read_loop_spec (m : memory) (pd buf src n : Z) (pb ps : Z → Z) :
  buffer_ok m pd buf src n pb ps →
  ∀ j i m1, 0 <= i → i + Z.of_nat j = n →
  (∀ a, (∀ x, 0 <= x < i → a ≠ pb x) → load8 m1 a = load8 m a) →
  (∀ x, 0 <= x < i → load8 m1 (pb x) = load8 m (ps x)) →
  ∃ m', read_loop j i pd buf src m1 = Done m' ∧
    (∀ x, 0 <= x < n → load8 m' (pb x) = load8 m (ps x)) ∧
    (∀ a, (∀ x, 0 <= x < n → a ≠ pb x) → load8 m' a = load8 m a).
Proof.
  intros [B1 B2 B3 B4 B5]. induction j as [|j IH]; intros i m1 Hi Hn Hout Hin; cbn [read_loop].
  { replace n with i by lia. exists m1. done. }
  unfold vload8. rewrite (translate_agree _ m) by (intros a Ha; apply Hout; intros x Hx ->; exact (proj2 (B5 x i ltac:(lia) ltac:(lia)) Ha)).
  rewrite B2 by lia. cbn [obind]. unfold vstore8.
  rewrite (translate_agree _ m) by (intros a Ha; apply Hout; intros x Hx ->; exact (proj1 (B5 x i ltac:(lia) ltac:(lia)) Ha)).
  rewrite B1 by lia. cbn [obind]. apply IH; [lia | lia | |].
  - intros a Ha. rewrite load8_store8_ne by (apply not_eq_sym, Ha; lia). apply Hout. intros x Hx. apply Ha. lia.
  - intros x Hx. destruct (decide (x = i)) as [->|].
    + rewrite load8_store8_eq, u8_id by apply load8_range. apply Hout. intros x Hx' E. by apply (B4 x i ltac:(lia) ltac:(lia)).
    + rewrite load8_store8_ne by (intros E; apply B3 in E; lia). apply Hin. lia.
Qed.

(** The bytes of a file. *)
Definition file_byte (m : memory) (pd : Z) (f : Ramfs.ramfs_file) (i b : Z) : Prop :=
  vload8 m pd (Ramfs.data f + i) = Done b.

(** ** Descriptors of a process *)

Section fds.
Variable fs : Ramfs.ramfs.

(** An open descriptor names a file and stands inside it. *)
Definition fd_ok (e : fd_entry) : Prop :=
  fd_in_use e ≠ 0 → ∃ f, Ramfs.ramfs_get (file_idx e) fs = Some f ∧ 0 <= fd_offset e <= Ramfs.size f.

(** Eight descriptors, the three standard ones closed. *)
Definition fds_ok (p : process) : Prop :=
  length (fds p) = 8%nat ∧ (∀ fd, 0 <= fd < 3 → fd_in_use (fd_get p fd) = 0) ∧ Forall fd_ok (fds p).

Lemma fd_set_get (fd fd' : Z) (e : fd_entry) (p : process) :
  0 <= fd < Z.of_nat (length (fds p)) → 0 <= fd' →
  fd_get (fd_set fd e p) fd' = if decide (fd = fd') then e else fd_get p fd'.
Proof.
  intros Hfd Hfd'. unfold fd_get, fd_set. replace (fds (set_fds _ p)) with (<[Z.to_nat fd := e]> (fds p)) by (by destruct p).
  case_decide as E; [subst; rewrite list_lookup_insert_eq by lia; done | by rewrite list_lookup_insert_ne by lia].
Qed.

Lemma fd_get_ok (p : process) (fd : Z) : fds_ok p → fd_ok (fd_get p fd).
Proof.
  intros (_ & _ & H). unfold fd_get. destruct (fds p !! Z.to_nat fd) as [e|] eqn:E; [by eapply Forall_lookup_1 in H |].
  intros Hu. by destruct Hu.
Qed.

Lemma fd_set_ok (p : process) (fd : Z) (e : fd_entry) : fds_ok p → 3 <= fd < 8 → fd_ok e → fds_ok (fd_set fd e p).
Proof.
  intros (H1 & H2 & H3) Hfd He. split_and!.
  - unfold fd_set. destruct p. simpl in *. by rewrite length_insert.
  - intros fd' Hfd'. rewrite fd_set_get by lia. case_decide; [lia | by apply H2].
  - unfold fd_set. destruct p. simpl in *. by apply Forall_insert.
Qed.

Lemma alloc_fd_spec (p : process) :
  (alloc_fd p = -1 ∧ ∀ fd, 3 <= fd < 8 → fd_in_use (fd_get p fd) ≠ 0) ∨
  (3 <= alloc_fd p < 8 ∧ fd_in_use (fd_get p (alloc_fd p)) = 0 ∧
   ∀ fd, 3 <= fd < alloc_fd p → fd_in_use (fd_get p fd) ≠ 0).
Proof.
  unfold alloc_fd. change (Z.to_nat (MAX_FDS_PER_PROCESS - 3)) with 5%nat.
  assert (∀ n i, 3 <= i → i + Z.of_nat n = 8 → (∀ fd, 3 <= fd < i → fd_in_use (fd_get p fd) ≠ 0) →
    (alloc_fd_from n i p = -1 ∧ ∀ fd, 3 <= fd < 8 → fd_in_use (fd_get p fd) ≠ 0) ∨
    (3 <= alloc_fd_from n i p < 8 ∧ fd_in_use (fd_get p (alloc_fd_from n i p)) = 0 ∧
     ∀ fd, 3 <= fd < alloc_fd_from n i p → fd_in_use (fd_get p fd) ≠ 0)) as H.
  { induction n as [|n IH]; intros i Hi Hn Hf; cbn [alloc_fd_from].
    - left. split; [done |]. intros fd Hfd. apply Hf. lia.
    - destruct (Z.eqb_spec (fd_in_use (fd_get p i)) 0) as [E|E]; [right; split_and!; done || lia |].
      apply IH; [lia | lia |]. intros fd Hfd. destruct (decide (fd = i)) as [->|]; [done | apply Hf; lia]. }
  apply H; lia.
Qed.

End fds.

(** ** Scheduling leaves the descriptors alone *)

Definition same_fds (s s' : procs) : Prop := ∀ p, fds (pcb s' p) = fds (pcb s p).

#[export] Instance same_fds_refl : Reflexive same_fds.
Proof. by intros s p. Qed.

#[export] Instance same_fds_trans : Transitive same_fds.
Proof. intros s1 s2 s3 H1 H2 p. by rewrite H2. Qed.

(** The fields a scheduling step writes. *)
Definition keeps_fds (f : process → process) : Prop := ∀ x, fds (f x) = fds x.

Lemma same_edit (p : Z) (f : process → process) (s s' : procs) :
  keeps_fds f → same_fds s s' → same_fds s (edit p f s').
Proof.
  intros Hf H q. destruct (decide (q = p)) as [->|]; [rewrite pcb_edit_eq, Hf | rewrite pcb_edit_ne by done]; apply H.
Qed.

Lemma same_with (s s' s'' : procs) : pcbs s'' = pcbs s' → same_fds s s' → same_fds s s''.
Proof. intros E H p. unfold pcb. rewrite E. apply H. Qed.

Lemma keeps_setters :
  (∀ v, keeps_fds (set_next v)) ∧ (∀ v, keeps_fds (set_state v)) ∧ (∀ v, keeps_fds (set_exit_code v)) ∧
  (∀ v, keeps_fds (set_esp v)) ∧ keeps_fds (λ p, set_ticks_remaining (priority p) p).
Proof. unfold keeps_fds. split_and!; intros; match goal with x : process |- _ => by destruct x end. Qed.

(** One step of a chain of edits and updates of queue variables. *)
Ltac same_step :=
  match goal with
  | |- same_fds ?s ?s => reflexivity
  | H : same_fds ?s ?s' |- same_fds ?s ?s' => exact H
  | |- same_fds _ (edit _ _ _) => apply same_edit; [solve [apply keeps_setters] |]
  | |- same_fds _ (with_head _ ?s) => apply (same_with _ s); [done |]
  | |- same_fds _ (with_tail _ ?s) => apply (same_with _ s); [done |]
  | |- same_fds _ (with_size _ ?s) => apply (same_with _ s); [done |]
  | |- same_fds _ (with_zombies _ ?s) => apply (same_with _ s); [done |]
  | |- same_fds _ (with_current _ ?s) => apply (same_with _ s); [done |]
  end.

Lemma same_rotate (s : procs) : same_fds s (rotate s).
Proof.
  unfold rotate, append_tail. set (s1 := with_head _ s).
  assert (same_fds s (if queue_head s1 =? 0 then with_tail 0 s1 else s1)) as H by (destruct (queue_head s1 =? 0); unfold s1; repeat same_step).
  set (s2 := if queue_head s1 =? 0 then _ else _) in *. clearbody s2. cbv zeta.
  destruct (queue_head (edit _ _ s2) =? 0); repeat same_step.
Qed.

Lemma same_pick (s : procs) : same_fds s (snd (pick_next s)).
Proof.
  unfold pick_next. destruct (queue_head s =? 0); [done |]. generalize (Z.to_nat (queue_size s)) as n. intros n.
  revert s. induction n as [|n IH]; intros s; cbn [pick_loop]; [done |].
  destruct (bool_decide _); [apply same_rotate |]. etrans; [apply same_rotate | apply IH].
Qed.

Lemma same_dequeue_loop (fuel : nat) (p prev cur : Z) (s s' : procs) :
  dequeue_loop fuel p prev cur s = Done s' → same_fds s s'.
Proof.
  revert prev cur. induction fuel as [|fuel IH]; intros prev cur; cbn [dequeue_loop]; [done |].
  destruct (cur =? 0); [by intros [= <-] |]. destruct (cur =? p); [| apply IH].
  set (s1 := if prev =? 0 then _ else _).
  assert (same_fds s s1) as H1 by (unfold s1; destruct (prev =? 0); repeat same_step). clearbody s1. cbv zeta.
  destruct (cur =? queue_tail s1); intros [= <-]; repeat same_step.
Qed.

Lemma same_mark_zombie (p : Z) (s s' : procs) : scheduler_mark_zombie p s = Done s' → same_fds s s'.
Proof.
  unfold scheduler_mark_zombie. destruct (p =? 0); [by intros [= <-] |].
  intros (s1 & E1 & E2)%obind_Done. injection E2 as <-.
  assert (same_fds s s1) as H1.
  { unfold scheduler_dequeue in E1. destruct (_ || _); [by injection E1 as <- |]. by apply same_dequeue_loop in E1. }
  repeat same_step.
Qed.

Section switching.
Context {F : Type} `{!FrameAlloc F}.
Variable lk : link.

Lemma same_switch_call (old nx ret : Z) (c : Context.cpu) (m : memory) (s : procs) :
  same_fds s (snd (Context.call_context_switch old nx ret c m s)).
Proof.
  unfold Context.call_context_switch. destruct (Context.push _ _) as [c1 m1]. unfold Context.context_switch.
  destruct (Context.save_registers c1 m1) as [c2 m2]. cbv zeta. cbn [snd]. repeat same_step.
Qed.

Lemma same_do_switch (nx : Z) (k : kernel F) : same_fds (k_procs k) (k_procs (do_switch lk nx k)).
Proof.
  unfold do_switch. destruct (_ =? _); [done |].
  set (k1 := if bool_decide _ then _ else _).
  assert (same_fds (k_procs k) (k_procs k1)) as H1 by (unfold k1; destruct (bool_decide _); cbn [kedit k_procs with_procs]; repeat same_step).
  clearbody k1. unfold kedit, tss_set_kernel_stack, process_set_current. cbv zeta. cbn [k_procs with_procs with_esp0].
  match goal with |- context [Context.call_context_switch ?a ?b ?r ?c ?m ?s] =>
    pose proof (same_switch_call a b r c m s) as H2; destruct (Context.call_context_switch a b r c m s) as [[c' m'] s'] end.
  cbn [k_procs with_cpu with_mem with_procs snd] in *. etrans; [| exact H2]. repeat same_step.
Qed.

Lemma same_yield (k : kernel F) : same_fds (k_procs k) (k_procs (scheduler_yield lk k)).
Proof.
  unfold scheduler_yield. pose proof (same_pick (k_procs k)) as H. destruct (pick_next (k_procs k)) as [nx s1].
  cbn [snd] in H. destruct (_ || _); [done |]. etrans; [exact H |]. apply (same_do_switch nx (with_procs s1 k)).
Qed.

Lemma same_exit (code : Z) (k k' : kernel F) : process_exit lk code k = Done k' → same_fds (k_procs k) (k_procs k').
Proof.
  unfold process_exit. intros (k1 & E1 & [= <-])%obind_Done. unfold k_mark_zombie in E1.
  apply obind_Done in E1 as (s1 & E1 & [= <-]). apply same_mark_zombie in E1.
  etrans; [| apply same_yield]. cbn [k_procs with_procs kedit] in *. etrans; [| exact E1]. repeat same_step.
Qed.

End switching.

(** ** The calls *)

Section calls.
Context {F : Type} `{!FrameAlloc F}.
Variable lk : link.
Variable fs : Ramfs.ramfs.

Abbreviation cur k := (current_process (k_procs k)).

Lemma kpcb_kedit (p q : Z) (f : process → process) (k : kernel F) :
  kpcb (kedit p f k) q = if decide (q = p) then f (kpcb k p) else kpcb k q.
Proof.
  unfold kpcb, kedit. cbn [k_procs with_procs]. case_decide as E; [subst; by rewrite pcb_edit_eq | by rewrite pcb_edit_ne].
Qed.

Lemma kedit_fd (p fd : Z) (e : fd_entry) (k : kernel F) :
  0 <= fd < 8 → length (fds (kpcb k p)) = 8%nat →
  fd_get (kpcb (kedit p (fd_set fd e) k) p) fd = e ∧ length (fds (kpcb (kedit p (fd_set fd e) k) p)) = 8%nat.
Proof.
  intros Hfd Hl. rewrite kpcb_kedit, decide_True by done. split.
  - rewrite fd_set_get by lia. by rewrite decide_True.
  - unfold fd_set. destruct (kpcb k p). simpl in *. by rewrite length_insert.
Qed.

Lemma write_loop_spec (m : memory) (pd buf : Z) (n : nat) (i : Z) (v : Vga.vga) (bytes : list Z) :
  0 <= i → length bytes = n →
  (∀ j b, bytes !! j = Some b → vload8 m pd (buf + (i + Z.of_nat j)) = Done b) →
  write_loop n i m pd buf v = Done (Vga.putchars bytes v).
Proof.
  revert i v bytes. induction n as [|n IH]; intros i v [|b bytes] Hi Hl Hb; try done. cbn [write_loop].
  pose proof (Hb 0%nat b eq_refl) as H0. rewrite Z.add_0_r in H0. rewrite H0. cbn [obind].
  rewrite (IH (i + 1) _ bytes); [done | lia | by injection Hl |].
  intros j c Hj. replace (i + 1 + Z.of_nat j) with (i + Z.of_nat (S j)) by lia. by apply Hb.
Qed.

Lemma write_loop_fault (m : memory) (pd buf : Z) (n : nat) (i : Z) (v : Vga.vga) :
  (∃ j, (j < n)%nat ∧ Paging.translate Paging.supervisor m pd (u32 (buf + (i + Z.of_nat j))) = None) →
  write_loop n i m pd buf v = page_fault.
Proof.
  revert i v. induction n as [|n IH]; intros i v (j & Hj & Ht); [lia |]. cbn [write_loop]. unfold vload8.
  destruct (Paging.translate Paging.supervisor m pd (u32 (buf + i))) as [pa|] eqn:E; [| done]. cbn [obind].
  destruct j as [|j]; [rewrite Z.add_0_r in Ht; congruence |]. apply IH. exists j. split; [lia |].
  by replace (i + 1 + Z.of_nat j) with (i + Z.of_nat (S j)) by lia.
Qed.

Lemma open_spec (path : Z) (s : list Z) (k : kernel F) :
  Ramfs.wf fs → path ≠ 0 → Ramfs.reads (user_string k path) s →
  let fd := alloc_fd (kpcb k (cur k)) in
  (sys_open fs path k = Done (ERROR, k) ∧ (Ramfs.files_map fs !! s = None ∨ fd = -1)) ∨
  (∃ idx f, 3 <= fd < 8 ∧ fd_in_use (fd_get (kpcb k (cur k)) fd) = 0 ∧ Ramfs.ramfs_get idx fs = Some f ∧
     Ramfs.files_map fs !! s = Some (Ramfs.data f, Ramfs.size f) ∧ f ∈ fs ∧
     sys_open fs path k = Done (fd, kedit (cur k) (fd_set fd (FdEntry 1 idx 0)) k)).
Proof.
  intros Hwf Hp Hs fd. unfold sys_open, process_current. destruct (Z.eqb_spec path 0); [done |].
  pose proof (Ramfs.lookup_spec fs _ s Hwf Hs) as Hl. destruct (Ramfs.files_map fs !! s) as [v|] eqn:Ev.
  - destruct Hl as (j & f & -> & Hj & Hu & Hc & <-). cbn [obind]. destruct (Z.ltb_spec (Z.of_nat j) 0); [lia |]. fold fd.
    destruct (alloc_fd_spec (kpcb k (cur k))) as [[E _]|(Hfd & Hfree & _)]; fold fd in E || fold fd in Hfd, Hfree.
    + left. destruct (Z.ltb_spec fd 0); [| lia]. split; [done | by right].
    + right. exists (Z.of_nat j), f. destruct (Z.ltb_spec fd 0); [lia |]. rewrite u32_id by (unfold is_u32; lia).
      split_and!; try done; try lia; [| by eapply list_elem_of_lookup_2].
      unfold Ramfs.ramfs_get, Ramfs.RAMFS_MAX_FILES. apply lookup_lt_Some in Hj as Hjl. rewrite (Ramfs.wf_len _ Hwf) in Hjl.
      destruct (Z.ltb_spec (Z.of_nat j) 0); [lia |]. destruct (Z.leb_spec 16 (Z.of_nat j)); [lia |]. cbn [orb].
      rewrite Nat2Z.id, Hj. cbn [mbind option_bind]. by destruct (Z.eqb_spec (Ramfs.in_use f) 0).
  - rewrite Hl. left. split; [done | by left].
Qed.

Lemma read_spec (fd buf len : Z) (k : kernel F) (f : Ramfs.ramfs_file) (pb ps : Z → Z) :
  let e := fd_get (kpcb k (cur k)) fd in
  let n := Z.min len (Ramfs.size f - fd_offset e) in
  buf ≠ 0 → 3 <= fd < 8 → fd_in_use e ≠ 0 → Ramfs.ramfs_get (file_idx e) fs = Some f →
  0 <= fd_offset e <= Ramfs.size f → Ramfs.size f < 2 ^ 32 → 0 <= len →
  buffer_ok (k_mem k) (cur_pd k) buf (Ramfs.data f + fd_offset e) n pb ps →
  ∃ m', sys_read fs fd buf len k =
      Done (n, kedit (cur k) (fd_set fd (FdEntry (fd_in_use e) (file_idx e) (fd_offset e + n))) (with_mem m' k)) ∧
    (∀ i, 0 <= i < n → load8 m' (pb i) = load8 (k_mem k) (ps i)) ∧
    (∀ a, (∀ i, 0 <= i < n → a ≠ pb i) → load8 m' a = load8 (k_mem k) a).
Proof.
  intros e n Hbuf Hfd Hu Hf Hoff Hsz Hlen Hb. unfold sys_read, process_current. destruct (Z.eqb_spec buf 0); [done |].
  unfold MAX_FDS_PER_PROCESS. destruct (Z.ltb_spec fd 3); [lia |]. destruct (Z.leb_spec 8 fd); [lia |]. cbn [orb]. fold e.
  destruct (Z.eqb_spec (fd_in_use e) 0); [done |]. rewrite Hf, (u32_id (Ramfs.size f - fd_offset e)) by (unfold is_u32; lia).
  set (to_copy := if len <? _ then _ else _). assert (to_copy = n) as ->.
  { unfold to_copy, n. destruct (Z.ltb_spec len (Ramfs.size f - fd_offset e)); lia. }
  destruct (read_loop_spec _ _ _ _ _ _ _ Hb (Z.to_nat n) 0 (k_mem k)) as (m' & E & H1 & H2); [lia | lia | done | lia |].
  rewrite E. cbn [obind]. rewrite u32_id by (unfold is_u32; lia). by exists m'.
Qed.

Lemma close_spec (fd : Z) (k : kernel F) :
  3 <= fd < 8 → fd_in_use (fd_get (kpcb k (cur k)) fd) ≠ 0 →
  sys_close fd k = Done (0, kedit (cur k) (fd_set fd (FdEntry 0 (-1) 0)) k).
Proof.
  intros Hfd Hu. unfold sys_close, process_current, MAX_FDS_PER_PROCESS.
  destruct (Z.ltb_spec fd 3); [lia |]. destruct (Z.leb_spec 8 fd); [lia |]. cbn [orb].
  by destruct (Z.eqb_spec (fd_in_use (fd_get (kpcb k (cur k)) fd)) 0).
Qed.

(** ** Each call keeps the descriptors well-formed *)

Section keeps.
Variable k : kernel F.
Hypothesis Hok : ∀ p, fds_ok fs (kpcb k p).

Lemma keeps_procs (k' : kernel F) : same_fds (k_procs k) (k_procs k') → ∀ p, fds_ok fs (kpcb k' p).
Proof.
  intros Hs p. specialize (Hs p). destruct (Hok p) as (H1 & H2 & H3). unfold fds_ok, fd_get, kpcb in *.
  rewrite Hs. done.
Qed.

Lemma keeps_set (fd : Z) (e : fd_entry) (k1 : kernel F) :
  3 <= fd < 8 → fd_ok fs e → k_procs k1 = k_procs k →
  ∀ p, fds_ok fs (kpcb (kedit (cur k) (fd_set fd e) k1) p).
Proof.
  intros Hfd He Hk p. rewrite kpcb_kedit. unfold kpcb. rewrite Hk. fold (kpcb k (cur k)) (kpcb k p).
  case_decide; [by apply fd_set_ok | done].
Qed.

Lemma keeps_write (fd buf len : Z) (k' : kernel F) (r : Z) : sys_write fd buf len k = Done (r, k') → ∀ p, fds_ok fs (kpcb k' p).
Proof.
  unfold sys_write. destruct (_ || _); [by intros [= <- <-] |]. by intros (v & _ & [= <- <-])%obind_Done.
Qed.

Lemma keeps_exit (code : Z) (k' : kernel F) (r : Z) : sys_exit lk code k = Done (r, k') → ∀ p, fds_ok fs (kpcb k' p).
Proof. unfold sys_exit. intros (k1 & E & [= <- <-])%obind_Done. by apply keeps_procs, (same_exit lk code). Qed.

Lemma keeps_yield (k' : kernel F) (r : Z) : sys_yield lk k = Done (r, k') → ∀ p, fds_ok fs (kpcb k' p).
Proof. unfold sys_yield. intros [= <- <-]. apply keeps_procs, same_yield. Qed.

Lemma lookup_in_use (nm : Ramfs.reader) (l : Ramfs.ramfs) (i j : Z) :
  Ramfs.lookup_from i l nm = Done j →
  j = -1 ∨ ∃ x e, j = i + Z.of_nat x ∧ l !! x = Some e ∧ Ramfs.in_use e ≠ 0.
Proof.
  revert i. induction l as [|e l IH]; intros i; cbn [Ramfs.lookup_from]; [intros [= <-]; by left |].
  assert (Ramfs.lookup_from (i + 1) l nm = Done j →
    j = -1 ∨ ∃ x e', j = i + Z.of_nat x ∧ (e :: l) !! x = Some e' ∧ Ramfs.in_use e' ≠ 0) as Hn.
  { intros [?|(x & e' & -> & H1 & H2)]%IH; [by left | right]. exists (S x), e'. split; [lia | done]. }
  destruct (Z.eqb_spec (Ramfs.in_use e) 0); [done |]. intros ([|] & _ & E)%obind_Done; [| by apply Hn].
  injection E as <-. right. exists 0%nat, e. split; [lia | done].
Qed.

Lemma keeps_open (path : Z) (k' : kernel F) (r : Z) :
  length fs = 16%nat → (∀ f, f ∈ fs → is_u32 (Ramfs.size f)) → sys_open fs path k = Done (r, k') → ∀ p, fds_ok fs (kpcb k' p).
Proof.
  intros Hlen Hsz. unfold sys_open. destruct (path =? 0); [by intros [= <- <-] |].
  intros (j & Hj & E)%obind_Done. destruct (Z.ltb_spec j 0); [by injection E as <- <- |].
  destruct (Z.ltb_spec (alloc_fd (kpcb k (process_current (k_procs k)))) 0); [by injection E as <- <- |].
  injection E as <- <-. destruct (alloc_fd_spec (kpcb k (process_current (k_procs k)))) as [[? _]|[Hfd _]]; [lia |].
  apply keeps_set; [done | | done]. intros _. cbn [file_idx fd_offset].
  apply lookup_in_use in Hj as [->|(x & f & -> & Hf & Hu)]; [lia |]. rewrite Z.add_0_l.
  exists f. apply lookup_lt_Some in Hf as Hx. rewrite Hlen in Hx. split.
  - unfold Ramfs.ramfs_get, Ramfs.RAMFS_MAX_FILES. destruct (Z.ltb_spec (Z.of_nat x) 0); [lia |].
    destruct (Z.leb_spec 16 (Z.of_nat x)); [lia |]. cbn [orb]. rewrite Nat2Z.id, Hf. cbn [mbind option_bind].
    by destruct (Z.eqb_spec (Ramfs.in_use f) 0).
  - apply list_elem_of_lookup_2, Hsz in Hf. unfold is_u32 in Hf. lia.
Qed.

Lemma get_in (i : Z) (f : Ramfs.ramfs_file) : Ramfs.ramfs_get i fs = Some f → f ∈ fs.
Proof.
  unfold Ramfs.ramfs_get. destruct (_ || _); [done |]. destruct (fs !! Z.to_nat i) as [e|] eqn:E; simpl; [| done].
  destruct (_ =? _); [done |]. intros [= <-]. by eapply list_elem_of_lookup_2.
Qed.

Lemma keeps_read (fd buf len : Z) (k' : kernel F) (r : Z) :
  (∀ f, f ∈ fs → is_u32 (Ramfs.size f)) → is_u32 len → sys_read fs fd buf len k = Done (r, k') → ∀ p, fds_ok fs (kpcb k' p).
Proof.
  intros Hsz Hlen. unfold sys_read, process_current, MAX_FDS_PER_PROCESS. destruct (buf =? 0); [by intros [= <- <-] |].
  destruct (Z.ltb_spec fd 3); [by intros [= <- <-] |]. destruct (Z.leb_spec 8 fd); [by intros [= <- <-] |]. cbn [orb].
  set (e := fd_get _ fd). destruct (Z.eqb_spec (fd_in_use e) 0); [by intros [= <- <-] |].
  destruct (fd_get_ok fs _ fd (Hok (cur k))) as (f & Hf & Hoff); [done |]. fold e in Hf, Hoff. rewrite Hf.
  pose proof (Hsz f (get_in _ _ Hf)) as Hs. unfold is_u32 in *. rewrite (u32_id (_ - _)) by (unfold is_u32; lia).
  intros (m & _ & E)%obind_Done. set (c := if len <? _ then _ else _) in E.
  assert (0 <= c <= Ramfs.size f - fd_offset e) as Hn by (unfold c; destruct (Z.ltb_spec len (Ramfs.size f - fd_offset e)); lia).
  injection E as <- <-. apply keeps_set; [lia | | done]. intros _. exists f. cbn [file_idx fd_offset].
  rewrite u32_id by (unfold is_u32; lia). split; [done | lia].
Qed.

Lemma keeps_close (fd : Z) (k' : kernel F) (r : Z) : sys_close fd k = Done (r, k') → ∀ p, fds_ok fs (kpcb k' p).
Proof.
  unfold sys_close, process_current, MAX_FDS_PER_PROCESS.
  destruct (Z.ltb_spec fd 3); [by intros [= <- <-] |]. destruct (Z.leb_spec 8 fd); [by intros [= <- <-] |]. cbn [orb].
  destruct (_ =? 0); [by intros [= <- <-] |]. intros [= <- <-]. apply keeps_set; [lia | | done]. intros Hu. by destruct Hu.
Qed.

End keeps.

(** ** What a call that does not switch leaves alone *)

Lemma syscall_local (eax ebx ecx edx v : Z) (k k' : kernel F) :
  is_u32 edx → eax ≠ SYS_EXIT → eax ≠ SYS_YIELD → syscall_handler lk fs eax ebx ecx edx k = Done (v, k') →
  is_u32 v ∧ k_cpu k' = k_cpu k ∧ (eax ≠ SYS_READ → k_mem k' = k_mem k).
Proof.
  intros Hedx He Hy. assert (is_u32 ERROR) as HE by apply u32_range. unfold syscall_handler.
  destruct (eax =? SYS_WRITE).
  { unfold sys_write. destruct (_ || _); [by intros [= <- <-] |]. by intros (w & _ & [= <- <-])%obind_Done. }
  destruct (Z.eqb_spec eax SYS_EXIT); [done |]. destruct (Z.eqb_spec eax SYS_YIELD); [done |].
  destruct (eax =? SYS_OPEN).
  { unfold sys_open. destruct (_ =? 0); [by intros [= <- <-] |]. intros (j & _ & E)%obind_Done.
    destruct (j <? 0); [by injection E as <- <- |]. destruct (_ <? 0); [by injection E as <- <- |].
    injection E as <- <-. split; [apply u32_range | done]. }
  destruct (Z.eqb_spec eax SYS_READ).
  { unfold sys_read. destruct (_ =? 0); [by intros [= <- <-] |]. destruct (_ || _); [by intros [= <- <-] |].
    destruct (_ =? 0); [by intros [= <- <-] |]. destruct (Ramfs.ramfs_get _ fs) as [f|]; [| by intros [= <- <-]].
    intros (m & _ & [= <- <-])%obind_Done. split; [| done].
    match goal with |- is_u32 (if ?b then _ else _) => destruct b; [done | apply u32_range] end. }
  destruct (eax =? SYS_CLOSE); [| by intros [= <- <-]].
  unfold sys_close. destruct (_ || _); [by intros [= <- <-] |]. destruct (_ =? 0); [by intros [= <- <-] |]. by intros [= <- <-].
Qed.

(** ** Theorems *)

(** [sys_write] to the standard output delivers exactly the caller's bytes:
    when every byte of the buffer is mapped, the console receives them in order
    and the call returns their number; when a byte is not, the kernel panics on
    the page fault; any other descriptor or a null buffer is refused with -1 and
    no effect. *)
Theorem sys_write_correct (fd buf len : Z) (k : kernel F) :
  is_u32 len →
  (fd ≠ 1 ∨ buf = 0 → sys_write fd buf len k = Done (ERROR, k)) ∧
  (fd = 1 → buf ≠ 0 →
     (∃ i, 0 <= i < len ∧ Paging.translate Paging.supervisor (k_mem k) (cur_pd k) (u32 (buf + i)) = None) →
     sys_write fd buf len k = page_fault) ∧
  (∀ bytes, fd = 1 → buf ≠ 0 → Z.of_nat (length bytes) = len →
     (∀ i b, bytes !! i = Some b → vload8 (k_mem k) (cur_pd k) (buf + Z.of_nat i) = Done b) →
     sys_write fd buf len k = Done (len, with_vga (Vga.putchars bytes (k_vga k)) k)).
Proof.
  intros Hlen. unfold sys_write. split_and!.
  - intros H. destruct (Z.eqb_spec fd 1), (Z.eqb_spec buf 0); naive_solver.
  - intros -> Hb (i & Hi & Ht). destruct (Z.eqb_spec buf 0); [done |]. cbn [Z.eqb negb orb Pos.eqb].
    rewrite write_loop_fault; [done |]. exists (Z.to_nat i). split; [unfold is_u32 in Hlen; lia |].
    rewrite Z.add_0_l, Z2Nat.id by lia. done.
  - intros bytes -> Hb Hl Hr. destruct (Z.eqb_spec buf 0); [done |]. cbn [Z.eqb negb orb Pos.eqb].
    rewrite (write_loop_spec _ _ _ _ _ _ bytes); [done | lia | lia |]. intros j b Hj. rewrite Z.add_0_l. by apply Hr.
Qed.

(** [sys_read] copies the next bytes of the file: on an open descriptor at
    offset [o] of a file of [s] bytes it returns [n = min(len, s - o)], the [n]
    bytes of the caller's buffer become the file's bytes [o .. o+n-1], no other
    byte of memory changes, and the descriptor moves to [o + n], still inside the
    file. *)
Theorem sys_read_correct (fd buf len : Z) (k : kernel F) (f : Ramfs.ramfs_file) (pb ps : Z → Z) :
  let e := fd_get (kpcb k (cur k)) fd in
  let n := Z.min len (Ramfs.size f - fd_offset e) in
  buf ≠ 0 → 3 <= fd < 8 → fd_in_use e ≠ 0 → fds_ok fs (kpcb k (cur k)) → Ramfs.ramfs_get (file_idx e) fs = Some f →
  Ramfs.size f < 2 ^ 32 → 0 <= len →
  buffer_ok (k_mem k) (cur_pd k) buf (Ramfs.data f + fd_offset e) n pb ps →
  ∃ k', sys_read fs fd buf len k = Done (n, k') ∧
    (∀ i, 0 <= i < n → load8 (k_mem k') (pb i) = load8 (k_mem k) (ps i)) ∧
    (∀ a, (∀ i, 0 <= i < n → a ≠ pb i) → load8 (k_mem k') a = load8 (k_mem k) a) ∧
    fd_get (kpcb k' (cur k)) fd = FdEntry (fd_in_use e) (file_idx e) (fd_offset e + n) ∧
    fds_ok fs (kpcb k' (cur k)).
Proof.
  intros e n Hbuf Hfd Hu Hok Hf Hsz Hlen Hb. destruct (fd_get_ok fs _ fd Hok Hu) as (f' & Hf' & Hoff).
  fold e in Hf', Hoff. rewrite Hf in Hf'. injection Hf' as <-.
  destruct (read_spec fd buf len k f pb ps Hbuf Hfd Hu Hf Hoff Hsz Hlen Hb) as (m' & E & H1 & H2). fold e n in E, H1, H2.
  eexists. split; [exact E |]. split; [exact H1 |]. split; [exact H2 |].
  rewrite kpcb_kedit. rewrite decide_True by done. change (kpcb (with_mem m' k) ?x) with (kpcb k x).
  pose proof Hok as (Hl & _). split.
  - rewrite fd_set_get by lia. by rewrite decide_True.
  - apply fd_set_ok; [done | done |]. intros _. exists f. cbn [file_idx fd_offset]. split; [done | lia].
Qed.

(** C20. A session: opening a registered file gives a descriptor, one read with a
    buffer large enough returns the whole file, the next read returns 0 (end of
    file) and closing the descriptor succeeds and frees it. *)
Theorem open_read_close (path buf len : Z) (s : list Z) (d sz : Z) (k : kernel F) (pb ps : Z → Z) :
  Ramfs.wf fs → path ≠ 0 → Ramfs.reads (user_string k path) s → Ramfs.files_map fs !! s = Some (d, sz) →
  0 <= sz < 2 ^ 32 → sz <= len → buf ≠ 0 → fds_ok fs (kpcb k (cur k)) → alloc_fd (kpcb k (cur k)) ≠ -1 →
  buffer_ok (k_mem k) (cur_pd k) buf d sz pb ps →
  ∃ fd k1 k2 k3 k4, sys_open fs path k = Done (fd, k1) ∧ 3 <= fd < 8 ∧
    sys_read fs fd buf len k1 = Done (sz, k2) ∧
    (∀ i, 0 <= i < sz → load8 (k_mem k2) (pb i) = load8 (k_mem k) (ps i)) ∧
    sys_read fs fd buf len k2 = Done (0, k3) ∧ (∀ a, load8 (k_mem k3) a = load8 (k_mem k2) a) ∧
    sys_close fd k3 = Done (0, k4) ∧ fd_in_use (fd_get (kpcb k4 (cur k)) fd) = 0.
Proof.
  intros Hwf Hp Hs Hm Hsz Hlen Hbuf Hok Hfree Hb. pose proof Hok as (Hl & _).
  destruct (open_spec path s k Hwf Hp Hs) as [[_ [|]]|(idx & f & Hfd & _ & Hg & Hm' & _ & E1)]; [congruence | done |].
  rewrite Hm in Hm'. injection Hm' as -> ->. set (fd := alloc_fd (kpcb k (cur k))) in *.
  set (k1 := kedit (cur k) (fd_set fd (FdEntry 1 idx 0)) k) in *.
  pose proof (λ e k0, kedit_fd (cur k) fd e k0 ltac:(lia)) as Hset.
  destruct (Hset (FdEntry 1 idx 0) k Hl) as [G1 L1]. fold k1 in G1, L1.
  destruct (read_spec fd buf len k1 f pb ps) as (m2 & E2 & C2 & _); change (cur k1) with (cur k); rewrite ?G1;
    cbn [fd_in_use file_idx fd_offset]; try done; try lia.
  { rewrite Z.sub_0_r, Z.add_0_r, Z.min_r by lia. done. }
  change (cur k1) with (cur k) in *. rewrite G1 in *. cbn [fd_in_use file_idx fd_offset] in *.
  rewrite Z.sub_0_r, Z.min_r in * by lia. rewrite Z.add_0_l in E2. set (k2 := kedit _ _ (with_mem m2 k1)) in E2.
  destruct (Hset (FdEntry 1 idx (Ramfs.size f)) (with_mem m2 k1) L1) as [G2 L2]. fold k2 in G2, L2.
  destruct (read_spec fd buf len k2 f pb ps) as (m3 & E3 & _ & C3); change (cur k2) with (cur k); rewrite ?G2;
    cbn [fd_in_use file_idx fd_offset]; try done; try lia.
  { rewrite Z.sub_diag, Z.min_r by lia. split; intros ?; lia. }
  change (cur k2) with (cur k) in *. rewrite G2 in *. cbn [fd_in_use file_idx fd_offset] in *.
  rewrite Z.sub_diag, Z.min_r, Z.add_0_r in * by lia. set (k3 := kedit _ _ (with_mem m3 k2)) in E3.
  destruct (Hset (FdEntry 1 idx (Ramfs.size f)) (with_mem m3 k2) L2) as [G3 L3]. fold k3 in G3, L3.
  eexists fd, k1, k2, k3, _. split; [exact E1 |]. split; [done |]. split; [exact E2 |]. split; [exact C2 |].
  split; [exact E3 |]. split; [intros a; apply C3; lia |]. split.
  - apply close_spec; [done |]. change (cur k3) with (cur k). by rewrite G3.
  - change (cur k3) with (cur k). by destruct (Hset (FdEntry 0 (-1) 0) k3 L3) as [-> _].
Qed.


End calls.

(** ** Witnesses *)

#[local] Existing Instance Pmm.pmm_frames.

(** The file [a] has the two bytes at 0x6000; the path is at 0x7000.  The pages
    0x5000, 0x6000 and 0x7000 are mapped for the supervisor only. *)
Definition demo_fs : Ramfs.ramfs :=
  Ramfs.RamfsFile (97 :: replicate 31 0) 0x6000 2 1 :: replicate 15 (Ramfs.RamfsFile (replicate 32 0) 0 0 0).

Definition demo_memory : memory :=
  store8 (store8 (store8 (Paging.set_entry 0x111000 7 0x7003 (Paging.set_entry 0x111000 6 0x6003
    (Paging.set_entry 0x111000 5 0x5003 (Paging.set_entry 0x110000 0 0x111003 ∅)))) 0x6000 65) 0x6001 66) 0x7000 97.

Definition demo_procs (e : fd_entry) : procs :=
  Procs {[0x9000 := set_fds (<[3%nat := e]> (fds zero_pcb)) zero_pcb]} 1 0x9000 (0x9000 :: replicate 15 0) 0x9000 0x9000 1 0.

Definition demo_kernel (e : fd_entry) : kernel Pmm.pmm :=
  Kernel Pmm.demo_pmm demo_memory Kmalloc.demo_heap (demo_procs e) (Context.demo_cpu 0x8F000) 0x90000
    (Paging.PagingState 0x110000 0x110000 true) (Vga.Vga (replicate 2000 0) 0 0 7).

Definition demo_link : link := Link 0x110000 0x9000 0x90000 0x101000 0x102000 0x103000.

Lemma demo_fs_wf : Ramfs.wf demo_fs.
Proof.
  assert (∀ e, e ∈ demo_fs → e = Ramfs.RamfsFile (97 :: replicate 31 0) 0x6000 2 1 ∨ e = Ramfs.RamfsFile (replicate 32 0) 0 0 0) as H.
  { intros e [->|[-> _]%elem_of_replicate]%elem_of_cons; [by left | by right]. }
  split; try done.
  - intros e [->| ->]%H; done.
  - intros e [->| ->]%H; simpl; [lia | done].
  - apply (bool_decide_unpack (NoDup _)). vm_compute. done.
Qed.

Lemma demo_sizes (f : Ramfs.ramfs_file) : f ∈ demo_fs → is_u32 (Ramfs.size f).
Proof. intros [->|[-> _]%elem_of_replicate]%elem_of_cons; done. Qed.

Lemma demo_fds (e : fd_entry) (p : Z) : fd_ok demo_fs e → fds_ok demo_fs (kpcb (demo_kernel e) p).
Proof.
  intros He. unfold kpcb, demo_kernel, demo_procs, pcb, deref. cbn [k_procs pcbs].
  assert (∀ e', fd_ok demo_fs e' → fds_ok demo_fs (set_fds (<[3%nat := e']> (fds zero_pcb)) zero_pcb)) as H.
  { intros e' He'. split_and!; [done | |].
    - intros fd Hfd. assert (fd = 0 ∨ fd = 1 ∨ fd = 2) as [->|[->| ->]] by lia; done.
    - assert (fd_ok demo_fs (FdEntry 0 0 0)) by (intros Hu; by destruct Hu). by repeat constructor. }
  destruct (decide (p = 0x9000)) as [->|]; [rewrite lookup_singleton_eq; by apply H |].
  rewrite lookup_singleton_ne by done. apply (H (FdEntry 0 0 0)). intros Hu. by destruct Hu.
Qed.

Lemma demo_buffer : buffer_ok demo_memory 0x110000 0x5000 0x6000 2 (λ i, 0x5000 + i) (λ i, 0x6000 + i).
Proof.
  assert (∀ i, 0 <= i < 2 → i = 0 ∨ i = 1) as H by lia.
  split.
  - intros i [->| ->]%H; vm_compute; done.
  - intros i [->| ->]%H; vm_compute; done.
  - lia.
  - lia.
  - intros i j Hi Hj.
    assert (∀ va, va = 0x5000 + j ∨ va = 0x6000 + j →
      0 <= Paging.pd_index (u32 va) < 8 ∧ Paging.table demo_memory 0x110000 (Paging.pd_index (u32 va)) = 0x111000 ∧
      0 <= Paging.pt_index (u32 va) < 8) as Hva.
    { intros va [->| ->]; destruct (H j Hj) as [->| ->]; vm_compute; done. }
    split; (match goal with |- ~ walk_byte _ _ (u32 ?va) _ => destruct (Hva va) as (V1 & V2 & V3); [lia |] end);
      intros [(x & Hx & E)|(x & Hx & E)]; rewrite ?V2 in E; lia.
Qed.

Lemma demo_bytes (i : nat) (b : Z) : [65; 66] !! i = Some b → vload8 demo_memory 0x110000 (0x6000 + Z.of_nat i) = Done b.
Proof. destruct i as [|[|i]]; intros; simplify_eq/=; vm_compute; done. Qed.

Lemma demo_path (e : fd_entry) : Ramfs.reads (user_string (demo_kernel e) 0x7000) [97].
Proof.
  unfold user_string. change (cur_pd _) with 0x110000. change (k_mem _) with demo_memory.
  split; [intros i c Hi; destruct i as [|i]; simplify_eq/=; vm_compute; done | vm_compute; done].
Qed.

Lemma sys_write_correct_witness :
  sys_write 1 0x6000 2 (demo_kernel (FdEntry 0 0 0)) =
  Done (2, with_vga (Vga.putchars [65; 66] (k_vga (demo_kernel (FdEntry 0 0 0)))) (demo_kernel (FdEntry 0 0 0))).
Proof.
  destruct (sys_write_correct 1 0x6000 2 (demo_kernel (FdEntry 0 0 0))) as (_ & _ & H).
  - done.
  - apply H; [done | done | done |]. change (cur_pd _) with 0x110000. change (k_mem _) with demo_memory.
    exact demo_bytes.
Defined.

Lemma sys_read_correct_witness :
  ∃ k', sys_read demo_fs 3 0x5000 9 (demo_kernel (FdEntry 1 0 0)) = Done (2, k') ∧ load8 (k_mem k') 0x5001 = 66.
Proof.
  destruct (sys_read_correct demo_fs 3 0x5000 9 (demo_kernel (FdEntry 1 0 0))
    (Ramfs.RamfsFile (97 :: replicate 31 0) 0x6000 2 1) (λ i, 0x5000 + i) (λ i, 0x6000 + i)) as (k' & E & H & _).
  - done.
  - lia.
  - done.
  - apply demo_fds. intros _. by eexists.
  - done.
  - done.
  - lia.
  - exact demo_buffer.
  - exists k'. split; [exact E |]. change 0x5001 with (0x5000 + 1). rewrite (H 1 (conj Z.le_0_1 eq_refl)).
    change (k_mem _) with demo_memory. vm_compute. done.
Defined.

Lemma open_read_close_witness :
  ∃ fd k1 k2, sys_open demo_fs 0x7000 (demo_kernel (FdEntry 0 0 0)) = Done (fd, k1) ∧
    sys_read demo_fs fd 0x5000 16 k1 = Done (2, k2).
Proof.
  destruct (open_read_close demo_fs 0x7000 0x5000 16 [97] 0x6000 2 (demo_kernel (FdEntry 0 0 0))
    (λ i, 0x5000 + i) (λ i, 0x6000 + i)) as (fd & k1 & k2 & k3 & k4 & E1 & _ & E2 & _).
  - exact demo_fs_wf.
  - done.
  - apply demo_path.
  - vm_compute. done.
  - lia.
  - lia.
  - done.
  - apply demo_fds. intros Hu. by destruct Hu.
  - change (alloc_fd _) with 3. lia.
  - exact demo_buffer.
  - exists fd, k1, k2. exact (conj E1 E2).
Defined.


(** The calls do not check that a pointer belongs to the caller: a read into a
    page that ring 3 may not access at all succeeds and overwrites it, because the
    copy runs in ring 0. *)
Theorem sys_read_reaches_kernel_pages :
  let k := demo_kernel (FdEntry 1 0 0) in
  Paging.translate (Paging.Access true true) (k_mem k) (cur_pd k) 0x5000 = None ∧
  Paging.translate (Paging.Access true false) (k_mem k) (cur_pd k) 0x5000 = None ∧
  ∃ k', sys_read demo_fs 3 0x5000 2 k = Done (2, k') ∧ load8 (k_mem k) 0x5000 = 0 ∧ load8 (k_mem k') 0x5000 = 65.
Proof.
  intros k. change (cur_pd k) with 0x110000. change (k_mem k) with demo_memory.
  split; [vm_compute; done |]. split; [vm_compute; done |].
  destruct (read_spec demo_fs 3 0x5000 2 k (Ramfs.RamfsFile (97 :: replicate 31 0) 0x6000 2 1) (λ i, 0x5000 + i) (λ i, 0x6000 + i))
    as (m' & E & H & _); [lia | lia | exact (λ H, ltac:(discriminate H)) | reflexivity | | reflexivity | lia | exact demo_buffer |].
  { change (fd_offset _) with 0. cbn [Ramfs.size]. lia. }
  eexists. split; [exact E |]. split; [vm_compute; done |]. cbn [k_mem kedit with_procs with_mem].
  change 0x5000 with (0x5000 + 0). rewrite (H 0 (conj (Z.le_refl 0) eq_refl)). vm_compute. done.
Qed.

End Syscall.
