(* ===== verification/Gdt.v ===== *)
(** * Segmentation ([kernel/gdt.c], [boot/gdt_flush.asm])

    The global descriptor table, the task state segment and the assembly that
    loads them.  Descriptors are the packed structures of [gdt.h]; [decode] is how
    the processor reads the eight bytes of one.  The theorems say that
    [gdt_set_entry] encodes what it is asked to, and which segments are in force
    after [gdt_init]. *)

From S2P Require Import Prelude.

Module Gdt.

(** ** Data *)

Definition GDT_ENTRIES : Z := 6.

Record gdt_entry : Type := GdtEntry {
  limit_low : Z; base_low : Z; base_mid : Z; access : Z; granularity : Z; base_high : Z
}.

Record tss_entry : Type := TssEntry {
  prev_tss : Z; esp0 : Z; ss0 : Z; esp1 : Z; ss1 : Z; esp2 : Z; ss2 : Z; tss_cr3 : Z; tss_eip : Z;
  tss_eflags : Z; tss_eax : Z; tss_ecx : Z; tss_edx : Z; tss_ebx : Z; tss_esp : Z; tss_ebp : Z; tss_esi : Z;
  tss_edi : Z; tss_es : Z; tss_cs : Z; tss_ss : Z; tss_ds : Z; tss_fs : Z; tss_gs : Z; ldt : Z; trap : Z;
  iomap_base : Z
}.

Definition sizeof_gdt_entry : Z := 8.
Definition sizeof_tss_entry : Z := 104.

Definition zero_tss : tss_entry := TssEntry 0 0 0 0 0 0 0 0 0 0 0 0 0 0 0 0 0 0 0 0 0 0 0 0 0 0 0.

Definition set_esp0 (v : Z) (t : tss_entry) : tss_entry :=
  let '(TssEntry a _ c d e f g h i j k l m n o p q r s u v' w x y z aa bb) := t in
  TssEntry a v c d e f g h i j k l m n o p q r s u v' w x y z aa bb.
Definition set_ss0 (v : Z) (t : tss_entry) : tss_entry :=
  let '(TssEntry a b _ d e f g h i j k l m n o p q r s u v' w x y z aa bb) := t in
  TssEntry a b v d e f g h i j k l m n o p q r s u v' w x y z aa bb.
Definition set_iomap_base (v : Z) (t : tss_entry) : tss_entry :=
  let '(TssEntry a b c d e f g h i j k l m n o p q r s u v' w x y z aa _) := t in
  TssEntry a b c d e f g h i j k l m n o p q r s u v' w x y z aa v.

(** Segment registers, the task register and GDTR. *)
Record segs : Type := Segs {
  s_cs : Z; s_ds : Z; s_es : Z; s_fs : Z; s_gs : Z; s_ss : Z; s_tr : Z; s_gdtr_limit : Z; s_gdtr_base : Z
}.

Record gdt_state : Type := GdtState {
  gdt : list gdt_entry;
  ptr_limit : Z;
  ptr_base : Z;
  tss : tss_entry;
  seg : segs
}.

Definition with_gdt (v : list gdt_entry) (s : gdt_state) : gdt_state := GdtState v (ptr_limit s) (ptr_base s) (tss s) (seg s).
Definition with_ptr (l b : Z) (s : gdt_state) : gdt_state := GdtState (gdt s) l b (tss s) (seg s).
Definition with_tss (v : tss_entry) (s : gdt_state) : gdt_state := GdtState (gdt s) (ptr_limit s) (ptr_base s) v (seg s).
Definition with_seg (v : segs) (s : gdt_state) : gdt_state := GdtState (gdt s) (ptr_limit s) (ptr_base s) (tss s) v.

(** ** Operations *)

Definition gdt_set_entry (i base limit acc gran : Z) (s : gdt_state) : gdt_state :=
  with_gdt (<[Z.to_nat i := GdtEntry (Z.land limit 0xFFFF) (Z.land base 0xFFFF) (Z.land (Z.shiftr base 16) 0xFF) (u8 acc)
    (Z.lor (Z.land (Z.shiftr limit 16) 0x0F) (Z.land gran 0xF0)) (Z.land (Z.shiftr base 24) 0xFF)]> (gdt s)) s.

(** [lgdt], the far jump that loads CS, and the data segment registers. *)
Definition gdt_flush (s : gdt_state) : gdt_state :=
  with_seg (Segs 0x08 0x10 0x10 0x10 0x10 0x10 (s_tr (seg s)) (ptr_limit s) (ptr_base s)) s.

Definition tss_flush (s : gdt_state) : gdt_state :=
  let '(Segs cs ds es fs gs ss _ l b) := seg s in with_seg (Segs cs ds es fs gs ss 0x28 l b) s.

Section link.
(** [&gdt] and [&tss]. *)
Variables (gdt_addr tss_addr : Z).

Definition write_tss (i ss : Z) (s : gdt_state) : gdt_state :=
  let s := gdt_set_entry i tss_addr (sizeof_tss_entry - 1) 0x89 0x00 s in
  with_tss (set_iomap_base sizeof_tss_entry (set_ss0 ss zero_tss)) s.

Definition gdt_init (s : gdt_state) : gdt_state :=
  let s := with_ptr (sizeof_gdt_entry * GDT_ENTRIES - 1) gdt_addr s in
  let s := gdt_set_entry 0 0 0 0x00 0x00 s in
  let s := gdt_set_entry 1 0 0xFFFFFFFF 0x9A 0xCF s in
  let s := gdt_set_entry 2 0 0xFFFFFFFF 0x92 0xCF s in
  let s := gdt_set_entry 3 0 0xFFFFFFFF 0xFA 0xCF s in
  let s := gdt_set_entry 4 0 0xFFFFFFFF 0xF2 0xCF s in
  let s := write_tss 5 0x10 s in
  let s := gdt_flush s in
  tss_flush s.

End link.

Definition tss_set_kernel_stack (v : Z) (s : gdt_state) : gdt_state := with_tss (set_esp0 v (tss s)) s.

(** ** How the processor reads a descriptor *)

(** The bytes of the packed structure. *)
Definition entry_bytes (e : gdt_entry) : list Z :=
  [limit_low e mod 256; limit_low e / 256; base_low e mod 256; base_low e / 256; base_mid e; access e; granularity e; base_high e].

(** The highest valid offset is in bytes; [d_system] is the inverted S bit. *)
Record descriptor : Type := Descriptor {
  d_base : Z; d_limit : Z; d_present : bool; d_dpl : Z; d_system : bool; d_type : Z; d_32bit : bool
}.

Definition decode (b : list Z) : descriptor :=
  let base := aget b 2 + 2 ^ 8 * aget b 3 + 2 ^ 16 * aget b 4 + 2 ^ 24 * aget b 7 in
  let limit := aget b 0 + 2 ^ 8 * aget b 1 + 2 ^ 16 * Z.land (aget b 6) 0x0F in
  Descriptor base (if Z.testbit (aget b 6) 7 then limit * 4096 + 4095 else limit)
    (Z.testbit (aget b 5) 7) (Z.land (Z.shiftr (aget b 5) 5) 3) (negb (Z.testbit (aget b 5) 4))
    (Z.land (aget b 5) 0x0F) (Z.testbit (aget b 6) 6).

(** The descriptor a selector names; bits 0 and 1 are the privilege level asked
    for. *)
Definition selected (s : gdt_state) (sel : Z) : option descriptor := decode ∘ entry_bytes <$> gdt s !! Z.to_nat (sel / 8).

(** ** Theorems *)

Lemma gran_parts (limit gran : Z) :
  is_u32 limit → is_u8 gran →
  let g := Z.lor (Z.land (Z.shiftr limit 16) 0x0F) (Z.land gran 0xF0) in
  Z.land g 0x0F = limit / 2 ^ 16 mod 16 ∧ Z.testbit g 7 = Z.testbit gran 7 ∧ Z.testbit g 6 = Z.testbit gran 6.
Proof.
  intros Hl Hg g. assert (∀ x, Z.land x 0x0F = x mod 16) as Hm by (intros x; apply (land_low_mask x 4); lia).
  assert (0 <= Z.land (Z.shiftr limit 16) 0x0F < 2 ^ 4) as Hlo by (rewrite Hm; apply Z.mod_pos_bound; lia).
  split_and!.
  - unfold g. rewrite Z.land_lor_distr_l, <- (Z.land_assoc gran). change (Z.land 0xF0 0x0F) with 0.
    rewrite Z.land_0_r, Z.lor_0_r, !Hm, Z.shiftr_div_pow2 by lia. apply Zmod_mod.
  - unfold g. rewrite Z.lor_spec, (testbit_high _ 4 7 Hlo), Z.land_spec by lia. apply andb_true_r.
  - unfold g. rewrite Z.lor_spec, (testbit_high _ 4 6 Hlo), Z.land_spec by lia. apply andb_true_r.
Qed.

(** The fields of the packed structure, as the processor combines them. *)
Lemma decode_entry (e : gdt_entry) :
  decode (entry_bytes e) =
  let limit := limit_low e mod 256 + 2 ^ 8 * (limit_low e / 256) + 2 ^ 16 * Z.land (granularity e) 0x0F in
  Descriptor (base_low e mod 256 + 2 ^ 8 * (base_low e / 256) + 2 ^ 16 * base_mid e + 2 ^ 24 * base_high e)
    (if Z.testbit (granularity e) 7 then limit * 4096 + 4095 else limit)
    (Z.testbit (access e) 7) (Z.land (Z.shiftr (access e) 5) 3) (negb (Z.testbit (access e) 4))
    (Z.land (access e) 0x0F) (Z.testbit (granularity e) 6).
Proof. done. Qed.

Lemma set_entry_decodes (i base limit acc gran : Z) (s : gdt_state) :
  0 <= i < Z.of_nat (length (gdt s)) → is_u32 base → is_u32 limit → is_u8 acc → is_u8 gran →
  selected (gdt_set_entry i base limit acc gran s) (8 * i) = Some (Descriptor base
    (if Z.testbit gran 7 then limit mod 2 ^ 20 * 4096 + 4095 else limit mod 2 ^ 20)
    (Z.testbit acc 7) (Z.land (Z.shiftr acc 5) 3) (negb (Z.testbit acc 4)) (Z.land acc 0x0F) (Z.testbit gran 6)).
Proof.
  intros Hi Hb Hl Ha Hg. unfold selected, gdt_set_entry. cbn [gdt with_gdt].
  replace (8 * i / 8) with i by zlia. rewrite list_lookup_insert_eq by lia. cbn [fmap option_fmap option_map compose].
  destruct (gran_parts limit gran Hl Hg) as (G1 & G2 & G3). rewrite decode_entry. cbv zeta.
  cbn [limit_low base_low base_mid access granularity base_high]. rewrite G1, G2, G3, (u8_id acc) by done.
  assert (∀ x, Z.land x 0xFFFF = x mod 2 ^ 16) as M16 by (intros x; apply (land_low_mask x 16); lia).
  assert (∀ x, Z.land x 0xFF = x mod 2 ^ 8) as M8 by (intros x; apply (land_low_mask x 8); lia).
  rewrite !M16, !M8, !Z.shiftr_div_pow2 by lia. unfold is_u32 in *.
  do 2 f_equal; [zlia |]. replace (limit mod 2 ^ 20) with
    (limit mod 2 ^ 16 mod 256 + 2 ^ 8 * (limit mod 2 ^ 16 / 256) + 2 ^ 16 * (limit / 2 ^ 16 mod 16)) by zlia. done.
Qed.

(** [gdt_set_entry] encodes descriptors correctly: read back by the
    processor, the eight bytes give the requested base, the low twenty bits of
    the requested limit (in pages when the granularity bit is set), presence,
    privilege level, type and operand size; the other entries keep their bytes. *)
Theorem gdt_set_entry_roundtrip (i base limit acc gran : Z) (s : gdt_state) :
  0 <= i < Z.of_nat (length (gdt s)) → is_u32 base → is_u32 limit → is_u8 acc → is_u8 gran →
  selected (gdt_set_entry i base limit acc gran s) (8 * i) = Some (Descriptor base
    (if Z.testbit gran 7 then limit mod 2 ^ 20 * 4096 + 4095 else limit mod 2 ^ 20)
    (Z.testbit acc 7) (Z.land (Z.shiftr acc 5) 3) (negb (Z.testbit acc 4)) (Z.land acc 0x0F) (Z.testbit gran 6)) ∧
  ∀ sel, 0 <= sel → sel / 8 ≠ i → selected (gdt_set_entry i base limit acc gran s) sel = selected s sel.
Proof.
  intros Hi Hb Hl Ha Hg. split; [by apply set_entry_decodes |]. intros sel Hs Hne.
  unfold selected, gdt_set_entry. cbn [gdt with_gdt]. rewrite list_lookup_insert_ne; [done |].
  intros E. apply Hne. assert (0 <= sel / 8) by (apply Z.div_pos; lia). lia.
Qed.

(** A flat 4 GiB segment. *)
Definition flat (dpl type : Z) : descriptor := Descriptor 0 (2 ^ 32 - 1) true dpl false type true.

(** After [gdt_init] the processor runs in flat 4 GiB segments: selector 0x08
    is ring-0 code and 0x10 ring-0 data, both in force; 0x1B and 0x23 (0x18 and
    0x20 with privilege level 3, what [enter_usermode] loads) are ring-3 code and
    data; the null selector is not present; 0x28, loaded into the task register,
    is a 32-bit TSS of 104 bytes at the address of [tss], whose ring-0 stack
    segment is 0x10 and whose I/O map lies beyond its limit. *)
Theorem gdt_init_segments (gdt_addr tss_addr : Z) (s : gdt_state) :
  length (gdt s) = 6%nat → is_u32 tss_addr →
  let s' := gdt_init gdt_addr tss_addr s in
  selected s' 0x08 = Some (flat 0 10) ∧ selected s' 0x10 = Some (flat 0 2) ∧
  selected s' 0x1B = Some (flat 3 10) ∧ selected s' 0x23 = Some (flat 3 2) ∧
  (d_present <$> selected s' 0) = Some false ∧
  selected s' 0x28 = Some (Descriptor tss_addr 103 true 0 true 9 false) ∧
  seg s' = Segs 0x08 0x10 0x10 0x10 0x10 0x10 0x28 47 gdt_addr ∧
  ss0 (tss s') = 0x10 ∧ esp0 (tss s') = 0 ∧ iomap_base (tss s') = 104.
Proof.
  intros Hl Ht s'. destruct s as [g pl pb t sg]. cbn [gdt] in Hl.
  do 7 (destruct g as [|? g]; [done || idtac |]); try done. clear Hl.
  split_and!; try done.
  assert (selected s' 0x28 = selected (gdt_set_entry 5 tss_addr 103 0x89 0 (GdtState [g0; g1; g2; g3; g4; g5] pl pb t sg)) (8 * 5)) as -> by done.
  rewrite set_entry_decodes by (done || (cbn; lia)). done.
Qed.

(** ** Witnesses *)

Definition demo_gdt : gdt_state := GdtState (replicate 6 (GdtEntry 0 0 0 0 0 0)) 0 0 zero_tss (Segs 0 0 0 0 0 0 0 0 0).

Lemma gdt_set_entry_roundtrip_witness :
  selected (gdt_set_entry 5 0x123456 103 0x89 0 demo_gdt) 0x28 = Some (Descriptor 0x123456 103 true 0 true 9 false).
Proof.
  destruct (gdt_set_entry_roundtrip 5 0x123456 103 0x89 0 demo_gdt) as [H _]; [simpl; lia | done | done | done | done |].
  exact H.
Defined.

Lemma gdt_init_segments_witness : selected (gdt_init 0x8000 0x9000 demo_gdt) 0x1B = Some (flat 3 10).
Proof. apply (gdt_init_segments 0x8000 0x9000 demo_gdt); done. Defined.

End Gdt.
