(* ===== verification/Idt.v ===== *)
(** * Interrupt descriptors, the interrupt controllers and dispatch ([kernel/idt.c])

    The interrupt descriptor table, the remapping of the two 8259A controllers,
    registration and dispatch of hardware interrupts, and the exception handler
    that halts the kernel.  [decode_gate] is how the processor reads a gate;
    [pic] is the state machine of a controller: its initialisation words, its
    mask and its in-service bits. *)

From S2P Require Import Prelude Vga.

Module Idt.

(** ** Gates *)

Definition IDT_ENTRIES : Z := 256.
Definition sizeof_idt_entry : Z := 8.

Record idt_entry : Type := IdtEntry { base_low : Z; selector : Z; zero : Z; flags : Z; base_high : Z }.

Definition zero_entry : idt_entry := IdtEntry 0 0 0 0 0.

(** The functions the kernel registers for hardware interrupts. *)
Inductive irq_fn : Type := pit_handler | keyboard_handler.

Record idt_state : Type := IdtState {
  idt : list idt_entry;
  ptr_limit : Z;
  ptr_base : Z;
  idtr : option (Z * Z);
  interrupts_on : bool;
  irq_handlers : list (option irq_fn)
}.

Definition with_idt (v : list idt_entry) (s : idt_state) : idt_state :=
  IdtState v (ptr_limit s) (ptr_base s) (idtr s) (interrupts_on s) (irq_handlers s).
Definition with_ptr (l b : Z) (s : idt_state) : idt_state :=
  IdtState (idt s) l b (idtr s) (interrupts_on s) (irq_handlers s).
Definition with_handlers (v : list (option irq_fn)) (s : idt_state) : idt_state :=
  IdtState (idt s) (ptr_limit s) (ptr_base s) (idtr s) (interrupts_on s) v.

Definition irq_register (irq : Z) (h : irq_fn) (s : idt_state) : idt_state :=
  if irq <? 16 then with_handlers (<[Z.to_nat irq := Some h]> (irq_handlers s)) s else s.

Definition idt_set_gate (n base sel fl : Z) (s : idt_state) : idt_state :=
  with_idt (<[Z.to_nat n := IdtEntry (Z.land base 0xFFFF) sel 0 fl (Z.land (Z.shiftr base 16) 0xFFFF)]> (idt s)) s.

(** [lidt] and [sti] *)
Definition idt_flush (s : idt_state) : idt_state :=
  IdtState (idt s) (ptr_limit s) (ptr_base s) (Some (ptr_limit s, ptr_base s)) (interrupts_on s) (irq_handlers s).
Definition sti (s : idt_state) : idt_state :=
  IdtState (idt s) (ptr_limit s) (ptr_base s) (idtr s) true (irq_handlers s).

(** ** The interrupt controllers *)

Definition PIC1_CMD : Z := 0x20.
Definition PIC1_DATA : Z := 0x21.
Definition PIC2_CMD : Z := 0xA0.
Definition PIC2_DATA : Z := 0xA1.

(** [p_icw] is the initialisation word the data port expects next, 0 when the
    controller is operational; [p_isr] are the interrupts in service. *)
Record pic : Type := Pic { p_vector : Z; p_cascade : Z; p_mode : Z; p_mask : Z; p_icw : Z; p_isr : Z }.

(** A write to the command port: ICW1 restarts the initialisation; 0x20 ends the
    interrupt of highest priority (the lowest number) in service. *)
Definition pic_command (v : Z) (p : pic) : pic :=
  if Z.testbit v 4 then Pic (p_vector p) (p_cascade p) (p_mode p) 0 2 0
  else if v =? 0x20 then Pic (p_vector p) (p_cascade p) (p_mode p) (p_mask p) (p_icw p) (Z.land (p_isr p) (p_isr p - 1))
  else p.

Definition pic_data (v : Z) (p : pic) : pic :=
  if p_icw p =? 2 then Pic (Z.land v 0xF8) (p_cascade p) (p_mode p) (p_mask p) 3 (p_isr p)
  else if p_icw p =? 3 then Pic (p_vector p) v (p_mode p) (p_mask p) 4 (p_isr p)
  else if p_icw p =? 4 then Pic (p_vector p) (p_cascade p) v (p_mask p) 0 (p_isr p)
  else Pic (p_vector p) (p_cascade p) (p_mode p) v (p_icw p) (p_isr p).

Record pics : Type := Pics { master : pic; slave : pic }.

Definition outb (port v : Z) (p : pics) : pics :=
  if port =? PIC1_CMD then Pics (pic_command v (master p)) (slave p)
  else if port =? PIC1_DATA then Pics (pic_data v (master p)) (slave p)
  else if port =? PIC2_CMD then Pics (master p) (pic_command v (slave p))
  else if port =? PIC2_DATA then Pics (master p) (pic_data v (slave p))
  else p.

Definition inb (port : Z) (p : pics) : Z :=
  if port =? PIC1_DATA then p_mask (master p) else if port =? PIC2_DATA then p_mask (slave p) else 0.

Definition pic_remap (p : pics) : pics :=
  let m1 := inb PIC1_DATA p in
  let m2 := inb PIC2_DATA p in
  let p := outb PIC1_CMD 0x11 p in
  let p := outb PIC2_CMD 0x11 p in
  let p := outb PIC1_DATA 0x20 p in
  let p := outb PIC2_DATA 0x28 p in
  let p := outb PIC1_DATA 0x04 p in
  let p := outb PIC2_DATA 0x02 p in
  let p := outb PIC1_DATA 0x01 p in
  let p := outb PIC2_DATA 0x01 p in
  let p := outb PIC1_DATA m1 p in
  outb PIC2_DATA m2 p.

(** ** Handlers *)

Definition exceptions : list string :=
  ["Division By Zero"; "Debug"; "Non Maskable Interrupt"; "Breakpoint"; "Overflow"; "Out of Bounds"; "Invalid Opcode";
   "No Coprocessor"; "Double Fault"; "Coprocessor Segment Overrun"; "Bad TSS"; "Segment Not Present"; "Stack Fault";
   "General Protection Fault"; "Page Fault"; "Unknown Interrupt"; "Coprocessor Fault"; "Alignment Check"; "Machine Check";
   "Reserved"; "Reserved"; "Reserved"; "Reserved"; "Reserved"; "Reserved"; "Reserved"; "Reserved"; "Reserved"; "Reserved";
   "Reserved"; "Reserved"; "Reserved"]%string.

(** The panic message and the console the kernel halts with. *)
Definition isr_handler (int_no err_code eip cr2 : Z) (v : Vga.vga) : string * Vga.vga :=
  if int_no =? 14 then
    let v := Vga.vga_set_color Vga.VGA_COLOR_LIGHT_RED v in
    let v := Vga.kprint (Vga.NEWLINE :: Vga.chars "[PAGE FAULT] addr=") v in
    let v := Vga.kprint_hex cr2 v in
    let v := Vga.kprints "  err=" v in
    let v := Vga.kprint_hex err_code v in
    let v := Vga.kprints "  eip=" v in
    let v := Vga.kprint_hex eip v in
    let v := Vga.kprint (Vga.NEWLINE :: Vga.chars "  ") v in
    let v := Vga.kprints (if negb (Z.land err_code 1 =? 0) then "protection " else "not-present ") v in
    let v := Vga.kprints (if negb (Z.land err_code 2 =? 0) then "write " else "read ") v in
    let v := Vga.kprints (if negb (Z.land err_code 4 =? 0) then "user" else "kernel") v in
    let v := Vga.kprint [Vga.NEWLINE] v in
    ("Page fault"%string, Vga.kpanic (Vga.chars "Page fault") [] v)
  else
    let v := Vga.vga_set_color Vga.VGA_COLOR_YELLOW v in
    let v := Vga.kprints "ISR HIT: " v in
    let v := Vga.kprint_int (s32 int_no) v in
    let v := Vga.kprint [Vga.NEWLINE] v in
    let exc_name := if int_no <? 32 then default EmptyString (exceptions !! Z.to_nat int_no) else "Unknown"%string in
    (("EXCEPTION: " ++ exc_name)%string, Vga.kpanic (Vga.chars "EXCEPTION: ") (Vga.chars exc_name) v).

(** The end-of-interrupt commands and the handler that is called, if any. *)
Definition irq_handler (int_no : Z) (s : idt_state) (p : pics) : pics * option irq_fn :=
  let p := if 40 <=? int_no then outb PIC2_CMD 0x20 p else p in
  let p := outb PIC1_CMD 0x20 p in
  let irq := u8 (int_no - 32) in
  (p, if irq <? 16 then default None (irq_handlers s !! Z.to_nat irq) else None).

Section link.
(** The addresses of [idt], of the stubs [isr0 .. isr31], [irq0 .. irq15] and of
    [isr128]. *)
Variables (idt_addr : Z) (isr_addr irq_addr : Z → Z) (isr128_addr : Z).

Definition idt_init (s : idt_state) (p : pics) : idt_state * pics :=
  let s := with_ptr (sizeof_idt_entry * IDT_ENTRIES - 1) idt_addr s in
  let s := with_idt (replicate 256 zero_entry) s in
  let p := pic_remap p in
  let s := for_loop 32 0 (λ i s, idt_set_gate i (isr_addr i) 0x08 0x8E s) s in
  let s := for_loop 16 0 (λ i s, idt_set_gate (32 + i) (irq_addr i) 0x08 0x8E s) s in
  let s := idt_set_gate 128 isr128_addr 0x08 0xEE s in
  (sti (idt_flush s), p).

End link.

(** ** How the processor reads a gate *)

Definition gate_bytes (e : idt_entry) : list Z :=
  [base_low e mod 256; base_low e / 256; selector e mod 256; selector e / 256; zero e; flags e;
   base_high e mod 256; base_high e / 256].

Record gate : Type := Gate { g_offset : Z; g_selector : Z; g_present : bool; g_dpl : Z; g_type : Z }.

Definition decode_gate (b : list Z) : gate :=
  Gate (aget b 0 + 2 ^ 8 * aget b 1 + 2 ^ 16 * aget b 6 + 2 ^ 24 * aget b 7) (aget b 2 + 2 ^ 8 * aget b 3)
    (Z.testbit (aget b 5) 7) (Z.land (Z.shiftr (aget b 5) 5) 3) (Z.land (aget b 5) 0x1F).

Definition gate_of (s : idt_state) (n : Z) : option gate := decode_gate ∘ gate_bytes <$> idt s !! Z.to_nat n.

(** A 32-bit interrupt gate (which disables interrupts) into ring-0 code. *)
Definition interrupt_gate (offset dpl : Z) : gate := Gate offset 0x08 true dpl 14.

(** Vector of a hardware interrupt line. *)
Definition irq_vector (p : pics) (n : Z) : Z :=
  if n <? 8 then p_vector (master p) + n else p_vector (slave p) + (n - 8).

(** The controllers put line [n] in service; lines 8 to 15 come through line 2 of
    the master. *)
Definition deliver (n : Z) (p : pics) : pics :=
  let set b q := Pic (p_vector q) (p_cascade q) (p_mode q) (p_mask q) (p_icw q) (Z.lor (p_isr q) (Z.shiftl 1 b)) in
  if n <? 8 then Pics (set n (master p)) (slave p) else Pics (set 2 (master p)) (set (n - 8) (slave p)).

(** ** Lemmas *)

Lemma decode_gate_entry (e : idt_entry) :
  decode_gate (gate_bytes e) =
  Gate (base_low e mod 256 + 2 ^ 8 * (base_low e / 256) + 2 ^ 16 * (base_high e mod 256) + 2 ^ 24 * (base_high e / 256))
    (selector e mod 256 + 2 ^ 8 * (selector e / 256)) (Z.testbit (flags e) 7) (Z.land (Z.shiftr (flags e) 5) 3)
    (Z.land (flags e) 0x1F).
Proof. done. Qed.

Lemma set_gate_eq (n base sel fl : Z) (s : idt_state) :
  0 <= n < Z.of_nat (length (idt s)) → is_u32 base → 0 <= sel < 2 ^ 16 →
  gate_of (idt_set_gate n base sel fl s) n =
    Some (Gate base sel (Z.testbit fl 7) (Z.land (Z.shiftr fl 5) 3) (Z.land fl 0x1F)).
Proof.
  intros Hn Hb Hs. unfold gate_of, idt_set_gate. cbn [idt with_idt]. rewrite list_lookup_insert_eq by lia.
  cbn [fmap option_fmap option_map compose]. rewrite decode_gate_entry. cbn [base_low base_high selector flags].
  assert (∀ x, Z.land x 0xFFFF = x mod 2 ^ 16) as M16 by (intros x; apply (land_low_mask x 16); lia).
  rewrite !M16, Z.shiftr_div_pow2 by lia. unfold is_u32 in *. do 2 f_equal; zlia.
Qed.

Lemma set_gate_ne (n n' base sel fl : Z) (s : idt_state) :
  0 <= n → 0 <= n' → n ≠ n' → gate_of (idt_set_gate n base sel fl s) n' = gate_of s n'.
Proof.
  intros Hn Hn' Hne. unfold gate_of, idt_set_gate. cbn [idt with_idt]. by rewrite list_lookup_insert_ne by lia.
Qed.

(** A loop that fills the gates [lo .. lo+cnt-1]. *)
Lemma set_gates (lo : Z) (cnt : nat) (addr : Z → Z) (s : idt_state) :
  0 <= lo → lo + Z.of_nat cnt <= 256 → length (idt s) = 256%nat → (∀ i, 0 <= i < Z.of_nat cnt → is_u32 (addr i)) →
  let s' := for_loop cnt 0 (λ i s, idt_set_gate (lo + i) (addr i) 0x08 0x8E s) s in
  length (idt s') = 256%nat ∧
  (∀ i, 0 <= i < Z.of_nat cnt → gate_of s' (lo + i) = Some (interrupt_gate (addr i) 0)) ∧
  (∀ v, 0 <= v → v < lo ∨ lo + Z.of_nat cnt <= v → gate_of s' v = gate_of s v) ∧
  ptr_limit s' = ptr_limit s ∧ ptr_base s' = ptr_base s.
Proof.
  intros Hlo Hhi Hl Ha.
  pose proof (for_loop_ind (λ j s', length (idt s') = 256%nat ∧
    (∀ i, 0 <= i < j → gate_of s' (lo + i) = Some (interrupt_gate (addr i) 0)) ∧
    (∀ v, 0 <= v → v < lo ∨ lo + j <= v → gate_of s' v = gate_of s v) ∧
    ptr_limit s' = ptr_limit s ∧ ptr_base s' = ptr_base s)
    cnt 0 (λ i s, idt_set_gate (lo + i) (addr i) 0x08 0x8E s) s) as H.
  apply H; clear H; [split_and!; done || lia |].
  intros j s' Hj (H1 & H2 & H3 & H4 & H5). split_and!; try done.
  - unfold idt_set_gate. cbn [idt with_idt]. by rewrite length_insert.
  - intros i Hi. destruct (decide (i = j)) as [->|].
    + rewrite set_gate_eq; [done | lia | by apply Ha | lia].
    + rewrite set_gate_ne by lia. apply H2. lia.
  - intros v Hv Hr. rewrite set_gate_ne by lia. apply H3; lia.
Qed.

(** ** Theorems *)

(** C28. After [idt_init] the interrupt table is complete and closed to user code:
    vectors 0 to 31 and 32 to 47 are present interrupt gates into ring-0 code at
    the exception and interrupt stubs, with privilege level 0; vector 128 is the
    system-call stub and the only gate of privilege level 3; every other vector
    is not present.  So a ring-3 program can enter the kernel by a software
    interrupt only through vector 128. *)
Theorem idt_init_gates (idt_addr : Z) (isr_addr irq_addr : Z → Z) (isr128_addr : Z) (s : idt_state) (p : pics) :
  (∀ i, 0 <= i < 32 → is_u32 (isr_addr i)) → (∀ i, 0 <= i < 16 → is_u32 (irq_addr i)) → is_u32 isr128_addr →
  let s' := fst (idt_init idt_addr isr_addr irq_addr isr128_addr s p) in
  (∀ v, 0 <= v < 32 → gate_of s' v = Some (interrupt_gate (isr_addr v) 0)) ∧
  (∀ i, 0 <= i < 16 → gate_of s' (32 + i) = Some (interrupt_gate (irq_addr i) 0)) ∧
  gate_of s' 128 = Some (interrupt_gate isr128_addr 3) ∧
  (∀ v, 48 <= v < 256 → v ≠ 128 → ∃ g, gate_of s' v = Some g ∧ g_present g = false) ∧
  (∀ v g, 0 <= v < 256 → gate_of s' v = Some g → g_present g = true → g_dpl g = 3 → v = 128) ∧
  idtr s' = Some (2047, idt_addr) ∧ interrupts_on s' = true.
Proof.
  intros Hi Hq H128 s'. unfold idt_init in s'. set (s0 := with_idt _ _) in s'.
  destruct (set_gates 0 32 isr_addr s0) as (L1 & G1 & O1 & P1 & B1); [lia | lia | done | done |].
  change (λ (i : Z) (s : idt_state), idt_set_gate (0 + i) (isr_addr i) 8 142 s)
    with (λ (i : Z) (s : idt_state), idt_set_gate i (isr_addr i) 8 142 s) in L1, G1, O1, P1, B1.
  set (s1 := for_loop 32 0 _ s0) in *.
  destruct (set_gates 32 16 irq_addr s1) as (L2 & G2 & O2 & P2 & B2); [lia | lia | done | done |].
  set (s2 := for_loop 16 0 _ s1) in *. clearbody s2.
  assert (∀ v, gate_of s' v = gate_of (idt_set_gate 128 isr128_addr 8 238 s2) v) as E by done.
  assert (∀ v, 0 <= v < 32 → gate_of s' v = Some (interrupt_gate (isr_addr v) 0)) as A1.
  { intros v Hv. rewrite E, set_gate_ne, O2 by lia. by apply G1. }
  assert (∀ i, 0 <= i < 16 → gate_of s' (32 + i) = Some (interrupt_gate (irq_addr i) 0)) as A2.
  { intros i Hv. rewrite E, set_gate_ne by lia. by apply G2. }
  assert (∀ v, 48 <= v < 256 → v ≠ 128 → ∃ g, gate_of s' v = Some g ∧ g_present g = false) as A3.
  { intros v Hv Hne. rewrite E, set_gate_ne, O2, O1 by lia. exists (decode_gate (gate_bytes zero_entry)).
    split; [| done]. unfold gate_of, s0. cbn [idt with_idt]. rewrite lookup_replicate_2 by lia. done. }
  assert (gate_of s' 128 = Some (interrupt_gate isr128_addr 3)) as A4.
  { rewrite E, set_gate_eq by (done || lia). done. }
  split_and!; [done | done | done | done | | | done].
  2:{ unfold s'. cbn [fst idtr sti idt_flush idt_set_gate with_idt ptr_limit ptr_base]. by rewrite P2, B2, P1, B1. }
  intros v g Hv Hg Hp Hd. destruct (decide (v = 128)) as [|Hne]; [done | exfalso].
  destruct (decide (v < 32)); [| destruct (decide (v < 48))].
  - rewrite A1 in Hg by lia. injection Hg as <-. done.
  - replace v with (32 + (v - 32)) in Hg by lia. rewrite A2 in Hg by lia. injection Hg as <-. done.
  - destruct (A3 v) as (g' & Hg' & Hp'); [lia | done |]. congruence.
Qed.

(** [pic_remap] moves the hardware interrupts out of the way of the
    exceptions and keeps what was masked: line [n] of the two controllers raises
    vector 32 + n, the slave is cascaded on line 2, both are in 8086 mode and
    operational, and their masks are the ones read before. *)
Theorem pic_remap_correct (p : pics) :
  let p' := pic_remap p in
  (∀ n, 0 <= n < 16 → irq_vector p' n = 32 + n) ∧
  p_cascade (master p') = Z.shiftl 1 2 ∧ p_cascade (slave p') = 2 ∧
  p_mode (master p') = 1 ∧ p_mode (slave p') = 1 ∧ p_icw (master p') = 0 ∧ p_icw (slave p') = 0 ∧
  p_mask (master p') = p_mask (master p) ∧ p_mask (slave p') = p_mask (slave p).
Proof.
  intros p'. split_and!; try done. intros n Hn. unfold irq_vector.
  change (p_vector (master p')) with 32. change (p_vector (slave p')) with 40.
  destruct (Z.ltb_spec n 8); lia.
Qed.

Lemma eoi_single (b : Z) : 0 <= b < 8 → Z.land (Z.lor 0 (Z.shiftl 1 b)) (Z.lor 0 (Z.shiftl 1 b) - 1) = 0.
Proof.
  intros Hb. rewrite Z.lor_0_l, Z.shiftl_mul_pow2, Z.mul_1_l by lia.
  replace (2 ^ b - 1) with (Z.ones b) by (rewrite Z.ones_equiv; lia).
  rewrite Z.land_ones by lia. apply Z.mod_same. apply Z.pow_nonzero; lia.
Qed.

(** [irq_handler] acknowledges an interrupt and calls its handler: when line
    [n] was put in service, the commands it sends leave no interrupt in service
    in either controller, and the handler called is the one [irq_register] stored
    for the line last. *)
Theorem irq_handler_acknowledges (n : Z) (h : irq_fn) (s : idt_state) (p : pics) :
  0 <= n < 16 → length (irq_handlers s) = 16%nat → p_isr (master p) = 0 → p_isr (slave p) = 0 →
  let r := irq_handler (32 + n) (irq_register n h s) (deliver n p) in
  p_isr (master (fst r)) = 0 ∧ p_isr (slave (fst r)) = 0 ∧ snd r = Some h ∧
  ∀ n', 0 <= n' < 16 → n' ≠ n → snd (irq_handler (32 + n') (irq_register n h s) p) = snd (irq_handler (32 + n') s p).
Proof.
  intros Hn Hl Hm Hs r.
  assert (∀ x, 0 <= x < 16 → u8 (32 + x - 32) = x) as Hx by (intros x Hx; rewrite u8_id by (unfold is_u8; lia); lia).
  assert (irq_handlers (irq_register n h s) = <[Z.to_nat n := Some h]> (irq_handlers s)) as Hr.
  { unfold irq_register. by destruct (Z.ltb_spec n 16); [| lia]. }
  split_and!.
  - unfold r, irq_handler, deliver. destruct (Z.ltb_spec n 8), (Z.leb_spec 40 (32 + n)); try lia; cbn; rewrite Hm.
    + apply eoi_single. lia.
    + done.
  - unfold r, irq_handler, deliver. destruct (Z.ltb_spec n 8), (Z.leb_spec 40 (32 + n)); try lia; cbn; rewrite Hs.
    + done.
    + apply eoi_single. lia.
  - unfold r, irq_handler. cbn [snd]. rewrite Hx, Hr by lia. destruct (Z.ltb_spec n 16); [| lia].
    by rewrite list_lookup_insert_eq by lia.
  - intros n' Hn' Hne. unfold irq_handler. cbn [snd]. rewrite Hx, Hr by lia. destruct (Z.ltb_spec n' 16); [| lia].
    by rewrite list_lookup_insert_ne by lia.
Qed.

(** ** Witnesses *)

Definition demo_idt : idt_state := IdtState (replicate 256 zero_entry) 0 0 None false (replicate 16 None).
Definition demo_pics : pics := Pics (Pic 8 4 1 0xB8 0 0) (Pic 0x70 2 1 0x8F 0 0).

Lemma idt_init_gates_witness :
  gate_of (fst (idt_init 0x9000 (λ i, 0x100000 + 16 * i) (λ i, 0x101000 + 16 * i) 0x102000 demo_idt demo_pics)) 128 =
  Some (interrupt_gate 0x102000 3).
Proof.
  apply (idt_init_gates 0x9000 (λ i, 0x100000 + 16 * i) (λ i, 0x101000 + 16 * i) 0x102000 demo_idt demo_pics);
    [intros i Hi; unfold is_u32; lia | intros i Hi; unfold is_u32; lia | done].
Defined.

Lemma irq_handler_acknowledges_witness :
  snd (irq_handler 33 (irq_register 1 keyboard_handler demo_idt) (deliver 1 demo_pics)) = Some keyboard_handler.
Proof. apply (irq_handler_acknowledges 1 keyboard_handler demo_idt demo_pics); (done || lia). Defined.

End Idt.
