(* ===== verification/Trap.v ===== *)
(** * Interrupt entry and exit ([boot/isr.asm], [boot/usermode.asm])

    The assembly stubs, instruction by instruction, on the general registers, the
    segment registers and memory, together with what the processor does on an
    interrupt and on [iret]: the switch to the ring-0 stack of the TSS when the
    interrupted code runs in ring 3, and back.  The C handler a stub calls follows
    the cdecl convention, stated as [cdecl].

    The theorems say that the handler sees the interrupted registers in the
    [registers_t] the stub builds, that the interrupted code resumes exactly where
    and as it was (with the result in EAX after a system call), and that
    [enter_usermode] drops to ring 3 at the given entry point and stack. *)

From S2P Require Import Prelude Memory Frames Vga Pmm Kmalloc Paging Scheduler Context Elf Process Gdt Idt Ramfs Syscall.

Module Trap.
Import Context.

(** ** The machine *)

Record machine : Type := Machine { mc : cpu; ms : Gdt.segs; mm : memory }.

Definition mpush (v : Z) (M : machine) : machine :=
  let '(c, m) := push v (mc M, mm M) in Machine c (ms M) m.

Definition mpop (M : machine) : Z * machine :=
  (load32 (mm M) (r_esp (mc M)), Machine (with_esp (u32 (r_esp (mc M) + 4)) (mc M)) (ms M) (mm M)).

Definition on_cpu (f : cpu → cpu) (M : machine) : machine := Machine (f (mc M)) (ms M) (mm M).

Definition set_cs (v : Z) (s : Gdt.segs) : Gdt.segs :=
  let '(Gdt.Segs _ d e f g ss t l b) := s in Gdt.Segs v d e f g ss t l b.
Definition set_ss (v : Z) (s : Gdt.segs) : Gdt.segs :=
  let '(Gdt.Segs c d e f g _ t l b) := s in Gdt.Segs c d e f g v t l b.
(** [mov ds, ax; mov es, ax; mov fs, ax; mov gs, ax] *)
Definition set_data (v : Z) (s : Gdt.segs) : Gdt.segs :=
  let '(Gdt.Segs c _ _ _ _ ss t l b) := s in Gdt.Segs c v v v v ss t l b.
Definition on_segs (f : Gdt.segs → Gdt.segs) (M : machine) : machine := Machine (mc M) (f (ms M)) (mm M).

Definition cpl (M : machine) : Z := Z.land (Gdt.s_cs (ms M)) 3.

(** ** What the processor does *)

(** IF, TF, NT, RF and VM are cleared on the way through an interrupt gate. *)
Definition gate_flags (f : Z) : Z := Z.ldiff f 0x34300.

(** An interrupt through the gate [g], with the ring-0 stack of the TSS and the
    error code of the exceptions that have one. *)
Definition interrupt (g : Idt.gate) (ss0 esp0 : Z) (err : option Z) (M : machine) : machine :=
  let M1 :=
    if cpl M =? 0 then M
    else
      let M' := on_segs (set_ss ss0) (on_cpu (with_esp esp0) M) in
      mpush (r_esp (mc M)) (mpush (Gdt.s_ss (ms M)) M') in
  let M2 := mpush (r_eip (mc M)) (mpush (Gdt.s_cs (ms M)) (mpush (r_eflags (mc M)) M1)) in
  let M3 := match err with Some e => mpush e M2 | None => M2 end in
  on_segs (set_cs (Idt.g_selector g))
    (on_cpu (λ c, with_eflags (gate_flags (r_eflags c)) (with_eip (Idt.g_offset g) c)) M3).

(** Pushing and popping without wrap-around. *)
Lemma mpush_eq (v : Z) (c : cpu) (s : Gdt.segs) (m : memory) :
  4 <= r_esp c < 2 ^ 32 →
  mpush v (Machine c s m) = Machine (with_esp (r_esp c - 4) c) s (store32 m (r_esp c - 4) v).
Proof. intros H. unfold mpush, push. cbn [mc mm ms]. by rewrite u32_id by (unfold is_u32; lia). Qed.

Lemma with_esp_twice (a b : Z) (c : cpu) : with_esp a (with_esp b c) = with_esp a c.
Proof. done. Qed.

Lemma esp_with_esp (a : Z) (c : cpu) : r_esp (with_esp a c) = a.
Proof. done. Qed.

Ltac pushes :=
  repeat (rewrite mpush_eq by (rewrite ?esp_with_esp; lia); cbn [mc ms mm]; rewrite ?with_esp_twice, ?esp_with_esp).

Section stubs.
(** The descriptor table in force, for the privilege level of a selector. *)
Variable tbl : Gdt.gdt_state.

Definition dpl (sel : Z) : Z := default 0 (Gdt.d_dpl <$> Gdt.selected tbl sel).

(** A data segment register that the new privilege level may not use is cleared
    on a return to an outer ring. *)
Definition keep_seg (new_cpl sel : Z) : Z := if dpl sel <? new_cpl then 0 else sel.

Definition null_segs (new_cpl : Z) (s : Gdt.segs) : Gdt.segs :=
  let '(Gdt.Segs c d e f g ss t l b) := s in
  Gdt.Segs c (keep_seg new_cpl d) (keep_seg new_cpl e) (keep_seg new_cpl f) (keep_seg new_cpl g) ss t l b.

Definition iret (M : machine) : machine :=
  let '(eip, M1) := mpop M in
  let '(cs, M1) := mpop M1 in
  let '(eflags, M1) := mpop M1 in
  let new_cpl := Z.land (u16 cs) 3 in
  let M2 := on_segs (set_cs (u16 cs)) (on_cpu (λ c, with_eflags eflags (with_eip eip c)) M1) in
  if cpl M <? new_cpl then
    let '(esp, M3) := mpop M2 in
    let '(ss, M3) := mpop M3 in
    on_segs (null_segs new_cpl) (on_segs (set_ss (u16 ss)) (on_cpu (with_esp esp) M3))
  else M2.

(** ** The stubs *)

(** [mov ax, v] *)
Definition with_ax (v : Z) (c : cpu) : cpu := with_eax (r_eax c - r_eax c mod 2 ^ 16 + v) c.

Definition pusha (M : machine) : machine :=
  let sp := r_esp (mc M) in
  let M := mpush (r_eax (mc M)) M in
  let M := mpush (r_ecx (mc M)) M in
  let M := mpush (r_edx (mc M)) M in
  let M := mpush (r_ebx (mc M)) M in
  let M := mpush sp M in
  let M := mpush (r_ebp (mc M)) M in
  let M := mpush (r_esi (mc M)) M in
  mpush (r_edi (mc M)) M.

Definition popa (M : machine) : machine :=
  let '(edi, M) := mpop M in
  let '(esi, M) := mpop M in
  let '(ebp, M) := mpop M in
  let '(_, M) := mpop M in
  let '(ebx, M) := mpop M in
  let '(edx, M) := mpop M in
  let '(ecx, M) := mpop M in
  let '(eax, M) := mpop M in
  on_cpu (λ c, Cpu eax ebx ecx edx esi edi ebp (r_esp c) (r_eip c) (r_eflags c) (r_cr3 c)) M.

Definition add_esp (n : Z) (M : machine) : machine := on_cpu (λ c, with_esp (u32 (r_esp c + n)) c) M.

(** The exceptions whose stub is an [ISR_ERRCODE]. *)
Definition has_errcode (vec : Z) : bool :=
  (vec =? 8) || ((10 <=? vec) && (vec <=? 14)) || (vec =? 17).

(** [isr%1], [irq%1] and [isr128]: a dummy error code where the processor pushes
    none, and the vector. *)
Definition stub_head (vec : Z) (M : machine) : machine :=
  mpush vec (if has_errcode vec then M else mpush 0 M).

(** The common stubs up to the [call]. *)
Definition common_head (M : machine) : machine :=
  let M := pusha M in
  let M := on_cpu (with_ax (Gdt.s_ds (ms M))) M in
  let M := mpush (r_eax (mc M)) M in
  let M := on_cpu (with_ax 0x10) M in
  let M := on_segs (set_data (u16 (r_eax (mc M)))) M in
  mpush (r_esp (mc M)) M.

(** [isr_common_stub] and [irq_common_stub] after the [call]. *)
Definition common_tail (M : machine) : machine :=
  let M := add_esp 4 M in
  let '(v, M) := mpop M in
  let M := on_cpu (with_eax v) M in
  let M := on_segs (set_data (u16 (r_eax (mc M)))) M in
  let M := popa M in
  iret (add_esp 8 M).

(** [syscall_common_stub] after the [call]. *)
Definition syscall_tail (M : machine) : machine :=
  let M := add_esp 4 M in
  let '(v, M) := mpop M in
  let M := on_cpu (with_ebx v) M in
  let M := on_segs (set_data (u16 (r_ebx (mc M)))) M in
  let M := Machine (mc M) (ms M) (store32 (mm M) (r_esp (mc M) + 28) (r_eax (mc M))) in
  let M := popa M in
  iret (add_esp 8 M).

(** [fork_trampoline], on a stack that holds a [registers_t]. *)
Definition fork_trampoline (M : machine) : machine :=
  let '(v, M) := mpop M in
  let M := on_cpu (with_eax v) M in
  let M := on_segs (set_data (u16 (r_eax (mc M)))) M in
  let M := popa M in
  iret (add_esp 8 M).

(** [enter_usermode(entry, user_stack)], at its first instruction. *)
Definition enter_usermode (M : machine) : machine :=
  let M := on_cpu (λ c, with_eax (load32 (mm M) (r_esp c + 4)) c) M in
  let M := on_cpu (λ c, with_ebx (load32 (mm M) (r_esp c + 8)) c) M in
  let cx := Z.lor 0x20 3 in
  let M := on_cpu (λ c, with_ecx (r_ecx c - r_ecx c mod 2 ^ 16 + cx) c) M in
  let M := on_segs (set_data cx) M in
  let M := mpush (Z.lor 0x20 3) M in
  let M := mpush (r_ebx (mc M)) M in
  let M := mpush 0x202 M in
  let M := mpush (Z.lor 0x18 3) M in
  let M := mpush (r_eax (mc M)) M in
  iret M.

(** ** Frames *)

Definition machine_ok (M : machine) : Prop :=
  cpu_ok (mc M) ∧ is_u32 (r_eip (mc M)) ∧ is_u32 (r_esp (mc M)) ∧
  Forall (λ s, 0 <= s < 2 ^ 16) [Gdt.s_cs (ms M); Gdt.s_ss (ms M); Gdt.s_ds (ms M)].

(** The stack the frame goes on: the interrupted one in ring 0, else the TSS's. *)
Definition frame_top (esp0 : Z) (M : machine) : Z := if cpl M =? 0 then r_esp (mc M) else esp0.

(** The words of [registers_t], in order, followed by the ring-3 stack. *)
Definition regs_words (M : machine) (vec err sp : Z) : list Z :=
  let c := mc M in
  [r_eax c - r_eax c mod 2 ^ 16 + Gdt.s_ds (ms M); r_edi c; r_esi c; r_ebp c; sp; r_ebx c; r_edx c; r_ecx c; r_eax c;
   vec; err; r_eip c; Gdt.s_cs (ms M); r_eflags c] ++
  (if cpl M =? 0 then [] else [r_esp c; Gdt.s_ss (ms M)]).

Definition frame_size (M : machine) : Z := if cpl M =? 0 then 60 else 68.

(** What a C function that is called with [M] and returns with [M'] keeps: the
    callee-saved registers, the segment registers, and the frame up to [top]. *)
Record cdecl (top : Z) (M M' : machine) : Prop := {
  cd_esp : r_esp (mc M') = r_esp (mc M);
  cd_cr3 : r_cr3 (mc M') = r_cr3 (mc M);
  cd_segs : ms M' = ms M;
  cd_frame : agree_on (λ a, r_esp (mc M) + 4 <= a < top) (mm M) (mm M')
}.

(** ** Entering *)

Lemma push_all_app (l1 l2 : list Z) (sp : Z) (m : memory) :
  push_all (l1 ++ l2) sp m = push_all l2 (sp - 4 * Z.of_nat (length l1)) (push_all l1 sp m).
Proof.
  revert sp m. induction l1 as [|w l1 IH]; intros sp m; cbn [app push_all length]; [f_equal; lia |].
  rewrite IH. f_equal. lia.
Qed.

Lemma pusha_eq (c : cpu) (s : Gdt.segs) (m : memory) :
  32 <= r_esp c < 2 ^ 32 →
  pusha (Machine c s m) = Machine (with_esp (r_esp c - 32) c) s
    (push_all [r_eax c; r_ecx c; r_edx c; r_ebx c; r_esp c; r_ebp c; r_esi c; r_edi c] (r_esp c) m).
Proof.
  intros H. unfold pusha. cbn [mc]. pushes. cbn [push_all].
  replace (r_esp c - 32) with (r_esp c - 4 - 4 - 4 - 4 - 4 - 4 - 4 - 4) by lia. reflexivity.
Qed.

(** The part of the frame the processor pushes. *)
Definition hw_pushes (M : machine) (err : option Z) : list Z :=
  (if cpl M =? 0 then [] else [Gdt.s_ss (ms M); r_esp (mc M)]) ++
  [r_eflags (mc M); Gdt.s_cs (ms M); r_eip (mc M)] ++ option_list err.

Lemma interrupt_eq (g : Idt.gate) (ss0 esp0 : Z) (err : option Z) (M : machine) :
  let top := frame_top esp0 M in
  24 <= top < 2 ^ 32 →
  interrupt g ss0 esp0 err M =
    Machine (with_eflags (gate_flags (r_eflags (mc M))) (with_eip (Idt.g_offset g)
        (with_esp (top - 4 * Z.of_nat (length (hw_pushes M err))) (mc M))))
      (set_cs (Idt.g_selector g) (if cpl M =? 0 then ms M else set_ss ss0 (ms M)))
      (push_all (hw_pushes M err) top (mm M)).
Proof.
  intros top Htop. destruct M as [c s m]. unfold interrupt, hw_pushes, top, frame_top in *. cbn [mc ms mm] in *.
  destruct (cpl (Machine c s m) =? 0).
  all: unfold on_segs, on_cpu; cbn [mc ms mm]; destruct err as [e|]; pushes.
  all: cbn [app option_list push_all length]; f_equal; unfold with_eflags, with_eip, with_esp; cbn; f_equal; lia.
Qed.

Lemma stub_eq (vec e : Z) (err : option Z) (g : Idt.gate) (ss0 esp0 : Z) (M : machine) :
  let top := frame_top esp0 M in
  let n := frame_size M - 40 in
  68 <= top < 2 ^ 32 → err = (if has_errcode vec then Some e else None) → (has_errcode vec = false → e = 0) →
  stub_head vec (interrupt g ss0 esp0 err M) =
    Machine (with_eflags (gate_flags (r_eflags (mc M))) (with_eip (Idt.g_offset g) (with_esp (top - n) (mc M))))
      (set_cs (Idt.g_selector g) (if cpl M =? 0 then ms M else set_ss ss0 (ms M)))
      (push_all (hw_pushes M (Some e) ++ [vec]) top (mm M)).
Proof.
  intros top n Htop Herr He. unfold n, frame_size, stub_head.
  assert (20 <= 4 * Z.of_nat (length (hw_pushes M (Some e)) + 1) <= 28 ∧
    4 * Z.of_nat (length (hw_pushes M (Some e)) + 1) = (if cpl M =? 0 then 60 else 68) - 40) as [Hn En].
  { unfold hw_pushes. destruct (cpl M =? 0); cbn; lia. }
  assert (hw_pushes M (Some e) = hw_pushes M None ++ [e] ∧
    length (hw_pushes M (Some e)) = S (length (hw_pushes M None))) as [E1 E2].
  { unfold hw_pushes. destruct (cpl M =? 0); done. }
  rewrite interrupt_eq by (fold top; lia). fold top. subst err. destruct (has_errcode vec) eqn:Hv.
  - rewrite mpush_eq by (cbn [r_esp with_esp with_eip with_eflags]; lia).
    rewrite push_all_app. cbn [push_all r_esp with_esp with_eip with_eflags].
    f_equal. unfold with_esp, with_eip, with_eflags. cbn. f_equal. lia.
  - rewrite He in * by done. rewrite mpush_eq by (cbn [r_esp with_esp with_eip with_eflags]; lia).
    rewrite mpush_eq by (cbn [r_esp with_esp with_eip with_eflags]; lia).
    rewrite E1, <- app_assoc, push_all_app. cbn [push_all app r_esp with_esp with_eip with_eflags].
    f_equal. unfold with_esp, with_eip, with_eflags. cbn. f_equal. lia.
Qed.

Lemma common_head_eq (c : cpu) (s : Gdt.segs) (m : memory) :
  40 <= r_esp c < 2 ^ 32 → 0 <= r_eax c → 0 <= Gdt.s_ds s < 2 ^ 16 →
  let w := r_eax c - r_eax c mod 2 ^ 16 + Gdt.s_ds s in
  ∃ c', common_head (Machine c s m) = Machine c' (set_data 0x10 s)
      (push_all [r_eax c; r_ecx c; r_edx c; r_ebx c; r_esp c; r_ebp c; r_esi c; r_edi c; w; r_esp c - 36] (r_esp c) m) ∧
    r_esp c' = r_esp c - 40 ∧ r_cr3 c' = r_cr3 c ∧ r_eip c' = r_eip c ∧ r_eflags c' = r_eflags c.
Proof.
  intros Hsp Hax Hds w. unfold common_head. rewrite pusha_eq by lia. unfold on_cpu, on_segs. cbv zeta. cbn [mc ms mm].
  set (c1 := with_ax (Gdt.s_ds s) (with_esp (r_esp c - 32) c)).
  assert (r_esp c1 = r_esp c - 32 ∧ r_eax c1 = w) as [S1 A1] by done.
  rewrite (mpush_eq (r_eax c1) c1) by lia. cbn [mc ms mm]. set (c2 := with_ax 16 _).
  assert (r_esp c2 = r_esp c - 36) as S2 by (change (r_esp c2) with (r_esp c1 - 4); lia).
  assert (u16 (r_eax c2) = 16) as A2.
  { change (r_eax c2) with (r_eax c1 - r_eax c1 mod 2 ^ 16 + 16). rewrite A1. unfold u16. zlia. }
  rewrite mpush_eq by lia. cbn [mc ms mm]. eexists. split.
  - rewrite A2, S2, S1, A1. change [r_eax c; r_ecx c; r_edx c; r_ebx c; r_esp c; r_ebp c; r_esi c; r_edi c; w; r_esp c - 36]
      with ([r_eax c; r_ecx c; r_edx c; r_ebx c; r_esp c; r_ebp c; r_esi c; r_edi c] ++ [w; r_esp c - 36]).
    rewrite push_all_app. cbn [length push_all]. f_equal. f_equal; try lia.
  - split_and!; [cbn [r_esp with_esp]; lia | done | done | done].
Qed.

Lemma stack_at_nth (m : memory) (sp : Z) (ws : list Z) (i : nat) (w : Z) :
  stack_at m sp ws → ws !! i = Some w → load32 m (sp + 4 * Z.of_nat i) = w.
Proof.
  revert sp i. induction ws as [|x ws IH]; intros sp i; [done |]. intros [Hx Hs] Hi. destruct i as [|i].
  - injection Hi as <-. by rewrite Z.add_0_r.
  - replace (sp + 4 * Z.of_nat (S i)) with (sp + 4 + 4 * Z.of_nat i) by lia. by apply IH.
Qed.

(** The words the entry pushes, the first one first. *)
Definition entry_pushes (M : machine) (vec err top : Z) : list Z :=
  reverse (top - frame_size M + 4 :: regs_words M vec err (top - frame_size M + 40)).

Lemma entry_spec (g : Idt.gate) (ss0 esp0 vec e : Z) (err : option Z) (M : machine) :
  let top := frame_top esp0 M in
  let M1 := common_head (stub_head vec (interrupt g ss0 esp0 err M)) in
  68 <= top < 2 ^ 32 → err = (if has_errcode vec then Some e else None) → (has_errcode vec = false → e = 0) →
  0 <= r_eax (mc M) → 0 <= Gdt.s_ds (ms M) < 2 ^ 16 →
  mm M1 = push_all (entry_pushes M vec e top) top (mm M) ∧
  r_esp (mc M1) = top - frame_size M ∧ r_cr3 (mc M1) = r_cr3 (mc M) ∧
  r_eip (mc M1) = Idt.g_offset g ∧ r_eflags (mc M1) = gate_flags (r_eflags (mc M)) ∧
  ms M1 = set_data 0x10 (set_cs (Idt.g_selector g) (if cpl M =? 0 then ms M else set_ss ss0 (ms M))).
Proof.
  intros top M1 Htop Herr He Heax Hds. unfold M1. rewrite (stub_eq vec e) by done. fold top.
  set (c1 := with_eflags _ _). set (s1 := set_cs _ _).
  assert (20 <= frame_size M - 40 <= 28) as Hn by (unfold frame_size; destruct (cpl M =? 0); lia).
  assert (Gdt.s_ds s1 = Gdt.s_ds (ms M)) as Es by (unfold s1; destruct (ms M), (cpl M =? 0); done).
  destruct (common_head_eq c1 s1 (push_all (hw_pushes M (Some e) ++ [vec]) top (mm M))) as (c' & -> & H1 & H2 & H3 & H4);
    [change (r_esp c1) with (top - (frame_size M - 40)); lia | done | by rewrite Es |].
  rewrite Es. cbn [mc ms mm]. change (r_esp c1) with (top - (frame_size M - 40)) in *.
  split_and!; [| lia | done | done | done | done].
  replace (top - (frame_size M - 40)) with (top - 4 * Z.of_nat (length (hw_pushes M (Some e) ++ [vec]))) at 3.
  2:{ unfold hw_pushes, frame_size. destruct (cpl M =? 0); cbn; lia. }
  rewrite <- push_all_app. f_equal. unfold entry_pushes, regs_words, hw_pushes, frame_size.
  destruct (cpl M =? 0); cbn; repeat f_equal; lia.
Qed.

(** ** Leaving *)

Lemma mpop_eq (c : cpu) (s : Gdt.segs) (m : memory) (sp w : Z) (ws : list Z) :
  r_esp c = sp → stack_at m sp (w :: ws) → 0 <= sp → sp + 4 < 2 ^ 32 →
  mpop (Machine c s m) = (w, Machine (with_esp (sp + 4) c) s m) ∧ stack_at m (sp + 4) ws.
Proof.
  intros E [Hw Hs] H0 H1. split; [| done]. unfold mpop. cbn [mc ms mm]. by rewrite E, Hw, u32_id by (unfold is_u32; lia).
Qed.

(** Pop the next word of the stack [H] describes. *)
Ltac pop_next H :=
  let E := fresh in
  match goal with
  | |- context [mpop (Machine ?c ?s ?m)] =>
      let H' := fresh in
      destruct (mpop_eq c s m _ _ _ eq_refl H ltac:(rewrite ?esp_with_esp; lia) ltac:(rewrite ?esp_with_esp; lia)) as [E H'];
      clear H; rename H' into H; rewrite E; clear E; rewrite ?with_esp_twice, ?esp_with_esp in *
  end.

Lemma popa_eq (c : cpu) (s : Gdt.segs) (m : memory) (edi esi ebp x ebx edx ecx eax : Z) (ws : list Z) :
  stack_at m (r_esp c) ([edi; esi; ebp; x; ebx; edx; ecx; eax] ++ ws) → 0 <= r_esp c → r_esp c + 32 < 2 ^ 32 →
  popa (Machine c s m) = Machine (Cpu eax ebx ecx edx esi edi ebp (r_esp c + 32) (r_eip c) (r_eflags c) (r_cr3 c)) s m ∧
  stack_at m (r_esp c + 32) ws.
Proof.
  intros H H0 H1. unfold popa. cbn [app] in H. do 8 pop_next H.
  replace (r_esp c + 4 + 4 + 4 + 4 + 4 + 4 + 4 + 4) with (r_esp c + 32) in * by lia. done.
Qed.

(** The words [iret] pops for the interrupted state [M]. *)
Definition iret_words (M : machine) : list Z :=
  [r_eip (mc M); Gdt.s_cs (ms M); r_eflags (mc M)] ++ (if cpl M =? 0 then [] else [r_esp (mc M); Gdt.s_ss (ms M)]).

Lemma iret_eq (c : cpu) (s : Gdt.segs) (m : memory) (M : machine) (esp0 : Z) :
  stack_at m (r_esp c) (iret_words M) → Z.land (Gdt.s_cs s) 3 = 0 → 0 <= r_esp c → r_esp c + 20 < 2 ^ 32 →
  Forall (λ s, 0 <= s < 2 ^ 16) [Gdt.s_cs (ms M); Gdt.s_ss (ms M)] →
  r_esp c + (if cpl M =? 0 then 12 else 20) = frame_top esp0 M →
  iret (Machine c s m) =
    Machine (with_eflags (r_eflags (mc M)) (with_eip (r_eip (mc M)) (with_esp (r_esp (mc M)) c)))
      (if cpl M =? 0 then set_cs (Gdt.s_cs (ms M)) s
       else null_segs (cpl M) (set_ss (Gdt.s_ss (ms M)) (set_cs (Gdt.s_cs (ms M)) s))) m.
Proof.
  intros H Hs H0 H1 Hsel Htop. rewrite !Forall_cons in Hsel. destruct Hsel as (Hcs & Hss & _).
  assert (∀ x, 0 <= x < 2 ^ 16 → u16 x = x) as U by (intros x Hx; by apply Z.mod_small).
  assert (0 <= cpl M) as Hc by (apply Z.land_nonneg; lia).
  unfold iret, cpl at 1. cbn [ms]. rewrite Hs. unfold iret_words in H. cbn [app] in H. do 3 pop_next H.
  rewrite U by done. fold (cpl M). unfold frame_top in Htop.
  destruct (Z.eqb_spec (cpl M) 0) as [E|E].
  - rewrite E. cbn [Z.ltb Z.compare]. unfold on_segs, on_cpu. cbn [mc ms mm]. f_equal.
    unfold with_eflags, with_eip, with_esp. cbn. f_equal. lia.
  - destruct (Z.ltb_spec 0 (cpl M)); [| lia]. unfold on_segs, on_cpu. cbn [mc ms mm]. cbn [app] in H.
    set (c3 := with_eflags _ _). change (r_esp c + 4 + 4 + 4) with (r_esp c3) in H.
    assert (r_esp c3 = r_esp c + 4 + 4 + 4) as E3 by done.
    do 2 pop_next H. cbn [mc ms mm]. rewrite U by done. f_equal.
Qed.

(** [popa; add esp, 8; iret] on the rest of the frame. *)
Lemma finish_eq (c : cpu) (s : Gdt.segs) (m : memory) (M : machine) (esp0 eax x vec err : Z) :
  let r := mc M in
  stack_at m (r_esp c) ([r_edi r; r_esi r; r_ebp r; x; r_ebx r; r_edx r; r_ecx r; eax] ++ vec :: err :: iret_words M) →
  Z.land (Gdt.s_cs s) 3 = 0 → 0 <= r_esp c → r_esp c + 60 < 2 ^ 32 → machine_ok M → r_cr3 c = r_cr3 r →
  r_esp c + (if cpl M =? 0 then 52 else 60) = frame_top esp0 M →
  iret (add_esp 8 (popa (Machine c s m))) =
    Machine (with_eax eax r)
      (if cpl M =? 0 then set_cs (Gdt.s_cs (ms M)) s
       else null_segs (cpl M) (set_ss (Gdt.s_ss (ms M)) (set_cs (Gdt.s_cs (ms M)) s))) m.
Proof.
  intros r H Hs H0 H1 Hok Hcr Htop. destruct (popa_eq c s m _ _ _ _ _ _ _ _ _ H H0 ltac:(lia)) as [-> H2].
  unfold add_esp, on_cpu. cbn [mc ms mm r_esp]. set (c1 := Cpu _ _ _ _ _ _ _ _ _ _ _).
  change (r_esp (with_esp ?a c1)) with a. rewrite (u32_id (r_esp c + 32 + 8)) by (unfold is_u32; lia).
  destruct H2 as (_ & _ & H2). destruct Hok as (_ & _ & _ & Hsel). rewrite !Forall_cons in Hsel.
  destruct Hsel as (S1 & S2 & _). rewrite (iret_eq _ _ _ M esp0); cbn [r_esp with_esp].
  - f_equal. unfold c1. cbn. rewrite Hcr. done.
  - by replace (r_esp c + 32 + 8) with (r_esp c + 32 + 4 + 4) by lia.
  - done.
  - lia.
  - lia.
  - by rewrite !Forall_cons, Forall_nil.
  - destruct (cpl M =? 0); lia.
Qed.

(** The segment registers the interrupted code gets back. *)
Lemma segs_back (g : Idt.gate) (ss0 : Z) (M : machine) :
  (cpl M =? 0 = false → cpl M <= dpl (Gdt.s_ds (ms M))) →
  let s1 := set_data (Gdt.s_ds (ms M))
    (set_data 0x10 (set_cs (Idt.g_selector g) (if cpl M =? 0 then ms M else set_ss ss0 (ms M)))) in
  (if cpl M =? 0 then set_cs (Gdt.s_cs (ms M)) s1
   else null_segs (cpl M) (set_ss (Gdt.s_ss (ms M)) (set_cs (Gdt.s_cs (ms M)) s1))) = set_data (Gdt.s_ds (ms M)) (ms M).
Proof.
  intros Hd s1. unfold s1. destruct M as [c [cs ds es fs gs ss tr gl gb] m]. cbn in Hd |- *.
  destruct (cpl _ =? 0) eqn:E; cbn; [done |]. unfold keep_seg.
  destruct (Z.ltb_spec (dpl ds) (cpl (Machine c (Gdt.Segs cs ds es fs gs ss tr gl gb) m))); [specialize (Hd eq_refl); lia | done].
Qed.

(** The tails up to [popa], with the stack pointer at [sp]. *)
Lemma common_tail_head (M2 : machine) (sp : Z) :
  r_esp (mc M2) = sp → 0 <= sp → sp + 8 < 2 ^ 32 →
  let w := load32 (mm M2) (sp + 4) in
  common_tail M2 = iret (add_esp 8 (popa
    (Machine (with_eax w (with_esp (sp + 8) (mc M2))) (set_data (u16 w) (ms M2)) (mm M2)))).
Proof.
  intros E H0 H1 w. destruct M2 as [c s m]. cbn [mc ms mm] in *. unfold common_tail. do 2 f_equal.
  unfold add_esp, on_cpu, on_segs, mpop. cbn [mc ms mm]. rewrite E, !esp_with_esp, (u32_id (sp + 4)) by (unfold is_u32; lia).
  rewrite (u32_id (sp + 4 + 4)) by (unfold is_u32; lia). replace (sp + 4 + 4) with (sp + 8) by lia. done.
Qed.

Lemma syscall_tail_head (M2 : machine) (sp : Z) :
  r_esp (mc M2) = sp → 0 <= sp → sp + 8 < 2 ^ 32 →
  let w := load32 (mm M2) (sp + 4) in
  syscall_tail M2 = iret (add_esp 8 (popa
    (Machine (with_ebx w (with_esp (sp + 8) (mc M2))) (set_data (u16 w) (ms M2))
      (store32 (mm M2) (sp + 36) (r_eax (mc M2)))))).
Proof.
  intros E H0 H1 w. destruct M2 as [c s m]. cbn [mc ms mm] in *. unfold syscall_tail. do 2 f_equal.
  unfold add_esp, on_cpu, on_segs, mpop. cbn [mc ms mm]. rewrite E, !esp_with_esp, (u32_id (sp + 4)) by (unfold is_u32; lia).
  rewrite (u32_id (sp + 4 + 4)) by (unfold is_u32; lia). replace (sp + 4 + 4) with (sp + 8) by lia.
  cbn [r_esp with_ebx with_esp r_eax]. replace (sp + 8 + 28) with (sp + 36) by lia. done.
Qed.

(** [mov [esp + 28], eax]: the saved EAX is overwritten. *)
Lemma replace_eax (m : memory) (sp old v : Z) (ws1 ws2 : list Z) :
  is_u32 v → length ws1 = 7%nat → stack_at m sp (ws1 ++ old :: ws2) →
  stack_at (store32 m (sp + 28) v) sp (ws1 ++ v :: ws2).
Proof.
  intros Hv Hl. rewrite !stack_at_app, Hl. change (4 * Z.of_nat 7) with 28. intros (H1 & _ & H2). split; [| split].
  - eapply stack_at_agree; [| exact H1]. rewrite Hl. eapply agree_on_weaken; [apply agree_store32 |]. simpl. lia.
  - by rewrite load32_store32_eq, u32_id.
  - eapply stack_at_agree; [| exact H2]. eapply agree_on_weaken; [apply agree_store32 |]. simpl. lia.
Qed.

Section trap.
Variables (g : Idt.gate) (ss0 esp0 vec e : Z) (err : option Z) (M M2 : machine).
Let top := frame_top esp0 M.
Let M1 := common_head (stub_head vec (interrupt g ss0 esp0 err M)).
Hypothesis Hok : machine_ok M.
Hypothesis Htop : 68 <= top < 2 ^ 32 - 8.
Hypothesis Hvec : is_u32 vec.
Hypothesis He : is_u32 e.
Hypothesis Herr : err = if has_errcode vec then Some e else None.
Hypothesis He0 : has_errcode vec = false → e = 0.
Hypothesis Hsel : Z.land (Idt.g_selector g) 3 = 0.

Lemma frame_size_cases : frame_size M = 60 ∧ cpl M =? 0 = true ∨ frame_size M = 68 ∧ cpl M =? 0 = false.
Proof. unfold frame_size. destruct (cpl M =? 0); auto. Qed.

(** The frame the handler is given a pointer to. *)
Lemma entry_frame :
  stack_at (mm M1) (top - frame_size M + 4) (regs_words M vec e (top - frame_size M + 40)) ∧
  load32 (mm M1) (top - frame_size M) = top - frame_size M + 4 ∧
  agree_outside (top - frame_size M) top (mm M) (mm M1).
Proof.
  destruct Hok as (Hc & Hip & Hesp & Hsg). unfold cpu_ok in Hc. rewrite !Forall_cons in Hc. rewrite !Forall_cons in Hsg.
  destruct Hc as (? & ? & ? & ? & ? & ? & ? & ? & _), Hsg as (? & ? & ? & _).
  pose proof (entry_spec g ss0 esp0 vec e err M) as Hent. cbv zeta in Hent. fold top M1 in Hent.
  destruct Hent as (Em & _); [lia | done | done | unfold is_u32 in *; lia | done |]. rewrite Em.
  destruct (push_all_spec (entry_pushes M vec e top) [] top (mm M)) as [S1 S2]; [| done |].
  { unfold entry_pushes. apply Forall_reverse. unfold regs_words, is_u32 in *.
    destruct frame_size_cases as [[-> ->]|[-> ->]]; repeat (apply Forall_cons; split); try apply Forall_nil; try done;
      unfold is_u32; try lia; zlia. }
  rewrite app_nil_r in S1. replace (reverse (entry_pushes M vec e top)) with
    (top - frame_size M + 4 :: regs_words M vec e (top - frame_size M + 40)) in S1
    by (unfold entry_pushes; by rewrite reverse_involutive).
  assert (4 * Z.of_nat (length (entry_pushes M vec e top)) = frame_size M) as El.
  { unfold entry_pushes, regs_words. rewrite length_reverse. destruct frame_size_cases as [[-> ->]|[-> ->]]; done. }
  rewrite El in S1, S2. destruct S1 as [S0 S1]. done.
Qed.

Hypothesis Hcd : cdecl top M1 M2.

(** The machine when the handler has returned. *)
Lemma after_call :
  r_esp (mc M2) = top - frame_size M ∧ r_cr3 (mc M2) = r_cr3 (mc M) ∧
  ms M2 = set_data 0x10 (set_cs (Idt.g_selector g) (if cpl M =? 0 then ms M else set_ss ss0 (ms M))) ∧
  stack_at (mm M2) (top - frame_size M + 4) (regs_words M vec e (top - frame_size M + 40)).
Proof.
  pose proof Hok as (Hc & _ & _ & Hsg). unfold cpu_ok in Hc. rewrite !Forall_cons in Hc. rewrite !Forall_cons in Hsg.
  pose proof (entry_spec g ss0 esp0 vec e err M) as Hent. cbv zeta in Hent. fold top M1 in Hent.
  destruct Hent as (_ & E1 & E2 & _ & _ & E5); [lia | done | done | unfold is_u32 in *; lia | tauto |]. destruct Hcd as [C1 C2 C3 C4]. split_and!; [congruence | congruence | congruence |].
  eapply stack_at_agree; [| apply entry_frame]. eapply agree_on_weaken; [exact C4 |].
  intros a Ha. rewrite E1. unfold regs_words in Ha. destruct frame_size_cases as [[E E']|[E E']]; rewrite E, E' in *; cbn in Ha |- *; lia.
Qed.

Hypothesis Hdpl : cpl M =? 0 = false → cpl M <= dpl (Gdt.s_ds (ms M)).

(** The saved data segment, popped into a register. *)
Lemma saved_ds (x : Z) : 0 <= Gdt.s_ds (ms M) < 2 ^ 16 → u16 (x - x mod 2 ^ 16 + Gdt.s_ds (ms M)) = Gdt.s_ds (ms M).
Proof. intros H. unfold u16. zlia. Qed.

Lemma tail_sp : 0 <= top - frame_size M ∧ top - frame_size M + 68 < 2 ^ 32 ∧ top - frame_size M + 60 <= top.
Proof. destruct frame_size_cases as [[-> _]|[-> _]]; lia. Qed.

Lemma common_tail_eq : common_tail M2 = Machine (mc M) (set_data (Gdt.s_ds (ms M)) (ms M)) (mm M2).
Proof.
  destruct after_call as (A1 & A2 & A3 & A4). destruct tail_sp as (T1 & T2 & T3).
  pose proof Hok as (_ & _ & _ & Hsg). rewrite !Forall_cons in Hsg. destruct Hsg as (_ & _ & Hds & _).
  destruct A4 as [A4 A5].
  rewrite (common_tail_head _ _ A1 ltac:(lia) ltac:(lia)), A4, saved_ds by done.
  set (c1 := with_eax _ _). rewrite (finish_eq c1 _ _ M esp0 (r_eax (mc M)) (top - frame_size M + 40) vec e).
  - rewrite A3, (segs_back g ss0 M Hdpl). f_equal. by destruct (mc M).
  - change (r_esp c1) with (top - frame_size M + 8). replace (top - frame_size M + 8) with (top - frame_size M + 4 + 4) by lia.
    exact A5.
  - rewrite A3. destruct (ms M); destruct (cpl M =? 0); exact Hsel.
  - change (r_esp c1) with (top - frame_size M + 8). lia.
  - change (r_esp c1) with (top - frame_size M + 8). lia.
  - done.
  - done.
  - change (r_esp c1) with (top - frame_size M + 8). fold top. destruct frame_size_cases as [[-> ->]|[-> ->]]; lia.
Qed.

Lemma syscall_tail_eq :
  is_u32 (r_eax (mc M2)) →
  syscall_tail M2 = Machine (with_eax (r_eax (mc M2)) (mc M)) (set_data (Gdt.s_ds (ms M)) (ms M))
    (store32 (mm M2) (top - frame_size M + 36) (r_eax (mc M2))).
Proof.
  intros Heax. destruct after_call as (A1 & A2 & A3 & A4). destruct tail_sp as (T1 & T2 & T3).
  pose proof Hok as (_ & _ & _ & Hsg). rewrite !Forall_cons in Hsg. destruct Hsg as (_ & _ & Hds & _).
  destruct A4 as [A4 A5].
  rewrite (syscall_tail_head _ _ A1 ltac:(lia) ltac:(lia)), A4, saved_ds by done.
  set (c1 := with_ebx _ _). rewrite (finish_eq c1 _ _ M esp0 (r_eax (mc M2)) (top - frame_size M + 40) vec e).
  - rewrite A3, (segs_back g ss0 M Hdpl). done.
  - change (r_esp c1) with (top - frame_size M + 8). replace (top - frame_size M + 8) with (top - frame_size M + 4 + 4) by lia.
    replace (top - frame_size M + 36) with (top - frame_size M + 4 + 4 + 28) by lia. 
    by apply (replace_eax _ _ (r_eax (mc M)) _ [r_edi (mc M); r_esi (mc M); r_ebp (mc M); top - frame_size M + 40; r_ebx (mc M); r_edx (mc M); r_ecx (mc M)]).
  - rewrite A3. destruct (ms M); destruct (cpl M =? 0); exact Hsel.
  - change (r_esp c1) with (top - frame_size M + 8). lia.
  - change (r_esp c1) with (top - frame_size M + 8). lia.
  - done.
  - done.
  - change (r_esp c1) with (top - frame_size M + 8). fold top. destruct frame_size_cases as [[-> ->]|[-> ->]]; lia.
Qed.

End trap.

End stubs.

(** ** Theorems *)

(** The 32-bit field of [registers_t] at an offset from the pointer [r]. *)
Definition reg (m : memory) (r off : Z) : Z := load32 m (r + off).

(** C19. An interrupt is transparent.  From any ring, the handler is called in
    ring 0 with interrupts off on a pointer to a [registers_t] whose fields are
    exactly the interrupted registers, the vector and the error code; no memory
    outside the frame is touched; and when a handler that follows the C calling
    convention returns, [popa] and [iret] resume the interrupted code with every
    general register, flag, stack pointer, code and stack segment as they were,
    and the data segments reloaded from the saved DS. *)
Theorem interrupt_roundtrip (tbl : Gdt.gdt_state) (g : Idt.gate) (ss0 esp0 vec e : Z) (err : option Z) (M : machine) :
  let top := frame_top esp0 M in
  let M1 := common_head (stub_head vec (interrupt g ss0 esp0 err M)) in
  let r := load32 (mm M1) (r_esp (mc M1)) in
  machine_ok M → 68 <= top < 2 ^ 32 - 8 → is_u32 vec → is_u32 e →
  err = (if has_errcode vec then Some e else None) → (has_errcode vec = false → e = 0) →
  Z.land (Idt.g_selector g) 3 = 0 → (cpl M =? 0 = false → cpl M <= dpl tbl (Gdt.s_ds (ms M))) →
  map (reg (mm M1) r) [4; 8; 12; 20; 24; 28; 32; 36; 40; 44; 48; 52] =
    [r_edi (mc M); r_esi (mc M); r_ebp (mc M); r_ebx (mc M); r_edx (mc M); r_ecx (mc M); r_eax (mc M); vec; e;
     r_eip (mc M); Gdt.s_cs (ms M); r_eflags (mc M)] ∧
  r_eip (mc M1) = Idt.g_offset g ∧ Z.testbit (r_eflags (mc M1)) 9 = false ∧ cpl M1 = 0 ∧
  agree_outside (top - frame_size M) top (mm M) (mm M1) ∧
  ∀ M2, cdecl top M1 M2 → common_tail tbl M2 = Machine (mc M) (set_data (Gdt.s_ds (ms M)) (ms M)) (mm M2).
Proof.
  intros top M1 r Hok Htop Hvec He Herr He0 Hsel Hdpl.
  destruct (entry_frame g ss0 esp0 vec e err M Hok Htop Hvec He Herr He0) as (F1 & F2 & F3).
  pose proof Hok as (Hc & _ & _ & Hsg). unfold cpu_ok in Hc. rewrite !Forall_cons in Hc. rewrite !Forall_cons in Hsg.
  destruct (entry_spec g ss0 esp0 vec e err M) as (_ & E1 & _ & E3 & E4 & E5); [fold top; lia | done | done | unfold is_u32 in *; lia | tauto |].
  fold top in F1, F2, F3, E1. fold M1 in F1, F2, F3, E1, E3, E4, E5.
  assert (r = top - frame_size M + 4) as -> by (unfold r; by rewrite E1).
  split_and!.
  - pose proof (λ i w, stack_at_nth _ _ _ i w F1) as H. cbn [map]. unfold regs_words in H. unfold reg.
    by rewrite (H 1%nat _ eq_refl : load32 _ (_ + 4) = _), (H 2%nat _ eq_refl : load32 _ (_ + 8) = _),
      (H 3%nat _ eq_refl : load32 _ (_ + 12) = _), (H 5%nat _ eq_refl : load32 _ (_ + 20) = _),
      (H 6%nat _ eq_refl : load32 _ (_ + 24) = _), (H 7%nat _ eq_refl : load32 _ (_ + 28) = _),
      (H 8%nat _ eq_refl : load32 _ (_ + 32) = _), (H 9%nat _ eq_refl : load32 _ (_ + 36) = _),
      (H 10%nat _ eq_refl : load32 _ (_ + 40) = _), (H 11%nat _ eq_refl : load32 _ (_ + 44) = _),
      (H 12%nat _ eq_refl : load32 _ (_ + 48) = _), (H 13%nat _ eq_refl : load32 _ (_ + 52) = _).
  - done.
  - rewrite E4. unfold gate_flags. rewrite Z.ldiff_spec. apply andb_false_r.
  - unfold cpl. rewrite E5. destruct (ms M); destruct (cpl M =? 0); exact Hsel.
  - done.
  - intros M2 Hcd. by apply (common_tail_eq tbl g ss0 esp0 vec e err M M2).
Qed.

Lemma dpl_user (gdt_addr tss_addr : Z) (s0 : Gdt.gdt_state) :
  length (Gdt.gdt s0) = 6%nat → dpl (Gdt.gdt_init gdt_addr tss_addr s0) 0x23 = 3.
Proof.
  intros Hl. destruct s0 as [gd pl pb t sg]. cbn [Gdt.gdt] in Hl.
  do 7 (destruct gd as [|? gd]; [done || idtac |]); done.
Qed.

(** [enter_usermode] up to its [iret]. *)
Lemma usermode_frame (tbl : Gdt.gdt_state) (c : cpu) (s : Gdt.segs) (m : memory) (entry user_stack : Z) :
  let sp := r_esp c in
  20 <= sp < 2 ^ 32 - 8 → is_u32 entry → is_u32 user_stack → load32 m (sp + 4) = entry → load32 m (sp + 8) = user_stack →
  let m1 := push_all [0x23; user_stack; 0x202; 0x1B; entry] sp m in
  ∃ c1, r_esp c1 = sp - 20 ∧ r_cr3 c1 = r_cr3 c ∧
    enter_usermode tbl (Machine c s m) = iret tbl (Machine c1 (set_data 0x23 s) m1) ∧
    stack_at m1 (sp - 20) [entry; 0x1B; 0x202; user_stack; 0x23] ∧ agree_outside (sp - 20) sp m m1 ∧
    (cpu_ok c → cpu_ok c1).
Proof.
  intros sp Hsp He Hu E4 E8 m1.
  destruct (push_all_spec [0x23; user_stack; 0x202; 0x1B; entry] [] sp m) as [H1 H2]; [| done |].
  { rewrite !Forall_cons, Forall_nil. unfold is_u32 in *. lia. }
  change (4 * Z.of_nat (length [0x23; user_stack; 0x202; 0x1B; entry])) with 20 in H1, H2. fold m1 in H1, H2.
  unfold enter_usermode, on_cpu, on_segs. cbv zeta. cbn [mc ms mm r_esp with_eax with_ebx with_ecx].
  fold sp. rewrite E4, E8. set (c1 := with_ecx _ _). change (Z.lor 32 3) with 0x23. change (Z.lor 24 3) with 0x1B.
  assert (r_esp c1 = sp) as Es by done.
  exists (with_esp (sp - 20) c1). split_and!; [done | done | | done | done |].
  2: { intros Hc. assert (is_u32 (r_ecx c - r_ecx c mod 2 ^ 16 + 0x23)) as Hx.
       { unfold cpu_ok in Hc. rewrite !Forall_cons in Hc. destruct Hc as (_ & _ & H3 & _). unfold is_u32 in *. zlia. }
       unfold cpu_ok in Hc |- *. rewrite !Forall_cons in Hc |- *. destruct Hc as (_ & _ & _ & Hc).
       split; [exact He |]. split; [exact Hu |]. split; [exact Hx | exact Hc]. }
  f_equal. pushes.
  rewrite Es. change (r_ebx (with_esp ?x c1)) with user_stack. change (r_eax (with_esp ?x c1)) with entry. cbn [push_all].
  unfold m1. cbn [push_all]. f_equal. f_equal. lia.
Qed.

Lemma enter_usermode_spec (gdt_addr tss_addr : Z) (s0 : Gdt.gdt_state) (M : machine) (entry user_stack : Z) :
  let tbl := Gdt.gdt_init gdt_addr tss_addr s0 in
  let M' := enter_usermode tbl M in
  length (Gdt.gdt s0) = 6%nat → cpl M = 0 → 20 <= r_esp (mc M) < 2 ^ 32 - 8 → is_u32 entry → is_u32 user_stack →
  load32 (mm M) (r_esp (mc M) + 4) = entry → load32 (mm M) (r_esp (mc M) + 8) = user_stack →
  r_eip (mc M') = entry ∧ r_esp (mc M') = user_stack ∧ cpl M' = 3 ∧ r_eflags (mc M') = 0x202 ∧
  Gdt.s_cs (ms M') = 0x1B ∧ Gdt.s_ss (ms M') = 0x23 ∧ Gdt.s_ds (ms M') = 0x23 ∧ Gdt.s_es (ms M') = 0x23 ∧
  Gdt.s_fs (ms M') = 0x23 ∧ Gdt.s_gs (ms M') = 0x23 ∧ r_cr3 (mc M') = r_cr3 (mc M) ∧
  agree_outside (r_esp (mc M) - 20) (r_esp (mc M)) (mm M) (mm M') ∧ (cpu_ok (mc M) → cpu_ok (mc M')).
Proof.
  intros tbl M' Hl Hcpl Hsp He Hu E4 E8. destruct M as [c s m]. cbn [mc ms mm] in *.
  destruct (usermode_frame tbl c s m entry user_stack Hsp He Hu E4 E8) as (c1 & C1 & C2 & E & H1 & H2 & H3). fold M' in E.
  set (m1 := push_all _ _ m) in *.
  set (Mt := Machine (Cpu 0 0 0 0 0 0 0 user_stack entry 0x202 0) (Gdt.Segs 0x1B 0 0 0 0 0x23 0 0 0) ∅).
  assert (dpl tbl 0x23 = 3) as Hd by (by apply dpl_user).
  assert (M' = Machine (with_eflags 0x202 (with_eip entry (with_esp user_stack c1)))
    (null_segs tbl 3 (set_ss 0x23 (set_cs 0x1B (set_data 0x23 s)))) m1) as ->.
  { rewrite E. rewrite (iret_eq tbl _ _ _ Mt (r_esp c)).
    - done.
    - rewrite C1. exact H1.
    - destruct s. exact Hcpl.
    - lia.
    - lia.
    - rewrite !Forall_cons, Forall_nil. cbn. lia.
    - rewrite C1. change (r_esp c - 20 + 20 = r_esp c). lia. }
  destruct s as [cs ds es fs gs ss tr gl gb]. cbn [ms mc mm set_data set_cs set_ss null_segs Gdt.s_cs Gdt.s_ss Gdt.s_ds Gdt.s_es Gdt.s_fs Gdt.s_gs].
  unfold keep_seg. rewrite Hd. cbn. split_and!; try done.
  intros Hc. specialize (H3 Hc). unfold cpu_ok in H3 |- *. rewrite !Forall_cons in H3 |- *. cbn. unfold is_u32 in *. split_and!; try apply H3; lia.
Qed.

(** [enter_usermode] drops to ring 3: under the descriptor table of
    [gdt_init], with the entry point and the user stack as its two arguments, the
    [iret] it ends in continues at the entry point on the user stack, in the
    ring-3 code segment with the ring-3 data segment everywhere, with interrupts
    enabled; only the twenty bytes below its stack pointer are written. *)
Theorem enter_usermode_drops (gdt_addr tss_addr : Z) (s0 : Gdt.gdt_state) (M : machine) (entry user_stack : Z) :
  let tbl := Gdt.gdt_init gdt_addr tss_addr s0 in
  let M' := enter_usermode tbl M in
  length (Gdt.gdt s0) = 6%nat → cpl M = 0 → 20 <= r_esp (mc M) < 2 ^ 32 - 8 → is_u32 entry → is_u32 user_stack →
  load32 (mm M) (r_esp (mc M) + 4) = entry → load32 (mm M) (r_esp (mc M) + 8) = user_stack →
  r_eip (mc M') = entry ∧ r_esp (mc M') = user_stack ∧ cpl M' = 3 ∧ r_eflags (mc M') = 0x202 ∧
  Gdt.s_cs (ms M') = 0x1B ∧ Gdt.s_ss (ms M') = 0x23 ∧ Gdt.s_ds (ms M') = 0x23 ∧ Gdt.s_es (ms M') = 0x23 ∧
  Gdt.s_fs (ms M') = 0x23 ∧ Gdt.s_gs (ms M') = 0x23 ∧ r_cr3 (mc M') = r_cr3 (mc M) ∧
  agree_outside (r_esp (mc M) - 20) (r_esp (mc M)) (mm M) (mm M') ∧ (cpu_ok (mc M) → cpu_ok (mc M')).
Proof. exact (enter_usermode_spec gdt_addr tss_addr s0 M entry user_stack). Qed.

(** ** The landing pad of a forked process *)

(** On a kernel stack that holds the trap frame of a process in ring 3 with a
    saved EAX of 0, [fork_trampoline] resumes that process after its [int 0x80]
    with EAX = 0 and all other registers as they were in the trap. *)
Theorem fork_trampoline_resumes (tbl : Gdt.gdt_state) (c : cpu) (s : Gdt.segs) (m : memory) (M : machine) (ds x vec err : Z) :
  let r := mc M in
  stack_at m (r_esp c) (ds :: [r_edi r; r_esi r; r_ebp r; x; r_ebx r; r_edx r; r_ecx r; 0] ++ vec :: err :: iret_words M) →
  u16 ds = Gdt.s_ds (ms M) → Z.land (Gdt.s_cs s) 3 = 0 → cpl M = 3 → dpl tbl (Gdt.s_ds (ms M)) = 3 →
  0 <= r_esp c → r_esp c + 64 < 2 ^ 32 → machine_ok M → r_cr3 c = r_cr3 r →
  fork_trampoline tbl (Machine c s m) =
    Machine (with_eax 0 r) (set_ss (Gdt.s_ss (ms M)) (set_cs (Gdt.s_cs (ms M)) (set_data (Gdt.s_ds (ms M)) s))) m.
Proof.
  intros r [H0 H] Hds Hcs Hcpl Hdpl Hsp Hsp' Hok Hcr. unfold fork_trampoline, mpop, on_cpu, on_segs. cbn [mc ms mm].
  rewrite H0, (u32_id (r_esp c + 4)) by (unfold is_u32; lia). cbn [r_eax with_eax]. rewrite Hds.
  set (c1 := with_eax _ _). assert (r_esp c1 = r_esp c + 4) as E1 by reflexivity.
  rewrite (finish_eq tbl c1 _ m M (r_esp c + 64) 0 x vec err); rewrite ?E1.
  - rewrite Hcpl. destruct s, (ms M). cbn in Hdpl |- *. unfold keep_seg. rewrite Hdpl. reflexivity.
  - exact H.
  - destruct s. exact Hcs.
  - lia.
  - lia.
  - exact Hok.
  - exact Hcr.
  - unfold frame_top. rewrite Hcpl. cbn [Z.eqb]. lia.
Qed.

(** ** The system-call path *)

Section int80.
Context {F : Type} `{!FrameAlloc F}.
Variable lk : Process.link.
Variable fs : Ramfs.ramfs.
Variable tbl : Gdt.gdt_state.
Variable g : Idt.gate.

(** The registers when the C function [syscall_handler] has returned [v]: EAX
    holds it, the other registers are whatever the compiled body leaves. *)
Variable returned : cpu → Z → cpu.

(** [int 0x80] in a process, up to the instruction after it. *)
Definition int80 (k : Process.kernel F) (s : Gdt.segs) : outcome (Process.kernel F * Gdt.segs) :=
  let M1 := common_head (stub_head 128 (interrupt g 0x10 (Process.k_esp0 k) None
    (Machine (Process.k_cpu k) s (Process.k_mem k)))) in
  let r := load32 (mm M1) (r_esp (mc M1)) in
  let k1 := Process.with_mem (mm M1) (Process.with_cpu (mc M1) k) in
  let! (v, k2) := Syscall.syscall_handler lk fs (reg (mm M1) r 32) (reg (mm M1) r 20) (reg (mm M1) r 28) (reg (mm M1) r 24) k1 in
  let M3 := syscall_tail tbl (Machine (returned (Process.k_cpu k2) v) (ms M1) (Process.k_mem k2)) in
  Done (Process.with_mem (mm M3) (Process.with_cpu (mc M3) k2), ms M3).

(** The kernel in [syscall_handler]'s first instruction: on the process's kernel
    stack, above the trap frame. *)
Definition trapped (k : Process.kernel F) (s : Gdt.segs) : Process.kernel F :=
  let M1 := common_head (stub_head 128 (interrupt g 0x10 (Process.k_esp0 k) None
    (Machine (Process.k_cpu k) s (Process.k_mem k)))) in
  Process.with_mem (mm M1) (Process.with_cpu (mc M1) k).

Lemma with_both (k k1 : Process.kernel F) (m : memory) (c : cpu) :
  k1 = Process.with_mem m (Process.with_cpu c k) →
  k1 = Process.with_mem (Process.k_mem k1) (Process.with_cpu (Process.k_cpu k1) k) ∧
  Process.k_mem k1 = m ∧ Process.k_cpu k1 = c.
Proof. by intros ->. Qed.

(** Entering from ring 3 writes only the trap frame and keeps the address space. *)
Lemma trapped_spec (k : Process.kernel F) (s : Gdt.segs) :
  let M := Machine (Process.k_cpu k) s (Process.k_mem k) in
  let top := Process.k_esp0 k in
  let k1 := trapped k s in
  machine_ok M → cpl M = 3 → 68 <= top < 2 ^ 32 - 8 → Z.land (Idt.g_selector g) 3 = 0 →
  k1 = Process.with_mem (Process.k_mem k1) (Process.with_cpu (Process.k_cpu k1) k) ∧
  r_cr3 (Process.k_cpu k1) = r_cr3 (Process.k_cpu k) ∧ agree_outside (top - 68) top (Process.k_mem k) (Process.k_mem k1) ∧
  let arg := reg (Process.k_mem k1) (load32 (Process.k_mem k1) (r_esp (Process.k_cpu k1))) in
  arg 32 = r_eax (Process.k_cpu k) ∧ arg 20 = r_ebx (Process.k_cpu k) ∧ arg 28 = r_ecx (Process.k_cpu k) ∧
  arg 24 = r_edx (Process.k_cpu k).
Proof.
  intros M top k1 Hok Hcpl Htop Hsel.
  destruct (with_both k k1 _ _ eq_refl) as (Ek & Em & Ec). split; [exact Ek |].
  rewrite Em, Ec. fold top M.
  assert (frame_top top M = top) as Ht by (unfold frame_top; by rewrite Hcpl).
  assert (frame_size M = 68) as Hfs by (unfold frame_size; by rewrite Hcpl).
  destruct (entry_frame g 0x10 top 128 0 None M) as (F1 & F2 & F3); rewrite ?Ht; try done. rewrite Ht, Hfs in F1, F2, F3.
  pose proof Hok as (Hc & _ & _ & Hsg). unfold cpu_ok in Hc. rewrite !Forall_cons in Hc. rewrite !Forall_cons in Hsg.
  destruct (entry_spec g 0x10 top 128 0 None M) as (_ & E1 & E2 & _); rewrite ?Ht;
    [lia | done | done | unfold is_u32 in *; cbn [mc] in *; lia | tauto |].
  split; [exact E2 |]. split; [exact F3 |]. rewrite Ht, Hfs in E1. rewrite E1, F2.
  pose proof (λ i w, stack_at_nth _ _ _ i w F1) as H. unfold regs_words in H. cbv zeta. unfold reg.
  exact (conj (H 8%nat _ eq_refl) (conj (H 5%nat _ eq_refl) (conj (H 7%nat _ eq_refl) (H 6%nat _ eq_refl)))).
Qed.

Lemma int80_spec (k k2 : Process.kernel F) (s : Gdt.segs) (v : Z) :
  let c := Process.k_cpu k in
  let M := Machine c s (Process.k_mem k) in
  let top := Process.k_esp0 k in
  let k1 := trapped k s in
  (∀ c v, r_esp (returned c v) = r_esp c ∧ r_cr3 (returned c v) = r_cr3 c ∧ r_eax (returned c v) = v) →
  machine_ok M → cpl M = 3 → dpl tbl (Gdt.s_ds s) = 3 → 68 <= top < 2 ^ 32 - 8 → Z.land (Idt.g_selector g) 3 = 0 →
  r_eax c ≠ Syscall.SYS_EXIT → r_eax c ≠ Syscall.SYS_YIELD →
  Syscall.syscall_handler lk fs (r_eax c) (r_ebx c) (r_ecx c) (r_edx c) k1 = Done (v, k2) →
  (r_eax c = Syscall.SYS_READ → agree_on (λ a, top - 64 <= a < top) (Process.k_mem k1) (Process.k_mem k2)) →
  ∃ m', int80 k s =
    Done (Process.with_mem m' (Process.with_cpu (with_eax v c) k2), set_data (Gdt.s_ds s) s) ∧
    agree_outside (top - 68) top (Process.k_mem k2) m'.
Proof.
  intros c M top k1 Hret Hok Hcpl Hdpl Htop Hsel Hx Hy Hcall Hrd.
  set (M1 := common_head (stub_head 128 (interrupt g 0x10 top None M))).
  destruct (with_both k k1 (mm M1) (mc M1) eq_refl) as (_ & Em & Ec).
  assert (is_u32 (r_edx c)) as Hedx by (destruct Hok as (Hc & _); unfold cpu_ok in Hc; rewrite !Forall_cons in Hc; apply Hc).
  destruct (Syscall.syscall_local lk fs _ _ _ _ v k1 k2 Hedx Hx Hy Hcall) as (Hv & Hcpu & Hmem).
  assert (frame_top top M = top) as Ht by (unfold frame_top; by rewrite Hcpl).
  assert (frame_size M = 68) as Hfs by (unfold frame_size; by rewrite Hcpl).
  destruct (entry_frame g 0x10 top 128 0 None M) as (F1 & F2 & F3); rewrite ?Ht; try done. rewrite Ht, Hfs in F1, F2, F3. fold M1 in F1, F2, F3.
  pose proof Hok as (Hc & _ & _ & Hsg). unfold cpu_ok in Hc. rewrite !Forall_cons in Hc. rewrite !Forall_cons in Hsg.
  destruct (entry_spec g 0x10 top 128 0 None M) as (_ & E1 & E2 & _); rewrite ?Ht; try done; [lia | unfold is_u32 in *; cbn [mc] in *; lia | tauto |].
  rewrite Ht, Hfs in E1. fold M1 in E1, E2.
  pose proof (λ i w, stack_at_nth _ _ _ i w F1) as H. unfold regs_words in H.
  set (M2 := Machine (returned (Process.k_cpu k2) v) (ms M1) (Process.k_mem k2)).
  destruct (Hret (Process.k_cpu k2) v) as (R1 & R2 & R3).
  assert (cdecl top M1 M2) as Hcd.
  { split; cbn [mc ms mm M2]; [by rewrite R1, Hcpu, Ec | by rewrite R2, Hcpu, Ec | reflexivity |]. rewrite E1.
    destruct (decide (r_eax c = Syscall.SYS_READ)) as [Er|Er].
    - specialize (Hrd Er). rewrite Em in Hrd. eapply agree_on_weaken; [exact Hrd |]. intros a Ha. cbv beta in Ha |- *. lia.
    - rewrite (Hmem Er), Em. reflexivity. }
  unfold int80. fold c M top M1. rewrite E1, F2. unfold reg.
  rewrite (H 8%nat _ eq_refl : load32 _ (_ + 32) = _), (H 5%nat _ eq_refl : load32 _ (_ + 20) = _),
    (H 7%nat _ eq_refl : load32 _ (_ + 28) = _), (H 6%nat _ eq_refl : load32 _ (_ + 24) = _).
  cbn [mc M]. change (Process.with_mem (mm M1) (Process.with_cpu (mc M1) k)) with k1. rewrite Hcall. cbn [obind]. fold M2.
  rewrite (syscall_tail_eq tbl g 0x10 top 128 0 None M M2); rewrite ?Ht; try done.
  - cbn [mc ms mm M2 M]. rewrite R3, Hfs. eexists. split; [done |].
    eapply agree_outside_weaken; [apply agree_store32 | lia | lia].
  - intros _. cbn [ms M]. rewrite Hdpl, Hcpl. lia.
  - cbn [mc M2]. by rewrite R3.
Qed.

(** A system call from ring 3 behaves like a function call: [int 0x80] runs
    the call numbered by the process's EAX with its EBX, ECX and EDX as arguments
    on the process's kernel stack, and if it returns [v] (for a call that does not
    switch processes; a read must not target the trap frame itself) the process
    continues after the instruction with EAX = [v] and all its other registers,
    flags and segments unchanged. *)
Theorem int80_returns (k k2 : Process.kernel F) (s : Gdt.segs) (v : Z) :
  let c := Process.k_cpu k in
  let M := Machine c s (Process.k_mem k) in
  let top := Process.k_esp0 k in
  let k1 := trapped k s in
  (∀ c v, r_esp (returned c v) = r_esp c ∧ r_cr3 (returned c v) = r_cr3 c ∧ r_eax (returned c v) = v) →
  machine_ok M → cpl M = 3 → dpl tbl (Gdt.s_ds s) = 3 → 68 <= top < 2 ^ 32 - 8 → Z.land (Idt.g_selector g) 3 = 0 →
  r_eax c ≠ Syscall.SYS_EXIT → r_eax c ≠ Syscall.SYS_YIELD →
  Syscall.syscall_handler lk fs (r_eax c) (r_ebx c) (r_ecx c) (r_edx c) k1 = Done (v, k2) →
  (r_eax c = Syscall.SYS_READ → agree_on (λ a, top - 64 <= a < top) (Process.k_mem k1) (Process.k_mem k2)) →
  ∃ m', int80 k s =
    Done (Process.with_mem m' (Process.with_cpu (with_eax v c) k2), set_data (Gdt.s_ds s) s) ∧
    agree_outside (top - 68) top (Process.k_mem k2) m'.
Proof. exact (int80_spec k k2 s v). Qed.

End int80.

(** ** Witnesses *)

#[local] Existing Instance Pmm.pmm_frames.

Definition demo_table : Gdt.gdt_state := Gdt.gdt_init 0x8000 0x9000 Gdt.demo_gdt.
Definition demo_segs : Gdt.segs := Gdt.Segs 0x1B 0x23 0x23 0x23 0x23 0x23 0x28 47 0x8000.
Definition demo_machine : machine := Machine (demo_cpu 0x504000) demo_segs ∅.

Lemma demo_machine_ok (c : cpu) (m : memory) :
  cpu_ok c → is_u32 (r_eip c) → is_u32 (r_esp c) → machine_ok (Machine c demo_segs m).
Proof.
  intros H1 H2 H3. split; [done |]. split; [done |]. split; [done |].
  rewrite !Forall_cons, Forall_nil. cbn. lia.
Qed.

(** A page fault of a user process, with error code 6. *)
Lemma interrupt_roundtrip_witness :
  let M1 := common_head (stub_head 14 (interrupt (Idt.interrupt_gate 0x100000 0) 0x10 0x90000 (Some 6) demo_machine)) in
  common_tail demo_table M1 = Machine (demo_cpu 0x504000) demo_segs (mm M1).
Proof.
  intros M1. destruct (interrupt_roundtrip demo_table (Idt.interrupt_gate 0x100000 0) 0x10 0x90000 14 6 (Some 6) demo_machine)
    as (_ & _ & _ & _ & _ & H).
  - apply demo_machine_ok; [apply demo_cpu_ok | done | done].
  - vm_compute. done.
  - done.
  - done.
  - done.
  - done.
  - done.
  - vm_compute. done.
  - apply H. split; [done | done | done | apply agree_on_refl].
Defined.

Lemma enter_usermode_drops_witness :
  let m := store32 (store32 ∅ 0x5004 0x400000) 0x5008 0x504000 in
  cpl (enter_usermode demo_table (Machine (demo_cpu 0x5000) (Gdt.Segs 0x08 0x10 0x10 0x10 0x10 0x10 0x28 47 0x8000) m)) = 3.
Proof.
  intros m. destruct (enter_usermode_drops 0x8000 0x9000 Gdt.demo_gdt
    (Machine (demo_cpu 0x5000) (Gdt.Segs 0x08 0x10 0x10 0x10 0x10 0x10 0x28 47 0x8000) m) 0x400000 0x504000)
    as (_ & _ & H & _).
  - done.
  - done.
  - cbn. lia.
  - done.
  - done.
  - vm_compute. done.
  - vm_compute. done.
  - exact H.
Defined.

(** A user process closes its descriptor 3. *)
Definition demo_user : cpu := Cpu 5 3 0 0 0 0 0 0x503F00 0x400010 0x202 0x110000.

Lemma int80_returns_witness :
  let k := Process.with_cpu demo_user (Syscall.demo_kernel (Scheduler.FdEntry 1 0 0)) in
  ∃ k', int80 Syscall.demo_link Syscall.demo_fs demo_table (Idt.interrupt_gate 0x102000 3) (λ c v, with_eax v c) k demo_segs =
      Done (k', demo_segs) ∧ Process.k_cpu k' = with_eax 0 demo_user.
Proof.
  intros k.
  edestruct (int80_returns Syscall.demo_link Syscall.demo_fs demo_table (Idt.interrupt_gate 0x102000 3) (λ c v, with_eax v c) k)
    as (m' & E & _).
  - done.
  - apply demo_machine_ok; [unfold cpu_ok; rewrite !Forall_cons, Forall_nil; cbn; unfold is_u32; lia | done | done].
  - done.
  - done.
  - cbn. lia.
  - done.
  - done.
  - done.
  - apply Syscall.close_spec; [change (3 <= 3 < 8); lia | done].
  - intros Er. discriminate Er.
  - eexists. split; [exact E | reflexivity].
Defined.

End Trap.
