(* ===== verification/Userland.v ===== *)
(** * The embedded user program ([userland/test_prog.c])

    The program the kernel image carries, from its [_start] to its [exit] call.
    It runs in ring 3 on the machine of the other files: a load goes through the
    page walk with user rights, and a system call is the [int 0x80] of [Trap]:
    trap frame on the kernel stack, handler, [iret].  The theorem composes the
    interrupt path, the page tables, the system calls, the file system and the
    console. *)

From S2P Require Import Prelude Memory Frames Vga Pmm Kmalloc Paging Scheduler Context Elf Process Gdt Idt Ramfs Syscall Trap.

Module Userland.
Import Scheduler Process Syscall Context Trap.

(** The string literals of the program, and their addresses (chosen by its
    linker) with that of [buf] (on its stack). *)
Definition HELLO : list Z := Vga.chars "hello from a real loaded ELF binary" ++ [Vga.NEWLINE].
Definition PATH : list Z := Vga.chars "test.elf".
Definition OK : list Z := Vga.chars "ring-3 file read: ELF magic OK" ++ [Vga.NEWLINE].
Definition BAD : list Z := Vga.chars "ring-3 file read: MISMATCH" ++ [Vga.NEWLINE].
Definition FAIL : list Z := Vga.chars "ring-3 file open: FAILED" ++ [Vga.NEWLINE].

(** They contain no NUL and have at most 36 characters. *)
Lemma texts_ok (s : list Z) :
  s ∈ [HELLO; PATH; OK; BAD; FAIL] → Forall (λ c, c ≠ 0) s ∧ (length s <= 36)%nat.
Proof.
  revert s. apply Forall_forall. apply (bool_decide_unpack _). vm_compute. exact I.
Qed.

Record addresses : Type := Addresses { msg : Z; path : Z; ok : Z; bad : Z; fail : Z; buf : Z }.

Section program.
Context {F : Type} `{!FrameAlloc F}.
Variable lk : link.
Variable fs : Ramfs.ramfs.
Variable tbl : Gdt.gdt_state.
Variable g : Idt.gate.
Variable returned : cpu → Z → cpu.
Variable L : addresses.

(** The machine while the program runs in ring 3. *)
Record user : Type := User { u_k : kernel F; u_s : Gdt.segs }.

(** A load in ring 3. *)
Definition uload8 (va : Z) (u : user) : outcome Z :=
  match Paging.translate (Paging.Access true false) (k_mem (u_k u)) (cur_pd (u_k u)) (u32 va) with
  | Some pa => Done (load8 (k_mem (u_k u)) pa)
  | None => page_fault
  end.

(** [while (msg[len]) len++;] *)
Fixpoint ulen (fuel : nat) (p len : Z) (u : user) : outcome Z :=
  match fuel with
  | O => Diverged
  | S fuel' => let! c := uload8 (p + len) u in if c =? 0 then Done len else ulen fuel' p (u32 (len + 1)) u
  end.

(** The registers of the inline assembly, then [int $0x80]. *)
Definition call_regs (num a b c : Z) (r : cpu) : cpu := with_edx c (with_ecx b (with_ebx a (with_eax num r))).

Definition syscall3 (num a b c : Z) (u : user) : outcome (Z * user) :=
  let k := u_k u in
  let! (k', s') := int80 lk fs tbl g returned (with_cpu (call_regs num a b c (k_cpu k)) k) (u_s u) in
  Done (r_eax (k_cpu k'), User k' s').

(** A string literal is measured and written to the standard output. *)
Definition print (fuel : nat) (p : Z) (u : user) : outcome user :=
  let! len := ulen fuel p 0 u in
  let! (_, u) := syscall3 0 1 p len u in
  Done u.

(** [n == 4 && buf[0] == 0x7f && buf[1] == 'E' && ...]; a [char] is signed. *)
Fixpoint same_chars (p : Z) (cs : list Z) (u : user) : outcome bool :=
  match cs with
  | [] => Done true
  | c :: cs' => let! b := uload8 p u in if s8 b =? c then same_chars (p + 1) cs' u else Done false
  end.

Definition MAGIC : list Z := [0x7f; 69; 76; 70].

Definition has_magic (n : Z) (u : user) : outcome bool := if n =? 4 then same_chars (buf L) MAGIC u else Done false.

(** [_start] up to the last system call. *)
Definition main (fuel : nat) (u : user) : outcome user :=
  let! u := print fuel (msg L) u in
  let! (r, u) := syscall3 3 (path L) 0 0 u in
  let fd := s32 r in
  if 0 <=? fd then
    let! (n, u) := syscall3 4 (u32 fd) (buf L) 4 u in
    let! m := has_magic n u in
    let! u := print fuel (if m then ok L else bad L) u in
    let! (_, u) := syscall3 5 (u32 fd) 0 0 u in
    Done u
  else print fuel (fail L) u.

(** [syscall3(SYS_EXIT, 0, 0, 0)]: the handler never returns to the program; the
    result is the kernel when it has switched to another process. *)
Definition exit0 (u : user) : outcome (kernel F) :=
  let k := u_k u in
  let k1 := trapped g (with_cpu (call_regs 1 0 0 0 (k_cpu k)) k) (u_s u) in
  let r := load32 (k_mem k1) (r_esp (k_cpu k1)) in
  let! (_, k2) := syscall_handler lk fs (reg (k_mem k1) r 32) (reg (k_mem k1) r 20) (reg (k_mem k1) r 28) (reg (k_mem k1) r 24) k1 in
  Done k2.

Definition start (fuel : nat) (u : user) : outcome (kernel F) :=
  let! u := main fuel u in
  exit0 u.

End program.

Arguments User {F} _ _.
Arguments u_k {F} _.
Arguments u_s {F} _.

(** ** The state a run preserves *)

Section run.
Context {F : Type} `{!FrameAlloc F}.
Variable lk : link.
Variable fs : Ramfs.ramfs.
Variable tbl : Gdt.gdt_state.
Variable g : Idt.gate.
Variable returned : cpu → Z → cpu.
Variable L : addresses.
Variable u0 : user (F := F).
(** Where the bytes of [buf] lie. *)
Variable pb : Z → Z.

Abbreviation cur k := (current_process (k_procs k)).
Abbreviation k0 := (u_k u0).
Abbreviation m0 := (k_mem (u_k u0)).
Abbreviation pd := (cur_pd (u_k u0)).
Abbreviation top := (k_esp0 (u_k u0)).

(** The bytes a run leaves alone: all but the trap frame and [buf]. *)
Definition safe (a : Z) : Prop := (a < top - 68 ∨ top <= a) ∧ ∀ i, 0 <= i < 4 → a ≠ pb i.

(** [va] is mapped to [pa] with the rights [acc], by page tables a run leaves alone. *)
Definition maps (acc : Paging.access) (va pa : Z) : Prop :=
  Paging.translate acc m0 pd (u32 va) = Some pa ∧ ∀ a, walk_byte m0 pd (u32 va) a → safe a.

(** The string [s] is readable in ring 3 at [p]. *)
Definition literal (p : Z) (s : list Z) : Prop :=
  is_u32 p ∧ p ≠ 0 ∧ ∀ i c, (s ++ [0]) !! i = Some c →
    ∃ pa, maps (Paging.Access true false) (p + Z.of_nat i) pa ∧ safe pa ∧ load8 m0 pa = c.

(** What the program and the kernel see of a kernel state during the run: the
    console [v], the descriptors [e] of the process, the rest as in [u0]. *)
Record view (v : Vga.vga) (e : list fd_entry) (k : kernel F) : Prop := {
  vw_cur : cur k = cur k0;
  vw_fds : fds (kpcb k (cur k0)) = e;
  vw_vga : k_vga k = v;
  vw_pd : cur_pd k = pd;
  vw_esp0 : k_esp0 k = top;
  vw_mem : agree_on safe m0 (k_mem k)
}.

(** A process in ring 3. *)
Record user_ok (u : user (F := F)) : Prop := {
  uo_segs : u_s u = u_s u0;
  uo_regs : cpu_ok (k_cpu (u_k u)) ∧ is_u32 (r_eip (k_cpu (u_k u))) ∧ is_u32 (r_esp (k_cpu (u_k u)))
}.

(** The machine the program is started on. *)
Record ring3_ok : Prop := {
  r3_returned c v : r_esp (returned c v) = r_esp c ∧ r_cr3 (returned c v) = r_cr3 c ∧ r_eax (returned c v) = v;
  r3_user : user_ok u0;
  r3_segs : Forall (λ s, 0 <= s < 2 ^ 16) [Gdt.s_cs (u_s u0); Gdt.s_ss (u_s u0); Gdt.s_ds (u_s u0)];
  r3_ring : Z.land (Gdt.s_cs (u_s u0)) 3 = 3;
  r3_data : dpl tbl (Gdt.s_ds (u_s u0)) = 3 ∧ set_data (Gdt.s_ds (u_s u0)) (u_s u0) = u_s u0;
  r3_stack : 68 <= top < 2 ^ 32 - 8;
  r3_gate : Z.land (Idt.g_selector g) 3 = 0
}.

Hypothesis HR : ring3_ok.

(** ** Memory *)

Lemma maps_kept (acc : Paging.access) (va pa : Z) (m : memory) :
  maps acc va pa → agree_on safe m0 m → Paging.translate acc m pd (u32 va) = Some pa.
Proof.
  intros [H1 H2] Hm. rewrite (translate_agree acc m0 m); [done |]. eapply agree_on_weaken; [exact Hm | exact H2].
Qed.

Lemma maps_mono (acc acc' : Paging.access) (va pa : Z) :
  (∀ e, Paging.permits acc e = true → Paging.permits acc' e = true) → maps acc va pa → maps acc' va pa.
Proof.
  intros Hp [H1 H2]. split; [| done]. revert H1. unfold Paging.translate. cbv zeta.
  generalize (Paging.entry m0 pd (Paging.pd_index (u32 va))). intros e1.
  generalize (Paging.entry m0 (Z.land e1 Paging.ADDR_MASK) (Paging.pt_index (u32 va))). intros e2.
  destruct (Paging.permits acc e1) eqn:E1, (Paging.permits acc e2) eqn:E2; try done. by rewrite (Hp _ E1), (Hp _ E2).
Qed.

Lemma maps_supervisor (acc : Paging.access) (va pa : Z) : maps acc va pa → maps Paging.supervisor va pa.
Proof.
  apply maps_mono. intros e. rewrite Paging.permits_supervisor. unfold Paging.permits.
  by intros [[H _]%andb_true_iff _]%andb_true_iff.
Qed.

Lemma walk_kept (va a : Z) (m : memory) :
  (∀ a, walk_byte m0 pd va a → safe a) → agree_on safe m0 m → walk_byte m pd va a → safe a.
Proof.
  intros Hs Hm Hw. apply Hs. destruct Hw as [H|(i & Hi & ->)]; [by left |]. right. exists i. split; [done |].
  unfold Paging.table. rewrite (Paging.entry_agree _ _ _ _ _ (agree_on_weaken _ _ _ _ Hm Hs)); [done |].
  intros b Hb. left. exists (b - (pd + 4 * Paging.pd_index va)). lia.
Qed.

Lemma literal_byte (p : Z) (s : list Z) (i : nat) (c : Z) (v : Vga.vga) (e : list fd_entry) (k : kernel F) :
  literal p s → (s ++ [0]) !! i = Some c → view v e k →
  vload8 (k_mem k) (cur_pd k) (p + Z.of_nat i) = Done c ∧ ∀ sg, uload8 (p + Z.of_nat i) (User k sg) = Done c.
Proof.
  intros (_ & _ & H) Hi Hk. destruct (H i c Hi) as (pa & Hm & Hs & <-). pose proof (vw_mem _ _ _ Hk) as Ha.
  unfold vload8, uload8. cbn [u_k]. rewrite (vw_pd _ _ _ Hk).
  rewrite (maps_kept _ _ _ _ (maps_supervisor _ _ _ Hm) Ha), (maps_kept _ _ _ _ Hm Ha). by rewrite (Ha pa Hs).
Qed.

Lemma literal_length (p : Z) (s : list Z) (fuel : nat) (v : Vga.vga) (e : list fd_entry) (u : user (F := F)) :
  literal p s → Forall (λ c, c ≠ 0) s → (length s < fuel)%nat → Z.of_nat (length s) < 2 ^ 32 → view v e (u_k u) →
  ulen fuel p 0 u = Done (Z.of_nat (length s)).
Proof.
  intros Hl Hs Hf Hlen Hu. destruct u as [k sg]. cbn [u_k] in Hu.
  assert (∀ j fuel i, (i + j = length s)%nat → (j < fuel)%nat → ulen fuel p (Z.of_nat i) (User k sg) = Done (Z.of_nat (length s))) as H.
  { induction j as [|j IH]; intros [|fu] i Hi Hfu; [lia | | lia |]; cbn [ulen].
    - assert ((s ++ [0]) !! i = Some 0) as H0 by (replace i with (length s) by lia; by apply list_lookup_middle).
      rewrite (proj2 (literal_byte p s i 0 v e k Hl H0 Hu) sg). cbn [obind Z.eqb]. do 2 f_equal. lia.
    - destruct (lookup_lt_is_Some_2 s i) as [c Hc]; [lia |].
      rewrite (proj2 (literal_byte p s i c v e k Hl ltac:(by apply lookup_app_l_Some) Hu) sg). cbn [obind].
      pose proof (Forall_lookup_1 _ _ _ _ Hs Hc) as Hc0. simpl in Hc0. destruct (Z.eqb_spec c 0); [done |].
      rewrite u32_id by (unfold is_u32; lia). replace (Z.of_nat i + 1) with (Z.of_nat (S i)) by lia. apply IH; lia. }
  by apply (H (length s) fuel 0%nat).
Qed.

(** ** A system call *)

Lemma view_memory (v : Vga.vga) (e : list fd_entry) (k : kernel F) (c : cpu) (m : memory) :
  view v e k → r_cr3 c = pd → agree_outside (top - 68) top (k_mem k) m → view v e (with_mem m (with_cpu c k)).
Proof.
  intros [V1 V2 V3 V4 V5 V6] Hc Hm. split; [done.. |]. etrans; [exact V6 |].
  eapply agree_on_weaken; [exact Hm |]. intros a [Ha _]. exact Ha.
Qed.

Lemma call_machine (num a b c : Z) (u : user (F := F)) :
  user_ok u → is_u32 num → is_u32 a → is_u32 b → is_u32 c →
  machine_ok (Machine (call_regs num a b c (k_cpu (u_k u))) (u_s u) (k_mem (u_k u))).
Proof.
  intros [Hs (Hc & Hip & Hsp)] Hn Ha Hb Hd. unfold machine_ok, cpu_ok in *. cbn [mc ms]. rewrite Hs. split_and!.
  - rewrite !Forall_cons in *. tauto.
  - exact Hip.
  - exact Hsp.
  - exact (r3_segs HR).
Qed.

(** The handler runs on a kernel state with the same view, and whatever view its
    result has is the program's view after the call. *)
Lemma call_spec (num a b c : Z) (v : Vga.vga) (e : list fd_entry) (u : user (F := F)) :
  view v e (u_k u) → user_ok u → is_u32 num → is_u32 a → is_u32 b → is_u32 c → num ≠ SYS_EXIT → num ≠ SYS_YIELD →
  ∃ k1, view v e k1 ∧ ∀ r k2 v' e', syscall_handler lk fs num a b c k1 = Done (r, k2) → view v' e' k2 →
    (num = SYS_READ → agree_on (λ x, top - 64 <= x < top) (k_mem k1) (k_mem k2)) →
    ∃ u', syscall3 lk fs tbl g returned num a b c u = Done (r, u') ∧ view v' e' (u_k u') ∧ user_ok u' ∧
      agree_outside (top - 68) top (k_mem k2) (k_mem (u_k u')).
Proof.
  intros Hv Hu Hn Ha Hb Hd Hx Hy. pose proof (call_machine num a b c u Hu Hn Ha Hb Hd) as Hok.
  set (kc := with_cpu (call_regs num a b c (k_cpu (u_k u))) (u_k u)).
  set (M := Machine (k_cpu kc) (u_s u) (k_mem kc)). change (machine_ok M) in Hok.
  assert (cpl M = 3) as Hcpl by (unfold cpl; cbn [ms M]; rewrite (uo_segs _ Hu); exact (r3_ring HR)).
  assert (k_esp0 kc = top) as Ht by exact (vw_esp0 _ _ _ Hv).
  pose proof (r3_stack HR) as Hst. pose proof Hok as (Hc & _). unfold cpu_ok in Hc. rewrite !Forall_cons in Hc.
  destruct (trapped_spec g kc (u_s u) Hok Hcpl ltac:(by rewrite Ht) (r3_gate HR)) as (Ek & E2 & F3 & _). rewrite Ht in F3.
  assert (view v e (trapped g kc (u_s u))) as Hk1.
  { rewrite Ek. apply (view_memory v e kc); [| rewrite E2; exact (vw_pd _ _ _ Hv) | exact F3].
    destruct Hv as [V1 V2 V3 V4 V5 V6]. split; assumption. }
  exists (trapped g kc (u_s u)).
  split; [done |]. intros r k2 v' e' Hcall Hv' Hrd. destruct (r3_data HR) as [Hd1 Hd2].
  assert (is_u32 r ∧ k_cpu k2 = k_cpu (trapped g kc (u_s u))) as [Hr Hcpu].
  { destruct (syscall_local lk fs _ _ _ _ _ _ _ Hd Hx Hy Hcall) as (H1 & H2 & _). done. }
  destruct (int80_spec lk fs tbl g returned kc k2 (u_s u) r) as (m' & E & Hm').
  - exact (r3_returned HR).
  - exact Hok.
  - exact Hcpl.
  - by rewrite (uo_segs _ Hu).
  - by rewrite Ht.
  - exact (r3_gate HR).
  - exact Hx.
  - exact Hy.
  - exact Hcall.
  - intros Er. specialize (Hrd Er). rewrite <- Ht in Hrd.
    exact Hrd.
  - rewrite Ht in Hm'. rewrite (uo_segs _ Hu), Hd2 in E.
    exists (User (with_mem m' (with_cpu (with_eax r (k_cpu kc)) k2)) (u_s u0)). unfold syscall3. fold kc.
    rewrite (uo_segs _ Hu), E. cbn [obind u_k]. split; [done |]. split; [| split; [| exact Hm']].
    + apply view_memory; [done | exact (vw_pd _ _ _ Hv) | exact Hm'].
    + split; [done |]. cbn [u_k k_cpu with_mem with_cpu]. destruct (uo_regs _ Hu) as (_ & H2 & H3).
      split; [| split; [exact H2 | exact H3]]. unfold cpu_ok. rewrite !Forall_cons. cbn [mc M k_cpu with_cpu kc] in Hc. tauto.
Qed.

(** ** The calls of the program *)

Lemma view_vga (v v' : Vga.vga) (e : list fd_entry) (k : kernel F) : view v e k → view v' e (with_vga v' k).
Proof. intros [V1 V2 V3 V4 V5 V6]. split; assumption || reflexivity. Qed.

Lemma view_fd (v : Vga.vga) (e : list fd_entry) (k : kernel F) (fd : Z) (x : fd_entry) :
  view v e k → view v (<[Z.to_nat fd := x]> e) (kedit (cur k) (fd_set fd x) k).
Proof.
  intros [V1 V2 V3 V4 V5 V6]. split; try assumption. rewrite V1, kpcb_kedit, decide_True by done.
  unfold fd_set. rewrite <- V2. by destruct (kpcb k (cur k0)).
Qed.

Lemma print_spec (fuel : nat) (p : Z) (s : list Z) (v : Vga.vga) (e : list fd_entry) (u : user (F := F)) :
  literal p s → Forall (λ c, c ≠ 0) s → (length s < fuel)%nat → Z.of_nat (length s) < 2 ^ 32 → view v e (u_k u) → user_ok u →
  ∃ u', print lk fs tbl g returned fuel p u = Done u' ∧ view (Vga.putchars s v) e (u_k u') ∧ user_ok u'.
Proof.
  intros Hl Hs Hf Hlen Hv Hu. unfold print. rewrite (literal_length p s fuel v e u) by done. cbn [obind].
  pose proof Hl as (Hp & Hp0 & _).
  destruct (call_spec 0 1 p (Z.of_nat (length s)) v e u) as (k1 & Hk1 & Hc); try done; [unfold is_u32; lia |].
  destruct (Hc (Z.of_nat (length s)) (with_vga (Vga.putchars s v) k1) (Vga.putchars s v) e) as (u' & E & Hv' & Hu' & _).
  - change (syscall_handler lk fs 0 1 p (Z.of_nat (length s)) k1) with (sys_write 1 p (Z.of_nat (length s)) k1).
    unfold sys_write. cbn [Z.eqb Pos.eqb negb orb]. destruct (Z.eqb_spec p 0); [done |].
    rewrite (write_loop_spec _ _ _ _ _ _ s), (vw_vga _ _ _ Hk1); [done | lia | lia |].
    intros j b Hj. rewrite Z.add_0_l. apply (literal_byte p s j b v e k1 Hl); [by apply lookup_app_l_Some | done].
  - by apply (view_vga v).
  - done.
  - rewrite E. cbn [obind]. by exists u'.
Qed.

Lemma s32_small (x : Z) : 0 <= x < 2 ^ 31 → s32 x = x.
Proof. intros Hx. unfold s32. rewrite u32_id by (unfold is_u32; lia). destruct (Z.ltb_spec x (2 ^ 31)); [done | lia]. Qed.

Lemma alloc_fd_ext (p q : process) : fds p = fds q → alloc_fd p = alloc_fd q.
Proof.
  intros E. unfold alloc_fd. generalize (Z.to_nat (MAX_FDS_PER_PROCESS - 3)) as n. generalize 3 as fd.
  intros fd n. revert fd. induction n as [|n IH]; intros fd; cbn [alloc_fd_from]; [done |]. unfold fd_get. rewrite E, IH. done.
Qed.

Lemma literal_reads (p : Z) (s : list Z) (v : Vga.vga) (e : list fd_entry) (k : kernel F) :
  literal p s → Forall (λ c, c ≠ 0) s → view v e k → Ramfs.reads (user_string k p) s.
Proof.
  intros Hl Hs Hv. split.
  - intros i c Hi. split; [| by apply (Forall_lookup_1 _ _ _ _ Hs Hi)].
    apply (literal_byte p s i c v e k Hl); [by apply lookup_app_l_Some | done].
  - apply (literal_byte p s (length s) 0 v e k Hl); [by apply list_lookup_middle | done].
Qed.

(** Opening: the descriptor that is free, or -1. *)
Lemma open_call (s : list Z) (v : Vga.vga) (e : list fd_entry) (u : user (F := F)) :
  Ramfs.wf fs → literal (path L) s → Forall (λ c, c ≠ 0) s → view v e (u_k u) → user_ok u →
  let fd := alloc_fd (kpcb (u_k u) (cur k0)) in
  (∃ u', syscall3 lk fs tbl g returned 3 (path L) 0 0 u = Done (ERROR, u') ∧ view v e (u_k u') ∧ user_ok u' ∧
     (Ramfs.files_map fs !! s = None ∨ fd = -1)) ∨
  (∃ u' idx f, syscall3 lk fs tbl g returned 3 (path L) 0 0 u = Done (fd, u') ∧ 3 <= fd < 8 ∧
     view v (<[Z.to_nat fd := FdEntry 1 idx 0]> e) (u_k u') ∧ user_ok u' ∧ fd_in_use (fd_get (kpcb (u_k u) (cur k0)) fd) = 0 ∧
     Ramfs.ramfs_get idx fs = Some f ∧ Ramfs.files_map fs !! s = Some (Ramfs.data f, Ramfs.size f)).
Proof.
  intros Hwf Hl Hs Hv Hu fd. pose proof Hl as (Hp & Hp0 & _).
  destruct (call_spec 3 (path L) 0 0 v e u) as (k1 & Hk1 & Hc); try done.
  assert (fds (kpcb k1 (cur k1)) = fds (kpcb (u_k u) (cur k0))) as Efd
    by (rewrite (vw_cur _ _ _ Hk1), (vw_fds _ _ _ Hk1); symmetry; exact (vw_fds _ _ _ Hv)).
  change (syscall_handler lk fs 3 (path L) 0 0 k1) with (sys_open fs (path L) k1) in Hc.
  pose proof (open_spec fs (path L) s k1 Hwf Hp0 (literal_reads _ _ _ _ _ Hl Hs Hk1)) as Ho. cbv zeta in Ho.
  rewrite (alloc_fd_ext _ _ Efd) in Ho. fold fd in Ho. unfold fd_get in Ho at 1. rewrite Efd in Ho.
  destruct Ho as [[E Hno]|(idx & f & Hfd & Hfree & Hg & Hm & _ & E)].
  - left. destruct (Hc _ _ v e E Hk1) as (u' & E' & Hv' & Hu' & _); [done |]. by exists u'.
  - right. destruct (Hc _ _ v _ E (view_fd v e k1 fd _ Hk1)) as (u' & E' & Hv' & Hu' & _); [done |].
    by exists u', idx, f.
Qed.

Lemma close_call (fd : Z) (v : Vga.vga) (e : list fd_entry) (u : user (F := F)) (x : fd_entry) :
  view v e (u_k u) → user_ok u → 3 <= fd < 8 → e !! Z.to_nat fd = Some x → fd_in_use x ≠ 0 →
  ∃ u', syscall3 lk fs tbl g returned 5 fd 0 0 u = Done (0, u') ∧
    view v (<[Z.to_nat fd := FdEntry 0 (-1) 0]> e) (u_k u') ∧ user_ok u'.
Proof.
  intros Hv Hu Hfd Hx Hin. destruct (call_spec 5 fd 0 0 v e u) as (k1 & Hk1 & Hc); try done; [unfold is_u32; lia |].
  assert (syscall_handler lk fs 5 fd 0 0 k1 = sys_close fd k1) as Eh.
  { unfold syscall_handler. cbn [Z.eqb SYS_WRITE SYS_EXIT SYS_YIELD SYS_OPEN SYS_READ SYS_CLOSE Pos.eqb].
    by rewrite s32_small by lia. }
  rewrite Eh in Hc. edestruct Hc as (u' & E & Hv' & Hu' & _).
  - apply close_spec; [done |]. unfold fd_get. by rewrite (vw_cur _ _ _ Hk1), (vw_fds _ _ _ Hk1), Hx.
  - apply (view_fd v e k1 fd _ Hk1).
  - done.
  - by exists u'.
Qed.

(** ** The read buffer and the file *)

(** Where the first bytes of the file lie. *)
Variable ps : Z → Z.

Record buffer_user : Prop := {
  bu_addr : is_u32 (buf L) ∧ buf L ≠ 0;
  bu_maps i : 0 <= i < 4 → maps (Paging.Access true true) (buf L + i) (pb i);
  bu_frame i : 0 <= i < 4 → pb i < top - 68 ∨ top <= pb i;
  bu_inj i j : 0 <= i < 4 → 0 <= j < 4 → pb i = pb j → i = j
}.

Definition file_ok (d sz : Z) : Prop :=
  0 <= sz < 2 ^ 32 ∧ ∀ i, 0 <= i < Z.min 4 sz → maps Paging.supervisor (d + i) (ps i) ∧ safe (ps i).

Hypothesis HB : buffer_user.

Lemma buffer_kept (d n : Z) (v : Vga.vga) (e : list fd_entry) (k : kernel F) :
  n <= 4 → (∀ i, 0 <= i < n → maps Paging.supervisor (d + i) (ps i) ∧ safe (ps i)) → view v e k →
  buffer_ok (k_mem k) (cur_pd k) (buf L) d n pb ps.
Proof.
  intros Hn Hd Hv. rewrite (vw_pd _ _ _ Hv). pose proof (vw_mem _ _ _ Hv) as Hm.
  assert (∀ i va, (∀ a, walk_byte m0 pd (u32 va) a → safe a) → 0 <= i < n → ~ walk_byte (k_mem k) pd (u32 va) (pb i)) as Hw.
  { intros i va Hs Hi Hb. destruct (walk_kept _ _ _ Hs Hm Hb) as [_ H]. by apply (H i ltac:(lia)). }
  split.
  - intros i Hi. apply maps_kept; [| done]. eapply maps_supervisor. apply (bu_maps HB). lia.
  - intros i Hi. apply maps_kept; [| done]. by apply Hd.
  - intros i j Hi Hj. apply (bu_inj HB); lia.
  - intros i j Hi Hj E. destruct (Hd j Hj) as (_ & _ & H). apply (H i ltac:(lia)). done.
  - intros i j Hi Hj. split; apply Hw; [| done | | done].
    + apply (bu_maps HB). lia.
    + by apply (Hd j Hj).
Qed.

(** The read fills [buf] with the first bytes of the file. *)
Lemma read_call (fd idx : Z) (f : Ramfs.ramfs_file) (v : Vga.vga) (e : list fd_entry) (u : user (F := F)) :
  let n := Z.min 4 (Ramfs.size f) in
  view v e (u_k u) → user_ok u → 3 <= fd < 8 → e !! Z.to_nat fd = Some (FdEntry 1 idx 0) →
  Ramfs.ramfs_get idx fs = Some f → file_ok (Ramfs.data f) (Ramfs.size f) →
  ∃ u', syscall3 lk fs tbl g returned 4 fd (buf L) 4 u = Done (n, u') ∧
    view v (<[Z.to_nat fd := FdEntry 1 idx n]> e) (u_k u') ∧ user_ok u' ∧
    ∀ i, 0 <= i < n → uload8 (buf L + i) u' = Done (load8 m0 (ps i)).
Proof.
  intros n Hv Hu Hfd He Hg (Hsz & Hd). destruct (bu_addr HB) as [Hb Hb0].
  destruct (call_spec 4 fd (buf L) 4 v e u) as (k1 & Hk1 & Hc); try done; [unfold is_u32; lia |].
  assert (syscall_handler lk fs 4 fd (buf L) 4 k1 = sys_read fs fd (buf L) 4 k1) as Eh.
  { unfold syscall_handler. cbn [Z.eqb SYS_WRITE SYS_EXIT SYS_YIELD SYS_OPEN SYS_READ SYS_CLOSE Pos.eqb].
    by rewrite s32_small by lia. }
  rewrite Eh in Hc. clear Eh.
  assert (fd_get (kpcb k1 (cur k1)) fd = FdEntry 1 idx 0) as Efd
    by (unfold fd_get; by rewrite (vw_cur _ _ _ Hk1), (vw_fds _ _ _ Hk1), He).
  destruct (read_spec fs fd (buf L) 4 k1 f pb ps) as (m' & E & R1 & R2); rewrite ?Efd; cbn [fd_in_use file_idx fd_offset];
    try done; try lia.
  { rewrite Z.sub_0_r, Z.add_0_r. fold n. apply (buffer_kept _ _ v e); [lia | exact Hd | exact Hk1]. }
  rewrite Efd in E, R1, R2. cbn [fd_in_use file_idx fd_offset] in E, R1, R2. rewrite Z.sub_0_r in E, R1, R2.
  rewrite Z.add_0_l in E. fold n in E, R1, R2.
  pose proof (vw_mem _ _ _ Hk1) as Hm. assert (view v e (with_mem m' k1)) as Hw.
  { destruct Hk1 as [V1 V2 V3 V4 V5 V6]. split; try assumption. etrans; [exact V6 |]. intros a [_ Ha]. cbn [k_mem with_mem].
    apply R2. intros i Hi. apply Ha. lia. }
  destruct (Hc _ _ v _ E (view_fd v e (with_mem m' k1) fd _ Hw)) as (u' & E' & Hv' & Hu' & Hag).
  { intros _ a Ha. cbn [k_mem with_mem kedit with_procs]. apply R2. intros i Hi ->. pose proof (bu_frame HB i ltac:(lia)). lia. }
  exists u'. split; [exact E' |]. split; [exact Hv' |]. split; [exact Hu' |]. intros i Hi. unfold uload8.
  rewrite (vw_pd _ _ _ Hv'), (maps_kept (Paging.Access true false) _ (pb i)).
  - rewrite (Hag (pb i)) by (apply (bu_frame HB); lia). cbn [k_mem with_mem kedit with_procs].
    rewrite R1 by done. f_equal. apply Hm. apply Hd. lia.
  - apply (maps_mono (Paging.Access true true)); [| apply (bu_maps HB); lia].
    intros x. unfold Paging.permits. cbn [Paging.acc_user Paging.acc_write negb orb andb].
    by intros [H _]%andb_true_iff; rewrite H.
  - exact (vw_mem _ _ _ Hv').
Qed.

(** ** The program *)

Lemma s8_char (b c : Z) : 0 <= b < 256 → 0 <= c < 128 → (s8 b =? c) = (b =? c).
Proof.
  intros Hb Hc. unfold s8. rewrite u8_id by done. destruct (Z.ltb_spec b (2 ^ 7)); [done |].
  destruct (Z.eqb_spec (b - 2 ^ 8) c), (Z.eqb_spec b c); lia || done.
Qed.

Lemma same_chars_spec (cs bs : list Z) (p : Z) (u : user (F := F)) :
  length bs = length cs → Forall (λ b, 0 <= b < 256) bs → Forall (λ c, 0 <= c < 128) cs →
  (∀ i b, bs !! i = Some b → uload8 (p + Z.of_nat i) u = Done b) →
  same_chars p cs u = Done (bool_decide (bs = cs)).
Proof.
  revert bs p. induction cs as [|c cs IH]; intros [|b bs] p Hl Hb Hc Hr; try done. cbn [same_chars].
  apply Forall_cons in Hb as [Hb Hbs]. apply Forall_cons in Hc as [Hc Hcs].
  pose proof (Hr 0%nat b eq_refl) as H0. rewrite Z.add_0_r in H0. rewrite H0. cbn [obind]. rewrite s8_char by done.
  destruct (Z.eqb_spec b c) as [->|Hne].
  - rewrite (IH bs); [| by injection Hl | done | done |].
    + f_equal. apply bool_decide_ext. naive_solver.
    + intros i x Hi. replace (p + 1 + Z.of_nat i) with (p + Z.of_nat (S i)) by lia. by apply Hr.
  - rewrite bool_decide_eq_false_2; naive_solver.
Qed.

Lemma magic_spec (n : Z) (u : user (F := F)) :
  0 <= n <= 4 → (∀ i, 0 <= i < n → uload8 (buf L + i) u = Done (load8 m0 (ps i))) →
  has_magic L n u = Done ((n =? 4) && bool_decide ((λ i, load8 m0 (ps i)) <$> [0; 1; 2; 3] = MAGIC)).
Proof.
  intros Hn Hb. unfold has_magic. destruct (Z.eqb_spec n 4) as [->|]; [| done].
  apply (same_chars_spec MAGIC ((λ i, load8 m0 (ps i)) <$> [0; 1; 2; 3])).
  - done.
  - cbn [fmap list_fmap]. repeat (apply Forall_cons; split; [apply load8_range |]). by apply Forall_nil.
  - unfold MAGIC. repeat (apply Forall_cons; split; [lia |]). by apply Forall_nil.
  - intros i b Hi. destruct i as [|[|[|[|i]]]]; cbn in Hi; [injection Hi as <-; apply Hb; lia..|]. done.
Qed.

(** What the program should print after its greeting. *)
Definition report : list Z :=
  match Ramfs.files_map fs !! PATH with
  | Some (d, sz) =>
      if alloc_fd (kpcb k0 (cur k0)) =? -1 then FAIL
      else if (4 <=? sz) && bool_decide ((λ i, load8 m0 (ps i)) <$> [0; 1; 2; 3] = MAGIC) then OK
      else BAD
  | None => FAIL
  end.

(** The program is loaded: its literals, its buffer, the file system and the
    descriptors of the process. *)
Record loaded : Prop := {
  ld_msg : literal (msg L) HELLO;
  ld_path : literal (path L) PATH;
  ld_ok : literal (ok L) OK;
  ld_bad : literal (bad L) BAD;
  ld_fail : literal (fail L) FAIL;
  ld_fs : Ramfs.wf fs;
  ld_file d sz : Ramfs.files_map fs !! PATH = Some (d, sz) → file_ok d sz;
  ld_fds : length (fds (kpcb k0 (cur k0))) = 8%nat
}.

Hypothesis HL : loaded.

Abbreviation e0 := (fds (kpcb k0 (cur k0))).

Lemma view_start : view (k_vga k0) e0 k0.
Proof. split; reflexivity. Qed.

(** The open file is read, compared, reported and closed. *)
Lemma read_and_report (fuel : nat) (fd idx : Z) (f : Ramfs.ramfs_file) (v : Vga.vga) (e : list fd_entry) (u : user (F := F)) :
  let n := Z.min 4 (Ramfs.size f) in
  let magic := (n =? 4) && bool_decide ((λ i, load8 m0 (ps i)) <$> [0; 1; 2; 3] = MAGIC) in
  (36 < fuel)%nat → view v e (u_k u) → user_ok u → 3 <= fd < 8 → e !! Z.to_nat fd = Some (FdEntry 1 idx 0) →
  Ramfs.ramfs_get idx fs = Some f → file_ok (Ramfs.data f) (Ramfs.size f) →
  ∃ u', (let! (n, u) := syscall3 lk fs tbl g returned 4 fd (buf L) 4 u in
         let! m := has_magic L n u in
         let! u := print lk fs tbl g returned fuel (if m then ok L else bad L) u in
         let! (_, u) := syscall3 lk fs tbl g returned 5 fd 0 0 u in
         Done u) = Done u' ∧
    view (Vga.putchars (if magic then OK else BAD) v) (<[Z.to_nat fd := FdEntry 0 (-1) 0]> e) (u_k u') ∧ user_ok u'.
Proof.
  intros n magic Hf Hv Hu Hfd He Hg Hfile. pose proof Hfile as [Hsz _].
  destruct (read_call fd idx f v e u Hv Hu Hfd He Hg Hfile) as (u1 & E1 & V1 & U1 & B1). fold n in E1, V1, B1.
  rewrite E1. cbn [obind]. rewrite (magic_spec n u1) by (lia || done). fold magic. cbn [obind].
  apply lookup_lt_Some in He as Hlt.
  destruct (print_spec fuel (if magic then ok L else bad L) (if magic then OK else BAD) v
    (<[Z.to_nat fd := FdEntry 1 idx n]> e) u1) as (u2 & E2 & V2 & U2).
  - destruct magic; [apply (ld_ok HL) | apply (ld_bad HL)].
  - apply texts_ok. destruct magic; rewrite !elem_of_cons; tauto.
  - pose proof (texts_ok (if magic then OK else BAD) ltac:(destruct magic; rewrite !elem_of_cons; tauto)). lia.
  - pose proof (texts_ok (if magic then OK else BAD) ltac:(destruct magic; rewrite !elem_of_cons; tauto)). lia.
  - exact V1.
  - exact U1.
  - rewrite E2. cbn [obind].
    destruct (close_call fd _ _ u2 (FdEntry 1 idx n) V2 U2 Hfd) as (u3 & E3 & V3 & U3); [by apply list_lookup_insert_eq | done |].
    rewrite E3. cbn [obind]. exists u3. split; [done |]. split; [| done]. by rewrite list_insert_insert_eq in V3.
Qed.

(** A greeting or an error message. *)
Lemma print_text (fuel : nat) (p : Z) (s : list Z) (v : Vga.vga) (e : list fd_entry) (u : user (F := F)) :
  literal p s → s ∈ [HELLO; PATH; OK; BAD; FAIL] → (36 < fuel)%nat → view v e (u_k u) → user_ok u →
  ∃ u', print lk fs tbl g returned fuel p u = Done u' ∧ view (Vga.putchars s v) e (u_k u') ∧ user_ok u'.
Proof. intros Hl Hs Hf. destruct (texts_ok s Hs). apply print_spec; [done | done | lia | lia]. Qed.

Lemma putchars_app (s t : list Z) (v : Vga.vga) : Vga.putchars (s ++ t) v = Vga.putchars t (Vga.putchars s v).
Proof. apply foldl_app. Qed.

Lemma main_spec (fuel : nat) :
  (36 < fuel)%nat →
  ∃ u' e', main lk fs tbl g returned L fuel u0 = Done u' ∧ user_ok u' ∧
    view (Vga.putchars (HELLO ++ report) (k_vga k0)) e' (u_k u') ∧
    fd_in_use <$> e' = fd_in_use <$> e0.
Proof.
  intros Hf. unfold main.
  destruct (print_text fuel (msg L) HELLO (k_vga k0) e0 u0 (ld_msg HL)) as (u1 & E1 & V1 & U1);
    [rewrite !elem_of_cons; tauto | done | exact view_start | exact (r3_user HR) |].
  rewrite E1. cbn [obind]. destruct (texts_ok PATH ltac:(rewrite !elem_of_cons; tauto)) as [Hp _].
  assert (alloc_fd (kpcb (u_k u1) (cur k0)) = alloc_fd (kpcb k0 (cur k0))) as Ea by (apply alloc_fd_ext, (vw_fds _ _ _ V1)).
  destruct (open_call PATH _ _ u1 (ld_fs HL) (ld_path HL) Hp V1 U1)
    as [(u2 & E2 & V2 & U2 & Hno)|(u2 & idx & f & E2 & Hfd & V2 & U2 & Hfree & Hg & Hm)]; rewrite E2, Ea in *; cbn [obind].
  - change (0 <=? s32 ERROR) with false. cbn iota.
    destruct (print_text fuel (fail L) FAIL (Vga.putchars HELLO (k_vga k0)) e0 u2 (ld_fail HL)) as (u3 & E3 & V3 & U3);
      [rewrite !elem_of_cons; tauto | done | exact V2 | exact U2 |].
    exists u3, e0. split; [exact E3 |]. split; [exact U3 |]. split; [| done]. rewrite putchars_app.
    assert (report = FAIL) as ->; [| exact V3]. unfold report. destruct Hno as [-> | ->]; [done |].
    by destruct (_ !! PATH) as [[d sz]|].
  - set (fd := alloc_fd (kpcb k0 (cur k0))) in *. rewrite s32_small by lia.
    destruct (Z.leb_spec 0 fd); [| lia]. rewrite u32_id by (unfold is_u32; lia).
    assert (Z.to_nat fd < length e0)%nat as Hlt by (rewrite (ld_fds HL); lia).
    destruct (read_and_report fuel fd idx f _ _ u2 Hf V2 U2 Hfd) as (u3 & E3 & V3 & U3);
      [by apply list_lookup_insert_eq | exact Hg | exact (ld_file HL _ _ Hm) |].
    exists u3, (<[Z.to_nat fd := FdEntry 0 (-1) 0]> e0). split; [exact E3 |]. split; [exact U3 |]. rewrite list_insert_insert_eq in V3.
    destruct (ld_file HL _ _ Hm) as [Hsz _]. split.
    + rewrite putchars_app. match type of V3 with view (Vga.putchars ?s _) _ _ => assert (report = s) as ->; [| exact V3] end.
      unfold report. rewrite Hm. fold fd.
      destruct (Z.eqb_spec fd (-1)); [lia |].
      assert ((4 <=? Ramfs.size f) = (Z.min 4 (Ramfs.size f) =? 4)) as ->; [| done].
      destruct (Z.leb_spec 4 (Ramfs.size f)), (Z.eqb_spec (Z.min 4 (Ramfs.size f)) 4); lia || done.
    + rewrite list_fmap_insert. apply list_insert_id. rewrite list_lookup_fmap.
      unfold fd_get in Hfree. rewrite (vw_fds _ _ _ V1) in Hfree.
      destruct (lookup_lt_is_Some_2 _ _ Hlt) as [x Hx]. rewrite Hx in Hfree |- *. cbn in Hfree |- *. by rewrite Hfree.
Qed.

Lemma exit_spec (v : Vga.vga) (e : list fd_entry) (u : user (F := F)) :
  view v e (u_k u) → user_ok u → ∃ k1, exit0 lk fs g u = process_exit lk 0 k1 ∧ view v e k1.
Proof.
  intros Hv Hu. set (kc := with_cpu (call_regs 1 0 0 0 (k_cpu (u_k u))) (u_k u)).
  pose proof (call_machine 1 0 0 0 u Hu ltac:(done) ltac:(done) ltac:(done) ltac:(done)) as Hok.
  change (machine_ok (Machine (k_cpu kc) (u_s u) (k_mem kc))) in Hok.
  assert (cpl (Machine (k_cpu kc) (u_s u) (k_mem kc)) = 3) as Hcpl
    by (unfold cpl; cbn [ms]; rewrite (uo_segs _ Hu); exact (r3_ring HR)).
  assert (k_esp0 kc = top) as Ht by exact (vw_esp0 _ _ _ Hv). pose proof (r3_stack HR) as Hst.
  destruct (trapped_spec g kc (u_s u) Hok Hcpl ltac:(by rewrite Ht) (r3_gate HR)) as (Ek & E2 & F3 & A1 & A2 & A3 & A4). rewrite Ht in F3.
  exists (trapped g kc (u_s u)). split.
  - unfold exit0. fold kc. rewrite A1, A2, A3, A4.
    change (syscall_handler lk fs _ _ _ _ ?k) with (sys_exit lk 0 k). unfold sys_exit.
    by destruct (process_exit lk 0 (trapped g kc (u_s u))).
  - rewrite Ek. apply (view_memory v e kc); [| rewrite E2; exact (vw_pd _ _ _ Hv) | exact F3].
    destruct Hv as [V1 V2 V3 V4 V5 V6]. split; assumption.
Qed.

(** From [_start] into [process_exit]. *)
Lemma test_prog_spec (fuel : nat) :
  (36 < fuel)%nat →
  ∃ k1 e', start lk fs tbl g returned L fuel u0 = process_exit lk 0 k1 ∧
    view (Vga.putchars (HELLO ++ report) (k_vga k0)) e' k1 ∧ fd_in_use <$> e' = fd_in_use <$> e0.
Proof using All.
  intros Hf. destruct (main_spec fuel Hf) as (u' & e' & E & Hu & Hv & He).
  destruct (exit_spec _ _ u' Hv Hu) as (k1 & E1 & Hk1). exists k1, e'. unfold start. rewrite E. cbn [obind].
  split; [exact E1 |]. split; [exact Hk1 | exact He].
Qed.

(** C18. The embedded program does what it is for, end to end: started in ring 3, it
    prints its greeting, opens, reads and closes [test.elf] by system calls that
    go through the trap frame, the dispatcher and the page tables, and prints
    whether the first four bytes are the ELF magic number (or that there is no
    such file, or no free descriptor); it then enters [process_exit] with code 0.
    The console shows exactly these two lines more, every descriptor it opened is
    closed again, and apart from [buf] and the trap frame on its kernel stack no
    byte of memory has changed. *)
Theorem test_prog_runs (fuel : nat) :
  (36 < fuel)%nat →
  ∃ k1 e', start lk fs tbl g returned L fuel u0 = process_exit lk 0 k1 ∧
    view (Vga.putchars (HELLO ++ report) (k_vga k0)) e' k1 ∧ fd_in_use <$> e' = fd_in_use <$> e0.
Proof using All. exact (test_prog_spec fuel). Qed.

End run.

(** ** Witness *)

#[local] Existing Instance Pmm.pmm_frames.

(** The program in one page at 0x400000 (frame 0x120000), its stack at 0x500000
    (frame 0x121000), both of ring 3; the file, four bytes, in the supervisor's
    page at 0x130000; the kernel stack ends at 0x90000. *)
Definition demo_addresses : addresses := Addresses 0x400000 0x400040 0x400080 0x4000C0 0x400100 0x500F00.

Definition put (a : Z) (s : list Z) (m : memory) : memory := foldr (λ '(i, c) m, store8 m (a + Z.of_nat i) c) m (imap pair s).

Definition demo_memory : memory :=
  put 0x120000 HELLO (put 0x120040 PATH (put 0x120080 OK (put 0x1200C0 BAD (put 0x120100 FAIL (put 0x130000 MAGIC
    (Paging.set_entry 0x112000 0x130 0x130003 (Paging.set_entry 0x111000 0x100 0x121007 (Paging.set_entry 0x111000 0 0x120007
      (Paging.set_entry 0x110000 1 0x111007 (Paging.set_entry 0x110000 0 0x112003 ∅)))))))))).

(** A file system with [test.elf] only. *)
Definition one_file (d n : Z) : Ramfs.ramfs :=
  Ramfs.RamfsFile (PATH ++ replicate 24 0) d n 1 :: replicate 15 (Ramfs.RamfsFile (replicate 32 0) 0 0 0).

Definition demo_files : Ramfs.ramfs := one_file 0x130000 4.

Definition demo_regs : cpu := Cpu 0 0 0 0 0 0 0 0x503F00 0x400200 0x202 0x110000.

Definition demo_start : user (F := Pmm.pmm) :=
  User (Kernel Pmm.demo_pmm demo_memory Kmalloc.demo_heap (Syscall.demo_procs (FdEntry 0 0 0)) demo_regs 0x90000
    (Paging.PagingState 0x110000 0x110000 true) (Vga.Vga (replicate 2000 0) 0 0 7)) demo_segs.

Definition demo_pb (i : Z) : Z := 0x121F00 + i.
Definition demo_ps (i : Z) : Z := 0x130000 + i.

Definition demo_maps_check (acc : Paging.access) (va pa : Z) : bool :=
  let i := Paging.pd_index (u32 va) in
  let t := Paging.table demo_memory 0x110000 i in
  bool_decide (Paging.translate acc demo_memory 0x110000 (u32 va) = Some pa) &&
  (0 <=? i) && (i <? 1024) && (0x111000 <=? t) && (t <=? 0x112000) &&
  (0 <=? Paging.pt_index (u32 va)) && (Paging.pt_index (u32 va) <? 1024).

Lemma demo_safe (a : Z) : 0x110000 <= a < 0x121F00 ∨ 0x130000 <= a → safe demo_start demo_pb a.
Proof. intros Ha. split; [right; change (0x90000 <= a); lia |]. intros i Hi. unfold demo_pb. lia. Qed.

Lemma demo_maps (acc : Paging.access) (va pa : Z) : demo_maps_check acc va pa = true → maps demo_start demo_pb acc va pa.
Proof.
  unfold demo_maps_check. cbv zeta. rewrite !andb_true_iff, !Z.leb_le, !Z.ltb_lt.
  intros ((((((H1 & H2) & H3) & H4) & H5) & H6) & H7). apply bool_decide_eq_true_1 in H1. split; [exact H1 |].
  intros a [(j & Hj & ->)|(j & Hj & ->)]; apply demo_safe.
  - change (cur_pd (u_k demo_start)) with 0x110000. lia.
  - change (k_mem (u_k demo_start)) with demo_memory. change (cur_pd (u_k demo_start)) with 0x110000. lia.
Qed.

Definition demo_literal_check (p pa : Z) (s : list Z) : bool :=
  forallb (λ '(i, c), demo_maps_check (Paging.Access true false) (p + Z.of_nat i) (pa + Z.of_nat i) &&
    (load8 demo_memory (pa + Z.of_nat i) =? c)) (imap pair (s ++ [0])).

Lemma demo_literal (p pa : Z) (s : list Z) :
  0 < p < 2 ^ 32 → 0x120000 <= pa → pa + Z.of_nat (length s) < 0x121F00 → demo_literal_check p pa s = true →
  literal demo_start demo_pb p s.
Proof.
  intros Hp Hpa Hlen Hc. split; [unfold is_u32; lia |]. split; [lia |]. intros i c Hi. exists (pa + Z.of_nat i).
  unfold demo_literal_check in Hc. rewrite forallb_forall in Hc.
  assert ((i, c) ∈ imap pair (s ++ [0])) as Hin.
  { apply (list_elem_of_lookup_2 _ i). by rewrite list_lookup_imap, Hi. }
  apply list_elem_of_In, Hc in Hin. apply andb_true_iff in Hin as [H1 H2%Z.eqb_eq].
  split; [by apply demo_maps |]. split; [| exact H2]. apply demo_safe. apply lookup_lt_Some in Hi. rewrite length_app in Hi.
  cbn [length] in Hi. lia.
Qed.

Lemma demo_ring3 : ring3_ok demo_table (Idt.interrupt_gate 0x102000 3) (λ c v, with_eax v c) demo_start.
Proof.
  split.
  - intros c v. split_and!; reflexivity.
  - split; [reflexivity |]. split_and!; [| done | done]. unfold cpu_ok. rewrite !Forall_cons, Forall_nil. cbn. unfold is_u32. lia.
  - rewrite !Forall_cons, Forall_nil. cbn. lia.
  - reflexivity.
  - split; [vm_compute; reflexivity | reflexivity].
  - change (68 <= 0x90000 < 2 ^ 32 - 8). lia.
  - reflexivity.
Qed.

Lemma demo_buffer_user : buffer_user demo_addresses demo_start demo_pb.
Proof.
  assert (∀ i, 0 <= i < 4 → i = 0 ∨ i = 1 ∨ i = 2 ∨ i = 3) as H4 by lia. split.
  - split; done.
  - intros i [->|[->|[->| ->]]]%H4; apply demo_maps; vm_compute; reflexivity.
  - intros i Hi. right. change (0x90000 <= demo_pb i). unfold demo_pb. lia.
  - unfold demo_pb. lia.
Qed.

Lemma one_file_wf (d n : Z) : Ramfs.wf (one_file d n) ∧ Ramfs.files_map (one_file d n) !! PATH = Some (d, n).
Proof.
  assert (∀ e, e ∈ one_file d n → e = Ramfs.RamfsFile (PATH ++ replicate 24 0) d n 1 ∨
    e = Ramfs.RamfsFile (replicate 32 0) 0 0 0) as H.
  { intros e [->|[-> _]%elem_of_replicate]%elem_of_cons; [by left | by right]. }
  split; [| vm_compute; reflexivity]. split.
  - reflexivity.
  - intros e [->| ->]%H; reflexivity.
  - intros e [->| ->]%H; [vm_compute; lia | done].
  - apply (bool_decide_unpack (NoDup _)). vm_compute. done.
Qed.

Lemma demo_loaded : loaded demo_files demo_addresses demo_start demo_pb demo_ps.
Proof.
  split.
  - apply (demo_literal _ 0x120000); [cbn; lia | lia | vm_compute; reflexivity | vm_compute; reflexivity].
  - apply (demo_literal _ 0x120040); [cbn; lia | lia | vm_compute; reflexivity | vm_compute; reflexivity].
  - apply (demo_literal _ 0x120080); [cbn; lia | lia | vm_compute; reflexivity | vm_compute; reflexivity].
  - apply (demo_literal _ 0x1200C0); [cbn; lia | lia | vm_compute; reflexivity | vm_compute; reflexivity].
  - apply (demo_literal _ 0x120100); [cbn; lia | lia | vm_compute; reflexivity | vm_compute; reflexivity].
  - apply one_file_wf.
  - unfold demo_files. rewrite (proj2 (one_file_wf _ _)). intros d sz [= <- <-]. split; [lia |]. intros i Hi.
    assert (i = 0 ∨ i = 1 ∨ i = 2 ∨ i = 3) as H4 by lia.
    split; [| apply demo_safe; right; unfold demo_ps; lia].
    destruct H4 as [->|[->|[->| ->]]]; apply demo_maps; vm_compute; reflexivity.
  - reflexivity.
Qed.

Lemma test_prog_runs_witness :
  ∃ k1, start Syscall.demo_link demo_files demo_table (Idt.interrupt_gate 0x102000 3) (λ c v, with_eax v c) demo_addresses 37
      demo_start = process_exit Syscall.demo_link 0 k1 ∧
    k_vga k1 = Vga.putchars (HELLO ++ OK) (Vga.Vga (replicate 2000 0) 0 0 7).
Proof.
  destruct (test_prog_runs Syscall.demo_link demo_files demo_table (Idt.interrupt_gate 0x102000 3) (λ c v, with_eax v c)
    demo_addresses demo_start demo_pb demo_ring3 demo_ps demo_buffer_user demo_loaded 37 ltac:(lia)) as (k1 & e' & E & Hv & _).
  exists k1. split; [exact E |]. rewrite (vw_vga _ _ _ _ _ Hv).
  assert (report demo_files demo_start demo_ps = OK) as -> by (vm_compute; reflexivity). reflexivity.
Defined.

End Userland.
