(* ===== verification/Spawn.v ===== *)
(** * Processes from ELF images

    [process_create_from_elf] of [kernel/process.c] on the whole kernel state.  For
    any image, well formed or not, it keeps the kernel and scheduling invariants
    and returns, unless [paging_map_into] panics for want of a frame.  For a
    well-formed image and enough memory it hands over a process whose segments and
    stack ring 3 can use. *)

From S2P Require Import Prelude Memory Frames Vga Pmm Kmalloc Paging Scheduler Context Elf Process Invariant Create Reap Dispatch.
From S2P Require Import Space Gdt Idt Ramfs Syscall Trap Userland.

Module Spawn.
Import Scheduler Process Invariant Create Dispatch Space.

(** The addresses of the user stack. *)
Definition stack_range (va : Z) : Prop := USER_STACK_BASE <= va < USER_STACK_BASE + USER_STACK_PAGES * PAGE_SIZE.

(** The addresses of the pages of the segments of an image. *)
Definition image_range (m : memory) (data va : Z) : Prop :=
  ∃ i, 0 <= i < Elf.eh_phnum m data ∧ let ph := Elf.elf32_get_phdr m data i in
    Elf.is_load m ph = true ∧ Elf.seg_start m ph <= va < Elf.seg_end m ph.

(** ** Loading and the stack as extensions of an address space *)

Section extend.
Context {F : Type} `{!FrameAlloc F}.
Variable lk : link.
Variables (k : kernel F) (R : Z → Prop) (live : gset Z) (l z : list Z) (p : Z).
Abbreviation pd := (cr3 (kpcb k p)).
Abbreviation extended := (Space.extended lk k R live l z p).
Abbreviation building := (Space.building lk k R live l z p).

(** One page of a segment. *)
Lemma load_page_extends (data ph flags va : Z) (fs : F) (m : memory) :
  building fs m → 0 <= va → va + PAGE_SIZE < 2 ^ 32 → 0 <= flags < 4096 →
  ensures out_of_memory (λ x : bool * F * memory, extended (λ w, w = va) fs m (snd (fst x)) (snd x))
    (Elf.load_page data pd ph flags va fs m).
Proof.
  intros Hb H0 Hlt Hfl. unfold Elf.load_page. destruct (alloc_frame fs) as [f fs1] eqn:Hal.
  destruct (Z.eqb_spec f 0) as [->|Hf].
  - destruct (alloc_frame_spec fs (ki_frames _ _ _ _ _ _ (bg_inv _ _ _ _ _ _ _ _ _ Hb))) as [(f & fs' & E & Hf & _)|[E _]];
      rewrite Hal in E; [injection E as <- <-; by apply page_addr_nonzero in Hf | injection E as ->; by apply extended_refl].
  - eapply ensures_bind; [eapply (extend_page lk k R live l z p fs fs1 m _ va f flags Hb Hal Hf) |].
    + by apply Elf.fill_page_outside.
    + unfold is_u32, PAGE_SIZE in *. lia.
    + done.
    + intros [fs2 m2] H. exact H.
Qed.

(** Any image: the invariants stay. *)
Lemma elf32_load_extends (data : Z) (fs : F) (m : memory) :
  building fs m →
  ensures out_of_memory (λ x : bool * F * memory, extended (λ _, True) fs m (snd (fst x)) (snd x)) (Elf.elf32_load data pd fs m).
Proof.
  intros Hb. apply (Elf.elf32_load_ensures out_of_memory (extended (λ _, True) fs m)); [| by apply extended_refl].
  intros fsh mh j _ _ ph _ va fs1 m1 Hva _ He. destruct (Elf.seg_range mh ph) as (_ & _ & R3 & R4 & _). unfold PAGE_SIZE in *.
  eapply ensures_mono; [apply load_page_extends; [apply He | lia | unfold PAGE_SIZE; lia | apply Elf.seg_flags_bits] |].
  intros [[ok fs2] m2] H. eapply extended_trans; [exact He |]. by eapply extended_weaken.
Qed.

(** A well-formed image: the kernel's translation changes only at the pages of its
    segments. *)
Lemma elf32_load_image (data lo hi : Z) (fs : F) (m : memory) :
  building fs m → Elf.image_ok lo hi m data → (∀ a, lo <= a < hi → untouched k p fs m a) →
  ensures out_of_memory (λ x : bool * F * memory, extended (image_range m data) fs m (snd (fst x)) (snd x)) (Elf.elf32_load data pd fs m).
Proof.
  intros Hb Hi Hun. apply (Elf.elf32_load_ensures out_of_memory (extended (image_range m data) fs m)); [| by apply extended_refl].
  intros fsh mh j Hh Hj ph Hl va fs1 m1 Hva _ He.
  assert (agree_on (λ a, lo <= a < hi) m mh) as Hag.
  { eapply agree_on_weaken; [apply (ex_mem _ _ _ _ _ _ _ _ _ _ _ _ Hh) | exact Hun]. }
  destruct (Elf.image_same lo hi m mh data Hag Hi) as [_ E]. destruct (E j Hj) as (E1 & E2 & E3 & E4). fold ph in E1.
  destruct (Elf.seg_range mh ph) as (_ & _ & R3 & R4 & _). unfold PAGE_SIZE in *.
  eapply ensures_mono; [apply load_page_extends; [apply He | lia | unfold PAGE_SIZE; lia | apply Elf.seg_flags_bits] |].
  intros [[ok fs2] m2] H. eapply extended_trans; [exact He |]. eapply extended_weaken; [exact H |]. intros w ->.
  exists j. unfold ph in *. rewrite E1 in *. split; [done |]. cbv zeta. by rewrite <- E2, <- E3, <- E4.
Qed.

(** The user stack: [n] pages from page [i] on. *)
Lemma map_user_stack_extends (n : nat) (i : Z) (fs : F) (m : memory) :
  building fs m → 0 <= i → i + Z.of_nat n <= USER_STACK_PAGES →
  ensures out_of_memory (λ x : bool * Z * kernel F, ∃ fs' m', snd x = within k fs' m' ∧ extended stack_range fs m fs' m' ∧
      (fst (fst x) = true → snd (fst x) = USER_STACK_BASE + (i + Z.of_nat n) * PAGE_SIZE))
    (map_user_stack n i p (USER_STACK_BASE + i * PAGE_SIZE) (within k fs m)).
Proof.
  revert i fs m. induction n as [|n IH]; intros i fs m Hb Hi Hn; cbn [map_user_stack].
  { exists fs, m. split_and!; [done | by apply extended_refl | simpl; lia]. }
  cbn [k_frames within with_mem with_frames]. destruct (alloc_frame fs) as [f fs1] eqn:Hal.
  destruct (Z.eqb_spec f 0) as [->|Hf].
  { destruct (alloc_frame_spec fs (ki_frames _ _ _ _ _ _ (bg_inv _ _ _ _ _ _ _ _ _ Hb))) as [(f & fs' & E & Hf & _)|[E _]];
      rewrite Hal in E; [injection E as <- <-; by apply page_addr_nonzero in Hf | injection E as ->].
    exists fs, m. split_and!; [done | by apply extended_refl | done]. }
  cbn [k_frames k_mem within with_mem with_frames]. unfold USER_STACK_PAGES, USER_STACK_BASE, PAGE_SIZE in *.
  eapply ensures_bind; [apply (extend_page lk k R live l z p fs fs1 m m (0x500000 + i * 4096) f _ Hb Hal Hf); [reflexivity | unfold is_u32; lia | done] |].
  intros [fs2 m2] He. replace (0x500000 + i * 4096 + 4096) with (0x500000 + (i + 1) * 4096) by lia.
  eapply ensures_mono; [apply (IH (i + 1) fs2 m2); [apply He | lia | lia] |].
  intros [[ok top'] k'] (fs3 & m3 & Hk' & He3 & Htop). exists fs3, m3. split_and!; [done | |].
  - eapply extended_trans; [| exact He3]. eapply extended_weaken; [exact He |].
    intros w ->. unfold stack_range, USER_STACK_BASE, USER_STACK_PAGES, PAGE_SIZE. lia.
  - intros Hok. rewrite Htop by done. lia.
Qed.

End extend.

(** ** The steps of [process_create_from_elf] *)

Section spawn.
Context {F : Type} `{!FrameAlloc F}.
Variable lk : link.

Lemma within_same (k : kernel F) : within k (k_frames k) (k_mem k) = k.
Proof. by destruct k. Qed.

(** A directory just created can be extended. *)
Lemma shared_building (k : kernel F) (R : Z → Prop) (live : gset Z) (l z : list Z) (p : Z) :
  let pd := cr3 (kpcb k p) in
  kernel_inv lk k R live l z → p ∈ l ++ z → p ≠ l_idle_pcb lk →
  (∀ i, Paging.is_index i → Paging.entry (k_mem k) pd i =
     if i <? Paging.IDENTITY_PT_COUNT then Paging.entry (k_mem k) (l_kernel_pd lk) i else 0) →
  building lk k R live l z p (k_frames k) (k_mem k).
Proof.
  intros pd Hk Hp Hi He. pose proof (ki_space _ _ _ _ _ _ Hk) as [S1 S2 S3].
  assert (∀ i, Paging.is_index i → Paging.present (k_mem k) pd i = true → i < Paging.IDENTITY_PT_COUNT ∧
    Paging.present (k_mem k) (l_kernel_pd lk) i = true ∧ Paging.table (k_mem k) pd i = Paging.table (k_mem k) (l_kernel_pd lk) i) as Hpr.
  { intros i Hix. unfold Paging.present, Paging.table. rewrite He by done.
    destruct (Z.ltb_spec i Paging.IDENTITY_PT_COUNT); [done | by rewrite Z.bits_0]. }
  assert (holds k p pd) as Hpd by (right; right; by left).
  destruct (ki_held _ _ _ _ _ _ Hk p pd Hp Hi Hpd) as (P1 & P2 & P3 & _).
  split; [by rewrite within_same | done | split |].
  - split; [by apply Paging.page_addr_base | done].
  - fold pd. intros i Hix Hpi. destruct (Hpr i Hix Hpi) as (_ & H1 & ->). destruct (S2 i Hix H1) as [H2 _]. split; [done |].
    intros Heq. apply P3. right. exists i. split_and!; [done | done | by symmetry].
  - fold pd. intros i j Hix Hjx Hpi Hpj. destruct (Hpr i Hix Hpi) as (_ & H1 & ->), (Hpr j Hjx Hpj) as (_ & H2 & ->). by apply S3.
  - fold pd. intros i Hix _ Hpi. destruct (Hpr i Hix Hpi) as (_ & H1 & ->). split; [| done].
    assert (kernel_page lk (k_mem k) (Paging.table (k_mem k) (l_kernel_pd lk) i)) as Hkp by (right; by exists i).
    destruct (S2 i Hix H1) as [_ H2]. split_and!; [intros a; by apply (ki_pd _ _ _ _ _ _ Hk) | done |].
    intros q Hq Hqi Hh. assert (with_mem (k_mem k) k = k) as E by (by destruct k). rewrite E in Hh.
    by destruct (ki_held _ _ _ _ _ _ Hk q _ Hq Hqi Hh) as (_ & _ & H3 & _).
Qed.

(** Giving up on a process that is already in the queue. *)
Lemma fail_zombie_spec (k : kernel F) (R : Z → Prop) (live : gset Z) (l z : list Z) (p : Z) :
  kernel_inv lk k R live (l ++ [p]) z → current_process (k_procs k) ∈ l →
  ∃ s', fail_zombie p k = Done (0, with_procs s' k) ∧ kernel_inv lk (with_procs s' k) R live l (p :: z) ∧
    others_kept p (k_procs k) s' ∧ state (pcb s' p) = PROCESS_ZOMBIE.
Proof.
  intros Hk Hc. pose proof (ki_queue _ _ _ _ _ _ Hk) as Hq. pose proof (qi_nodup Hq) as [Hpl _]%nodup_snoc_app.
  assert (data_only (k_procs k) (edit p (set_state PROCESS_ZOMBIE) (k_procs k))) as Hd by (apply data_edit; by intros []).
  destruct (mark_inv lk k R live (l ++ [p]) z p (set_state PROCESS_ZOMBIE) Hk ltac:(set_solver) ltac:(set_solver) Hd)
    as (s' & E & Hl & Hk' & _).
  rewrite filter_app, filter_all in Hk' by (intros y Hy ->; set_solver).
  rewrite filter_cons, decide_False, filter_nil, app_nil_r in Hk' by tauto.
  exists s'. split_and!; [| done | split |].
  - unfold fail_zombie, k_mark_zombie, kedit. cbn [k_procs with_procs]. by rewrite E.
  - by rewrite (lk_current _ _ Hl).
  - intros q Hqp. by rewrite (lk_pcb _ _ Hl q), pcb_edit_ne.
  - rewrite (links_state _ _ p Hl), pcb_edit_eq. by destruct (pcb (k_procs k) p).
Qed.

(** [k'] is the kernel [k] after [process_create] made the process [p]. *)
Record newborn (k k' : kernel F) (R : Z → Prop) (live : gset Z) (l z : list Z) (p : Z) : Prop := {
  nb_building : building lk k' R ({[p]} ∪ live) (l ++ [p]) z p (k_frames k') (k_mem k');
  nb_fresh : p ∉ current_process (k_procs k) :: l ++ z;
  nb_nonzero : p ≠ 0;
  nb_others : others_kept p (k_procs k) (k_procs k');
  nb_state : state (kpcb k' p) = PROCESS_READY
}.

Lemma create_newborn (k k' : kernel F) (R : Z → Prop) (live : gset Z) (l z : list Z) (p r pd lo hi : Z)
    (pname : list Z) (prio : Z) :
  kernel_inv lk k R live l z → l_idle_pcb lk ∈ l → p ∉ current_process (k_procs k) :: l ++ z → r = 0 ∨ r = p →
  others_kept p (k_procs k) (k_procs k') → agree_on (kept R (k_frames k)) (k_mem k) (k_mem k') →
  kernel_inv lk k' R ({[r]} ∪ live) (l ++ [r]) z → r ∉ live →
  set_next 0 (kpcb k' r) = stack_pcb lo hi (ready_pcb pname prio pd (k_procs k)) →
  (∀ i, Paging.is_index i → Paging.entry (k_mem k') pd i =
     if i <? Paging.IDENTITY_PT_COUNT then Paging.entry (k_mem k) (l_kernel_pd lk) i else 0) →
  r = p ∧ cr3 (kpcb k' p) = pd ∧ newborn k k' R live l z p.
Proof.
  intros Hk Hidle Hp Hr Ho Hag Hk' Hrl Hpcb He.
  destruct (qi_live (ki_queue _ _ _ _ _ _ Hk') r ltac:(set_solver)) as [H0 _]. destruct Hr as [->| ->]; [done |].
  assert (state (kpcb k' p) = PROCESS_READY ∧ cr3 (kpcb k' p) = pd) as [Hst Hcr].
  { destruct (kpcb k' p). simpl in Hpcb. injection Hpcb as -> -> -> -> -> -> -> -> -> -> -> -> -> -> -> ->. done. }
  split_and!; [done | done |]. split; try done. apply shared_building; [done | set_solver | |].
  - intros ->. set_solver.
  - rewrite Hcr. intros i Hi. rewrite He by done. destruct (i <? Paging.IDENTITY_PT_COUNT); [| done]. symmetry.
    apply (kernel_pde_kept lk k l z (k_mem k')); [by apply (mapping_kept lk k R live l z) | done].
Qed.

(** What the caller of [process_create_from_elf] learns, whatever the image: the
    result is NULL and the queue as before, with at most one more zombie, or the new
    process at the end of the queue. *)
Record spawn_post (k : kernel F) (R : Z → Prop) (live : gset Z) (l z : list Z) (data r : Z) (k' : kernel F)
    (live' : gset Z) (l' z' : list Z) : Prop := {
  sp_inv : kernel_inv lk k' R live' l' z';
  sp_sched : sched_inv lk (k_procs k') l' z';
  sp_current : current_process (k_procs k') = current_process (k_procs k);
  sp_result : (r = 0 ∧ l' = l ∧ (z' = z ∨ ∃ p, p ∉ l ++ z ∧ z' = p :: z)) ∨
    (r ≠ 0 ∧ r ∉ l ++ z ∧ l' = l ++ [r] ∧ z' = z ∧ state (kpcb k' r) = PROCESS_READY ∧
     Elf.elf32_validate (k_mem k) data = Some (user_entry (kpcb k' r)) ∧
     user_stack_top (kpcb k' r) = USER_STACK_BASE + USER_STACK_PAGES * PAGE_SIZE)
}.

Section tail.
Variables (k k1 : kernel F) (R : Z → Prop) (live : gset Z) (l z : list Z) (p : Z).
Hypothesis Hs : sched_inv lk (k_procs k) l z.
Hypothesis Hn : newborn k k1 R live l z p.
Abbreviation extended := (Space.extended lk k1 R ({[p]} ∪ live) (l ++ [p]) z p).

Lemma newborn_current : current_process (k_procs k1) = current_process (k_procs k) ∧ current_process (k_procs k) ∈ l.
Proof. split; [apply (nb_others _ _ _ _ _ _ _ Hn) | apply Hs]. Qed.

(** A failure after the creation. *)
Lemma spawn_fails (W : Z → Prop) (fs fs' : F) (m m' : memory) (data : Z) :
  extended W fs m fs' m' →
  ensures out_of_memory (λ x, ∃ live' l' z', spawn_post k R live l z data (fst x) (snd x) live' l' z')
    (fail_zombie p (within k1 fs' m')).
Proof.
  intros He. destruct newborn_current as [Hc Hin].
  destruct (fail_zombie_spec (within k1 fs' m') R ({[p]} ∪ live) l z p) as (s' & -> & Hk' & Ho & Hst);
    [apply He | change (current_process (k_procs k1) ∈ l); by rewrite Hc |].
  pose proof (others_trans p _ _ _ (nb_others _ _ _ _ _ _ _ Hn) Ho) as Ho'.
  exists ({[p]} ∪ live), l, (p :: z). split; [done | | apply Ho' |].
  - by apply (sched_others lk (k_procs k) s' l z p Hs (nb_fresh _ _ _ _ _ _ _ Hn) Ho').
  - left. split_and!; [done | done |]. right. exists p. pose proof (nb_fresh _ _ _ _ _ _ _ Hn). set_solver.
Qed.

(** The last two assignments. *)
Definition finished (entry top : Z) (k : kernel F) : kernel F := kedit p (set_user_stack_top top) (kedit p (set_user_entry entry) k).

Lemma spawn_finishes (W : Z → Prop) (fs fs' : F) (m m' : memory) (data entry : Z) :
  extended W fs m fs' m' → Elf.elf32_validate (k_mem k) data = Some entry →
  spawn_post k R live l z data p (finished entry (USER_STACK_BASE + USER_STACK_PAGES * PAGE_SIZE) (within k1 fs' m'))
    ({[p]} ∪ live) (l ++ [p]) z.
Proof.
  intros He Hv. destruct newborn_current as [Hc Hin]. set (top := USER_STACK_BASE + _).
  set (s' := edit p (λ x, set_user_stack_top top (set_user_entry entry x)) (k_procs k1)).
  assert (finished entry top (within k1 fs' m') = with_procs s' (within k1 fs' m')) as ->.
  { unfold finished, kedit. cbn [k_procs with_procs within with_mem with_frames]. rewrite edit_edit. done. }
  assert (data_only (k_procs k1) s') as Hd by (apply data_edit; by intros []).
  assert (pcb s' p = set_user_stack_top top (set_user_entry entry (kpcb k1 p))) as Hp by (unfold s'; by rewrite pcb_edit_eq).
  assert (others_kept p (k_procs k) s') as Ho.
  { eapply others_trans; [apply (nb_others _ _ _ _ _ _ _ Hn) |]. split; [done |]. intros q Hq. unfold s'. by rewrite pcb_edit_ne. }
  assert (state (pcb s' p) = PROCESS_READY) as Hst.
  { rewrite Hp, <- (nb_state _ _ _ _ _ _ _ Hn). by destruct (kpcb k1 p). }
  split.
  - apply (inv_data lk (within k1 fs' m')); [apply He | done |]. change (current_process (k_procs k1) ∈ (l ++ [p]) ++ z).
    rewrite Hc. apply elem_of_app. left. apply elem_of_app. by left.
  - by apply (sched_others lk (k_procs k) s' l z p Hs (nb_fresh _ _ _ _ _ _ _ Hn) Ho).
  - apply Ho.
  - right. pose proof (nb_fresh _ _ _ _ _ _ _ Hn). split_and!; [exact (nb_nonzero _ _ _ _ _ _ _ Hn) | set_solver | done | done | done | |];
      change (kpcb (with_procs s' _) p) with (pcb s' p); rewrite Hp; by destruct (kpcb k1 p).
Qed.

(** Loading, the stack and the assignments. *)
Lemma spawn_tail (data entry : Z) :
  Elf.elf32_validate (k_mem k) data = Some entry →
  ensures out_of_memory (λ x, ∃ live' l' z', spawn_post k R live l z data (fst x) (snd x) live' l' z')
    (let! (ok, fs, m) := Elf.elf32_load data (cr3 (kpcb k1 p)) (k_frames k1) (k_mem k1) in
     let k := with_mem m (with_frames fs k1) in
     if negb ok then fail_zombie p k
     else
       let! (ok, stack_top, k) := map_user_stack (Z.to_nat USER_STACK_PAGES) 0 p USER_STACK_BASE k in
       if negb ok then fail_zombie p k
       else Done (p, finished entry stack_top k)).
Proof.
  intros Hv. eapply ensures_bind; [apply (elf32_load_extends lk k1 R ({[p]} ∪ live) (l ++ [p]) z p data), Hn |].
  intros [[ok fs1] m1] He1. cbn [fst snd] in He1. destruct ok; cbn [negb]; [| by eapply spawn_fails].
  eapply ensures_bind; [apply (map_user_stack_extends lk k1 R ({[p]} ∪ live) (l ++ [p]) z p (Z.to_nat USER_STACK_PAGES) 0 fs1 m1); [apply He1 | done | done] |].
  intros [[ok top] k3] (fs2 & m2 & E & He2 & Htop). cbn [fst snd] in E, Htop. subst k3.
  destruct ok; cbn [negb]; [| by eapply spawn_fails]. rewrite Htop by done.
  eexists _, _, _. by eapply spawn_finishes.
Qed.

End tail.

Lemma process_create_from_elf_spec (k : kernel F) (R : Z → Prop) (live : gset Z) (l z : list Z)
    (pname : list Z) (data prio : Z) :
  kernel_inv lk k R live l z → sched_inv lk (k_procs k) l z → is_u32 (l_user_mode_trampoline lk) → is_u32 (l_process_exit lk) →
  0 <= next_pid (k_procs k) < 2 ^ 32 - 1 →
  ensures out_of_memory (λ x, ∃ live' l' z', spawn_post k R live l z data (fst x) (snd x) live' l' z')
    (process_create_from_elf lk pname data prio k).
Proof.
  intros Hk Hs Ht Hx Hpid. unfold process_create_from_elf.
  destruct (Elf.elf32_validate (k_mem k) data) as [entry|] eqn:Hv.
  2: { exists live, l, z. split; [done | done | done |]. left. split_and!; [done | done | by left]. }
  destruct (process_create_spec lk k R live l z pname (l_user_mode_trampoline lk) prio Hk Ht Hx Hpid)
    as (r & k1 & -> & (p & Hp & Ho & Hr) & Hag & [(-> & Hk1 & _)|(Hrl & Hk1 & _ & pd & lo & hi & _ & Hpcb & _ & He)]).
  - exists live, l, z. split; [done | by eapply sched_others | apply Ho |]. left. split_and!; [done | done | by left].
  - destruct (create_newborn k k1 R live l z p r pd lo hi pname prio Hk (proj1 (si_idle _ _ _ _ Hs)) Hp Hr Ho Hag Hk1 Hrl Hpcb He)
      as (-> & _ & Hn). cbn [obind]. destruct (Z.eqb_spec p 0); [by destruct (nb_nonzero _ _ _ _ _ _ _ Hn) |].
    exact (spawn_tail k k1 R live l z p Hs Hn data entry Hv).
Qed.

(** ** A well-formed image *)

(** The loader's invariant holds while an address space grows. *)
Lemma building_loader (k : kernel F) (R : Z → Prop) (live : gset Z) (l z : list Z) (p lo hi : Z) (fs : F) (m : memory) :
  building lk k R live l z p fs m → lo < hi → (∀ a, lo <= a < hi → untouched k p fs m a) →
  Elf.loader_inv lo hi (cr3 (kpcb k p)) (λ f, in_use fs f = false) fs m.
Proof.
  intros Hb Hlt Hun.
  assert (∀ q, (∀ a, lo <= a < hi → ~ in_page q a) → Elf.clear_of lo hi q) as Hc.
  { intros q H. pose proof (H lo ltac:(lia)) as H1. pose proof (H q) as H2. unfold Elf.clear_of, in_page, PAGE_SIZE in *. lia. }
  split; [apply (bg_inv _ _ _ _ _ _ _ _ _ Hb) | apply Hb | | done | |].
  - intros f Hf Hu. apply Hc. intros a Ha. by apply (Hun a Ha).
  - apply Hc. intros a Ha. by apply (Hun a Ha).
  - intros i Hi Hpr. apply Hc. intros a Ha. by apply (Hun a Ha).
Qed.

(** The user stack, with two frames for each page. *)
Record stack_given (k : kernel F) (p lo hi : Z) (fresh : Z → Prop) (i n : Z) (fs : F) (m : memory) (fs' : F) (m' : memory) : Prop := {
  sv_inv : Elf.loader_inv lo hi (cr3 (kpcb k p)) fresh fs' m';
  sv_pages q content : is_u32 q → q mod PAGE_SIZE = 0 →
    q < USER_STACK_BASE + i * PAGE_SIZE ∨ USER_STACK_BASE + (i + n) * PAGE_SIZE <= q →
    Elf.page_loaded (cr3 (kpcb k p)) fresh fs m q content → Elf.page_loaded (cr3 (kpcb k p)) fresh fs' m' q content;
  sv_mono a va x : is_u32 va → va < USER_STACK_BASE + i * PAGE_SIZE ∨ USER_STACK_BASE + (i + n) * PAGE_SIZE <= va →
    Paging.translate a m (cr3 (kpcb k p)) va = Some x → Paging.translate a m' (cr3 (kpcb k p)) va = Some x;
  sv_stack j : i <= j < i + n → ∃ content,
    Elf.page_loaded (cr3 (kpcb k p)) fresh fs' m' (USER_STACK_BASE + j * PAGE_SIZE) content;
  sv_write va : USER_STACK_BASE + i * PAGE_SIZE <= va < USER_STACK_BASE + (i + n) * PAGE_SIZE →
    ∃ pa, Paging.translate (Paging.Access true true) m' (cr3 (kpcb k p)) va = Some pa
}.

Lemma map_user_stack_correct (k : kernel F) (p lo hi : Z) (fresh : Z → Prop) (n : nat) (i : Z) (fs : F) (m : memory) :
  let pd := cr3 (kpcb k p) in
  Elf.loader_inv lo hi pd fresh fs m → Elf.writable_dir pd m → 2 * Z.of_nat n <= frames_free fs →
  0 <= i → i + Z.of_nat n <= USER_STACK_PAGES →
  ∃ fs' m', map_user_stack n i p (USER_STACK_BASE + i * PAGE_SIZE) (within k fs m) =
      Done (true, USER_STACK_BASE + (i + Z.of_nat n) * PAGE_SIZE, within k fs' m') ∧
    stack_given k p lo hi fresh i (Z.of_nat n) fs m fs' m'.
Proof.
  intros pd. unfold USER_STACK_PAGES. revert i fs m. induction n as [|n IH]; intros i fs m Hl Hw Hfr Hi Hn; cbn [map_user_stack].
  { exists fs, m. split; [by rewrite Z.add_0_r |]. split; [done | done | done | intros; lia | intros; lia]. }
  cbn [k_frames within with_mem with_frames].
  destruct (alloc_frame_spec fs (Elf.li_frames _ _ _ _ _ _ Hl)) as [(f & fs1 & -> & Hf & Hu & Hok & Hc & Hu1)|[_ Hz]]; [| lia].
  destruct (Z.eqb_spec f 0); [by apply page_addr_nonzero in Hf |]. cbn [k_frames k_mem within with_mem with_frames].
  set (va := USER_STACK_BASE + i * PAGE_SIZE). change (cr3 (kpcb _ p)) with pd.
  assert (is_u32 va ∧ va mod PAGE_SIZE = 0) as [Hva Hvm] by (unfold va, is_u32, USER_STACK_BASE, PAGE_SIZE; split; [lia | zlia]).
  destruct (Elf.give_page_spec lo hi pd fresh fs fs1 m m va f 7 Hl Hf Hu Hok Hu1 Hc) as [(fs2 & m2 & E & G)|[_ Hz]]; try done; [| lia].
  change (Z.lor (Z.lor Paging.PTE_PRESENT Paging.PTE_WRITABLE) Paging.PTE_USER) with 7. rewrite E. cbn [obind].
  destruct G as [G1 _ G3 G4 G5 G6 G7]. destruct (G6 Hw) as [W1 W2].
  assert (va + PAGE_SIZE = USER_STACK_BASE + (i + 1) * PAGE_SIZE) as Hnext by (unfold va; lia). rewrite Hnext.
  destruct (IH (i + 1) fs2 m2 G1 W1 ltac:(lia) ltac:(lia) ltac:(lia)) as (fs3 & m3 & E3 & [S1 S2 S3 S4 S5]).
  exists fs3, m3. replace (i + Z.of_nat (S n)) with (i + 1 + Z.of_nat n) by lia. split; [exact E3 |].
  assert (∀ va', is_u32 va' → ~ (va <= va' < va + PAGE_SIZE) → ~ Paging.same_page va' va) as Hns.
  { intros va' Hva' H Hsp. apply H. by apply Elf.same_page_range. }
  unfold PAGE_SIZE in *.
  split; [done | | | |]; unfold PAGE_SIZE; replace (i + Z.of_nat (S n)) with (i + 1 + Z.of_nat n) by lia.
  - intros q content Hq Hqm Hout Hp. apply S2; [done | done | lia |]. apply G4; [| done]. apply Hns; [done |]. unfold va. lia.
  - intros a va' x Hva' Hout Ht. apply S3; [done | lia |]. apply G5; [done | apply Hns; [done |] | done]. unfold va. lia.
  - intros j Hj. destruct (decide (j = i)) as [->|]; [| apply S4; lia]. fold va.
    eexists. apply S2; [done | done | unfold va; lia | exact G3].
  - intros va' Hr. destruct (decide (va' < va + 4096)) as [Hlt|Hge]; [| apply S5; unfold va in *; lia].
    exists (f + va' mod 4096). assert (is_u32 va') as Hu' by (unfold is_u32, va, USER_STACK_BASE in *; lia). apply S3; [done | unfold va in *; lia |].
    apply W2; [done |]. unfold Paging.same_page.
    destruct (Paging.index_div va') as [-> ->], (Paging.index_div va) as [-> ->]. unfold va, USER_STACK_BASE in *. zlia.
Qed.

(** The kernel's own translation is not touched by [process_create]. *)
Lemma kernel_translate_kept (k : kernel F) (R : Z → Prop) (live : gset Z) (l z : list Z) (m' : memory) (a : Paging.access) (va : Z) :
  kernel_inv lk k R live l z → agree_on (kept R (k_frames k)) (k_mem k) m' → is_u32 va →
  Paging.translate a m' (l_kernel_pd lk) va = Paging.translate a (k_mem k) (l_kernel_pd lk) va.
Proof.
  intros Hk Hag Hva. pose proof (Paging.pd_index_range va Hva) as Hi. unfold Paging.translate.
  rewrite (kernel_pde_kept lk k l z m' (mapping_kept lk k R live l z m' Hk Hag) _ Hi).
  destruct (Paging.permits a (Paging.entry (k_mem k) (l_kernel_pd lk) (Paging.pd_index va))) eqn:Hper; [| done].
  assert (Paging.present (k_mem k) (l_kernel_pd lk) (Paging.pd_index va) = true) as Hpr.
  { unfold Paging.permits in Hper. unfold Paging.present. by destruct (Z.testbit _ 0). }
  fold (Paging.table (k_mem k) (l_kernel_pd lk) (Paging.pd_index va)).
  set (c := Paging.table (k_mem k) (l_kernel_pd lk) (Paging.pd_index va)).
  assert (kernel_page lk (k_mem k) c) as Hc by (right; by exists (Paging.pd_index va)).
  assert (Paging.entry m' c (Paging.pt_index va) = Paging.entry (k_mem k) c (Paging.pt_index va)) as ->; [| done].
  eapply Paging.entry_agree; [exact Hag |]. intros b Hb. apply (kept_reserved R (k_frames k) c).
  - by apply (kernel_page_reserved lk k R live l z).
  - intros x. by apply (ki_pd _ _ _ _ _ _ Hk).
  - pose proof (Paging.pt_index_range va) as Hj. unfold Paging.is_index, in_page, PAGE_SIZE in *. lia.
Qed.

(** Two pages with a common byte are the same. *)
Lemma page_unique (b c a : Z) : Paging.page_base b → Paging.page_base c → in_page b a → in_page c a → b = c.
Proof.
  intros Hb Hc H1 H2. destruct (decide (b = c)) as [|Hne]; [done |].
  pose proof (Paging.page_base_apart b c Hb Hc Hne). unfold in_page in *. lia.
Qed.

(** Bytes that [process_create] and the loader leave alone. *)
Definition settled (k : kernel F) (R : Z → Prop) (a : Z) : Prop :=
  kept R (k_frames k) a ∧ ∀ b, kernel_page lk (k_mem k) b → ~ in_page b a.

(** What a well-formed image needs: its bytes are settled, its segments do not meet
    the user stack, and there is memory, heap and a slot of the process table. *)
Record spawn_ready (k : kernel F) (R : Z → Prop) (data lo hi : Z) : Prop := {
  sr_image : Elf.image_ok lo hi (k_mem k) data;
  sr_bytes a : lo <= a < hi → settled k R a;
  sr_apart va : image_range (k_mem k) data va → ~ stack_range va;
  sr_tables : Elf.writable_dir (l_kernel_pd lk) (k_mem k);
  sr_heap : Kmalloc.kmalloc sizeof_process (k_heap k) (k_mem k) ≠ Done (0, k_mem k);
  sr_slot : 0 ∈ proc_table (k_procs k);
  sr_frames : 3 + 2 * (Elf.image_pages (k_mem k) data (Z.to_nat (Elf.eh_phnum (k_mem k) data)) 0 + USER_STACK_PAGES)
    <= frames_free (k_frames k)
}.

(** A process that is to start in [user_mode_trampoline]: the initial frame is at
    the top of its kernel stack. *)
Definition poised (k : kernel F) (p : Z) : Prop :=
  let top := kernel_stack_top (kpcb k p) in
  page_addr (top - PAGE_SIZE) ∧ esp (kpcb k p) = top - 40 ∧
  Context.stack_at (k_mem k) (top - 40) [0; 0; 0; 0; 0; 0; 0; 0x202; l_user_mode_trampoline lk; l_process_exit lk].

(** The byte [pa] is in a frame that was free before and is not the kernel stack of
    the process. *)
Definition private (k k' : kernel F) (p pa : Z) : Prop :=
  ∃ f, page_addr f ∧ in_use (k_frames k) f = false ∧ f ≠ kernel_stack_top (kpcb k' p) - PAGE_SIZE ∧ in_page f pa.

(** Address [a] belongs to program header [i] of the image. *)
Definition in_segment (m : memory) (data i a : Z) : Prop :=
  0 <= i < Elf.eh_phnum m data ∧ let ph := Elf.elf32_get_phdr m data i in
    Elf.is_load m ph = true ∧ Elf.ph_vaddr m ph + Elf.ph_memsz m ph + 0xFFF < 2 ^ 32 ∧
    Elf.ph_vaddr m ph <= a < Elf.ph_vaddr m ph + Elf.ph_memsz m ph.

(** What the process finds: its segments, its stack in frames of its own, the
    identity window elsewhere, no open files. *)
Record spawned (k : kernel F) (R : Z → Prop) (data p : Z) (k' : kernel F) : Prop := {
  sd_segments i a : in_segment (k_mem k) data i a →
    ∃ pa, Paging.translate (Paging.Access true false) (k_mem k') (cr3 (kpcb k' p)) a = Some pa ∧
          load8 (k_mem k') pa = Elf.segment_byte (k_mem k) data (Elf.elf32_get_phdr (k_mem k) data i) a ∧ private k k' p pa;
  sd_stack j : 0 <= j < USER_STACK_PAGES → ∃ f, private k k' p f ∧ page_addr f ∧ f ≠ cr3 (kpcb k' p) ∧
    (∀ i, Paging.is_index i → Paging.present (k_mem k') (cr3 (kpcb k' p)) i = true → Paging.table (k_mem k') (cr3 (kpcb k' p)) i ≠ f) ∧
    ∀ va, is_u32 va → Paging.same_page va (USER_STACK_BASE + j * PAGE_SIZE) →
      Paging.translate (Paging.Access true true) (k_mem k') (cr3 (kpcb k' p)) va = Some (f + va mod PAGE_SIZE) ∧
      ∀ i a, in_segment (k_mem k) data i a →
        Paging.translate (Paging.Access true false) (k_mem k') (cr3 (kpcb k' p)) a ≠ Some (f + va mod PAGE_SIZE);
  sd_low a va x : is_u32 va → Paging.pd_index va < Paging.IDENTITY_PT_COUNT → ~ image_range (k_mem k) data va → ~ stack_range va →
    Paging.translate a (k_mem k) (l_kernel_pd lk) va = Some x → Paging.translate a (k_mem k') (cr3 (kpcb k' p)) va = Some x;
  sd_kernel a va : is_u32 va → (∀ w, image_range (k_mem k) data w ∨ stack_range w → ~ Paging.same_page va w) →
    Paging.translate a (k_mem k') (l_kernel_pd lk) va = Paging.translate a (k_mem k) (l_kernel_pd lk) va;
  sd_walk a : settled k R a ∨ in_page (kernel_stack_top (kpcb k' p) - PAGE_SIZE) a →
    untouched k' p (k_frames k') (k_mem k') a;
  sd_settled a : settled k R a → load8 (k_mem k') a = load8 (k_mem k) a;
  sd_fds : fds (kpcb k' p) = replicate 8 (FdEntry 0 0 0);
  sd_new : page_addr (cr3 (kpcb k' p)) ∧ in_use (k_frames k) (kernel_stack_top (kpcb k' p) - PAGE_SIZE) = false;
  sd_poised : poised k' p
}.

Section ready.
Variables (k k1 : kernel F) (R : Z → Prop) (live : gset Z) (l z : list Z) (p pd lo hi : Z).
Hypothesis Hk : kernel_inv lk k R live l z.
Hypothesis Hn : newborn k k1 R live l z p.
Hypothesis Hpd : cr3 (kpcb k1 p) = pd.
Hypothesis Hhi : stack_frame_hi (kpcb k1 p) = hi.
Hypothesis Htook : took (k_frames k) (k_frames k1) ({[hi]} ∪ ({[lo]} ∪ {[pd]})).
Hypothesis Hag : agree_on (kept R (k_frames k)) (k_mem k) (k_mem k1).
Hypothesis He : ∀ i, Paging.is_index i → Paging.entry (k_mem k1) pd i =
  if i <? Paging.IDENTITY_PT_COUNT then Paging.entry (k_mem k) (l_kernel_pd lk) i else 0.

(** The tables of the new directory are tables of the kernel. *)
Lemma newborn_table (i : Z) : Paging.is_index i → Paging.present (k_mem k1) pd i = true → kernel_page lk (k_mem k) (Paging.table (k_mem k1) pd i).
Proof using He.
  intros Hi Hp. unfold Paging.present, Paging.table in *. rewrite He in * by done. right. exists i.
  destruct (i <? Paging.IDENTITY_PT_COUNT); [done | by rewrite Z.bits_0 in Hp].
Qed.

Lemma newborn_untouched (a : Z) : settled k R a → untouched k1 p (k_frames k1) (k_mem k1) a.
Proof using Hpd Htook He.
  pose proof Htook as (_ & HX & _ & Hu). intros [[_ Hf] Ha]. unfold untouched. rewrite Hpd. split_and!.
  - intros g Hg Hug. apply Hf; [done |]. rewrite Hu in Hug by done. by apply orb_false_iff in Hug as [_ ?].
  - destruct (HX pd) as [H1 H2]; [apply elem_of_union_r, elem_of_union_r, elem_of_singleton; reflexivity |]. by apply Hf.
  - intros i Hi Hp. by apply Ha, newborn_table.
Qed.

Lemma newborn_stack (a : Z) : in_page hi a → untouched k1 p (k_frames k1) (k_mem k1) a.
Proof using All.
  intros Ha. pose proof (nb_building _ _ _ _ _ _ _ Hn) as Hb. pose proof (bg_inv _ _ _ _ _ _ _ _ _ Hb) as Hk1. rewrite within_same in Hk1.
  destruct (bg_proc _ _ _ _ _ _ _ _ _ Hb) as [Hp Hi].
  destruct (ki_held _ _ _ _ _ _ Hk1 p hi Hp Hi) as (Hh & Huse & Hnk & _); [right; left; by symmetry |].
  destruct (ki_stack _ _ _ _ _ _ Hk1 p Hp Hi) as [_ Hst]. pose proof (Paging.page_addr_base _ Hh) as Hhb.
  unfold untouched. rewrite Hpd. split_and!.
  - intros g Hg Hug Hga. assert (g = hi) as -> by (apply (page_unique g hi a); [by apply Paging.page_addr_base | done..]). by rewrite Huse in Hug.
  - intros H. apply (Hst hi); [right; by symmetry |]. left. change (hi = cr3 (kpcb k1 p)). rewrite Hpd. symmetry.
    apply (page_unique pd hi a); [| done..]. rewrite <- Hpd. apply (bg_space _ _ _ _ _ _ _ _ _ Hb).
  - intros i Hix Hpr H. apply Hnk. apply (kernel_page_kept lk k l z (k_mem k1)); [by apply (mapping_kept lk k R live l z) |].
    assert (Paging.table (k_mem k1) pd i = hi) as <-; [| by apply newborn_table].
    apply (page_unique _ hi a); [| done..]. rewrite <- Hpd.
    apply (Paging.so_table (bg_space _ _ _ _ _ _ _ _ _ Hb) i Hix). by rewrite Hpd.
Qed.

Lemma newborn_writable : Elf.writable_dir (l_kernel_pd lk) (k_mem k) → Elf.writable_dir pd (k_mem k1).
Proof using He.
  intros Hw i Hi. unfold Paging.present. rewrite He by done.
  destruct (i <? Paging.IDENTITY_PT_COUNT); [by apply Hw | by rewrite Z.bits_0].
Qed.

(** The image is loaded into the new address space and the stack is mapped. *)
Record image_given (data : Z) (fs1 : F) (m1 : memory) (fs2 : F) (m2 : memory) : Prop := {
  ig_early i : 0 <= i < Elf.eh_phnum (k_mem k) data → Elf.is_load (k_mem k) (Elf.elf32_get_phdr (k_mem k) data i) = true →
    Elf.segment_loaded pd (λ f, in_use (k_frames k1) f = false) (k_mem k) data (Elf.elf32_get_phdr (k_mem k) data i) fs1 m1;
  ig_segments i : 0 <= i < Elf.eh_phnum (k_mem k) data → Elf.is_load (k_mem k) (Elf.elf32_get_phdr (k_mem k) data i) = true →
    Elf.segment_loaded pd (λ f, in_use (k_frames k1) f = false) (k_mem k) data (Elf.elf32_get_phdr (k_mem k) data i) fs2 m2;
  ig_free b : page_addr b → in_use (k_frames k1) b = true → in_use fs1 b = true;
  ig_stack j : 0 <= j < USER_STACK_PAGES → ∃ content,
    Elf.page_loaded pd (λ f, in_use fs1 f = false) fs2 m2 (USER_STACK_BASE + j * PAGE_SIZE) content;
  ig_write va : stack_range va → ∃ pa, Paging.translate (Paging.Access true true) m2 pd va = Some pa;
  ig_late a va x : is_u32 va → ~ stack_range va → Paging.translate a m1 pd va = Some x → Paging.translate a m2 pd va = Some x;
  ig_mono a va x : is_u32 va → ~ image_range (k_mem k) data va → ~ stack_range va →
    Paging.translate a (k_mem k1) pd va = Some x → Paging.translate a m2 pd va = Some x
}.

Lemma ready_loads (data ilo ihi : Z) :
  spawn_ready k R data ilo ihi → ilo < ihi →
  ∃ fs1 m1 fs2 m2,
    Elf.elf32_load data pd (k_frames k1) (k_mem k1) = Done (true, fs1, m1) ∧
    map_user_stack (Z.to_nat USER_STACK_PAGES) 0 p USER_STACK_BASE (within k1 fs1 m1) =
      Done (true, USER_STACK_BASE + USER_STACK_PAGES * PAGE_SIZE, within k1 fs2 m2) ∧ image_given data fs1 m1 fs2 m2.
Proof using All.
  intros Hr Hlt. pose proof Htook as (_ & _ & Hfree & _).
  assert (Z.of_nat (size ({[hi]} ∪ ({[lo]} ∪ {[pd]}) : gset Z)) <= 3) as Hsz.
  { pose proof (size_union_alt ({[hi]} : gset Z) ({[lo]} ∪ {[pd]})). pose proof (size_union_alt ({[lo]} : gset Z) {[pd]}).
    pose proof (subseteq_size (({[lo]} ∪ {[pd]}) ∖ {[hi]}) ({[lo]} ∪ {[pd]} : gset Z) ltac:(set_solver)).
    pose proof (subseteq_size ({[pd]} ∖ {[lo]}) ({[pd]} : gset Z) ltac:(set_solver)).
    rewrite (size_singleton hi), (size_singleton lo), (size_singleton pd) in *. lia. }
  assert (agree_on (λ a, ilo <= a < ihi) (k_mem k) (k_mem k1)) as Hia.
  { eapply agree_on_weaken; [exact Hag |]. intros a Ha. by apply (sr_bytes _ _ _ _ _ Hr). }
  pose proof (sr_image _ _ _ _ _ Hr) as Him. pose proof (Elf.image_ok_same _ _ _ _ data Hia Him) as Him1.
  destruct (Elf.image_same _ _ _ _ data Hia Him) as [En Es].
  pose proof (load16_range (k_mem k) (data + 44)) as Hr16. fold (Elf.eh_phnum (k_mem k) data) in Hr16.
  pose proof (building_loader k1 R ({[p]} ∪ live) (l ++ [p]) z p ilo ihi (k_frames k1) (k_mem k1) (nb_building _ _ _ _ _ _ _ Hn) Hlt) as Hl.
  rewrite Hpd in Hl. specialize (Hl (λ a Ha, newborn_untouched a (sr_bytes _ _ _ _ _ Hr a Ha))).
  pose proof (sr_frames _ _ _ _ _ Hr) as Hfr. unfold USER_STACK_PAGES in Hfr.
  rewrite <- (Elf.image_pages_same ilo ihi (k_mem k) (k_mem k1) data) in Hfr by (done || lia).
  pose proof (Elf.image_pages_nonneg ilo ihi (k_mem k1) data (Z.to_nat (Elf.eh_phnum (k_mem k) data)) 0 Him1 ltac:(lia) ltac:(rewrite En; lia)) as Hnn.
  destruct (Elf.load_segments_spec ilo ihi pd (λ f, in_use (k_frames k1) f = false) (Z.to_nat (Elf.eh_phnum (k_mem k1) data)) 0 (k_frames k1) (k_mem k1) data Hl Him1)
    as [(fs1 & m1 & E1 & L1 & L2 & L3 & _ & Lm & L5 & L6)|[_ Hz]]; [lia | rewrite En; lia | | rewrite En in Hz; lia].
  rewrite En in L6, L3, Lm.
  pose proof (L5 (newborn_writable (sr_tables _ _ _ _ _ Hr))) as Hw.
  assert (Elf.loader_inv ilo ihi pd (λ f, in_use fs1 f = false) fs1 m1) as L1' by (destruct L1; split; done).
  rewrite <- Hpd in L1, L1', Hw.
  destruct (map_user_stack_correct k1 p ilo ihi _ (Z.to_nat USER_STACK_PAGES) 0 fs1 m1 L1 Hw) as (fs2 & m2 & E2 & [_ S2 S3 _ S5]);
    [unfold USER_STACK_PAGES; lia | done | done |].
  destruct (map_user_stack_correct k1 p ilo ihi _ (Z.to_nat USER_STACK_PAGES) 0 fs1 m1 L1' Hw) as (fs3 & m3 & E3 & [_ _ _ S4 _]);
    [unfold USER_STACK_PAGES; lia | done | done |].
  rewrite E2 in E3. injection E3 as <- <-. rewrite Hpd in *.
  exists fs1, m1, fs2, m2. split_and!; [exact E1 | exact E2 |].
  assert (∀ i, 0 <= i < Elf.eh_phnum (k_mem k) data → Elf.is_load (k_mem k) (Elf.elf32_get_phdr (k_mem k) data i) = true →
    Elf.segment_loaded pd (λ f, in_use (k_frames k1) f = false) (k_mem k) data (Elf.elf32_get_phdr (k_mem k) data i) fs1 m1) as Hseg.
  { intros i Hi Hli q Hq Hqm. destruct (Es i Hi) as (Q1 & Q2 & Q3 & Q4).
    destruct (Elf.im_segment _ _ _ _ Him i Hi Hli) as [Hsg _]. destruct (Elf.image_fields _ _ _ _ data _ Hia Hsg) as (_ & _ & _ & Eb).
    eapply Elf.page_loaded_ext; [exact Eb |].
    specialize (L3 i ltac:(lia)). rewrite Q1, Q2 in L3. specialize (L3 Hli). apply L3; [by rewrite Q3, Q4 | done]. }
  assert (∀ va, is_u32 va → ~ image_range (k_mem k) data va → ∀ j, 0 <= j < 0 + Z.of_nat (Z.to_nat (Elf.eh_phnum (k_mem k) data)) →
    Elf.is_load (k_mem k1) (Elf.elf32_get_phdr (k_mem k1) data j) = true →
    va < Elf.seg_start (k_mem k1) (Elf.elf32_get_phdr (k_mem k1) data j) ∨ Elf.seg_end (k_mem k1) (Elf.elf32_get_phdr (k_mem k1) data j) <= va) as Hout.
  { intros va Hva Hni j Hj. destruct (Es j ltac:(lia)) as (-> & -> & -> & ->). intros Hlj.
    destruct (decide (Elf.seg_start (k_mem k) (Elf.elf32_get_phdr (k_mem k) data j) <= va < Elf.seg_end (k_mem k) (Elf.elf32_get_phdr (k_mem k) data j))); [| lia].
    destruct Hni. exists j. split; [lia | done]. }
  split; unfold stack_range, USER_STACK_PAGES, PAGE_SIZE, USER_STACK_BASE in *.
  - exact Hseg.
  - intros i Hi Hli q Hq Hqm. apply S2.
    + destruct (Elf.seg_range (k_mem k) (Elf.elf32_get_phdr (k_mem k) data i)) as (_ & _ & R3 & R4 & _). unfold is_u32, PAGE_SIZE in *. lia.
    + done.
    + assert (~ stack_range q) as H by (apply (sr_apart _ _ _ _ _ Hr); by exists i). unfold stack_range, USER_STACK_PAGES, PAGE_SIZE, USER_STACK_BASE in H. simpl. lia.
    + by apply Hseg.
  - intros b Hb Hub. destruct (in_use fs1 b) eqn:E; [done |]. pose proof (Elf.li_fresh _ _ _ _ _ _ L1 b Hb E) as H. simpl in H. congruence.
  - intros j Hj. apply S4. simpl. lia.
  - intros va Hva. apply S5. simpl. lia.
  - intros a va x Hva Hns Ht. apply S3; [done | simpl; lia | done].
  - intros a va x Hva Hni Hns Ht. apply S3; [done | simpl; lia |]. apply Lm; [done | by apply Hout | done].
Qed.

(** A byte of a loaded segment. *)
Lemma segment_page (data i a : Z) (fs : F) (m : memory) :
  in_segment (k_mem k) data i a → (∀ i, 0 <= i < Elf.eh_phnum (k_mem k) data →
    Elf.is_load (k_mem k) (Elf.elf32_get_phdr (k_mem k) data i) = true →
    Elf.segment_loaded pd (λ f, in_use (k_frames k1) f = false) (k_mem k) data (Elf.elf32_get_phdr (k_mem k) data i) fs m) →
  image_range (k_mem k) data a ∧ is_u32 a ∧
  ∃ f, page_addr f ∧ in_use (k_frames k1) f = false ∧ in_use fs f = true ∧
    Paging.translate (Paging.Access true false) m pd a = Some (f + a mod 4096) ∧
    load8 m (f + a mod 4096) = Elf.segment_byte (k_mem k) data (Elf.elf32_get_phdr (k_mem k) data i) a.
Proof using Type.
  intros (Hi & Hl & Hnw & Ha) Hs. set (ph := Elf.elf32_get_phdr (k_mem k) data i) in *.
  destruct (Elf.seg_range (k_mem k) ph) as (R1 & R2 & R3 & R4 & R5). destruct (R5 Hnw) as [R6 R7]. unfold PAGE_SIZE in *.
  assert (is_u32 a) as Hau by (unfold is_u32; lia). split; [| split; [done |]].
  { exists i. split; [done |]. fold ph. split; [done | lia]. }
  destruct (Hs i Hi Hl (a - a mod 4096)) as (f & [Hf Hff] & Hu & _ & _ & Ht & Hb); [fold ph; zlia | unfold PAGE_SIZE; zlia |].
  exists f. split_and!; [done | done | done | |].
  - apply Ht; [done |]. unfold Paging.same_page.
    destruct (Paging.index_div a) as [-> ->], (Paging.index_div (a - a mod 4096)) as [-> ->]. zlia.
  - rewrite Hb by (unfold PAGE_SIZE; zlia). fold ph. f_equal. lia.
Qed.

(** Frames that were free when the process existed were free before and are not its
    stack. *)
Lemma newborn_free (f : Z) : page_addr f → in_use (k_frames k1) f = false → in_use (k_frames k) f = false ∧ f ≠ hi.
Proof using Htook.
  intros Hf Hu. split.
  - destruct (in_use (k_frames k) f) eqn:E; [| done]. by rewrite (took_mono _ _ _ f Htook Hf E) in Hu.
  - intros ->. rewrite (took_in_use _ _ _ hi Htook) in Hu; [done |]. apply elem_of_union_l, elem_of_singleton. reflexivity.
Qed.

(** The translation of the new directory before the image is loaded. *)
Lemma newborn_translate (a : Paging.access) (va : Z) :
  is_u32 va → Paging.pd_index va < Paging.IDENTITY_PT_COUNT →
  Paging.translate a (k_mem k1) pd va = Paging.translate a (k_mem k) (l_kernel_pd lk) va.
Proof using Hk Hag He.
  intros Hva Hlt. rewrite <- (kernel_translate_kept k R live l z (k_mem k1)) by assumption.
  pose proof (Paging.pd_index_range va Hva) as Hi. unfold Paging.translate. rewrite He by exact Hi.
  destruct (Z.ltb_spec (Paging.pd_index va) Paging.IDENTITY_PT_COUNT); [| lia].
  rewrite (kernel_pde_kept lk k l z (k_mem k1) (mapping_kept lk k R live l z (k_mem k1) Hk Hag) _ Hi). reflexivity.
Qed.

Lemma translate_read (m : memory) (va x : Z) :
  Paging.translate (Paging.Access true true) m pd va = Some x → Paging.translate (Paging.Access true false) m pd va = Some x.
Proof using Type.
  assert (∀ e, Paging.permits (Paging.Access true true) e = true → Paging.permits (Paging.Access true false) e = true) as Hp.
  { intros e. unfold Paging.permits. cbn. by intros [-> _]%andb_true_iff. }
  unfold Paging.translate. destruct (Paging.permits (Paging.Access true true) (Paging.entry m pd _)) eqn:E1; [| done].
  rewrite (Hp _ E1). destruct (Paging.permits (Paging.Access true true) (Paging.entry m _ (Paging.pt_index va))) eqn:E2; [| done].
  by rewrite (Hp _ E2).
Qed.

(** A page of the stack. *)
Lemma given_stack (data ilo ihi : Z) (fs1 fs2 : F) (m1 m2 : memory) (j : Z) :
  spawn_ready k R data ilo ihi → image_given data fs1 m1 fs2 m2 → 0 <= j < USER_STACK_PAGES →
  ∃ f, page_addr f ∧ in_use (k_frames k) f = false ∧ f ≠ hi ∧ f ≠ pd ∧
    (∀ i, Paging.is_index i → Paging.present m2 pd i = true → Paging.table m2 pd i ≠ f) ∧
    ∀ va, is_u32 va → Paging.same_page va (USER_STACK_BASE + j * PAGE_SIZE) →
      Paging.translate (Paging.Access true true) m2 pd va = Some (f + va mod PAGE_SIZE) ∧
      ∀ i a, in_segment (k_mem k) data i a → Paging.translate (Paging.Access true false) m2 pd a ≠ Some (f + va mod PAGE_SIZE).
Proof using Htook.
  intros Hr [G1 G2 G3 G4 G5 G6 _] Hj. destruct (G4 j Hj) as (content & f & [Hf Hff] & _ & Hne & Htb & Htr & _).
  destruct (newborn_free f Hf) as [Hfk Hfh]. { destruct (in_use (k_frames k1) f) eqn:E; [| done]. by rewrite (G3 f Hf E) in Hff. }
  exists f. split_and!; try assumption. intros va Hva Hsp. split.
  - assert (stack_range va) as Hrg.
    { apply Elf.same_page_range in Hsp; [| done | |]; unfold stack_range, is_u32, USER_STACK_PAGES, USER_STACK_BASE, PAGE_SIZE in *; [lia | lia | zlia]. }
    destruct (G5 va Hrg) as [pa Hpa]. pose proof (translate_read _ _ _ Hpa) as Hrd. rewrite (Htr va Hva Hsp) in Hrd. by injection Hrd as <-.
  - intros i a Ha Heq. destruct (segment_page data i a fs1 m1 Ha G1) as (Hir & Hau & g & Hg & _ & Hgu & Hgt & _).
    apply (G6 _ _ _ Hau (sr_apart _ _ _ _ _ Hr a Hir)) in Hgt. rewrite Hgt in Heq. injection Heq as Heq.
    assert (g = f) as ->; [| congruence]. destruct Hf as [_ Hf], Hg as [_ Hg]. unfold PAGE_SIZE in *. zlia.
Qed.

Lemma ready_spawned (data ilo ihi entry : Z) :
  sched_inv lk (k_procs k) l z → spawn_ready k R data ilo ihi → Elf.elf32_validate (k_mem k) data = Some entry →
  esp (kpcb k1 p) = hi + PAGE_SIZE - 40 → kernel_stack_top (kpcb k1 p) = hi + PAGE_SIZE → fds (kpcb k1 p) = replicate 8 (FdEntry 0 0 0) →
  Context.stack_at (k_mem k1) (hi + PAGE_SIZE - 40) [0; 0; 0; 0; 0; 0; 0; 0x202; l_user_mode_trampoline lk; l_process_exit lk] →
  ∃ k', (let! (ok, fs, m) := Elf.elf32_load data (cr3 (kpcb k1 p)) (k_frames k1) (k_mem k1) in
     let k := with_mem m (with_frames fs k1) in
     if negb ok then fail_zombie p k
     else
       let! (ok, stack_top, k) := map_user_stack (Z.to_nat USER_STACK_PAGES) 0 p USER_STACK_BASE k in
       if negb ok then fail_zombie p k
       else Done (p, finished p entry stack_top k)) = Done (p, k') ∧
    spawn_post k R live l z data p k' ({[p]} ∪ live) (l ++ [p]) z ∧ spawned k R data p k'.
Proof using All.
  intros Hs Hr Hv Hesp Htop Hfds Hst. pose proof (Elf.im_header _ _ _ _ (sr_image _ _ _ _ _ Hr)) as Hlt.
  destruct (ready_loads data ilo ihi Hr ltac:(lia)) as (fs1 & m1 & fs2 & m2 & E1 & E2 & Hg).
  assert (agree_on (λ a, ilo <= a < ihi) (k_mem k) (k_mem k1)) as Hia.
  { eapply agree_on_weaken; [exact Hag |]. intros a Ha. by apply (sr_bytes _ _ _ _ _ Hr). }
  pose proof (elf32_load_image lk k1 R ({[p]} ∪ live) (l ++ [p]) z p data ilo ihi _ _ (nb_building _ _ _ _ _ _ _ Hn)
    (Elf.image_ok_same _ _ _ _ data Hia (sr_image _ _ _ _ _ Hr)) (λ a Ha, newborn_untouched a (sr_bytes _ _ _ _ _ Hr a Ha))) as X1.
  rewrite Hpd, E1 in X1. cbn [ensures fst snd] in X1.
  pose proof (map_user_stack_extends lk k1 R ({[p]} ∪ live) (l ++ [p]) z p (Z.to_nat USER_STACK_PAGES) 0 fs1 m1
    (ex_building _ _ _ _ _ _ _ _ _ _ _ _ X1) ltac:(done) ltac:(done)) as X2.
  change (USER_STACK_BASE + 0 * PAGE_SIZE) with USER_STACK_BASE in X2. rewrite E2 in X2. destruct X2 as (fs3 & m3 & E3 & X2 & _). cbn [snd] in E3. injection E3 as <- <-.
  assert (∀ a, untouched k1 p (k_frames k1) (k_mem k1) a → untouched k1 p fs2 m2 a ∧ load8 m2 a = load8 (k_mem k1) a) as Hun.
  { intros a Ha. pose proof (ex_untouched _ _ _ _ _ _ _ _ _ _ _ _ X1 a Ha) as Ha1. split; [by apply (ex_untouched _ _ _ _ _ _ _ _ _ _ _ _ X2) |].
    rewrite (ex_mem _ _ _ _ _ _ _ _ _ _ _ _ X2 a Ha1). by apply (ex_mem _ _ _ _ _ _ _ _ _ _ _ _ X1). }
  exists (finished p entry (USER_STACK_BASE + USER_STACK_PAGES * PAGE_SIZE) (within k1 fs2 m2)). split_and!.
  - rewrite Hpd, E1. cbn [obind negb]. exact (f_equal (λ o, let! (ok, top, k) := o in _) E2).
  - by eapply spawn_finishes.
  - set (k' := finished p entry _ _).
    assert (kpcb k' p = set_user_stack_top (USER_STACK_BASE + USER_STACK_PAGES * PAGE_SIZE) (set_user_entry entry (kpcb k1 p))) as Hp.
    { unfold k', finished, kedit, kpcb. cbn [k_procs with_procs]. by rewrite !pcb_edit_eq. }
    assert (cr3 (kpcb k' p) = pd ∧ esp (kpcb k' p) = hi + PAGE_SIZE - 40 ∧ kernel_stack_top (kpcb k' p) = hi + PAGE_SIZE ∧
      fds (kpcb k' p) = replicate 8 (FdEntry 0 0 0)) as (Q1 & Q2 & Q3 & Q4).
    { rewrite Hp, <- Hpd, <- Hesp, <- Htop, <- Hfds. by destruct (kpcb k1 p). }
    assert (kernel_stack_top (kpcb k' p) - PAGE_SIZE = hi) as Q5 by (rewrite Q3; lia).
    split; rewrite ?Q1, ?Q5; change (k_mem k') with m2.
    + intros i a Ha. destruct (segment_page data i a fs2 m2 Ha (ig_segments _ _ _ _ _ Hg)) as (_ & _ & f & Hf & Hfu & _ & Ht & Hb).
      exists (f + a mod 4096). split_and!; [done | done |]. destruct (newborn_free f Hf Hfu) as [H1 H2]. exists f. rewrite Q5.
      split_and!; [done | done | done | unfold in_page, PAGE_SIZE; zlia].
    + intros j Hj. destruct (given_stack data ilo ihi fs1 fs2 m1 m2 j Hr Hg Hj) as (f & F1 & F2 & F3 & F4 & F5 & F6).
      exists f. split_and!; try done. exists f. rewrite Q5. split_and!; [done | done | done | unfold in_page, PAGE_SIZE; lia].
    + intros a va x Hva Hlow Hni Hns Ht. apply (ig_mono _ _ _ _ _ Hg); [done | done | done |]. by rewrite newborn_translate.
    + intros a va Hva Hout. rewrite <- (kernel_translate_kept k R live l z (k_mem k1)) by done.
      rewrite (ex_kernel _ _ _ _ _ _ _ _ _ _ _ _ X2) by (done || (intros w Hw; apply Hout; by right)).
      apply (ex_kernel _ _ _ _ _ _ _ _ _ _ _ _ X1); [done |]. intros w (i & Hi & Hw). apply Hout. left.
      destruct (Elf.image_same _ _ _ _ data Hia (sr_image _ _ _ _ _ Hr)) as [En Es]. rewrite En in Hi. exists i. split; [done |].
      destruct (Es i Hi) as (R1 & R2 & R3 & R4). cbv zeta in *. by rewrite R1, R2, R3, R4 in Hw.
    + intros a Ha. assert (untouched k1 p fs2 m2 a) as Hu by (apply Hun; destruct Ha as [Ha|Ha]; [by apply newborn_untouched | by apply newborn_stack]).
      unfold untouched in Hu |- *. rewrite Q1. rewrite Hpd in Hu. exact Hu.
    + intros a Ha. rewrite (proj2 (Hun a (newborn_untouched a Ha))). apply Hag, Ha.
    + exact Q4.
    + destruct Htook as (_ & HX & _). split; apply HX; set_solver.
    + unfold poised. rewrite Q2, Q3. change (k_mem k') with m2.
      split_and!; [replace (hi + PAGE_SIZE - PAGE_SIZE) with hi by lia; destruct Htook as (_ & HX & _); apply HX; set_solver | done |].
      eapply Context.stack_at_agree; [| exact Hst]. intros a Ha. apply Hun, newborn_stack. unfold in_page, PAGE_SIZE in *. simpl in Ha. lia.
Qed.

End ready.

Lemma process_create_from_elf_ready (k : kernel F) (R : Z → Prop) (live : gset Z) (l z : list Z)
    (pname : list Z) (data prio lo hi entry : Z) :
  kernel_inv lk k R live l z → sched_inv lk (k_procs k) l z → is_u32 (l_user_mode_trampoline lk) → is_u32 (l_process_exit lk) →
  0 <= next_pid (k_procs k) < 2 ^ 32 - 1 → Elf.elf32_validate (k_mem k) data = Some entry → spawn_ready k R data lo hi →
  ∃ p k', process_create_from_elf lk pname data prio k = Done (p, k') ∧ p ≠ 0 ∧
    spawn_post k R live l z data p k' ({[p]} ∪ live) (l ++ [p]) z ∧ spawned k R data p k'.
Proof.
  intros Hk Hs Ht Hx Hpid Hv Hr. unfold process_create_from_elf. rewrite Hv.
  destruct (process_create_spec lk k R live l z pname (l_user_mode_trampoline lk) prio Hk Ht Hx Hpid)
    as (r & k1 & -> & (p & Hp & Ho & Hrp) & Hag & [(-> & _ & _ & Hwhy)|(Hrl & Hk1 & _ & pd & lo1 & hi1 & Htk & Hpcb & Hst & He)]).
  { exfalso. destruct Hwhy as [H|[H|H]].
    - by apply (sr_heap _ _ _ _ _ Hr).
    - pose proof (sr_frames _ _ _ _ _ Hr) as Hf. pose proof (load16_range (k_mem k) (data + 44)) as Hr16. fold (Elf.eh_phnum (k_mem k) data) in Hr16.
      pose proof (Elf.image_pages_nonneg lo hi (k_mem k) data (Z.to_nat (Elf.eh_phnum (k_mem k) data)) 0 (sr_image _ _ _ _ _ Hr) ltac:(lia) ltac:(lia)).
      unfold USER_STACK_PAGES in Hf. lia.
    - by apply H, (sr_slot _ _ _ _ _ Hr). }
  destruct (create_newborn k k1 R live l z p r pd lo1 hi1 pname prio Hk (proj1 (si_idle _ _ _ _ Hs)) Hp Hrp Ho Hag Hk1 Hrl Hpcb He)
    as (-> & Hpd & Hn). cbn [obind]. destruct (Z.eqb_spec p 0); [by destruct (nb_nonzero _ _ _ _ _ _ _ Hn) |].
  assert (esp (kpcb k1 p) = hi1 + PAGE_SIZE - 40 ∧ kernel_stack_top (kpcb k1 p) = hi1 + PAGE_SIZE ∧ stack_frame_hi (kpcb k1 p) = hi1 ∧
    fds (kpcb k1 p) = replicate 8 (FdEntry 0 0 0)) as (Q1 & Q2 & Q3 & Q4).
  { destruct (kpcb k1 p). simpl in Hpcb. injection Hpcb as -> -> -> -> -> -> -> -> -> -> -> -> -> -> -> ->. done. }
  destruct (ready_spawned k k1 R live l z p pd lo1 hi1 Hk Hn Hpd Q3 Htk Hag He data lo hi entry Hs Hr Hv Q1 Q2 Q4 Hst) as (k' & E & Hpost & Hsp).
  exists p, k'. split_and!; [exact E | done | done | done].
Qed.

(** ** Properties *)



End spawn.

(** ** A concrete image *)

#[local] Existing Instance Pmm.pmm_frames.

(** Freeing [n] consecutive frames. *)
Fixpoint free_run (n : nat) (a : Z) (fs : Pmm.pmm) : Pmm.pmm :=
  match n with
  | O => fs
  | S n' => free_frame a (free_run n' (a + PAGE_SIZE) fs)
  end.

Lemma free_run_spec (n : nat) (a : Z) (fs : Pmm.pmm) :
  frames_ok fs → 0 < a → a mod PAGE_SIZE = 0 → a + Z.of_nat n * PAGE_SIZE <= MAX_FRAMES * PAGE_SIZE →
  (∀ b, a <= b < a + Z.of_nat n * PAGE_SIZE → page_addr b → in_use fs b = true) →
  frames_ok (free_run n a fs) ∧ frames_free (free_run n a fs) = frames_free fs + Z.of_nat n ∧
  ∀ b, page_addr b → in_use (free_run n a fs) b = negb ((a <=? b) && (b <? a + Z.of_nat n * PAGE_SIZE)) && in_use fs b.
Proof.
  unfold PAGE_SIZE in *. revert a. induction n as [|n IH]; intros a Hok H0 Hm Hle Hu; cbn [free_run].
  { split_and!; [done | lia |]. intros b _. destruct (Z.leb_spec a b), (Z.ltb_spec b (a + Z.of_nat 0 * 4096)); done || lia. }
  destruct (IH (a + PAGE_SIZE)) as (I1 & I2 & I3); unfold PAGE_SIZE in *; [done | lia | zlia | lia | intros; apply Hu; [lia | done] |].
  assert (page_addr a) as Ha by (unfold page_addr, PAGE_SIZE; lia).
  destruct (free_frame_spec (free_run n (a + 4096) fs) a I1 Ha) as (F1 & F2 & F3).
  { rewrite I3 by done. rewrite Hu by (done || lia). by destruct (Z.leb_spec (a + 4096) a); [lia |]. }
  split_and!; [done | lia |]. intros b Hb. rewrite F3, I3 by done. rewrite andb_assoc. f_equal.
  assert (b mod 4096 = 0) as Hbm by apply Hb.
  destruct (Z.eqb_spec b a), (Z.leb_spec (a + 4096) b), (Z.ltb_spec b (a + 4096 + Z.of_nat n * 4096)), (Z.leb_spec a b),
    (Z.ltb_spec b (a + Z.of_nat (S n) * 4096)); done || zlia.
Qed.

(** The embedded program at 0x8000, without its code: one segment at 4 MiB with
    its literals, 0x140 file bytes and 0x148 memory bytes.  The kernel maps the page
    for itself, by the page table at 0x11000. *)
Definition demo_elf : memory :=
  foldr (λ '(a, w) m, store32 m a w)
    (Userland.put 0x8054 Userland.HELLO (Userland.put 0x8094 Userland.PATH (Userland.put 0x80D4 Userland.OK
      (Userland.put 0x8114 Userland.BAD (Userland.put 0x8154 Userland.FAIL ∅)))))
    [(0x8000, Elf.ELF_MAGIC); (0x8004, 0x0101); (0x8010, 0x30002); (0x8018, 0x400130); (0x801C, 52);
     (0x8028, 32 * 2 ^ 16); (0x802C, 1); (0x8034, 1); (0x8038, 84); (0x803C, 0x400000); (0x8044, 0x140); (0x8048, 0x148);
     (0x804C, 6); (0x10000, 0x11003); (0x11020, 0x8003)].
Definition demo_memory4 : memory := Kmalloc.write_page_block 0x100000 demo_elf.
Definition demo_frames4 : Pmm.pmm := free_run 14 0x23000 Pmm.demo_pmm.
Definition demo_kernel4 : kernel Pmm.pmm := with_mem demo_memory4 (with_frames demo_frames4 demo_kernel).

Lemma demo_frames4_spec :
  frames_ok demo_frames4 ∧ 14 <= frames_free demo_frames4 ∧
  ∀ b, page_addr b → b < 0x20000 ∨ 0x80000 <= b → in_use demo_frames4 b = in_use Pmm.demo_pmm b.
Proof.
  destruct (free_run_spec 14 0x23000 Pmm.demo_pmm Paging.demo_frames_ok) as (H1 & H2 & H3); unfold PAGE_SIZE, MAX_FRAMES in *; [done.. | |].
  - intros b Hb Hp. assert (∃ i, b = 0x23000 + Z.of_nat i * 4096 ∧ (i < 14)%nat) as (i & -> & Hi).
    { exists (Z.to_nat ((b - 0x23000) / 4096)). destruct Hp as [_ Hp]. unfold PAGE_SIZE in Hp. zlia. }
    do 14 (destruct i as [|i]; [vm_compute; reflexivity |]). lia.
  - split_and!; [exact H1 | pose proof (Pmm.free_count_bounds Pmm.demo_pmm); change (frames_free Pmm.demo_pmm) with (Pmm.free_count Pmm.demo_pmm) in H2;
      change (frames_free demo_frames4) with (frames_free (free_run 14 0x23000 Pmm.demo_pmm)); lia |].
    intros b Hb Hr. unfold demo_frames4. rewrite H3 by done. destruct (Z.leb_spec 0x23000 b), (Z.ltb_spec b (0x23000 + Z.of_nat 14 * 4096)); done || lia.
Qed.

Lemma demo_elf_ok : Elf.image_ok 0x8000 0x9000 demo_elf 0x8000.
Proof.
  assert (Elf.eh_phnum demo_elf 0x8000 = 1) as Hn by (vm_compute; done). split; rewrite ?Hn.
  - lia.
  - intros i Hi. replace i with 0 by lia. vm_compute. done.
  - intros i Hi _. replace i with 0 by lia. split; [split; vm_compute; done | vm_compute; done].
  - intros; lia.
Qed.

Lemma demo_memory4_agree : agree_outside 0x100000 0x100010 demo_elf demo_memory4.
Proof. apply (Kmalloc.write_page_block_spec 0x100000 demo_elf). Qed.

Lemma demo_memory4_present (i : Z) : Paging.is_index i → Paging.present demo_memory4 0x10000 i = true →
  i = 0 ∧ Paging.table demo_memory4 0x10000 i = 0x11000 ∧ Z.testbit (Paging.entry demo_memory4 0x10000 i) 1 = true.
Proof.
  assert (forallb (λ i, negb (Paging.present demo_memory4 0x10000 i)) (seqZ 1 1023) = true) as H by (vm_compute; reflexivity).
  rewrite forallb_forall in H. unfold Paging.is_index. intros Hi Hp. destruct (decide (i = 0)) as [->|Hne].
  - split; [reflexivity |]. split; vm_compute; reflexivity.
  - specialize (H i). rewrite Hp in H. discriminate H. apply list_elem_of_In, elem_of_seqZ. lia.
Qed.

Lemma demo_kernel4_inv : kernel_inv demo_link demo_kernel4 demo_region ∅ [0x9000] [].
Proof.
  destruct demo_frames4_spec as (H1 & _ & H3). apply (plain_kernel_inv demo_frames4 demo_memory4 H1).
  - rewrite H3 by (unfold page_addr, PAGE_SIZE, MAX_FRAMES; zlia). done.
  - rewrite H3 by (unfold page_addr, PAGE_SIZE, MAX_FRAMES; zlia). done.
  - rewrite H3 by (unfold page_addr, PAGE_SIZE, MAX_FRAMES; zlia). done.
  - exists [Kmalloc.demo_block]. split_and!.
    + apply (Kmalloc.pages_heap_inv Kmalloc.demo_heap demo_memory4 [0x100000]).
      * simpl. split; [done |]. exists 0. split; [apply (Kmalloc.write_page_block_spec 0x100000 demo_elf) | done].
      * apply Forall_singleton. unfold page_addr, PAGE_SIZE, MAX_FRAMES. zlia.
      * apply NoDup_singleton.
      * done.
    + destruct demo_heap_view as (bs & Hi & Hc & _). intros a Ha.
      rewrite Kmalloc.covers_cons, Kmalloc.covers_nil in Ha. unfold demo_region. destruct Ha as [H|[]].
      change (Kmalloc.b_addr Kmalloc.demo_block) with 0x100000 in H. change (Kmalloc.b_end Kmalloc.demo_block) with 0x101000 in H. lia.
    + intros p. rewrite Kmalloc.allocated_cons, Kmalloc.allocated_nil. split; [set_solver |]. intros [[H _]|[]]. done.
  - intros i Hi Hp. destruct (demo_memory4_present i Hi Hp) as (P1 & P2 & _). split; [exact P1 | exact P2].
Qed.

Lemma demo_kernel4_sched : sched_inv demo_link (k_procs demo_kernel4) [0x9000] [].
Proof.
  split; try done.
  - apply list_elem_of_here.
  - intros q ->%list_elem_of_singleton. done.
  - intros q []%not_elem_of_nil.
  - split; [apply list_elem_of_here | done].
Qed.

Lemma demo_image4 :
  Elf.image_ok 0x8000 0x9000 demo_memory4 0x8000 ∧ Elf.eh_phnum demo_memory4 0x8000 = 1 ∧
  Elf.seg_start demo_memory4 (Elf.elf32_get_phdr demo_memory4 0x8000 0) = 0x400000 ∧
  Elf.seg_end demo_memory4 (Elf.elf32_get_phdr demo_memory4 0x8000 0) = 0x401000 ∧
  Elf.image_pages demo_memory4 0x8000 1 0 = 1.
Proof.
  split; [| split_and!; vm_compute; reflexivity]. eapply Elf.image_ok_same; [| exact demo_elf_ok].
  eapply agree_on_weaken; [exact demo_memory4_agree |]. simpl. lia.
Qed.

Lemma demo_segment4 :
  let m := demo_memory4 in
  let ph := Elf.elf32_get_phdr m 0x8000 0 in
  Elf.elf32_validate m 0x8000 = Some 0x400130 ∧ Elf.is_load m ph = true ∧ Elf.ph_vaddr m ph = 0x400000 ∧ Elf.ph_memsz m ph = 0x148 ∧
  Elf.segment_byte m 0x8000 ph 0x400000 = 104.
Proof. split_and!; vm_compute; reflexivity. Qed.

Lemma demo_kernel4_eq : k_mem demo_kernel4 = demo_memory4 ∧ k_frames demo_kernel4 = demo_frames4 ∧ l_kernel_pd demo_link = 0x10000.
Proof. split_and!; reflexivity. Qed.

(** The page of the image and those up to 0x90000. *)
Lemma demo_settled (a : Z) : 0x8000 <= a < 0x9000 ∨ 0x8E000 <= a < 0x90000 → settled demo_link demo_kernel4 demo_region a.
Proof.
  intros Ha. destruct demo_frames4_spec as (_ & _ & H3).
  assert (∀ f, f = 0x8000 ∨ f = 0x8E000 ∨ f = 0x8F000 → in_use Pmm.demo_pmm f = true) as Hu
    by (intros f [->|[->| ->]]; vm_compute; reflexivity).
  destruct demo_kernel4_eq as (E1 & E2 & E3). unfold settled, kept, kernel_page. rewrite E1, E2, E3. split; [split; [unfold demo_region; lia |] |].
  - intros f Hf Huf Hfa.
    assert (f = 0x8000 ∨ f = 0x8E000 ∨ f = 0x8F000) as Hc by (pose proof (proj2 Hf); unfold in_page, PAGE_SIZE in *; zlia).
    rewrite H3, (Hu f Hc) in Huf; [discriminate Huf | exact Hf | lia].
  - intros b [->|(i & Hi & Hp & ->)]; [unfold in_page, PAGE_SIZE; lia |].
    destruct (demo_memory4_present i Hi Hp) as (_ & -> & _). unfold in_page, PAGE_SIZE. lia.
Qed.

Lemma demo_kernel4_alloc (m : memory) : Kmalloc.kmalloc sizeof_process Kmalloc.demo_heap demo_memory4 ≠ Done (0, m).
Proof.
  intros E. assert (match Kmalloc.kmalloc sizeof_process Kmalloc.demo_heap demo_memory4 with Done (p, _) => p =? 0 | _ => true end = false) as Hp
    by (vm_compute; reflexivity).
  rewrite E in Hp. discriminate Hp.
Qed.

Lemma demo_kernel4_ready : spawn_ready demo_link demo_kernel4 demo_region 0x8000 0x8000 0x9000.
Proof.
  destruct demo_image4 as (H1 & H2 & H3 & H3' & H4). destruct demo_frames4_spec as (_ & H5 & _). split.
  - exact H1.
  - intros a Ha. apply demo_settled. by left.
  - intros va (i & Hi & Hr). change (Elf.eh_phnum (k_mem demo_kernel4) 0x8000) with (Elf.eh_phnum demo_memory4 0x8000) in Hi. rewrite H2 in Hi.
    replace i with 0 in Hr by lia. destruct Hr as [_ Hr].
    change (Elf.seg_start demo_memory4 (Elf.elf32_get_phdr demo_memory4 0x8000 0) <= va < Elf.seg_end demo_memory4 (Elf.elf32_get_phdr demo_memory4 0x8000 0)) in Hr.
    rewrite H3, H3' in Hr. unfold stack_range, USER_STACK_BASE, USER_STACK_PAGES, PAGE_SIZE. lia.
  - intros i Hi. change (l_kernel_pd demo_link) with 0x10000. change (k_mem demo_kernel4) with demo_memory4.
    intros Hp. apply (demo_memory4_present i Hi Hp).
  - exact (demo_kernel4_alloc demo_memory4).
  - exact (list_elem_of_further _ _ _ (list_elem_of_here 0 (replicate 14 0))).
  - change (k_mem demo_kernel4) with demo_memory4. change (k_frames demo_kernel4) with demo_frames4.
    rewrite H2. change (Z.to_nat 1) with 1%nat. rewrite H4. unfold USER_STACK_PAGES. lia.
Qed.



End Spawn.
