(* ===== verification/Program.v ===== *)
(** * From an image to a program that runs

    The last part of [kernel/process.c]: the switch to a new process and
    [user_mode_trampoline], which takes it into ring 3; and the composition of the
    whole path of the embedded program, from its image through
    [process_create_from_elf], the scheduler's switch, the [iret] of
    [enter_usermode] and its system calls to [process_exit] ([test_elf_spec]). *)

From S2P Require Import Prelude Memory Frames Vga Pmm Kmalloc Paging Scheduler Context Elf Process Invariant Create Reap Dispatch.
From S2P Require Import Space Gdt Idt Ramfs Syscall Trap Spawn Userland.

Module Program.
Import Scheduler Process Invariant Create Dispatch Space Spawn.

(** Pages. *)
Lemma page_addr_aligned (a : Z) : page_addr a → a mod PAGE_SIZE = 0.
Proof. unfold page_addr. tauto. Qed.

Lemma pages_apart (a b : Z) : a mod PAGE_SIZE = 0 → b mod PAGE_SIZE = 0 → a ≠ b → a + PAGE_SIZE <= b ∨ b + PAGE_SIZE <= a.
Proof. unfold PAGE_SIZE. intros. zlia. Qed.

Lemma table_aligned (m : memory) (pd i : Z) : Paging.table m pd i mod PAGE_SIZE = 0.
Proof. apply Paging.masked_base, load32_range. Qed.

Lemma segment_u32 (m : memory) (data i a : Z) : in_segment m data i a → is_u32 a.
Proof.
  intros (_ & _ & Hnw & Ha). pose proof (load32_range m (Elf.elf32_get_phdr m data i + 8)) as H.
  fold (Elf.ph_vaddr m (Elf.elf32_get_phdr m data i)) in H. unfold is_u32 in *. lia.
Qed.

Lemma dispatched_pcb (n : Z) (st : process_state) (Q : process) :
  let Q' := set_ticks_remaining n (set_state st Q) in
  kernel_stack_top Q' = kernel_stack_top Q ∧ fds Q' = fds Q ∧ user_entry Q' = user_entry Q ∧ user_stack_top Q' = user_stack_top Q.
Proof. by destruct Q. Qed.

Lemma validate_u32 (m : memory) (data entry : Z) : Elf.elf32_validate m data = Some entry → is_u32 entry.
Proof.
  unfold Elf.elf32_validate. repeat (case_match; [done |]). intros [= <-]. apply load32_range.
Qed.

Lemma live_u32 (h : Kmalloc.heap) (m : memory) (R : Z → Prop) (live : gset Z) (p : Z) :
  Kmalloc.heap_view h m R live → p ∈ live → is_u32 p.
Proof.
  intros (bs & Hi & _ & Hl) (b & Hb & _ & <-)%Hl. pose proof (Kmalloc.hi_ok _ _ _ Hi) as Hok. rewrite Forall_forall in Hok.
  destruct (Hok b Hb) as (H1 & _ & H2 & _ & H3). unfold is_u32. Kmalloc.unfold_blocks. lia.
Qed.

Section program.
Context {F : Type} `{!FrameAlloc F}.
Variable lk : link.

(** ** The first dispatch *)

(** [user_mode_trampoline], entered on the kernel stack of the current process, up
    to the first instruction of ring 3: the arguments and the return address of the
    call are pushed, and [enter_usermode] runs. *)
Definition start_user (tbl : Gdt.gdt_state) (s : Gdt.segs) (ret : Z) (k : kernel F) : Trap.machine :=
  let '(k, (entry, user_stack)) := user_mode_trampoline k in
  let M := Trap.Machine (k_cpu k) s (k_mem k) in
  Trap.enter_usermode tbl (Trap.mpush ret (Trap.mpush entry (Trap.mpush user_stack M))).

Lemma switch_poised (k : kernel F) (p : Z) :
  let top := kernel_stack_top (kpcb k p) in
  let old := current_process (k_procs k) in
  let sp := Context.r_esp (k_cpu k) in
  poised lk k p → old ≠ p → switchable lk k old p → sp <= top - 40 ∨ top <= sp - 44 →
  ∃ m', do_switch lk p k =
      with_cpu (Context.Cpu 0 0 0 0 0 0 0 (top - 4) (l_user_mode_trampoline lk) 0x202 (cr3 (kpcb k p)))
        (with_mem m' (with_procs (switched old p (sp - 44) (k_procs k)) (with_esp0 top k))) ∧
    agree_outside (sp - 44) sp (k_mem k) m'.
Proof.
  intros top old sp (Htop & Hesp & Hst) Hne Hsw Hdis. destruct (do_switch_spec lk k p Hne Hsw) as (m' & c' & -> & E1 & E2 & _ & Hag).
  fold top in Htop, Hesp, Hst. exists m'. split; [| done]. f_equal. rewrite Hesp in E1. rewrite <- E2.
  assert (0 < top - PAGE_SIZE < 2 ^ 32 - 4096) as Hr by (unfold page_addr, MAX_FRAMES, PAGE_SIZE in *; lia).
  rewrite (Context.restore_spec m' c' 0 0 0 0 0 0 0 0x202 (l_user_mode_trampoline lk)).
  - f_equal. rewrite E1. lia.
  - rewrite E1. unfold PAGE_SIZE in *. lia.
  - rewrite E1. unfold PAGE_SIZE in *. lia.
  - rewrite E1. eapply (Context.stack_at_agree _ (k_mem k)); [| exact (proj1 (proj1 (Context.stack_at_app _ _ [0;0;0;0;0;0;0;0x202;_] [_]) Hst))].
    eapply agree_on_weaken; [exact Hag |]. simpl. fold sp. lia.
Qed.

Lemma start_user_spec (gdt_addr tss_addr : Z) (s0 : Gdt.gdt_state) (s : Gdt.segs) (ret : Z) (k : kernel F) :
  let tbl := Gdt.gdt_init gdt_addr tss_addr s0 in
  let P := kpcb k (current_process (k_procs k)) in
  let sp := Context.r_esp (k_cpu k) in
  let M := start_user tbl s ret k in
  length (Gdt.gdt s0) = 6%nat → Z.land (Gdt.s_cs s) 3 = 0 → 32 <= sp < 2 ^ 32 → is_u32 (user_entry P) → is_u32 (user_stack_top P) →
  Context.r_eip (Trap.mc M) = user_entry P ∧ Context.r_esp (Trap.mc M) = user_stack_top P ∧ Trap.cpl M = 3 ∧
  Context.r_eflags (Trap.mc M) = 0x202 ∧ Gdt.s_cs (Trap.ms M) = 0x1B ∧ Gdt.s_ss (Trap.ms M) = 0x23 ∧ Gdt.s_ds (Trap.ms M) = 0x23 ∧
  Context.r_cr3 (Trap.mc M) = Context.r_cr3 (k_cpu k) ∧ agree_outside (sp - 32) sp (k_mem k) (Trap.mm M) ∧
  Trap.set_data 0x23 (Trap.ms M) = Trap.ms M ∧ (Context.cpu_ok (k_cpu k) → Context.cpu_ok (Trap.mc M)).
Proof.
  intros tbl P sp M Hl Hcs Hsp He Hu. subst M. unfold start_user, user_mode_trampoline, tss_set_kernel_stack, process_current, kpcb.
  cbn [k_procs k_cpu k_mem with_esp0]. fold (kpcb k (current_process (k_procs k))). fold P.
  assert (4 <= Context.r_esp (k_cpu k) < 2 ^ 32) by lia. Trap.pushes.
  rewrite ?Trap.with_esp_twice, ?Trap.esp_with_esp. fold sp.
  set (m1 := store32 _ (sp - 4 - 4 - 4) _). set (M := Trap.Machine _ s m1).
  assert (agree_outside (sp - 12) sp (k_mem k) m1) as Hag.
  { unfold m1. replace (sp - 4 - 4 - 4) with (sp - 12) by lia. replace (sp - 4 - 4) with (sp - 8) by lia.
    repeat (eapply agree_outside_trans; [| eapply agree_outside_weaken; [apply agree_store32 | lia | lia]]). reflexivity. }
  assert (load32 m1 (sp - 8) = user_entry P ∧ load32 m1 (sp - 4) = user_stack_top P) as [A1 A2].
  { unfold m1. replace (sp - 4 - 4 - 4) with (sp - 12) by lia. replace (sp - 4 - 4) with (sp - 8) by lia. split.
    - rewrite load32_store32_ne by lia. by rewrite load32_store32_eq, u32_id.
    - rewrite !load32_store32_ne by lia. by rewrite load32_store32_eq, u32_id. }
  destruct (Trap.enter_usermode_spec gdt_addr tss_addr s0 M (user_entry P) (user_stack_top P))
    as (B1 & B2 & B3 & B4 & B5 & B6 & B7 & B10 & B11 & B12 & B8 & B9 & B13); try done.
  - change (Context.r_esp (Trap.mc M)) with (sp - 4 - 4 - 4). lia.
  - change (Context.r_esp (Trap.mc M)) with (sp - 4 - 4 - 4). rewrite <- A1. change (Trap.mm M) with m1. f_equal. lia.
  - change (Context.r_esp (Trap.mc M)) with (sp - 4 - 4 - 4). rewrite <- A2. change (Trap.mm M) with m1. f_equal. lia.
  - split_and!; try done.
    + change (Trap.mm M) with m1 in B9. change (Context.r_esp (Trap.mc M)) with (sp - 4 - 4 - 4) in B9.
      eapply agree_outside_trans; eapply agree_outside_weaken; [exact Hag | lia | lia | exact B9 | lia | lia].
    + fold tbl in B7, B10, B11, B12. destruct (Trap.ms (Trap.enter_usermode tbl M)). cbn in B7, B10, B11, B12 |- *. by subst.
Qed.

(** The state [k1] after the switch from [k] to [p], and the machine [M] when the
    trampoline has left for ring 3. *)
Record entered (k : kernel F) (p : Z) (k1 : kernel F) (M : Trap.machine) : Prop := {
  en_current : current_process (k_procs k1) = p;
  en_pcb : kpcb k1 p = set_ticks_remaining (priority (kpcb k p)) (set_state PROCESS_RUNNING (kpcb k p));
  en_esp0 : k_esp0 k1 = kernel_stack_top (kpcb k p);
  en_at : Context.r_eip (k_cpu k1) = l_user_mode_trampoline lk;
  en_vga : k_vga k1 = k_vga k;
  en_ring : Trap.cpl M = 3;
  en_regs : Context.cpu_ok (Trap.mc M) ∧ Context.r_eip (Trap.mc M) = user_entry (kpcb k p) ∧
    Context.r_esp (Trap.mc M) = user_stack_top (kpcb k p) ∧ Context.r_eflags (Trap.mc M) = 0x202 ∧
    Context.r_cr3 (Trap.mc M) = cr3 (kpcb k p);
  en_segs : Gdt.s_cs (Trap.ms M) = 0x1B ∧ Gdt.s_ss (Trap.ms M) = 0x23 ∧ Trap.set_data 0x23 (Trap.ms M) = Trap.ms M;
  en_mem : agree_on (λ a, ~ (Context.r_esp (k_cpu k) - 44 <= a < Context.r_esp (k_cpu k)) ∧
    ~ (kernel_stack_top (kpcb k p) - 36 <= a < kernel_stack_top (kpcb k p) - 4)) (k_mem k) (Trap.mm M)
}.

Lemma first_dispatch (gdt_addr tss_addr : Z) (s0 : Gdt.gdt_state) (s : Gdt.segs) (ret : Z) (k : kernel F) (p : Z) :
  let P := kpcb k p in
  let top := kernel_stack_top P in
  let sp := Context.r_esp (k_cpu k) in
  let k1 := do_switch lk p k in
  poised lk k p → current_process (k_procs k) ≠ p → switchable lk k (current_process (k_procs k)) p →
  sp <= top - 40 ∨ top <= sp - 44 →
  length (Gdt.gdt s0) = 6%nat → Z.land (Gdt.s_cs s) 3 = 0 → is_u32 (user_entry P) → is_u32 (user_stack_top P) →
  entered k p k1 (start_user (Gdt.gdt_init gdt_addr tss_addr s0) s ret k1).
Proof.
  intros P top sp k1 Hpo Hne Hsw Hdis Hl Hcs He Hu.
  destruct (switch_poised k p Hpo Hne Hsw Hdis) as (m' & E & Hag). fold top sp in E, Hag. fold k1 in E.
  set (old := current_process (k_procs k)) in *. destruct Hpo as (Htop & _).
  assert (current_process (k_procs k1) = p ∧ k_esp0 k1 = top ∧ k_mem k1 = m' ∧ k_vga k1 = k_vga k ∧
    k_cpu k1 = Context.Cpu 0 0 0 0 0 0 0 (top - 4) (l_user_mode_trampoline lk) 0x202 (cr3 P) ∧
    kpcb k1 p = set_ticks_remaining (priority P) (set_state PROCESS_RUNNING P)) as (Q1 & Q2 & Q3 & Q6 & Q4 & Q5).
  { rewrite E. cbn [k_procs k_cpu k_mem k_esp0 k_vga with_cpu with_mem with_procs with_esp0]. unfold kpcb. cbn [k_procs with_cpu with_mem with_procs with_esp0].
    split_and!; [apply switched_rest | done | done | done | done | by apply switched_new]. }
  assert (40 <= top < 2 ^ 32) as Hr by (unfold top, P; unfold page_addr, MAX_FRAMES, PAGE_SIZE in Htop; lia).
  assert (Context.cpu_ok (k_cpu k1)) as Hok by (rewrite Q4; unfold Context.cpu_ok, is_u32; rewrite !Forall_cons; cbn; split_and!; done || lia).
  destruct (start_user_spec gdt_addr tss_addr s0 s ret k1 Hl Hcs) as (B1 & B2 & B3 & B4 & B5 & B6 & B7 & B8 & B9 & B10 & B11);
    rewrite ?Q1, ?Q4, ?Q5 in *.
  - cbn. lia.
  - by destruct P.
  - by destruct P.
  - set (M := start_user _ s ret k1) in *. split; try done.
    + by rewrite Q4.
    + split_and!; [by apply B11 | rewrite B1; unfold P; by destruct (kpcb k p) | rewrite B2; unfold P; by destruct (kpcb k p) | done | done].
    + intros a [Ha1 Ha2]. change (Context.r_esp _) with (top - 4) in B9. rewrite Q3 in B9. fold P top in Ha2.
      rewrite <- (Hag a) by (fold sp in Ha1; lia). apply B9. lia.
Qed.

(** Between the calls of [process_create] and [elf32_load] in
    [process_create_from_elf] the process is already READY in the run queue; a
    switch to it then enters ring 3 at address 0 with stack pointer 0. *)
Lemma early_start (k k1 : kernel F) (R : Z → Prop) (live : gset Z) (l z : list Z) (pname : list Z) (prio p : Z) :
  kernel_inv lk k R live l z → is_u32 (l_user_mode_trampoline lk) → is_u32 (l_process_exit lk) →
  0 <= next_pid (k_procs k) < 2 ^ 32 - 1 →
  process_create lk pname (l_user_mode_trampoline lk) prio k = Done (p, k1) → p ≠ 0 →
  state (kpcb k1 p) = PROCESS_READY ∧ poised lk k1 p ∧
  ∀ gdt_addr tss_addr s0 s ret kd, kpcb kd p = kpcb k1 p → poised lk kd p → current_process (k_procs kd) ≠ p →
    switchable lk kd (current_process (k_procs kd)) p →
    Context.r_esp (k_cpu kd) <= kernel_stack_top (kpcb kd p) - 40 ∨ kernel_stack_top (kpcb kd p) <= Context.r_esp (k_cpu kd) - 44 →
    length (Gdt.gdt s0) = 6%nat → Z.land (Gdt.s_cs s) 3 = 0 →
    let M := start_user (Gdt.gdt_init gdt_addr tss_addr s0) s ret (do_switch lk p kd) in
    Trap.cpl M = 3 ∧ Context.r_eip (Trap.mc M) = 0 ∧ Context.r_esp (Trap.mc M) = 0.
Proof.
  intros Hk Ht Hx Hpid E Hp0.
  destruct (process_create_spec lk k R live l z pname (l_user_mode_trampoline lk) prio Hk Ht Hx Hpid)
    as (r & k' & E' & _ & _ & [(-> & _)|(_ & _ & _ & pd & lo & hi & Htk & Hpcb & Hst & _)]);
    rewrite E' in E; injection E as <- <-; [done |].
  assert (state (kpcb k' r) = PROCESS_READY ∧ esp (kpcb k' r) = hi + PAGE_SIZE - 40 ∧ kernel_stack_top (kpcb k' r) = hi + PAGE_SIZE ∧
    user_entry (kpcb k' r) = 0 ∧ user_stack_top (kpcb k' r) = 0) as (Q1 & Q2 & Q3 & Q4 & Q5).
  { destruct (kpcb k' r). simpl in Hpcb. injection Hpcb as -> -> -> -> -> -> -> -> -> -> -> -> -> -> -> ->. done. }
  split_and!; [done | |].
  - unfold poised. rewrite Q2, Q3. split_and!; [| done | done]. replace (hi + PAGE_SIZE - PAGE_SIZE) with hi by lia.
    destruct Htk as (_ & HX & _). apply HX. set_solver.
  - intros gdt_addr tss_addr s0 s ret kd Hpc Hpo Hne Hsw Hd Hl Hcs M.
    destruct (first_dispatch gdt_addr tss_addr s0 s ret kd r Hpo Hne Hsw Hd Hl Hcs) as [_ _ _ _ _ C1 (_ & C2 & C3 & _) _ _];
      rewrite ?Hpc, ?Q4, ?Q5 in *; done.
Qed.

(** ** The program in its address space *)

(** The machine in ring 3 after the first switch to [p]. *)
Definition started (tbl : Gdt.gdt_state) (s : Gdt.segs) (ret : Z) (k1 : kernel F) : Userland.user (F := F) :=
  let M := start_user tbl s ret k1 in
  Userland.User (with_cpu (Trap.mc M) (with_mem (Trap.mm M) (fst (user_mode_trampoline k1)))) (Trap.ms M).

Lemma started_parts (tbl : Gdt.gdt_state) (s : Gdt.segs) (ret : Z) (k1 : kernel F) :
  let u := started tbl s ret k1 in let M := start_user tbl s ret k1 in
  Userland.u_s u = Trap.ms M ∧ k_cpu (Userland.u_k u) = Trap.mc M ∧ k_mem (Userland.u_k u) = Trap.mm M.
Proof. unfold started. generalize (start_user tbl s ret k1). intros M. split_and!; reflexivity. Qed.

(** Between its creation and the first switch to it a process is left alone when
    its PCB stays as it is and memory changes only in settled bytes outside the
    image: the stacks and the data of the rest of the kernel. *)
Record undisturbed (k : kernel F) (R : Z → Prop) (lo hi p : Z) (k' kd : kernel F) : Prop := {
  ud_pcb : kpcb kd p = kpcb k' p;
  ud_mem : agree_on (λ a, ~ settled lk k R a ∨ lo <= a < hi) (k_mem k') (k_mem kd)
}.

(** The string [s] is in the segments of the image, at address [q]. *)
Definition image_literal (m : memory) (data q : Z) (s : list Z) : Prop :=
  q ≠ 0 ∧ ∀ i c, (s ++ [0]) !! i = Some c → ∃ j, in_segment m data j (q + Z.of_nat i) ∧
    Elf.segment_byte m data (Elf.elf32_get_phdr m data j) (q + Z.of_nat i) = c.

Section loaded.
Variables (k k' kd : kernel F) (R : Z → Prop) (data lo hi p : Z).
Variables (gdt_addr tss_addr : Z) (s0 : Gdt.gdt_state) (s : Gdt.segs) (ret : Z).
Abbreviation P := (kpcb k' p).
Abbreviation pd := (cr3 (kpcb k' p)).
Abbreviation top := (kernel_stack_top (kpcb k' p)).
Abbreviation sp := (Context.r_esp (k_cpu kd)).
Abbreviation tbl := (Gdt.gdt_init gdt_addr tss_addr s0).
Abbreviation k1 := (do_switch lk p kd).
Abbreviation u0 := (started tbl s ret k1).
Abbreviation m0 := (k_mem (Userland.u_k u0)).
Hypothesis Hr : spawn_ready lk k R data lo hi.
Hypothesis Hsd : spawned lk k R data p k'.
Hypothesis Hud : undisturbed k R lo hi p k' kd.
Hypothesis Hen : entered kd p k1 (start_user tbl s ret k1).
Hypothesis Hsp : ∀ a, sp - 44 <= a < sp → settled lk k R a ∧ ~ (lo <= a < hi).

(** A byte of a frame that was free is not settled. *)
Lemma new_unsettled (f a : Z) : page_addr f → in_use (k_frames k) f = false → in_page f a → ~ settled lk k R a.
Proof. intros Hf Hu Ha [[_ H] _]. by apply (H f). Qed.

Lemma stack_page_new (a : Z) : in_page (top - PAGE_SIZE) a → ~ settled lk k R a.
Proof using Hsd. apply new_unsettled; [apply (sd_poised _ _ _ _ _ _ Hsd) | apply (sd_new _ _ _ _ _ _ Hsd)]. Qed.

(** What the program finds in memory is what the loader left. *)
Lemma started_mem :
  agree_on (λ a, (~ settled lk k R a ∨ lo <= a < hi) ∧ ~ (top - 36 <= a < top - 4)) (k_mem k') m0.
Proof using Hud Hen Hsp.
  intros a [Ha1 Ha2]. change m0 with (Trap.mm (start_user tbl s ret k1)). pose proof (en_mem _ _ _ _ Hen a) as H.
  rewrite (ud_pcb _ _ _ _ _ _ _ Hud) in H. rewrite H; [by apply (ud_mem _ _ _ _ _ _ _ Hud) |].
  split; [| done]. intros Hs. destruct (Hsp a Hs) as [H1 H2]. by destruct Ha1.
Qed.

(** The bytes of the directory and of the tables in use. *)
Definition of_tables (a : Z) : Prop :=
  in_page pd a ∨ ∃ i, Paging.is_index i ∧ Paging.present (k_mem k') pd i = true ∧ in_page (Paging.table (k_mem k') pd i) a.

Lemma of_tables_apart (a : Z) : of_tables a → ~ settled lk k R a ∧ ~ in_page (top - PAGE_SIZE) a.
Proof using Hsd.
  intros Ha. assert (∀ Q : Prop, (Q → untouched k' p (k_frames k') (k_mem k') a) → ~ Q) as H.
  { intros Q HQ Hq. destruct (HQ Hq) as (_ & H1 & H2). destruct Ha as [Ha|(i & Hi & Hp & Ha)]; [done |]. by apply (H2 i). }
  split; apply H; intros Hq; apply (sd_walk _ _ _ _ _ _ Hsd); tauto.
Qed.

Lemma translate_present (acc : Paging.access) (m : memory) (dir va x : Z) :
  Paging.translate acc m dir va = Some x → Paging.present m dir (Paging.pd_index va) = true.
Proof.
  unfold Paging.translate, Paging.present. cbv zeta. unfold Paging.permits at 1.
  destruct (Z.testbit (Paging.entry m dir (Paging.pd_index va)) 0); done.
Qed.

Lemma walk_of_tables (acc : Paging.access) (va x a : Z) :
  is_u32 va → Paging.translate acc (k_mem k') pd va = Some x → Syscall.walk_byte (k_mem k') pd va a → of_tables a.
Proof using.
  intros Hva Ht. pose proof (Paging.pd_index_range va Hva) as Hi. pose proof (Paging.pt_index_range va) as Hj.
  intros [(i & Hi4 & ->)|(i & Hi4 & ->)]; [left | right].
  - unfold Paging.is_index, in_page, PAGE_SIZE in *. lia.
  - exists (Paging.pd_index va). split_and!; [done | by eapply translate_present |].
    unfold Paging.is_index, in_page, PAGE_SIZE in *. lia.
Qed.

Lemma started_translate (acc : Paging.access) (va x : Z) :
  is_u32 va → Paging.translate acc (k_mem k') pd va = Some x →
  Paging.translate acc m0 pd va = Some x ∧ ∀ a, Syscall.walk_byte m0 pd va a → of_tables a.
Proof using Hsd Hud Hen Hsp.
  intros Hva Ht.
  assert (agree_on (Syscall.walk_byte (k_mem k') pd va) (k_mem k') m0) as Hag.
  { eapply agree_on_weaken; [exact started_mem |]. intros a Ha. destruct (of_tables_apart a (walk_of_tables acc va x a Hva Ht Ha)) as [H1 H2].
    split; [by left |]. unfold in_page, PAGE_SIZE in H2. lia. }
  split; [by rewrite (Syscall.translate_agree _ (k_mem k')) |]. intros a Ha. apply (walk_of_tables acc va x a Hva Ht).
  destruct Ha as [H|(i & Hi & ->)]; [by left | right]. exists i. split; [done |]. unfold Paging.table.
  rewrite (Paging.entry_agree _ _ _ _ _ Hag); [done |]. intros b Hb. left. exists (b - (pd + 4 * Paging.pd_index va)). lia.
Qed.

(** The stack frame [buf] lies in. *)
Variables (j f : Z) (L : Userland.addresses).
Hypothesis Hnew : private k k' p f.
Hypothesis Hf : page_addr f.
Hypothesis Hfpd : f ≠ pd.
Hypothesis Hftab : ∀ i, Paging.is_index i → Paging.present (k_mem k') pd i = true → Paging.table (k_mem k') pd i ≠ f.

Definition pb (i : Z) : Z := f + (Userland.buf L + i) mod PAGE_SIZE.

Lemma pb_page (i : Z) : in_page f (pb i).
Proof using. unfold pb, in_page, PAGE_SIZE. zlia. Qed.

Lemma frame_new : in_use (k_frames k) f = false ∧ f ≠ top - PAGE_SIZE.
Proof using Hnew Hf.
  destruct Hnew as (g & Hg & H1 & H2 & H3).
  assert (g = f) as ->; [| done]. apply (page_unique g f f); [by apply Paging.page_addr_base.. | done | unfold in_page, PAGE_SIZE; lia].
Qed.

Lemma started_state :
  k_esp0 (Userland.u_k u0) = top ∧ current_process (k_procs (Userland.u_k u0)) = p ∧
  fds (kpcb (Userland.u_k u0) p) = replicate 8 (FdEntry 0 0 0) ∧ Syscall.cur_pd (Userland.u_k u0) = pd ∧
  k_vga (Userland.u_k u0) = k_vga kd.
Proof using Hsd Hud Hen.
  destruct Hen as [E1 E2 _ _ E3 _ (_ & _ & _ & _ & E4) _ _]. rewrite (ud_pcb _ _ _ _ _ _ _ Hud) in E2, E4.
  assert (kernel_stack_top (kpcb k1 p) = top ∧ fds (kpcb k1 p) = fds P) as [Q1 Q2] by (rewrite E2; split; apply dispatched_pcb).
  split_and!; [| exact E1 | | exact E4 | exact E3].
  - change (kernel_stack_top (kpcb k1 (current_process (k_procs k1))) = top). by rewrite E1.
  - change (fds (kpcb k1 p) = replicate 8 (FdEntry 0 0 0)). rewrite Q2. apply (sd_fds _ _ _ _ _ _ Hsd).
Qed.

(** Bytes outside the kernel stack and the stack frame. *)
Lemma started_safe (b a : Z) :
  b mod PAGE_SIZE = 0 → b ≠ f → b ≠ top - PAGE_SIZE → in_page b a → Userland.safe u0 pb a.
Proof using Hsd Hud Hen Hf.
  intros Hb Hbf Hbt Ha. destruct started_state as (E & _). split.
  - rewrite E. pose proof (proj1 (sd_poised _ _ _ _ _ _ Hsd)) as Ht.
    pose proof (pages_apart b _ Hb (page_addr_aligned _ Ht) Hbt). unfold in_page, PAGE_SIZE in *. lia.
  - intros i Hi ->. pose proof (pages_apart b f Hb (page_addr_aligned _ Hf) Hbf).
    pose proof (pb_page i). unfold in_page in *. lia.
Qed.

Lemma settled_safe (a : Z) : settled lk k R a → Userland.safe u0 pb a.
Proof using Hsd Hud Hen Hnew Hf.
  intros Ha. destruct started_state as (E & _). split.
  - rewrite E. destruct (decide (in_page (top - PAGE_SIZE) a)) as [Hp|Hp]; [by destruct (stack_page_new a Hp) |].
    unfold in_page, PAGE_SIZE in Hp. lia.
  - intros i Hi ->. by apply (new_unsettled f (pb i) Hf (proj1 frame_new) (pb_page i)).
Qed.

Lemma tables_safe (a : Z) : of_tables a → Userland.safe u0 pb a.
Proof using Hsd Hud Hen Hf Hfpd Hftab.
  intros Ha. destruct (of_tables_apart a Ha) as [_ Ht]. destruct Ha as [Ha|(i & Hi & Hp & Ha)].
  - apply (started_safe pd); [apply page_addr_aligned, (sd_new _ _ _ _ _ _ Hsd) | done | | done]. intros Q. by rewrite Q in Ha.
  - apply (started_safe (Paging.table (k_mem k') pd i)); [apply table_aligned | by apply Hftab | | done]. intros Q. by rewrite Q in Ha.
Qed.

Lemma started_maps (acc : Paging.access) (va x : Z) :
  is_u32 va → Paging.translate acc (k_mem k') pd va = Some x → Userland.maps u0 pb acc va x.
Proof using Hsd Hud Hen Hsp Hf Hfpd Hftab.
  intros Hva Ht. destruct started_state as (_ & _ & _ & E & _). unfold Userland.maps. rewrite u32_id, E by done.
  destruct (started_translate acc va x Hva Ht) as [H1 H2]. split; [done |]. intros a Ha. by apply tables_safe, H2.
Qed.

Hypothesis Hj : 0 <= j < USER_STACK_PAGES.
Hypothesis Hbuf : USER_STACK_BASE + j * PAGE_SIZE <= Userland.buf L ∧ Userland.buf L + 4 <= USER_STACK_BASE + (j + 1) * PAGE_SIZE.
Hypothesis Hfmap : ∀ va, is_u32 va → Paging.same_page va (USER_STACK_BASE + j * PAGE_SIZE) →
  Paging.translate (Paging.Access true true) (k_mem k') pd va = Some (f + va mod PAGE_SIZE) ∧
  ∀ i a, in_segment (k_mem k) data i a → Paging.translate (Paging.Access true false) (k_mem k') pd a ≠ Some (f + va mod PAGE_SIZE).

Lemma buf_page (i : Z) :
  0 <= i < 4 → is_u32 (Userland.buf L + i) ∧ Paging.same_page (Userland.buf L + i) (USER_STACK_BASE + j * PAGE_SIZE).
Proof using Hj Hbuf.
  intros Hi. unfold USER_STACK_PAGES, USER_STACK_BASE, PAGE_SIZE, is_u32, Paging.same_page in *. split; [lia |].
  destruct (Paging.index_div (Userland.buf L + i)) as [-> ->], (Paging.index_div (0x500000 + j * 4096)) as [-> ->]. zlia.
Qed.

(** The literals of the program. *)
Lemma started_literal (q : Z) (t : list Z) : image_literal (k_mem k) data q t → Userland.literal u0 pb q t.
Proof using All.
  intros [Hq Hl]. split; [| split; [done |]].
  - destruct (lookup_lt_is_Some_2 (t ++ [0]) 0) as [b Hb]; [rewrite length_app; simpl; lia |].
    destruct (Hl 0%nat b Hb) as (i & Hs & _). rewrite Z.add_0_r in Hs. apply segment_u32 in Hs. done.
  - intros i b Hb. destruct (Hl i b Hb) as (n & Hs & <-).
    destruct (sd_segments _ _ _ _ _ _ Hsd n _ Hs) as (pa & Ht & Hld & Hpr). exists pa.
    pose proof (segment_u32 _ _ _ _ Hs) as Hva. destruct Hpr as (g & Hg & Hgu & Hgt & Hpa).
    assert (pa < top - PAGE_SIZE ∨ top <= pa) as Hst.
    { pose proof (proj1 (sd_poised _ _ _ _ _ _ Hsd)) as Htop.
      pose proof (pages_apart g _ (page_addr_aligned _ Hg) (page_addr_aligned _ Htop) Hgt). unfold in_page in *. lia. }
    split_and!.
    + by apply started_maps.
    + split; [destruct started_state as (-> & _); unfold PAGE_SIZE in Hst; lia |]. intros x Hx E.
      destruct (buf_page x Hx) as [Hu Hsame]. apply (proj2 (Hfmap _ Hu Hsame) n _ Hs). by rewrite Ht, E.
    + rewrite (started_mem pa); [done |]. split; [left; by apply (new_unsettled g) | unfold PAGE_SIZE in Hst; lia].
Qed.

(** The read buffer. *)
Lemma started_buffer : Userland.buffer_user L u0 pb.
Proof using Hsd Hud Hen Hsp Hnew Hf Hfpd Hftab Hj Hbuf Hfmap.
  split.
  - destruct (buf_page 0 ltac:(lia)) as [H _]. rewrite Z.add_0_r in H. split; [done |]. unfold USER_STACK_BASE, PAGE_SIZE in *. lia.
  - intros i Hi. destruct (buf_page i Hi) as [Hu Hs]. by apply started_maps, Hfmap.
  - intros i Hi. destruct started_state as (-> & _). pose proof (pb_page i) as Hp. pose proof (proj1 (sd_poised _ _ _ _ _ _ Hsd)) as Ht.
    pose proof (pages_apart f _ (page_addr_aligned _ Hf) (page_addr_aligned _ Ht) (proj2 frame_new)). unfold in_page, PAGE_SIZE in *. lia.
  - intros i n Hi Hn. unfold pb, PAGE_SIZE in *. unfold USER_STACK_BASE in *. zlia.
Qed.

(** The file, which is the image itself. *)
Hypothesis Hid : ∀ i, 0 <= i < 4 → is_u32 (data + i) ∧ Paging.pd_index (data + i) < Paging.IDENTITY_PT_COUNT ∧
  ~ image_range (k_mem k) data (data + i) ∧ ~ stack_range (data + i) ∧
  Paging.translate Paging.supervisor (k_mem k) (l_kernel_pd lk) (data + i) = Some (data + i).

Abbreviation ps := (λ i, data + i).

Lemma image_start (i : Z) : 0 <= i < 4 → settled lk k R (data + i) ∧ load8 m0 (data + i) = load8 (k_mem k) (data + i).
Proof using Hr Hsd Hud Hen Hsp.
  intros Hi. pose proof (Elf.im_header _ _ _ _ (sr_image _ _ _ _ _ _ Hr)) as Hh.
  assert (settled lk k R (data + i)) as Hs by (apply (sr_bytes _ _ _ _ _ _ Hr); lia). split; [done |].
  rewrite (started_mem (data + i)); [by apply (sd_settled _ _ _ _ _ _ Hsd) |]. split; [right; lia |]. intros Ht.
  apply (stack_page_new (data + i)); [unfold in_page, PAGE_SIZE; lia | done].
Qed.

Lemma started_file (sz : Z) : 0 <= sz < 2 ^ 32 → Userland.file_ok u0 pb ps data sz.
Proof using Hr Hsd Hud Hen Hsp Hnew Hf Hfpd Hftab Hid.
  intros Hsz. split; [done |]. intros i Hi. destruct (Hid i ltac:(lia)) as (Hu & Hlow & Hni & Hns & Ht). split.
  - apply started_maps; [done |]. by apply (sd_low _ _ _ _ _ _ Hsd).
  - apply settled_safe, image_start. lia.
Qed.

Lemma started_ring3 (g : Idt.gate) (returned : Context.cpu → Z → Context.cpu) :
  (∀ c v, Context.r_esp (returned c v) = Context.r_esp c ∧ Context.r_cr3 (returned c v) = Context.r_cr3 c ∧ Context.r_eax (returned c v) = v) →
  length (Gdt.gdt s0) = 6%nat → Z.land (Idt.g_selector g) 3 = 0 → is_u32 (user_entry P) → is_u32 (user_stack_top P) →
  Userland.ring3_ok tbl g returned u0.
Proof using Hsd Hud Hen.
  intros Hret Hl Hg He Hu. destruct started_state as (Htop & _). destruct Hen as [_ _ _ _ _ E1 (E2 & E3 & E4 & _) (E5 & E6 & E7) _].
  rewrite (ud_pcb _ _ _ _ _ _ _ Hud) in E3, E4.
  destruct (started_parts tbl s ret k1) as (P1 & P2 & _). cbv zeta in P1, P2. rewrite <- P1 in E5, E6, E7. rewrite <- P2 in E2, E3, E4.
  assert (Gdt.s_ds (Userland.u_s u0) = 0x23) as E8 by (rewrite <- E7; by destruct (Userland.u_s u0)).
  split.
  - done.
  - split; [done |]. by rewrite E3, E4.
  - rewrite E5, E6, E8. repeat (apply Forall_cons; split; [lia |]). by apply Forall_nil.
  - by rewrite E5.
  - rewrite E8. split; [by apply Trap.dpl_user | done].
  - rewrite Htop. pose proof (proj1 (sd_poised _ _ _ _ _ _ Hsd)) as Ht. unfold page_addr, MAX_FRAMES, PAGE_SIZE in Ht. lia.
  - done.
Qed.

End loaded.

(** The image of the embedded program in the RAM file system: its literals are in
    its segments, [buf] is on its stack, and it is stored as [test.elf], identity
    mapped for the kernel. *)
Record test_image (k : kernel F) (fs : Ramfs.ramfs) (data sz : Z) (L : Userland.addresses) : Prop := {
  ti_msg : image_literal (k_mem k) data (Userland.msg L) Userland.HELLO;
  ti_path : image_literal (k_mem k) data (Userland.path L) Userland.PATH;
  ti_ok : image_literal (k_mem k) data (Userland.ok L) Userland.OK;
  ti_bad : image_literal (k_mem k) data (Userland.bad L) Userland.BAD;
  ti_fail : image_literal (k_mem k) data (Userland.fail L) Userland.FAIL;
  ti_buf : ∃ j, 0 <= j < USER_STACK_PAGES ∧ USER_STACK_BASE + j * PAGE_SIZE <= Userland.buf L ∧
    Userland.buf L + 4 <= USER_STACK_BASE + (j + 1) * PAGE_SIZE;
  ti_mapped i : 0 <= i < 4 → is_u32 (data + i) ∧ Paging.pd_index (data + i) < Paging.IDENTITY_PT_COUNT ∧
    ~ image_range (k_mem k) data (data + i) ∧ ~ stack_range (data + i) ∧
    Paging.translate Paging.supervisor (k_mem k) (l_kernel_pd lk) (data + i) = Some (data + i);
  ti_fs : Ramfs.wf fs;
  ti_file : Ramfs.files_map fs !! Userland.PATH = Some (data, sz) ∧ 4 <= sz < 2 ^ 32
}.

Lemma magic_bytes (m : memory) (data entry : Z) :
  Elf.elf32_validate m data = Some entry → (λ i, load8 m (data + i)) <$> [0; 1; 2; 3] = Userland.MAGIC.
Proof.
  unfold Elf.elf32_validate. destruct (Z.eqb_spec (Elf.eh_magic m data) Elf.ELF_MAGIC) as [E|]; [intros _ | done].
  unfold Elf.eh_magic, Elf.ELF_MAGIC, load32 in E. cbn [fmap list_fmap]. rewrite Z.add_0_r.
  pose proof (load8_range m data). pose proof (load8_range m (data + 1)). pose proof (load8_range m (data + 2)).
  pose proof (load8_range m (data + 3)). unfold Userland.MAGIC. repeat f_equal; lia.
Qed.

Lemma undisturbed_poised (k k' kd : kernel F) (R : Z → Prop) (data lo hi p : Z) :
  spawned lk k R data p k' → undisturbed k R lo hi p k' kd → poised lk kd p.
Proof.
  intros Hsd Hud. pose proof (sd_poised _ _ _ _ _ _ Hsd) as (H1 & H2 & H3). unfold poised.
  rewrite (ud_pcb _ _ _ _ _ _ _ Hud). split_and!; [done | done |]. eapply Context.stack_at_agree; [| exact H3].
  eapply agree_on_weaken; [exact (ud_mem _ _ _ _ _ _ _ Hud) |]. intros a Ha. left.
  apply (stack_page_new k k' R data p Hsd). unfold in_page, PAGE_SIZE. cbn in Ha. lia.
Qed.

(** A stack window of settled bytes is apart from the new kernel stack. *)
Lemma settled_window (k k' : kernel F) (R : Z → Prop) (data p sp : Z) :
  spawned lk k R data p k' → (∀ a, sp - 44 <= a < sp → settled lk k R a) →
  let top := kernel_stack_top (kpcb k' p) in sp <= top - 40 ∨ top <= sp - 44.
Proof.
  intros Hsd Hsp top. destruct (decide (sp <= top - 40 ∨ top <= sp - 44)) as [|Hn]; [done | exfalso].
  apply (stack_page_new k k' R data p Hsd (Z.max (sp - 44) (top - PAGE_SIZE))); [unfold in_page; fold top; unfold PAGE_SIZE; lia |].
  apply Hsp. unfold PAGE_SIZE. lia.
Qed.

Lemma program_spec (k k' kd : kernel F) (R : Z → Prop) (fs : Ramfs.ramfs) (data sz lo hi p entry : Z) (L : Userland.addresses)
    (gdt_addr tss_addr : Z) (s0 : Gdt.gdt_state) (s : Gdt.segs) (ret : Z) (g : Idt.gate)
    (returned : Context.cpu → Z → Context.cpu) (fuel : nat) :
  let tbl := Gdt.gdt_init gdt_addr tss_addr s0 in
  let old := current_process (k_procs kd) in
  let sp := Context.r_esp (k_cpu kd) in
  (∀ c v, Context.r_esp (returned c v) = Context.r_esp c ∧ Context.r_cr3 (returned c v) = Context.r_cr3 c ∧ Context.r_eax (returned c v) = v) →
  length (Gdt.gdt s0) = 6%nat → Z.land (Gdt.s_cs s) 3 = 0 → Z.land (Idt.g_selector g) 3 = 0 → (36 < fuel)%nat →
  Elf.elf32_validate (k_mem k) data = Some entry → spawn_ready lk k R data lo hi → test_image k fs data sz L →
  spawned lk k R data p k' → is_u32 (user_entry (kpcb k' p)) → is_u32 (user_stack_top (kpcb k' p)) →
  undisturbed k R lo hi p k' kd → old ≠ p → switchable lk kd old p →
  (∀ a, sp - 44 <= a < sp → settled lk k R a ∧ ~ (lo <= a < hi)) →
  ∃ k2, Userland.start lk fs tbl g returned L fuel (started tbl s ret (do_switch lk p kd)) = process_exit lk 0 k2 ∧
    current_process (k_procs k2) = p ∧ k_vga k2 = Vga.putchars (Userland.HELLO ++ Userland.OK) (k_vga kd) ∧
    fd_in_use <$> fds (kpcb k2 p) = replicate 8 0.
Proof.
  intros tbl old sp Hret Hl Hcs Hg Hfuel Hv Hr Hti Hsd He Hu Hud Hne Hsw Hsp.
  assert (entered kd p (do_switch lk p kd) (start_user tbl s ret (do_switch lk p kd))) as Hen.
  { apply first_dispatch; rewrite ?(ud_pcb _ _ _ _ _ _ _ Hud); try done; [by eapply undisturbed_poised |].
    apply (settled_window k k' R data p _ Hsd). intros a Ha. by apply Hsp. }
  destruct (ti_buf _ _ _ _ _ Hti) as (j & Hj & Hbuf).
  destruct (sd_stack _ _ _ _ _ _ Hsd j Hj) as (f & F1 & F2 & F3 & F4 & F5).
  pose proof (started_state k k' kd R data lo hi p gdt_addr tss_addr s0 s ret Hsd Hud Hen) as (_ & S1 & S2 & _ & S3).
  pose proof (started_literal k k' kd R data lo hi p gdt_addr tss_addr s0 s ret Hr Hsd Hud Hen Hsp j f L F1 F2 F3 F4 Hj Hbuf F5) as Hlit.
  fold tbl in S1, S2, S3, Hlit. set (u0 := started tbl s ret (do_switch lk p kd)) in *.
  assert (Userland.loaded fs L u0 (pb f L) (λ i, data + i)) as Hld.
  { destruct Hti as [T1 T2 T3 T4 T5 _ T6 T7 [T8 T9]]. split; [by apply Hlit.. | done | | by rewrite S1, S2].
    intros d z. rewrite T8. intros [= <- <-].
    apply (started_file k k' kd R data lo hi p gdt_addr tss_addr s0 s ret Hr Hsd Hud Hen Hsp f L F1 F2 F3 F4 T6). lia. }
  assert (Userland.report fs u0 (λ i, data + i) = Userland.OK) as Hrep.
  { destruct (ti_file _ _ _ _ _ Hti) as [T8 T9]. unfold Userland.report. rewrite T8, S1.
    rewrite (Userland.alloc_fd_ext _ (set_fds (replicate 8 (FdEntry 0 0 0)) zero_pcb)) by (by rewrite S2).
    destruct (Z.leb_spec 4 sz); [| lia]. rewrite bool_decide_eq_true_2; [reflexivity |].
    rewrite <- (magic_bytes _ _ _ Hv). cbn [fmap list_fmap].
    rewrite !(λ i Hi, proj2 (image_start k k' kd R data lo hi p gdt_addr tss_addr s0 s ret Hr Hsd Hud Hen Hsp i Hi)) by lia. reflexivity. }
  destruct (Userland.test_prog_spec lk fs tbl g returned L u0 (pb f L)
    (started_ring3 k k' kd R data lo hi p gdt_addr tss_addr s0 s ret Hsd Hud Hen g returned Hret Hl Hg He Hu)
    (λ i, data + i) (started_buffer k k' kd R data lo hi p gdt_addr tss_addr s0 s ret Hsd Hud Hen Hsp j f L F1 F2 F3 F4 Hj Hbuf F5)
    Hld fuel Hfuel) as (k2 & e & E & Hview & Hfd).
  exists k2. destruct Hview as [V1 V2 V3 _ _ _]. rewrite S1 in V1, V2, Hfd. rewrite Hrep, S3 in V3. rewrite S2 in Hfd.
  split_and!; [exact E | exact V1 | exact V3 |]. by rewrite V2, Hfd.
Qed.

(** The whole path: creation, the first switch at any later time, ring 3, exit. *)
Lemma test_elf_spec (k : kernel F) (R : Z → Prop) (live : gset Z) (l z : list Z) (fs : Ramfs.ramfs)
    (pname : list Z) (data sz prio lo hi entry : Z) (L : Userland.addresses)
    (gdt_addr tss_addr : Z) (s0 : Gdt.gdt_state) (s : Gdt.segs) (ret : Z) (g : Idt.gate)
    (returned : Context.cpu → Z → Context.cpu) (fuel : nat) :
  let tbl := Gdt.gdt_init gdt_addr tss_addr s0 in
  kernel_inv lk k R live l z → sched_inv lk (k_procs k) l z →
  is_u32 (l_user_mode_trampoline lk) → is_u32 (l_process_exit lk) → is_u32 (l_do_switch_return lk) →
  0 <= next_pid (k_procs k) < 2 ^ 32 - 1 →
  Elf.elf32_validate (k_mem k) data = Some entry → spawn_ready lk k R data lo hi → test_image k fs data sz L →
  (∀ c v, Context.r_esp (returned c v) = Context.r_esp c ∧ Context.r_cr3 (returned c v) = Context.r_cr3 c ∧ Context.r_eax (returned c v) = v) →
  length (Gdt.gdt s0) = 6%nat → Z.land (Gdt.s_cs s) 3 = 0 → Z.land (Idt.g_selector g) 3 = 0 → (36 < fuel)%nat →
  ∃ p k', process_create_from_elf lk pname data prio k = Done (p, k') ∧ p ≠ 0 ∧
    spawn_post lk k R live l z data p k' ({[p]} ∪ live) (l ++ [p]) z ∧
    ∀ kd, undisturbed k R lo hi p k' kd →
      current_process (k_procs kd) ≠ p → is_u32 (current_process (k_procs kd)) → Context.cpu_ok (k_cpu kd) →
      44 <= Context.r_esp (k_cpu kd) < 2 ^ 32 →
      (∀ a, Context.r_esp (k_cpu kd) - 44 <= a < Context.r_esp (k_cpu kd) → settled lk k R a ∧ ~ (lo <= a < hi)) →
      ∃ k2, Userland.start lk fs tbl g returned L fuel (started tbl s ret (do_switch lk p kd)) = process_exit lk 0 k2 ∧
        current_process (k_procs k2) = p ∧ k_vga k2 = Vga.putchars (Userland.HELLO ++ Userland.OK) (k_vga kd) ∧
        fd_in_use <$> fds (kpcb k2 p) = replicate 8 0.
Proof.
  intros tbl Hk Hs Ht Hx Hret Hpid Hv Hr Hti Hcd Hl Hcs Hg Hf.
  destruct (process_create_from_elf_ready lk k R live l z pname data prio lo hi entry Hk Hs Ht Hx Hpid Hv Hr)
    as (p & k' & E & Hp & Hpost & Hsd). pose proof Hpost as [P1 P2 P3 P4].
  destruct P4 as [(-> & _)|(_ & P4 & _ & _ & _ & P5 & P6)]; [done |].
  exists p, k'. split_and!; [done | done | done |]. intros kd Hud Hne Ho Hc Hsp Hw.
  rewrite Hv in P5. injection P5 as P5.
  eapply program_spec; try done.
  - rewrite <- P5. eapply validate_u32. exact Hv.
  - rewrite P6. done.
  - split_and!; [done | lia | lia | done | | done]. eapply live_u32; [exact (ki_heap _ _ _ _ _ _ P1) | set_solver].
Qed.

(** ** Properties *)

(** C26. The first switch to a process from an image ends in ring 3 at its entry
    point: [do_switch] makes it the RUNNING current process and continues at
    [user_mode_trampoline] in its address space; the trampoline and
    [enter_usermode] then leave the processor in ring 3 at [user_entry], on the
    stack [user_stack_top], with interrupts on and the ring-3 segments, in the same
    address space, and the next trap will use the kernel stack of the process.
    Only the saved words of the previous process and 32 bytes of the new kernel
    stack are written. *)
Theorem spawned_starts_in_ring3 (gdt_addr tss_addr : Z) (s0 : Gdt.gdt_state) (s : Gdt.segs) (ret : Z) (k : kernel F) (p : Z) :
  let P := kpcb k p in
  let top := kernel_stack_top P in
  let sp := Context.r_esp (k_cpu k) in
  let k1 := do_switch lk p k in
  poised lk k p → current_process (k_procs k) ≠ p → switchable lk k (current_process (k_procs k)) p →
  sp <= top - 40 ∨ top <= sp - 44 →
  length (Gdt.gdt s0) = 6%nat → Z.land (Gdt.s_cs s) 3 = 0 → is_u32 (user_entry P) → is_u32 (user_stack_top P) →
  entered k p k1 (start_user (Gdt.gdt_init gdt_addr tss_addr s0) s ret k1).
Proof. exact (first_dispatch gdt_addr tss_addr s0 s ret k p). Qed.

End program.

(** ** Witnesses *)

#[local] Existing Instance Pmm.pmm_frames.

(** A process at 0x100010 that is to start on the kernel stack below 0x32000; its
    parent runs on the stack below 0x90000. *)
Definition demo_starting : kernel Pmm.pmm :=
  with_mem (snd (Context.initial_frame 0x32000 0x101000 0x102000 ∅))
    (with_procs (Procs (<[0x9000 := set_state PROCESS_RUNNING zero_pcb]>
      (<[0x100010 := set_user_entry 0x400000 (set_user_stack_top 0x504000 (set_cr3 0x33000 (set_esp (0x32000 - 40)
         (set_kernel_stack_top 0x32000 zero_pcb))))]> ∅)) 2 0x9000 [0x9000; 0x100010] 0x9000 0x100010 2 0) demo_kernel).

Lemma spawned_starts_in_ring3_witness :
  let M := start_user (Gdt.gdt_init 0x8000 0x9000 Gdt.demo_gdt) (Gdt.Segs 8 0x10 0x10 0x10 0x10 0x10 0x28 47 0x8000) 0x102040
    (do_switch demo_link 0x100010 demo_starting) in
  Trap.cpl M = 3 ∧ Context.r_eip (Trap.mc M) = 0x400000 ∧ Context.r_esp (Trap.mc M) = 0x504000 ∧ Context.r_cr3 (Trap.mc M) = 0x33000.
Proof.
  destruct (spawned_starts_in_ring3 demo_link 0x8000 0x9000 Gdt.demo_gdt (Gdt.Segs 8 0x10 0x10 0x10 0x10 0x10 0x28 47 0x8000) 0x102040
    demo_starting 0x100010) as [_ _ _ _ _ B1 (_ & B2 & B3 & _ & B4) _ _].
  - unfold poised. change (kernel_stack_top (kpcb demo_starting 0x100010)) with 0x32000.
    split_and!; [unfold page_addr, MAX_FRAMES, PAGE_SIZE; zlia | reflexivity |].
    destruct (Context.initial_frame_spec 0x32000 0x101000 0x102000 ∅) as (_ & Hst & _); [lia | unfold is_u32; lia | unfold is_u32; lia | exact Hst].
  - discriminate.
  - split_and!; [exact (Context.demo_cpu_ok 0x8F000) | cbn; lia | cbn; lia | unfold is_u32; cbn; lia | unfold is_u32; cbn; lia..].
  - right. change (kernel_stack_top (kpcb demo_starting 0x100010)) with 0x32000. cbn. lia.
  - reflexivity.
  - reflexivity.
  - change (user_entry (kpcb demo_starting 0x100010)) with 0x400000. unfold is_u32. lia.
  - change (user_stack_top (kpcb demo_starting 0x100010)) with 0x504000. unfold is_u32. lia.
  - split_and!; [exact B1 | exact B2 | exact B3 | exact B4].
Defined.

(** The literals are in the segment at 4 MiB, [buf] is on the fourth page of the
    stack. *)
Definition demo_program : Userland.addresses :=
  Userland.Addresses 0x400000 0x400040 0x400080 0x4000C0 0x400100 0x503FE0.

Definition demo_literal_check (q : Z) (t : list Z) : bool :=
  forallb (λ '(i, c), Elf.segment_byte demo_memory4 0x8000 (Elf.elf32_get_phdr demo_memory4 0x8000 0) (q + Z.of_nat i) =? c)
    (imap pair (t ++ [0])).

Lemma demo_image_literal (q : Z) (t : list Z) :
  0x400000 <= q → q + Z.of_nat (length t) < 0x400148 → demo_literal_check q t = true → image_literal demo_memory4 0x8000 q t.
Proof.
  intros H1 H2 Hc. split; [lia |]. intros i c Hi. exists 0.
  destruct demo_segment4 as (_ & S2 & S3 & S4 & _), demo_image4 as (_ & S6 & _). apply lookup_lt_Some in Hi as Hlt.
  rewrite length_app in Hlt. cbn [length] in Hlt. split.
  - unfold in_segment. rewrite S6, S2, S3, S4. split_and!; [lia | lia | reflexivity | lia | lia | lia].
  - unfold demo_literal_check in Hc. rewrite forallb_forall in Hc.
    assert ((i, c) ∈ imap pair (t ++ [0])) as Hin by (apply (list_elem_of_lookup_2 _ i); by rewrite list_lookup_imap, Hi).
    apply list_elem_of_In, Hc in Hin. by apply Z.eqb_eq.
Qed.

Lemma demo_mapped (i : Z) : 0 <= i < 4 →
  Paging.pd_index (0x8000 + i) = 0 ∧ Paging.translate Paging.supervisor demo_memory4 0x10000 (0x8000 + i) = Some (0x8000 + i).
Proof.
  intros Hi. assert (i = 0 ∨ i = 1 ∨ i = 2 ∨ i = 3) as [->|[->|[->| ->]]] by lia; split; vm_compute; reflexivity.
Qed.

Lemma demo_test_image : test_image demo_link demo_kernel4 (Userland.one_file 0x8000 0x194) 0x8000 0x194 demo_program.
Proof.
  destruct demo_kernel4_eq as (E1 & _ & E3), demo_image4 as (_ & H2 & H3 & _).
  split; rewrite ?E1.
  - apply demo_image_literal; [cbn; lia | vm_compute; reflexivity | vm_compute; reflexivity].
  - apply demo_image_literal; [cbn; lia | vm_compute; reflexivity | vm_compute; reflexivity].
  - apply demo_image_literal; [cbn; lia | vm_compute; reflexivity | vm_compute; reflexivity].
  - apply demo_image_literal; [cbn; lia | vm_compute; reflexivity | vm_compute; reflexivity].
  - apply demo_image_literal; [cbn; lia | vm_compute; reflexivity | vm_compute; reflexivity].
  - exists 3. unfold USER_STACK_PAGES, USER_STACK_BASE, PAGE_SIZE. cbn [Userland.buf demo_program]. lia.
  - intros i Hi. destruct (demo_mapped i Hi) as [M1 M2]. rewrite M1, E3. split_and!; [unfold is_u32; lia.. | reflexivity | | | exact M2].
    + intros (n & Hn & _ & Hr & _). rewrite H2 in Hn. replace n with 0 in Hr by lia. rewrite H3 in Hr. lia.
    + unfold stack_range, USER_STACK_BASE. lia.
  - apply Userland.one_file_wf.
  - split; [apply Userland.one_file_wf | lia].
Qed.

End Program.
