(* ===== verification/ShUtil.v ===== *)
(** * Strings of the shell ([shell/sh_util.c], [sh_strcmp] and [parse] of [shell/shell.c])

    Number parsing, string comparison and the splitting of a command line into
    arguments.  C strings are lists of bytes; the line buffer is an array that
    [parse] overwrites in place, and an argument is an offset into it. *)

From S2P Require Import Prelude Vga Ramfs.

Module ShUtil.

(** ** [sh_strtoul] *)

Definition UINT32_MAX : Z := 0xFFFFFFFF.

(** The value of a digit, or [None] at a character that ends the number. *)
Definition digit_of (c : Z) : option Z :=
  if (48 <=? c) && (c <=? 57) then Some (u32 (c - 48))
  else if (97 <=? c) && (c <=? 102) then Some (u32 (c - 97 + 10))
  else if (65 <=? c) && (c <=? 70) then Some (u32 (c - 65 + 10))
  else None.

(** [while ( *s)] on the characters before the NUL. *)
Fixpoint strtoul_loop (s : list Z) (base result : Z) : Z :=
  match s with
  | [] => result
  | c :: s' =>
      match digit_of c with
      | None => result
      | Some digit =>
          let max_before_mul := UINT32_MAX / base in
          let result :=
            if (max_before_mul <? result) || (UINT32_MAX - digit <? u32 (result * base)) then UINT32_MAX
            else u32 (result * base + digit) in
          strtoul_loop s' base result
      end
  end.

Definition sh_strtoul (s : list Z) (base : Z) : Z :=
  let s :=
    match s with
    | a :: b :: s' => if (base =? 16) && (a =? 48) && ((b =? 120) || (b =? 88)) then s' else s
    | _ => s
    end in
  strtoul_loop s base 0.

(** ** [sh_strcmp] *)

(** [while ( *a && *b && *a == *b)]; an exhausted list reads as NUL. *)
Fixpoint sh_strcmp (a b : list Z) : Z :=
  match a, b with
  | x :: a', y :: b' => if negb (x =? 0) && negb (y =? 0) && (x =? y) then sh_strcmp a' b' else u8 x - u8 y
  | x :: _, [] => u8 x
  | [], y :: _ => - u8 y
  | [], [] => 0
  end.

(** ** [parse] *)

Definition is_blank (c : Z) : bool := (c =? 32) || (c =? 9).

(** [while ( *p == ' ' || *p == '\t') p++;] with [n] bytes of the array left. *)
Fixpoint skip_blanks (n : nat) (line : list Z) (p : Z) : Z :=
  match n with
  | O => p
  | S n' => if is_blank (aget line p) then skip_blanks n' line (p + 1) else p
  end.

(** [while ( *p && *p != ' ' && *p != '\t') p++;] *)
Fixpoint skip_word (n : nat) (line : list Z) (p : Z) : Z :=
  match n with
  | O => p
  | S n' => if negb (aget line p =? 0) && negb (is_blank (aget line p)) then skip_word n' line (p + 1) else p
  end.

(** The outer loop: the line, the offsets in [argv] so far and the position.
    [room] is [max_args - argc]. *)
Fixpoint parse_loop (room : nat) (line : list Z) (argv : list Z) (p : Z) : list Z * list Z :=
  match room with
  | O => (line, argv)
  | S room' =>
      if aget line p =? 0 then (line, argv)
      else
        let p := skip_blanks (length line) line p in
        if aget line p =? 0 then (line, argv)
        else
          let argv := argv ++ [p] in
          let p := skip_word (length line) line p in
          if aget line p =? 0 then parse_loop room' line argv p
          else parse_loop room' (aset line p 0) argv (p + 1)
  end.

Definition parse (line : list Z) (max_args : Z) : list Z * list Z := parse_loop (Z.to_nat max_args) line [] 0.

(** The string at an offset of the line. *)
Definition cstring (line : list Z) (p : Z) : list Z := Ramfs.cname (drop (Z.to_nat p) line).

(** ** What [sh_strtoul] computes *)

(** The digits of the longest prefix of digit characters. *)
Fixpoint digits (s : list Z) : list Z :=
  match s with
  | [] => []
  | c :: s' => match digit_of c with Some d => d :: digits s' | None => [] end
  end.

Definition horner (base acc : Z) (ds : list Z) : Z := foldl (λ r d, r * base + d) acc ds.

Lemma digit_range (c d : Z) : digit_of c = Some d → 0 <= d < 16.
Proof.
  unfold digit_of. intros H. repeat case_match; simplify_eq; rewrite u32_id; unfold is_u32;
    rewrite ?andb_true_iff, ?Z.leb_le in *; lia.
Qed.

Lemma horner_mono (base a b : Z) (ds : list Z) : 0 <= base → a <= b → horner base a ds <= horner base b ds.
Proof. revert a b. unfold horner. induction ds as [|d ds IH]; intros a b Hb Hab; simpl; [done |]. apply IH; nia. Qed.

Lemma horner_ge (base a : Z) (ds : list Z) : 1 <= base → 0 <= a → Forall (λ d, 0 <= d) ds → a <= horner base a ds.
Proof.
  intros Hb Ha Hd. revert a Ha. unfold horner. induction Hd as [|d ds Hd _ IH]; intros a Ha; simpl; [done |].
  etrans; [| apply IH; nia]. nia.
Qed.

Lemma digits_range (s : list Z) : Forall (λ d, 0 <= d) (digits s).
Proof.
  induction s as [|c s IH]; cbn [digits]; [constructor |]. destruct (digit_of c) as [d|] eqn:E; [| constructor].
  apply digit_range in E. constructor; [lia | done].
Qed.

Lemma strtoul_loop_spec (s : list Z) (base r : Z) :
  2 <= base <= 36 → 0 <= r <= UINT32_MAX →
  strtoul_loop s base r = Z.min UINT32_MAX (horner base r (digits s)).
Proof.
  unfold UINT32_MAX. intros Hb. revert r. induction s as [|c s IH]; intros r Hr; cbn [strtoul_loop digits]; [unfold horner; simpl; lia |].
  destruct (digit_of c) as [d|] eqn:E; [| unfold horner; simpl; lia]. apply digit_range in E.
  unfold UINT32_MAX. set (q := 4294967295 / base). assert (q * base <= 4294967295 < (q + 1) * base) as Hq by (unfold q; zlia).
  assert (∀ x, 4294967295 <= x → Z.min 4294967295 (horner base x (digits s)) = 4294967295) as Hsat.
  { intros x Hx. pose proof (horner_ge base x (digits s) ltac:(lia) ltac:(lia) (digits_range s)). lia. }
  change (horner base r (d :: digits s)) with (horner base (r * base + d) (digits s)).
  destruct (Z.ltb_spec q r); cbn [orb].
  - rewrite IH by lia. rewrite !Hsat by nia. done.
  - rewrite u32_id by (unfold is_u32; nia). destruct (Z.ltb_spec (4294967295 - d) (r * base)).
    + rewrite IH by lia. rewrite !Hsat by lia. done.
    + rewrite u32_id by (unfold is_u32; nia). apply IH. nia.
Qed.

(** ** Printing and parsing numbers *)

Definition hex_text (v : Z) : list Z := 48 :: 120 :: Vga.hex_loop 8 v [].
Definition dec_text (v : Z) : list Z := if v =? 0 then [48] else reverse (Vga.dec_loop 11 v []).

Lemma digit_dec (d : Z) : 0 <= d < 10 → digit_of (48 + d) = Some d.
Proof.
  intros Hd. unfold digit_of. destruct (Z.leb_spec 48 (48 + d)), (Z.leb_spec (48 + d) 57); try lia. cbn [andb].
  f_equal. rewrite u32_id; unfold is_u32; lia.
Qed.

Lemma digit_hex (d : Z) : 0 <= d < 16 → digit_of (Vga.hex_digit d) = Some d.
Proof.
  intros Hd. unfold Vga.hex_digit. destruct (Z.ltb_spec d 10); [by apply digit_dec; lia |].
  unfold digit_of. zcases; cbn [andb]; try lia. f_equal. rewrite u32_id; unfold is_u32; lia.
Qed.

Lemma horner_snoc (base a d : Z) (ds : list Z) : horner base a (ds ++ [d]) = horner base a ds * base + d.
Proof. unfold horner. by rewrite foldl_app. Qed.

(** The characters of a list of digits, parsed back. *)
Lemma digits_map (f : Z → Z) (ds : list Z) : (∀ d, d ∈ ds → digit_of (f d) = Some d) → digits (f <$> ds) = ds.
Proof.
  induction ds as [|d ds IH]; intros H; [done |]. cbn [fmap list_fmap digits].
  rewrite H by (by left). rewrite IH; [done |]. intros x Hx. apply H. by right.
Qed.

Lemma hex_loop_digits (n : nat) (v : Z) (buf : list Z) :
  0 <= v → ∃ ds, Vga.hex_loop n v buf = (Vga.hex_digit <$> ds) ++ buf ∧ Forall (λ d, 0 <= d < 16) ds ∧
    horner 16 0 ds = v mod 16 ^ Z.of_nat n.
Proof.
  revert v buf. induction n as [|n IH]; intros v buf Hv; cbn [Vga.hex_loop].
  - exists []. split_and!; [done | constructor |]. change (16 ^ Z.of_nat 0) with 1. rewrite Z.mod_1_r. done.
  - destruct (IH (Z.shiftr v 4) (Vga.hex_digit (Z.land v 15) :: buf)) as (ds & E & Hd & Hh); [by apply Z.shiftr_nonneg |].
    change 15 with (Z.ones 4) in *. rewrite land_low_mask in * by lia. rewrite Z.shiftr_div_pow2 in * by lia.
    change (2 ^ 4) with 16 in *. pose proof (Z.mod_pos_bound v 16 ltac:(lia)).
    exists (ds ++ [v mod 16]). split_and!.
    + rewrite E, fmap_app, <- app_assoc. done.
    + apply Forall_app. split; [done |]. by rewrite Forall_singleton.
    + rewrite horner_snoc, Hh, Nat2Z.inj_succ, Z.pow_succ_r by lia.
      assert (0 < 16 ^ Z.of_nat n) by (apply Z.pow_pos_nonneg; lia).
      rewrite (Z.rem_mul_r v 16 (16 ^ Z.of_nat n)) by lia. lia.
Qed.

Lemma dec_loop_digits (fuel : nat) (v : Z) (buf : list Z) :
  0 <= v < 10 ^ Z.of_nat fuel → ∃ ds, Vga.dec_loop fuel v buf = buf ++ ((λ d, 48 + d) <$> ds) ∧
    Forall (λ d, 0 <= d < 10) ds ∧ horner 10 0 (reverse ds) = v.
Proof.
  revert v buf. induction fuel as [|fuel IH]; intros v buf Hv; cbn [Vga.dec_loop].
  - change (10 ^ Z.of_nat 0) with 1 in Hv. exists []. split_and!; [by rewrite app_nil_r | constructor |].
    unfold horner. simpl. lia.
  - destruct (Z.ltb_spec 0 v).
    + rewrite Nat2Z.inj_succ, Z.pow_succ_r in Hv by lia.
      destruct (IH (v / 10) (buf ++ [48 + v mod 10])) as (ds & E & Hd & Hh); [zlia |].
      exists (v mod 10 :: ds). pose proof (Z.mod_pos_bound v 10 ltac:(lia)). split_and!.
      * by rewrite E, <- app_assoc.
      * by constructor.
      * rewrite reverse_cons, horner_snoc, Hh. zlia.
    + exists []. split_and!; [by rewrite app_nil_r | constructor |]. unfold horner. simpl. lia.
Qed.

(** ** [sh_strcmp] decides equality *)

Lemma strcmp_zero (a b : list Z) :
  Forall (λ c, 0 < c < 256) a → Forall (λ c, 0 < c < 256) b → sh_strcmp a b = 0 ↔ a = b.
Proof.
  intros Ha. revert b. induction Ha as [|x a Hx _ IH]; intros b Hb; destruct Hb as [|y b Hy Hb]; cbn [sh_strcmp]; [done | | |].
  - rewrite u8_id by (unfold is_u8; lia). split; [lia | done].
  - rewrite u8_id by (unfold is_u8; lia). split; [lia | done].
  - destruct (Z.eqb_spec x 0); [lia |]. destruct (Z.eqb_spec y 0); [lia |]. cbn [negb andb].
    destruct (Z.eqb_spec x y) as [->|Hne].
    + rewrite IH by done. naive_solver.
    + rewrite !u8_id by (unfold is_u8; lia). split; [lia | naive_solver].
Qed.

(** ** [parse] splits at blanks *)

(** The reference: the maximal blank-free pieces of a string; [w] is the piece
    read so far. *)
Fixpoint words_from (w s : list Z) : list (list Z) :=
  match s with
  | [] => match w with [] => [] | _ => [w] end
  | c :: s' =>
      if is_blank c then match w with [] => words_from [] s' | _ => w :: words_from [] s' end
      else words_from (w ++ [c]) s'
  end.

Definition words (s : list Z) : list (list Z) := words_from [] s.

Definition no_nul (s : list Z) : Prop := Forall (λ c, c ≠ 0) s.

(** The array holds the string [s] and its NUL from position [p] on. *)
Definition at_pos (line : list Z) (p : nat) (s : list Z) : Prop :=
  (∀ i c, s !! i = Some c → line !! (p + i)%nat = Some c) ∧ line !! (p + length s)%nat = Some 0 ∧ no_nul s.

Lemma at_pos_aget (line : list Z) (p : nat) (s : list Z) :
  at_pos line p s → aget line (Z.of_nat p) = default 0 (head s).
Proof.
  intros (H1 & H2 & _). unfold aget. rewrite Nat2Z.id. destruct s as [|c s]; simpl in *.
  - by rewrite Nat.add_0_r in H2; rewrite H2.
  - specialize (H1 0%nat c eq_refl). rewrite Nat.add_0_r in H1. by rewrite H1.
Qed.

Lemma at_pos_app (line : list Z) (p : nat) (s1 s2 : list Z) : at_pos line p (s1 ++ s2) → at_pos line (p + length s1) s2.
Proof.
  intros (H1 & H2 & H3). split_and!.
  - intros i c Hi. replace (p + length s1 + i)%nat with (p + (length s1 + i))%nat by lia. apply H1.
    rewrite lookup_app_r by lia. by replace (length s1 + i - length s1)%nat with i by lia.
  - rewrite length_app in H2. by replace (p + length s1 + length s2)%nat with (p + (length s1 + length s2))%nat by lia.
  - by apply Forall_app in H3 as [_ H3].
Qed.

Lemma at_pos_bound (line : list Z) (p : nat) (s : list Z) : at_pos line p s → (p + length s < length line)%nat.
Proof. intros (_ & H & _). by eapply lookup_lt_Some. Qed.

(** The two inner loops, on a string that starts with the pieces they skip. *)
Lemma skip_blanks_spec (line : list Z) (b s : list Z) (p n : nat) :
  at_pos line p (b ++ s) → Forall (λ c, is_blank c = true) b → is_blank (default 0 (head s)) = false → (length b <= n)%nat →
  skip_blanks n line (Z.of_nat p) = Z.of_nat (p + length b).
Proof.
  revert p n. induction b as [|c b IH]; intros p n Hp Hb Hs Hn.
  - rewrite Nat.add_0_r. destruct n as [|n]; [done |]. cbn [skip_blanks app] in *. by rewrite (at_pos_aget _ _ _ Hp), Hs.
  - apply Forall_cons in Hb as [Hc Hb]. destruct n as [|n]; simpl in Hn; [lia |]. cbn [skip_blanks].
    rewrite (at_pos_aget _ _ _ Hp). cbn [app head default from_option id]. rewrite Hc.
    replace (Z.of_nat p + 1) with (Z.of_nat (p + 1)) by lia. rewrite IH; [f_equal; simpl; lia | | done | done | lia].
    by apply (at_pos_app line p [c]).
Qed.

Lemma skip_word_spec (line : list Z) (w s : list Z) (p n : nat) :
  at_pos line p (w ++ s) → Forall (λ c, is_blank c = false) w →
  (s = [] ∨ is_blank (default 0 (head s)) = true) → (length w <= n)%nat →
  skip_word n line (Z.of_nat p) = Z.of_nat (p + length w).
Proof.
  revert p n. induction w as [|c w IH]; intros p n Hp Hw Hs Hn.
  - rewrite Nat.add_0_r. destruct n as [|n]; [done |]. cbn [skip_word]. rewrite (at_pos_aget _ _ _ Hp).
    cbn [app]. destruct Hs as [->| ->]; [done |]. by rewrite andb_false_r.
  - apply Forall_cons in Hw as [Hc Hw]. destruct n as [|n]; simpl in Hn; [lia |]. cbn [skip_word].
    rewrite (at_pos_aget _ _ _ Hp). cbn [app head default from_option id]. rewrite Hc.
    destruct Hp as (P1 & P2 & P3). apply Forall_cons in P3 as P4. destruct P4 as [Hc0 _].
    destruct (Z.eqb_spec c 0); [done |]. cbn [negb andb].
    replace (Z.of_nat p + 1) with (Z.of_nat (p + 1)) by lia. rewrite IH; [f_equal; simpl; lia | | done | done | lia].
    by apply (at_pos_app line p [c]).
Qed.

(** Every string is blanks, a blank-free piece and a rest that is empty or starts
    with a blank. *)
Lemma split_string (s : list Z) :
  no_nul s → ∃ b w r, s = b ++ w ++ r ∧ Forall (λ c, is_blank c = true) b ∧ Forall (λ c, is_blank c = false) w ∧
    (r = [] ∨ is_blank (default 0 (head r)) = true) ∧ (w = [] → r = []).
Proof.
  assert (∀ s, ∃ w r, s = w ++ r ∧ Forall (λ c, is_blank c = false) w ∧ (r = [] ∨ is_blank (default 0 (head r)) = true)) as Hw.
  { induction s0 as [|c s0 (w & r & -> & H1 & H2)]; [exists [], []; split_and!; [done | constructor | by left] |].
    destruct (is_blank c) eqn:E; [exists [], (c :: w ++ r) | exists (c :: w), r].
    - split_and!; [done | constructor | by right].
    - split_and!; [done | by constructor | done]. }
  intros _. induction s as [|c s (b & w & r & -> & H1 & H2 & H3 & H4)].
  - exists [], [], []. split_and!; [done | constructor | constructor | by left | done].
  - destruct (is_blank c) eqn:E.
    + exists (c :: b), w, r. split_and!; [done | by constructor | done | done | done].
    + destruct (Hw (c :: b ++ w ++ r)) as (w' & r' & Es & G1 & G2). exists [], w', r'.
      split_and!; [done | constructor | done | done |]. intros ->. destruct G2 as [->|G2]; [done |].
      simpl in Es. subst r'. simpl in G2. congruence.
Qed.

Lemma words_blanks (b s : list Z) : Forall (λ c, is_blank c = true) b → words (b ++ s) = words s.
Proof. induction 1 as [|c b Hc _ IH]; [done |]. unfold words in *. cbn [app words_from]. by rewrite Hc. Qed.

Lemma words_word (w r : list Z) :
  Forall (λ c, is_blank c = false) w → w ≠ [] → (r = [] ∨ is_blank (default 0 (head r)) = true) →
  words (w ++ r) = w :: words (tail r).
Proof.
  intros Hw Hne Hr. unfold words.
  assert (∀ a, words_from a (w ++ r) = words_from (a ++ w) r) as ->.
  { clear Hne. induction Hw as [|c w Hc _ IH]; intros a; [by rewrite app_nil_r |]. cbn [app words_from].
    rewrite Hc, IH, <- app_assoc. done. }
  simpl. destruct w as [|c w]; [done |]. destruct r as [|d r]; [done |]. destruct Hr as [|Hr]; [done |]. simpl in *. by rewrite Hr.
Qed.

Lemma cname_lookup (l w : list Z) :
  (∀ i c, w !! i = Some c → l !! i = Some c) → l !! length w = Some 0 → no_nul w → Ramfs.cname l = w.
Proof.
  intros H1 H2 H3. revert l H1 H2. induction H3 as [|c w Hc _ IH]; intros l H1 H2.
  - destruct l as [|x l]; [done |]. by injection H2 as ->.
  - destruct l as [|x l]; [done |]. pose proof (H1 0%nat c eq_refl) as E. injection E as ->.
    cbn [Ramfs.cname]. destruct (Z.eqb_spec c 0); [done |]. f_equal. apply IH; [| done].
    intros i d Hi. apply (H1 (S i) d Hi).
Qed.

Lemma parse_loop_end (room : nat) (line argv : list Z) (p : Z) :
  aget line p = 0 → parse_loop room line argv p = (line, argv).
Proof. intros H. destruct room; cbn [parse_loop]; [done |]. by rewrite H. Qed.

(** The outer loop from position [p] on: what it adds to [argv], and that it
    changes nothing before [p]. *)
Lemma parse_loop_spec (room : nat) (line argv : list Z) (p : nat) (s : list Z) :
  at_pos line p s →
  ∃ line' offs, parse_loop room line argv (Z.of_nat p) = (line', argv ++ offs) ∧
    (∀ i, (i < p)%nat → line' !! i = line !! i) ∧ cstring line' <$> offs = take room (words s).
Proof.
  revert line argv p s. induction room as [|room IH]; intros line argv p s Hp; cbn [parse_loop].
  { exists line, []. rewrite app_nil_r. done. }
  pose proof Hp as (_ & _ & Hn). destruct (split_string s Hn) as (b & w & r & -> & Hb & Hw & Hr & Hwr).
  pose proof (at_pos_bound _ _ _ Hp) as Hbd. rewrite !length_app in Hbd.
  rewrite words_blanks by done. destruct (decide (w = [])) as [->|Hne].
  { rewrite (Hwr eq_refl), !app_nil_r in *. simpl. exists line, []. split_and!; [| done | done]. rewrite app_nil_r.
    destruct (aget line (Z.of_nat p) =? 0); [done |]. rewrite (skip_blanks_spec line b [] p) by (rewrite ?app_nil_r; done || lia).
    rewrite (at_pos_aget line (p + length b) []); [done |]. apply at_pos_app. by rewrite app_nil_r. }
  assert (aget line (Z.of_nat p) =? 0 = false) as ->.
  { apply Z.eqb_neq. rewrite (at_pos_aget _ _ _ Hp). destruct b as [|c b]; [destruct w as [|c w]; [done |] |]; simpl in *;
      by apply Forall_cons in Hn as [Hn _]. }
  assert (∃ c w', w = c :: w') as (c & w' & Ew) by (destruct w; [done | eauto]).
  assert (is_blank c = false ∧ c ≠ 0) as [Hc Hc0].
  { subst w. apply Forall_cons in Hw as [Hw _]. split; [done |]. apply Forall_app in Hn as [_ [Hn _]%Forall_cons]. done. }
  rewrite (skip_blanks_spec line b (w ++ r) p) by (done || lia || by rewrite Ew).
  pose proof (at_pos_app _ _ _ _ Hp) as Hq. set (q := (p + length b)%nat) in *.
  rewrite (at_pos_aget _ _ _ Hq). replace (default 0 (head (w ++ r))) with c by (by rewrite Ew).
  destruct (Z.eqb_spec c 0); [done |]. rewrite (skip_word_spec line w r q) by (done || lia).
  pose proof (at_pos_app _ _ _ _ Hq) as Hr'. set (t := (q + length w)%nat) in *. rewrite (at_pos_aget _ _ _ Hr').
  rewrite words_word by done.
  assert (∀ line', (∀ i, (i < t)%nat → line' !! i = line !! i) → line' !! t = Some 0 → cstring line' (Z.of_nat q) = w) as Hcs.
  { intros line' Hl Ht. unfold cstring. rewrite Nat2Z.id. destruct Hq as (Q1 & _ & Q3). apply Forall_app in Q3 as [Q3 _].
    apply cname_lookup; [| by rewrite lookup_drop | done]. intros i d Hi. rewrite lookup_drop.
    pose proof (lookup_lt_Some _ _ _ Hi). rewrite Hl by (unfold t; lia). apply Q1. by apply lookup_app_l_Some. }
  destruct r as [|d r]; cbn [head default from_option id tail].
  - rewrite Z.eqb_refl, parse_loop_end by (by rewrite (at_pos_aget _ _ _ Hr')).
    exists line, [Z.of_nat q]. split_and!; [done | done |]. cbn [fmap list_fmap]. rewrite Hcs; [by destruct room | done |].
    destruct Hr' as (_ & Hr' & _). by rewrite Nat.add_0_r in Hr'.
  - destruct Hr as [|Hr]; [done |]. destruct (Z.eqb_spec d 0) as [->|]; [done |].
    replace (Z.of_nat t + 1) with (Z.of_nat (t + 1)) by lia.
    pose proof (at_pos_bound _ _ _ Hr') as Ht. simpl in Ht.
    destruct (IH (aset line (Z.of_nat t) 0) (argv ++ [Z.of_nat q]) (t + 1)%nat r) as (line' & offs & E & H1 & H2).
    { apply (at_pos_app line t [d]) in Hr' as (R1 & R2 & R3). unfold aset. rewrite Nat2Z.id. cbn [length] in *.
      split_and!; [intros i x Hi | | done]; rewrite list_lookup_insert_ne by lia; auto. }
    unfold aset in H1. rewrite Nat2Z.id in H1.
    assert (∀ i, (i < t)%nat → line' !! i = line !! i) as Hk.
    { intros i Hi. rewrite H1 by lia. by rewrite list_lookup_insert_ne by lia. }
    exists line', (Z.of_nat q :: offs). rewrite E, <- app_assoc. split_and!; [done | |].
    + intros i Hi. apply Hk. unfold t, q. lia.
    + cbn [fmap list_fmap take]. f_equal; [| done]. apply Hcs; [done |]. rewrite H1 by lia.
      apply list_lookup_insert_eq. lia.
Qed.

(** ** Theorems *)

(** [sh_strtoul] saturates instead of wrapping: in any base up to 36 it
    returns the value of the longest prefix of digit characters (after an
    optional [0x] in base 16), or 2^32 - 1 when that value does not fit in 32
    bits. *)
Theorem sh_strtoul_saturates (s : list Z) (base : Z) :
  2 <= base <= 36 →
  sh_strtoul s base = Z.min (2 ^ 32 - 1) (horner base 0 (digits
    (match s with a :: b :: s' => if (base =? 16) && (a =? 48) && ((b =? 120) || (b =? 88)) then s' else s | _ => s end))).
Proof. intros Hb. unfold sh_strtoul. apply strtoul_loop_spec; unfold UINT32_MAX; lia. Qed.

(** C33. [parse] is the reference tokenizer: on a line buffer that holds the string
    [s], the strings its [argv] entries point at after it has written the NULs
    into the buffer are the first [max_args] of the blank-separated words of
    [s], in order, and [argc] is their number. *)
Theorem parse_words (line s : list Z) (max_args : Z) :
  at_pos line 0 s → 0 <= max_args →
  let '(line', argv) := parse line max_args in
  cstring line' <$> argv = take (Z.to_nat max_args) (words s) ∧ Z.of_nat (length argv) <= max_args.
Proof.
  intros Hs Hm. unfold parse. change 0 with (Z.of_nat 0) at 1.
  destruct (parse_loop_spec (Z.to_nat max_args) line [] 0 s Hs) as (line' & offs & -> & _ & E). simpl. split; [done |].
  pose proof (f_equal length E) as El. rewrite length_fmap, length_take in El. lia.
Qed.

(** Printing a number and parsing the text gives the number back: the text
    [kprint_hex] prints for any 32-bit value is read back by [sh_strtoul] in base
    16, and the text [kprint_int] prints for any non-negative [int] in base 10. *)
Theorem print_parse_roundtrip (v : Z) :
  (∀ w, Vga.kprint_hex v w = Vga.putchars (hex_text v) w) ∧ (is_u32 v → sh_strtoul (hex_text v) 16 = v) ∧
  (∀ w, 0 <= v → Vga.kprint_int v w = Vga.putchars (dec_text v) w) ∧ (0 <= v < 2 ^ 31 → sh_strtoul (dec_text v) 10 = v).
Proof.
  split; [done |]. split; [| split]; [intros Hv | intros w Hv | intros Hv].
  - unfold is_u32 in Hv. destruct (hex_loop_digits 8 v []) as (ds & E & Hd & Hh); [lia |].
    unfold hex_text, sh_strtoul. cbn [Z.eqb Pos.eqb andb orb]. rewrite strtoul_loop_spec by (unfold UINT32_MAX; lia).
    rewrite E, app_nil_r, digits_map.
    + rewrite Hh. change (16 ^ Z.of_nat 8) with (2 ^ 32). rewrite Z.mod_small by lia. unfold UINT32_MAX. lia.
    + intros d Hin. rewrite Forall_forall in Hd. by apply digit_hex, Hd.
  - unfold Vga.kprint_int, dec_text. destruct (Z.ltb_spec v 0); [lia |]. by destruct (v =? 0).
  - unfold dec_text. destruct (Z.eqb_spec v 0) as [->|Hne]; [done |].
    destruct (dec_loop_digits 11 v []) as (ds & E & Hd & Hh); [change (10 ^ Z.of_nat 11) with 100000000000; lia |].
    rewrite E, app_nil_l, <- fmap_reverse. unfold sh_strtoul. cbn [Z.eqb Pos.eqb andb].
    assert (∀ s : list Z, match s with a :: b :: s' => if false && (a =? 48) && ((b =? 120) || (b =? 88)) then s' else s | _ => s end = s) as Es.
    { intros [|a [|b s]]; done. }
    cbn [andb] in Es. rewrite Es, strtoul_loop_spec by (unfold UINT32_MAX; lia). rewrite digits_map.
    + rewrite Hh. unfold UINT32_MAX. lia.
    + intros d Hin. rewrite elem_of_reverse in Hin. rewrite Forall_forall in Hd. apply digit_dec. exact (Hd d Hin).
Qed.

(** ** Witnesses *)

Lemma sh_strtoul_saturates_witness : sh_strtoul (Vga.chars "4294967296") 10 = 2 ^ 32 - 1.
Proof. rewrite (sh_strtoul_saturates (Vga.chars "4294967296") 10) by lia. reflexivity. Defined.

Lemma parse_words_witness :
  let '(line', argv) := parse (Vga.chars "  run a b" ++ replicate 4 0) 16 in
  cstring line' <$> argv = [Vga.chars "run"; Vga.chars "a"; Vga.chars "b"].
Proof.
  pose proof (parse_words (Vga.chars "  run a b" ++ replicate 4 0) (Vga.chars "  run a b") 16) as H.
  destruct (parse (Vga.chars "  run a b" ++ replicate 4 0) 16) as [line' argv]. apply H; [| lia].
  split_and!; [intros i c Hi; by apply lookup_app_l_Some | done | repeat constructor; done].
Defined.

End ShUtil.
