(* ===== verification/Pit.v ===== *)
(** * The interval timer ([kernel/pit.c])

    Programming of channel 0 of the 8254 and the tick handler.  [channel] is the
    state machine of the timer channel: the access mode a command selects and the
    two halves of the reload value.  The handler counts the tick and runs the
    scheduler. *)

From S2P Require Import Prelude Memory Frames Vga Pmm Kmalloc Paging Scheduler Context Elf Process Idt.

Module Pit.

Definition PIT_BASE_FREQ : Z := 1193182.
Definition PIT_CMD : Z := 0x43.
Definition PIT_CHANNEL0 : Z := 0x40.

(** ** The device *)

(** [c_half] is [Some low] when the low byte of a reload value was written and
    the high byte is expected. *)
Record channel : Type := Channel { c_mode : Z; c_access : Z; c_half : option Z; c_reload : Z }.

(** A write to a port of the timer. *)
Definition outb (port v : Z) (c : channel) : channel :=
  if port =? PIT_CMD then
    if Z.land (Z.shiftr v 6) 3 =? 0 then Channel (Z.land (Z.shiftr v 1) 7) (Z.land (Z.shiftr v 4) 3) None (c_reload c) else c
  else if (port =? PIT_CHANNEL0) && (c_access c =? 3) then
    match c_half c with
    | None => Channel (c_mode c) (c_access c) (Some v) (c_reload c)
    | Some low => Channel (c_mode c) (c_access c) None (low + 2 ^ 8 * v)
    end
  else c.

(** A reload value of 0 stands for 65536. *)
Definition divides_by (c : channel) : Z := if c_reload c =? 0 then 65536 else c_reload c.

(** ** The driver *)

Record pit : Type := Pit { tick_count : Z; chan : channel }.

Definition pit_ticks (p : pit) : Z := tick_count p.

(** The processor raises a divide error when [hz] is zero. *)
Definition pit_init (hz : Z) (p : pit) (s : Idt.idt_state) (v : Vga.vga) : outcome (pit * Idt.idt_state * Vga.vga) :=
  if hz =? 0 then Panicked "EXCEPTION: Division By Zero"
  else
    let divisor := PIT_BASE_FREQ / hz in
    let c := outb PIT_CMD 0x36 (chan p) in
    let c := outb PIT_CHANNEL0 (u8 (Z.land divisor 0xFF)) c in
    let c := outb PIT_CHANNEL0 (u8 (Z.land (Z.shiftr divisor 8) 0xFF)) c in
    let s := Idt.irq_register 0 Idt.pit_handler s in
    let v := Vga.vga_set_color Vga.VGA_COLOR_LIGHT_GREEN v in
    let v := Vga.kprints "[OK] PIT initialized (" v in
    let v := Vga.kprint_int (s32 hz) v in
    let v := Vga.kprint (Vga.chars " Hz)" ++ [Vga.NEWLINE]) v in
    let v := Vga.vga_set_color Vga.VGA_COLOR_LIGHT_GREY v in
    Done (Pit (tick_count p) c, s, v).

Section handler.
Context {F : Type} `{!FrameAlloc F}.
Variable lk : Process.link.

Definition pit_handler (p : pit) (k : Process.kernel F) : outcome (pit * Process.kernel F) :=
  let p := Pit (u32 (tick_count p + 1)) (chan p) in
  let! k := Process.scheduler_tick lk k in
  Done (p, k).

End handler.

(** ** Theorems *)

Lemma program_channel (d : Z) (c : channel) :
  0 <= d →
  outb PIT_CHANNEL0 (u8 (Z.land (Z.shiftr d 8) 0xFF)) (outb PIT_CHANNEL0 (u8 (Z.land d 0xFF)) (outb PIT_CMD 0x36 c)) =
  Channel 3 3 None (d mod 65536).
Proof.
  intros Hd. assert (∀ x, u8 (Z.land x 0xFF) = x mod 256) as M.
  { intros x. change 0xFF with (Z.ones 8). rewrite land_low_mask by lia. unfold u8. apply Zmod_mod. }
  rewrite !M, Z.shiftr_div_pow2 by lia.
  change (outb PIT_CMD 0x36 c) with (Channel 3 3 None (c_reload c)).
  change (outb PIT_CHANNEL0 ?b (outb PIT_CHANNEL0 ?a (Channel 3 3 None ?r))) with (Channel 3 3 None (a + 2 ^ 8 * b)).
  f_equal. zlia.
Qed.

(** [pit_init] programs the timer to the requested rate: for every rate from
    19 Hz to the base frequency, channel 0 is left in square-wave mode counting
    down from the largest divisor that does not run slower than asked, and the
    tick handler is the one called for interrupt line 0. *)
Theorem pit_init_programs (hz : Z) (p : pit) (s : Idt.idt_state) (v : Vga.vga) :
  19 <= hz <= PIT_BASE_FREQ → length (Idt.irq_handlers s) = 16%nat →
  ∃ p' s' v', pit_init hz p s v = Done (p', s', v') ∧ c_mode (chan p') = 3 ∧
    divides_by (chan p') * hz <= PIT_BASE_FREQ < (divides_by (chan p') + 1) * hz ∧
    Idt.irq_handlers s' !! 0%nat = Some (Some Idt.pit_handler) ∧ tick_count p' = tick_count p.
Proof.
  intros Hhz Hl. unfold pit_init, PIT_BASE_FREQ in *. destruct (Z.eqb_spec hz 0); [lia |].
  rewrite program_channel by (apply Z.div_pos; lia). do 3 eexists. split; [reflexivity |].
  assert (1 <= 1193182 / hz < 65536) as Hd.
  { split; [apply Z.div_le_lower_bound; lia | apply Z.div_lt_upper_bound; lia]. }
  cbn [chan c_mode divides_by c_reload tick_count]. unfold divides_by. cbn [c_reload]. rewrite Z.mod_small by lia.
  destruct (Z.eqb_spec (1193182 / hz) 0); [lia |]. split_and!; try done.
  - pose proof (Z.mul_div_le 1193182 hz ltac:(lia)). lia.
  - pose proof (Z.mul_succ_div_gt 1193182 hz ltac:(lia)). lia.
  - cbn. rewrite list_lookup_insert_eq by lia. done.
Qed.

(** Below 19 Hz the divisor does not fit in the sixteen bits of the channel
    and its high bits are dropped: the timer then runs faster than asked, at
    least one and a half times the requested rate for 10 Hz. *)
Theorem pit_init_low_rates (hz : Z) (p : pit) (s : Idt.idt_state) (v : Vga.vga) :
  0 < hz < 19 →
  ∃ p' s' v', pit_init hz p s v = Done (p', s', v') ∧ divides_by (chan p') ≠ PIT_BASE_FREQ / hz ∧
    divides_by (chan p') * hz < PIT_BASE_FREQ - hz ∧
    (hz = 10 → 3 * (divides_by (chan p') * hz) < 2 * PIT_BASE_FREQ).
Proof.
  intros Hhz. unfold pit_init, PIT_BASE_FREQ in *. destruct (Z.eqb_spec hz 0); [lia |].
  rewrite program_channel by (apply Z.div_pos; lia). do 3 eexists. split; [reflexivity |].
  cbn [chan]. unfold divides_by. cbn [c_reload].
  assert (hz = 1 ∨ hz = 2 ∨ hz = 3 ∨ hz = 4 ∨ hz = 5 ∨ hz = 6 ∨ hz = 7 ∨ hz = 8 ∨ hz = 9 ∨ hz = 10 ∨ hz = 11 ∨
    hz = 12 ∨ hz = 13 ∨ hz = 14 ∨ hz = 15 ∨ hz = 16 ∨ hz = 17 ∨ hz = 18) as Hc by lia.
  repeat (destruct Hc as [->|Hc]); [.. | subst hz]; vm_compute; split_and!; congruence || discriminate || done.
Qed.

(** ** Witnesses *)

Lemma pit_init_programs_witness :
  ∃ p' s' v', pit_init 100 (Pit 0 (Channel 0 0 None 0)) Idt.demo_idt (Vga.Vga [] 0 0 7) = Done (p', s', v') ∧
    c_mode (chan p') = 3.
Proof.
  destruct (pit_init_programs 100 (Pit 0 (Channel 0 0 None 0)) Idt.demo_idt (Vga.Vga [] 0 0 7)) as (p' & s' & v' & E & H & _).
  - unfold PIT_BASE_FREQ. lia.
  - done.
  - exists p', s', v'. done.
Defined.

Lemma pit_init_low_rates_witness :
  ∃ p' s' v', pit_init 10 (Pit 0 (Channel 0 0 None 0)) Idt.demo_idt (Vga.Vga [] 0 0 7) = Done (p', s', v') ∧
    3 * (divides_by (chan p') * 10) < 2 * PIT_BASE_FREQ.
Proof.
  destruct (pit_init_low_rates 10 (Pit 0 (Channel 0 0 None 0)) Idt.demo_idt (Vga.Vga [] 0 0 7)) as (p' & s' & v' & E & _ & _ & H).
  - lia.
  - exists p', s', v'. split; [exact E | by apply H].
Defined.

End Pit.
