(* ===== verification/System.v ===== *)
(** * The whole system

    The state of all components together, and the printing calls as data.  The
    frame allocator is the physical memory manager of [Pmm.v]. *)

From S2P Require Import Prelude Memory Frames Vga Pmm Kmalloc Paging Scheduler Context Elf Process Ramfs Syscall Keyboard Gdt Idt Pit.

Module System.

#[export] Existing Instance Pmm.pmm_frames.

Abbreviation kernel := (Process.kernel Pmm.pmm).

(** ** Console output *)

(** One call of a printing function: [kprint] of a literal, of a line end or of
    a string in memory, [kprint_int], [kprint_hex], [vga_set_color],
    [vga_putchar]. *)
Inductive piece : Type :=
| Str (s : string)
| Nl
| CStr (l : list Z)
| Int (z : Z)
| Hex (z : Z)
| Color (c : Z)
| Chr (c : Z).

Definition emit1 (v : Vga.vga) (p : piece) : Vga.vga :=
  match p with
  | Str s => Vga.kprints s v
  | Nl => Vga.kprint [Vga.NEWLINE] v
  | CStr l => Vga.kprint l v
  | Int z => Vga.kprint_int z v
  | Hex z => Vga.kprint_hex z v
  | Color c => Vga.vga_set_color c v
  | Chr c => Vga.vga_putchar c v
  end.

Definition emit (ps : list piece) (v : Vga.vga) : Vga.vga := foldl emit1 v ps.

Lemma emit_app (ps qs : list piece) (v : Vga.vga) : emit (ps ++ qs) v = emit qs (emit ps v).
Proof. apply foldl_app. Qed.

(** ** State *)

(** [sy_line] and [sy_len] are the line buffer of the shell; [sy_ports] is the
    log of writes to ports no modelled device answers. *)
Record system : Type := System {
  sy_k : kernel;
  sy_fs : Ramfs.ramfs;
  sy_kb : Keyboard.keyboard;
  sy_gdt : Gdt.gdt_state;
  sy_idt : Idt.idt_state;
  sy_pics : Idt.pics;
  sy_pit : Pit.pit;
  sy_line : list Z;
  sy_len : Z;
  sy_ports : list (Z * Z)
}.

Definition set_k (v : kernel) (s : system) : system :=
  System v (sy_fs s) (sy_kb s) (sy_gdt s) (sy_idt s) (sy_pics s) (sy_pit s) (sy_line s) (sy_len s) (sy_ports s).
Definition set_fs (v : Ramfs.ramfs) (s : system) : system :=
  System (sy_k s) v (sy_kb s) (sy_gdt s) (sy_idt s) (sy_pics s) (sy_pit s) (sy_line s) (sy_len s) (sy_ports s).
Definition set_kb (v : Keyboard.keyboard) (s : system) : system :=
  System (sy_k s) (sy_fs s) v (sy_gdt s) (sy_idt s) (sy_pics s) (sy_pit s) (sy_line s) (sy_len s) (sy_ports s).
Definition set_gdt (v : Gdt.gdt_state) (s : system) : system :=
  System (sy_k s) (sy_fs s) (sy_kb s) v (sy_idt s) (sy_pics s) (sy_pit s) (sy_line s) (sy_len s) (sy_ports s).
Definition set_idt (v : Idt.idt_state) (s : system) : system :=
  System (sy_k s) (sy_fs s) (sy_kb s) (sy_gdt s) v (sy_pics s) (sy_pit s) (sy_line s) (sy_len s) (sy_ports s).
Definition set_pics (v : Idt.pics) (s : system) : system :=
  System (sy_k s) (sy_fs s) (sy_kb s) (sy_gdt s) (sy_idt s) v (sy_pit s) (sy_line s) (sy_len s) (sy_ports s).
Definition set_pit (v : Pit.pit) (s : system) : system :=
  System (sy_k s) (sy_fs s) (sy_kb s) (sy_gdt s) (sy_idt s) (sy_pics s) v (sy_line s) (sy_len s) (sy_ports s).
Definition set_line (l : list Z) (n : Z) (s : system) : system :=
  System (sy_k s) (sy_fs s) (sy_kb s) (sy_gdt s) (sy_idt s) (sy_pics s) (sy_pit s) l n (sy_ports s).
Definition out_port (port v : Z) (s : system) : system :=
  System (sy_k s) (sy_fs s) (sy_kb s) (sy_gdt s) (sy_idt s) (sy_pics s) (sy_pit s) (sy_line s) (sy_len s)
    (sy_ports s ++ [(port, v)]).

Definition on_vga (f : Vga.vga → Vga.vga) (s : system) : system :=
  set_k (Process.with_vga (f (Process.k_vga (sy_k s))) (sy_k s)) s.

Definition say (ps : list piece) : system → system := on_vga (emit ps).

Definition procs (s : system) : Scheduler.procs := Process.k_procs (sy_k s).
Definition mem (s : system) : memory := Process.k_mem (sy_k s).

(** Addresses the linker assigns, on top of those of the kernel: the embedded
    program, string literals that are passed by address, and the stack buffer of
    [cmd_fstest]. *)
Record image : Type := Image {
  im_link : Process.link;
  im_blob : Z;
  im_blob_size : Z;
  im_sync_msg : Z;
  im_test_elf : Z;
  im_fstest_buf : Z
}.

(** ** Hardware interrupts *)

(** [irq_handler] with the handler it dispatches to; the keyboard handler reads
    the scancode [sc] the controller holds. *)
Definition irq (lk : Process.link) (int_no sc : Z) (s : system) : outcome system :=
  let '(p, h) := Idt.irq_handler int_no (sy_idt s) (sy_pics s) in
  let s := set_pics p s in
  match h with
  | None => Done s
  | Some Idt.keyboard_handler => Done (set_kb (Keyboard.keyboard_handler (u8 sc) (sy_kb s)) s)
  | Some Idt.pit_handler =>
      let! (p, k) := Pit.pit_handler lk (sy_pit s) (sy_k s) in
      Done (set_pit p (set_k k s))
  end.

(** ** A concrete system *)

Definition demo_procs : Scheduler.procs :=
  Scheduler.Procs (<[0x9000 := Scheduler.set_state Scheduler.PROCESS_RUNNING Scheduler.zero_pcb]> ∅) 1 0x9000
    (0x9000 :: replicate 15 0) 0x9000 0x9000 1 0.

(** The kernel is given by its memory and page directory. *)
Definition demo_system (m : memory) (pd : Z) : system :=
  System (Process.Kernel Pmm.demo_pmm m Kmalloc.demo_heap demo_procs (Context.with_cr3 pd (Context.demo_cpu 0x8F000)) 0x90000
    (Paging.PagingState pd pd true) (Vga.Vga [] 0 0 7)) Ramfs.ramfs_boot Keyboard.kb_boot Gdt.demo_gdt
    Idt.demo_idt Idt.demo_pics (Pit.Pit 0 (Pit.Channel 0 0 None 0)) (replicate 256 0) 0 [].

End System.
