(* ===== verification/Commands.v ===== *)
(** * Shell commands ([shell/commands.c], [commands_core.c], [commands_mem.c],
      [commands_proc.c], [commands_user.c], [commands_fs.c]) and [process_list]

    Each command is a function of its arguments on the state of the system.  Two
    things happen outside a command while it runs: [hlt] waits for an interrupt,
    and a call that yields lets other processes run; what they do until the shell
    runs again is a parameter, [env]. *)

From S2P Require Import Prelude Memory Frames Vga Pmm Kmalloc Paging Scheduler Context Elf Process Ramfs Syscall Keyboard.
From S2P Require Import Gdt Idt Pit System ShUtil.

Module Commands.
Import System.

Record env : Type := Env {
  e_hlt : system → outcome system;
  e_others : system → outcome system
}.

Abbreviation argument := (list Z).

Definition arg (argv : list argument) (i : nat) : argument := default [] (argv !! i).

Definition RED : piece := Color Vga.VGA_COLOR_LIGHT_RED.
Definition GREY : piece := Color Vga.VGA_COLOR_LIGHT_GREY.
Definition GREEN : piece := Color Vga.VGA_COLOR_LIGHT_GREEN.
Definition CYAN : piece := Color Vga.VGA_COLOR_LIGHT_CYAN.
Definition WHITE : piece := Color Vga.VGA_COLOR_WHITE.

(** [kprint(" ")] from column [from] to column [to]. *)
Definition pad (from to : Z) : list piece := replicate (Z.to_nat (to - from)) (Str " ").

(** ** The command table *)

Inductive command : Type :=
| cmd_help | cmd_clear | cmd_echo | cmd_meminfo | cmd_memtest | cmd_hexdump | cmd_heapinfo | cmd_heaptest | cmd_ps
| cmd_sleep | cmd_uptime | cmd_vminfo | cmd_synctest | cmd_elftest | cmd_fstest | cmd_ls | cmd_run | cmd_shutdown.

Definition commands : list (string * string * command) :=
  [("help", "list available commands", cmd_help);
   ("clear", "clear the screen", cmd_clear);
   ("echo", "print arguments to screen", cmd_echo);
   ("meminfo", "show PMM memory statistics", cmd_meminfo);
   ("memtest", "alloc/free N frames (default 8)", cmd_memtest);
   ("hexdump", "dump memory: hexdump <addr> <len>", cmd_hexdump);
   ("heapinfo", "show kmalloc heap statistics", cmd_heapinfo);
   ("heaptest", "alloc/free/read-back heap chunks", cmd_heaptest);
   ("ps", "list processes", cmd_ps);
   ("sleep", "sleep <ticks> (100 ticks = 1 second)", cmd_sleep);
   ("uptime", "show ticks and seconds since boot", cmd_uptime);
   ("vminfo", "show virtual memory info", cmd_vminfo);
   ("synctest", "exercise int 0x80 syscall gate", cmd_synctest);
   ("elftest", "load and run the embedded test ELF binary", cmd_elftest);
   ("fstest", "exercise SYS_OPEN/READ/CLOSE against ramfs", cmd_fstest);
   ("ls", "list files in ramfs", cmd_ls);
   ("run", "run <filename> - load and execute an ELF from ramfs", cmd_run);
   ("shutdown", "shut down the system", cmd_shutdown)]%string.

(** ** [commands_core.c] *)

Definition help_line (e : string * string * command) : list piece :=
  let '(name, help, _) := e in
  [WHITE; Str "  "; Str name] ++ pad (Z.of_nat (String.length name)) 10 ++ [GREY; Str "- "; Str help; Nl].

Definition do_help (s : system) : system :=
  say ([CYAN; Str "StakOS commands:"; Nl] ++ concat (help_line <$> commands)) s.

Definition do_clear (s : system) : system := on_vga Vga.vga_init s.

Definition do_echo (argv : list argument) (s : system) : system :=
  let argc := Z.of_nat (length argv) in
  let s := for_loop (Z.to_nat (argc - 1)) 1 (λ i s,
    let s := say [CStr (arg argv (Z.to_nat i))] s in
    if i <? argc - 1 then say [Str " "] s else s) s in
  say [Nl] s.

(** The state in which the processor is halted for good. *)
Definition shutdown_state (s : system) : system :=
  let s := say [RED; Str "Shutting down StakOS..."; Nl] s in
  let s := out_port 0x604 0x2000 s in
  let s := out_port 0x4004 0x3400 s in
  let s := out_port 0xB004 0x2000 s in
  say [GREY; Str "Shutdown failed. It is now safe to turn off your computer."; Nl] s.

Definition do_shutdown (s : system) : outcome system := let _ := shutdown_state s in Diverged.

(** ** [commands_mem.c] *)

Definition do_meminfo (s : system) : system := on_vga (Pmm.pmm_print_stats (Process.k_frames (sy_k s))) s.

Definition MEMTEST_MAX_FRAMES : Z := 64.

Section memtest.
Context {F : Type} `{!FrameAlloc F}.

(** The allocation loop, with [n] rounds left: the frames got, the allocator and
    the console; the flag is cleared when an allocation fails. *)
Fixpoint memtest_alloc (n : nat) (i : Z) (got : list Z) (fs : F) (v : Vga.vga) : bool * list Z * F * Vga.vga :=
  match n with
  | O => (true, got, fs, v)
  | S n' =>
      let '(a, fs) := alloc_frame fs in
      if a =? 0 then (false, got, fs, emit [RED; Str "  [FAIL] alloc returned 0 at i="; Int (s32 i); Nl] v)
      else memtest_alloc n' (i + 1) (got ++ [a]) fs (emit [Str "  alloc["; Int (s32 i); Str "] = "; Hex a; Nl] v)
  end.

Definition memtest (n : Z) (fs : F) (v : Vga.vga) : F * Vga.vga :=
  if (n =? 0) || (MEMTEST_MAX_FRAMES <? n) then (fs, emit [RED; Str "memtest: n must be 1-64"; Nl; GREY] v)
  else
    let v := emit [CYAN; Str "memtest: allocating "; Int (s32 n); Str " frames"; Nl; GREY] v in
    let '(ok, frames, fs, v) := memtest_alloc (Z.to_nat n) 0 [] fs v in
    let v := if ok : bool then emit [GREEN; Str "  all allocs OK"; Nl; GREY] v else v in
    let n := Z.of_nat (length frames) in
    let fs := foldl (λ fs a, free_frame a fs) fs frames in
    (fs, emit [GREEN; Str "  freed "; Int (s32 n); Str " frames - PMM recovered"; Nl; GREY] v).

End memtest.

Definition do_memtest (argv : list argument) (s : system) : system :=
  let n := if 2 <=? Z.of_nat (length argv) then ShUtil.sh_strtoul (arg argv 1) 10 else 8 in
  let k := sy_k s in
  let '(fs, v) := memtest n (Process.k_frames k) (Process.k_vga k) in
  set_k (Process.with_vga v (Process.with_frames fs k)) s.

Definition hex_char (nibble : Z) : Z := if nibble <? 10 then 48 + nibble else 97 + nibble - 10.

(** The text buffer at 0xB8000 is the state of the console; every other byte is
    a byte of memory. *)
Definition VGA_ADDRESS : Z := 0xB8000.
Definition VGA_BYTES : Z := 2 * Vga.VGA_ROWS * Vga.VGA_COLS.

Definition vga_byte (v : Vga.vga) (i : Z) : Z := u8 (Z.shiftr (aget (Vga.vga_buf v) (i / 2)) (8 * (i mod 2))).

(** [ptr[i]] through the page directory [pd]. *)
Definition peek (m : memory) (pd va : Z) (v : Vga.vga) : outcome Z :=
  match Paging.translate Paging.supervisor m pd (u32 va) with
  | Some pa => Done (if (VGA_ADDRESS <=? pa) && (pa <? VGA_ADDRESS + VGA_BYTES) then vga_byte v (pa - VGA_ADDRESS) else load8 m pa)
  | None => Syscall.page_fault
  end.

(** [n] rounds of a loop that prints, from round [i] on. *)
Fixpoint print_loop (n : nat) (i : Z) (body : Z → Vga.vga → outcome Vga.vga) (v : Vga.vga) : outcome Vga.vga :=
  match n with
  | O => Done v
  | S n' => let! v := body i v in print_loop n' (i + 1) body v
  end.

Definition hex_pair (byte : Z) : list piece :=
  [Chr (hex_char (Z.land (Z.shiftr byte 4) 0xF)); Chr (hex_char (Z.land byte 0xF))].

Definition dump_gap (i : Z) : list piece := Chr 32 :: (if i =? 7 then [Chr 32] else []).

Definition dump_hex (m : memory) (pd addr len offset i : Z) (v : Vga.vga) : outcome Vga.vga :=
  if offset + i <? len then
    let! byte := peek m pd (addr + (offset + i)) v in
    Done (emit (hex_pair byte ++ dump_gap i) v)
  else Done (emit (Str "  " :: dump_gap i) v).

Definition printable (byte : Z) : Z := if (32 <=? byte) && (byte <? 127) then byte else 46.

(** The loop runs while [i < 16 && offset + i < len]; the rounds after it add
    nothing. *)
Definition dump_ascii (m : memory) (pd addr len offset i : Z) (v : Vga.vga) : outcome Vga.vga :=
  if offset + i <? len then
    let! byte := peek m pd (addr + (offset + i)) v in
    Done (emit [Chr (printable byte)] v)
  else Done v.

Definition dump_row (m : memory) (pd addr len offset : Z) (v : Vga.vga) : outcome Vga.vga :=
  let v := emit [GREY; Hex (u32 (addr + offset)); Str "  "; WHITE] v in
  let! v := print_loop 16 0 (dump_hex m pd addr len offset) v in
  let v := emit [CYAN; Str " |"] v in
  let! v := print_loop 16 0 (dump_ascii m pd addr len offset) v in
  Done (emit [Str "|"; Nl] v).

(** [for (offset = 0; offset < len; offset += 16)] has (len + 15) / 16 rounds. *)
Definition dump_rows (m : memory) (pd addr len : Z) (v : Vga.vga) : outcome Vga.vga :=
  print_loop (Z.to_nat ((len + 15) / 16)) 0 (λ r, dump_row m pd addr len (16 * r)) v.

Definition do_hexdump (argv : list argument) (s : system) : outcome system :=
  if Z.of_nat (length argv) <? 3 then Done (say [RED; Str "usage: hexdump <addr> <len>"; Nl; GREY] s)
  else
    let addr := ShUtil.sh_strtoul (arg argv 1) 16 in
    let len := ShUtil.sh_strtoul (arg argv 2) 10 in
    let max_mapped := Paging.IDENTITY_MAPPED_BYTES in
    if (max_mapped <? addr) || (u32 (max_mapped - addr) <? len) then
      Done (say [RED; Str "hexdump: address range outside mapped memory (0x0-"; Hex max_mapped; Str ")"; Nl; GREY] s)
    else if (len =? 0) || (512 <? len) then Done (say [RED; Str "hexdump: len must be 1-512"; Nl; GREY] s)
    else
      let! v := dump_rows (mem s) (Syscall.cur_pd (sy_k s)) addr len (Process.k_vga (sy_k s)) in
      Done (on_vga (λ _, emit [GREY] v) s).

Definition do_heapinfo (s : system) : outcome system :=
  let! v := Kmalloc.kmalloc_print_stats (Process.k_heap (sy_k s)) (mem s) (Process.k_vga (sy_k s)) in
  Done (on_vga (λ _, v) s).

(** The memory part of [heaptest]: the four pointers, whether the bytes read back
    are the bytes written, and the memory. *)
Definition heaptest_alloc (h : Kmalloc.heap) (m : memory) : outcome (list Z * bool * memory) :=
  let! (a, m) := Kmalloc.kmalloc 32 h m in
  let! (b, m) := Kmalloc.kmalloc 128 h m in
  let! (c, m) := Kmalloc.kmalloc 64 h m in
  let! (d, m) := Kmalloc.kmalloc 256 h m in
  let m := if a =? 0 then m else store8 (store8 m a 0xAB) (a + 31) 0xCD in
  let m := if b =? 0 then m else store8 (store8 m b 0x12) (b + 127) 0x34 in
  let ok :=
    negb (a =? 0) && negb (b =? 0) && negb (c =? 0) && negb (d =? 0) &&
    (load8 m a =? 0xAB) && (load8 m (a + 31) =? 0xCD) && (load8 m b =? 0x12) && (load8 m (b + 127) =? 0x34) in
  Done ([a; b; c; d], ok, m).

Definition heaptest_free (ps : list Z) (h : Kmalloc.heap) (m : memory) : outcome memory :=
  foldl (λ r p, let! m := r in Kmalloc.kfree p h m) (Done m) ps.

Definition do_heaptest (s : system) : outcome system :=
  let s := say [CYAN; Str "heaptest: allocating chunks"; Nl; GREY] s in
  let h := Process.k_heap (sy_k s) in
  let! (ps, ok, m) := heaptest_alloc h (mem s) in
  let s := set_k (Process.with_mem m (sy_k s)) s in
  let s := say [Str "  kmalloc(32)  = "; Hex (aget ps 0); Nl; Str "  kmalloc(128) = "; Hex (aget ps 1); Nl;
                Str "  kmalloc(64)  = "; Hex (aget ps 2); Nl; Str "  kmalloc(256) = "; Hex (aget ps 3); Nl] s in
  let s := if ok : bool then say [GREEN; Str "  read-back OK"; Nl] s else say [RED; Str "  [FAIL] read-back mismatch!"; Nl] s in
  let s := say [GREY; Str "heaptest: freeing (check coalesce)"; Nl] s in
  let! m := heaptest_free ps h (mem s) in
  let s := set_k (Process.with_mem m (sy_k s)) s in
  Done (say [GREEN; Str "  freed - run heapinfo to confirm coalesced"; Nl; GREY] s).

(** ** [process_list] ([kernel/process.c]) and [commands_proc.c] *)

(** [while (p) { if (p != cur) print(p); p = p->next; }] from the head of the run
    queue. *)
Fixpoint queue_rows (fuel : nat) (row : Z → list piece) (s : Scheduler.procs) (cur p : Z) : outcome (list piece) :=
  match fuel with
  | O => Diverged
  | S fuel' =>
      if p =? 0 then Done []
      else
        let! rest := queue_rows fuel' row s cur (Scheduler.next (Scheduler.pcb s p)) in
        Done ((if negb (p =? cur) then row p else []) ++ rest)
  end.

Definition all_queue_rows (row : Z → list piece) (s : Scheduler.procs) : outcome (list piece) :=
  queue_rows (Scheduler.walk_fuel s) row s (Scheduler.process_current s) (Scheduler.scheduler_queue_head s).

Definition state_name (st : Scheduler.process_state) : string :=
  match st with
  | Scheduler.PROCESS_READY => "READY  "
  | Scheduler.PROCESS_RUNNING => "RUNNING"
  | Scheduler.PROCESS_BLOCKED => "BLOCKED"
  | Scheduler.PROCESS_ZOMBIE => "ZOMBIE "
  | Scheduler.PROCESS_DEAD => "DEAD   "
  end.

Definition print_proc_row (s : Scheduler.procs) (highlight : bool) (p : Z) : list piece :=
  let x := Scheduler.pcb s p in
  [if highlight then WHITE else GREY; Int (s32 (Scheduler.pid x)); Str "    "; Str (state_name (Scheduler.state x));
   Str "  "; Int (s32 (Scheduler.priority x)); Str "    "; CStr (Scheduler.name x); Nl].

Definition process_list (s : Scheduler.procs) : outcome (list piece) :=
  let cur := Scheduler.process_current s in
  let! rows := all_queue_rows (print_proc_row s false) s in
  Done ([CYAN; Str "PID  STATE    PRI  NAME"; Nl; Str "---  -------  ---  ----------------"; Nl] ++
        (if cur =? 0 then [] else print_proc_row s true cur) ++ rows ++ [GREY]).

Definition do_ps (s : system) : outcome system :=
  let! ps := process_list (procs s) in
  Done (say ps s).

(** [while (pit_ticks() - start < ticks) hlt;] *)
Fixpoint sleep_loop (fuel : nat) (e : env) (start ticks : Z) (s : system) : outcome system :=
  match fuel with
  | O => Diverged
  | S fuel' =>
      if u32 (Pit.pit_ticks (sy_pit s) - start) <? ticks then
        let! s := e_hlt e s in
        sleep_loop fuel' e start ticks s
      else Done s
  end.

Definition do_sleep (fuel : nat) (e : env) (argv : list argument) (s : system) : outcome system :=
  if Z.of_nat (length argv) <? 2 then Done (say [RED; Str "usage: sleep <ticks>"; Nl; GREY] s)
  else
    let ticks := ShUtil.sh_strtoul (arg argv 1) 10 in
    let start := Pit.pit_ticks (sy_pit s) in
    let! s := sleep_loop fuel e start ticks s in
    Done (say [GREEN; Str "slept "; Int (s32 ticks); Str " ticks"; Nl; GREY] s).

Definition do_uptime (s : system) : system :=
  let ticks := Pit.pit_ticks (sy_pit s) in
  let secs := ticks / 100 in
  say [Str "uptime: "; Int (s32 secs); Str "s ("; Int (s32 ticks); Str " ticks at 100Hz)"; Nl] s.

Definition vminfo_print_proc (s : Scheduler.procs) (live_cr3 kernel_pd : Z) (p : Z) : list piece :=
  let x := Scheduler.pcb s p in
  [Int (s32 (Scheduler.pid x)); Str "  "; CStr (Scheduler.name x)] ++
  pad (Z.of_nat (length (Ramfs.cname (Scheduler.name x)))) 16 ++
  [Hex (Scheduler.cr3 x); Str "  ";
   Str (if Scheduler.cr3 x =? live_cr3 then "<-- live" else if Scheduler.cr3 x =? kernel_pd then "(kernel PD)" else "(own PD)");
   Nl].

Definition do_vminfo (s : system) : outcome system :=
  let live_cr3 := Context.r_cr3 (Process.k_cpu (sy_k s)) in
  let kernel_pd := Paging.kernel_pd_phys (Process.k_paging (sy_k s)) in
  let cur := Scheduler.process_current (procs s) in
  let row := vminfo_print_proc (procs s) live_cr3 kernel_pd in
  let! rows := all_queue_rows row (procs s) in
  Done (say ([CYAN; Str "Virtual memory"; Nl; GREY; Str "  kernel_pd_phys : "; Hex kernel_pd; Nl;
              Str "  live CR3       : "; Hex live_cr3; Nl; Nl; CYAN; Str "PID  NAME              CR3         NOTE"; Nl;
              Str "---  ----------------  ----------  -----------"; Nl; WHITE] ++
             (if cur =? 0 then [] else row cur) ++ [GREY] ++ rows) s).

(** ** [commands_user.c] *)

Section image.
Variable im : image.
Variable e : env.

(** The wrappers of [syscall_wrapper.h]: [int 0x80] from ring 0. *)
Definition syscall3 (num a b c : Z) (s : system) : outcome (Z * system) :=
  let! (r, k) := Syscall.syscall_handler (im_link im) (sy_fs s) num a b c (sy_k s) in
  Done (r, set_k k s).

Definition do_sys_write (fd buf len : Z) : system → outcome (Z * system) := syscall3 Syscall.SYS_WRITE (u32 fd) buf len.
Definition do_sys_open (path : Z) (s : system) : outcome (Z * system) :=
  let! (r, s) := syscall3 Syscall.SYS_OPEN path 0 0 s in Done (s32 r, s).
Definition do_sys_read (fd buf len : Z) : system → outcome (Z * system) := syscall3 Syscall.SYS_READ (u32 fd) buf len.
Definition do_sys_close (fd : Z) (s : system) : outcome (Z * system) :=
  let! (r, s) := syscall3 Syscall.SYS_CLOSE (u32 fd) 0 0 s in Done (s32 r, s).

(** The call returns when the shell's process is switched back to. *)
Definition do_sys_yield (s : system) : outcome system :=
  let! (_, s') := syscall3 Syscall.SYS_YIELD 0 0 0 s in
  if Scheduler.current_process (procs s') =? Scheduler.current_process (procs s) then Done s' else e_others e s'.

Definition sync_msg : list Z := Vga.chars "  hello from sys_write via int 0x80" ++ [Vga.NEWLINE].

Definition do_synctest (s : system) : outcome system :=
  let s := say [CYAN; Str "Syscall gate test"; Nl; GREY] s in
  let len := Z.of_nat (length sync_msg) in
  let! (written, s) := do_sys_write 1 (im_sync_msg im) len s in
  let s := say [Str "  sys_write returned: "; Int (s32 written)] s in
  let s := say [Str (if written =? len then "  [OK]" else "  [MISMATCH]"); Nl] s in
  let s := say [Str "  calling sys_yield()..."; Nl] s in
  let! s := do_sys_yield s in
  Done (say [Str "  back from sys_yield  [OK]"; Nl] s).

Definition do_elftest (s : system) : outcome system :=
  let s := say [CYAN; Str "ELF loader test"; Nl; GREY; Str "  loading embedded test_prog.elf..."; Nl] s in
  let! (p, k) := Process.process_create_from_elf (im_link im) (Vga.chars "elftest" ++ [0]) (im_blob im) 5 (sy_k s) in
  let s := set_k k s in
  if p =? 0 then Done (say [Str "  process_create_from_elf failed"; Nl] s)
  else
    let x := Scheduler.pcb (procs s) p in
    Done (say [Str "  spawned pid="; Int (s32 (Scheduler.pid x)); Str " entry="; Hex (Scheduler.user_entry x);
               Str " - watch for its output on the next scheduler tick"; Nl] s).

(** The bytes of the buffer, as [fstest] prints them. *)
Definition fstest_byte (m : memory) (pd buf i : Z) (v : Vga.vga) : outcome Vga.vga :=
  let! b := Syscall.vload8 m pd (buf + i) in
  Done (emit (hex_pair b ++ [Chr 32]) v).

Definition do_fstest (s : system) : outcome system :=
  let s := say [CYAN; Str "Filesystem test"; Nl; GREY] s in
  let! (fd, s) := do_sys_open (im_test_elf im) s in
  let s := say [Str "  open("; Chr 34; Str "test.elf"; Chr 34; Str ") = "; Int fd] s in
  let s := say [Str (if 0 <=? fd then "  [OK]" else "  [FAIL]"); Nl] s in
  if fd <? 0 then Done s
  else
    let! (n, s) := do_sys_read fd (im_fstest_buf im) 16 s in
    let s := say [Str "  read() = "; Int (s32 n); Str " bytes: "] s in
    let! v := print_loop (Z.to_nat n) 0 (fstest_byte (mem s) (Syscall.cur_pd (sy_k s)) (im_fstest_buf im)) (Process.k_vga (sy_k s)) in
    let s := on_vga (λ _, emit [Nl] v) s in
    let! (closed, s) := do_sys_close fd s in
    Done (say [Str "  close() = "; Int closed; Str (if closed =? 0 then "  [OK]" else "  [FAIL]"); Nl] s).

(** ** [commands_fs.c] *)

Definition ls_row (f : Ramfs.ramfs_file) : list piece :=
  [CStr (Ramfs.name f)] ++ pad (Z.of_nat (length (Ramfs.cname (Ramfs.name f)))) 20 ++ [Int (s32 (Ramfs.size f)); Str " bytes"; Nl].

(** [for (i = 0; i < cap; i++)] over the entries in use. *)
Definition ls_rows (fs : Ramfs.ramfs) : list (list piece) :=
  omap (λ i, ls_row <$> Ramfs.ramfs_get (Z.of_nat i) fs) (seq 0 (Z.to_nat Ramfs.ramfs_capacity)).

Definition do_ls (s : system) : system :=
  let rows := ls_rows (sy_fs s) in
  say ([CYAN; Str "NAME                 SIZE"; Nl; Str "----------------     ----------"; Nl; GREY] ++ concat rows ++
       (if bool_decide (rows = []) then [Str "(no files)"; Nl] else [])) s.

Definition do_run (argv : list argument) (s : system) : outcome system :=
  if Z.of_nat (length argv) <? 2 then Done (say [RED; Str "usage: run <filename>"; Nl; GREY] s)
  else
    let name := arg argv 1 in
    let! idx := Ramfs.ramfs_lookup (Ramfs.array (name ++ [0])) (sy_fs s) in
    if idx <? 0 then Done (say [RED; Str "run: no such file: "; CStr name; Nl; GREY] s)
    else
      match Ramfs.ramfs_get idx (sy_fs s) with
      | None => Done (say [Str "run: internal error (file disappeared)"; Nl] s)
      | Some f =>
          match Elf.elf32_validate (mem s) (Ramfs.data f) with
          | None => Done (say [RED; Str "run: not a valid ELF32 executable: "; CStr name; Nl; GREY] s)
          | Some _ =>
              let! (p, k) := Process.process_create_from_elf (im_link im) (name ++ [0]) (Ramfs.data f) 5 (sy_k s) in
              let s := set_k k s in
              if p =? 0 then Done (say [Str "run: process_create_from_elf failed"; Nl] s)
              else
                let x := Scheduler.pcb (procs s) p in
                Done (say [GREEN; Str "run: spawned pid="; Int (s32 (Scheduler.pid x)); Str " entry=";
                           Hex (Scheduler.user_entry x); Nl; GREY] s)
          end
      end.

(** ** [commands[i].fn(argc, argv)] *)

(** [fuel] bounds the rounds of [sleep]. *)
Definition run_command (fuel : nat) (c : command) (argv : list argument) (s : system) : outcome system :=
  match c with
  | cmd_help => Done (do_help s)
  | cmd_clear => Done (do_clear s)
  | cmd_echo => Done (do_echo argv s)
  | cmd_meminfo => Done (do_meminfo s)
  | cmd_memtest => Done (do_memtest argv s)
  | cmd_hexdump => do_hexdump argv s
  | cmd_heapinfo => do_heapinfo s
  | cmd_heaptest => do_heaptest s
  | cmd_ps => do_ps s
  | cmd_sleep => do_sleep fuel e argv s
  | cmd_uptime => Done (do_uptime s)
  | cmd_vminfo => do_vminfo s
  | cmd_synctest => do_synctest s
  | cmd_elftest => do_elftest s
  | cmd_fstest => do_fstest s
  | cmd_ls => Done (do_ls s)
  | cmd_run => do_run argv s
  | cmd_shutdown => do_shutdown s
  end.

End image.

End Commands.
