(* ===== verification/MemCommands.v ===== *)
(** * The memory commands of the shell

    [memtest] gives back what it takes, [heaptest] reads back what it writes and
    leaves the heap with the blocks it had, [hexdump] never faults. *)

From S2P Require Import Prelude Memory Frames Vga Pmm Kmalloc Paging Scheduler Context Elf Process Ramfs Syscall Keyboard.
From S2P Require Import Gdt Idt Pit System ShUtil Commands.

Module MemCommands.
Import System Commands.

(** ** [memtest] *)

Section memtest.
Context {F : Type} `{!FrameAlloc F}.

Lemma memtest_alloc_took (n : nat) (i : Z) (got : list Z) (fs0 fs : F) (v : Vga.vga) :
  took fs0 fs (list_to_set got) → NoDup got →
  let '(_, got', fs', _) := memtest_alloc n i got fs v in
  took fs0 fs' (list_to_set got') ∧ NoDup got'.
Proof.
  revert i got fs v. induction n as [|n IH]; intros i got fs v Ht Hnd; simpl; [done |].
  destruct (alloc_frame fs) as [a fs1] eqn:E.
  destruct (took_alloc fs0 fs fs1 _ a Ht E) as [(H0 & _ & Hn & _ & Ht')|(-> & -> & _)]; [| done].
  destruct (Z.eqb_spec a 0); [done |]. rewrite not_elem_of_list_to_set in Hn. apply IH.
  - rewrite list_to_set_app_L. simpl. by rewrite union_empty_r_L, union_comm_L.
  - apply NoDup_app. split_and!; [done | set_solver | apply NoDup_singleton].
Qed.

Lemma free_all_took (got : list Z) (fs0 fs : F) :
  took fs0 fs (list_to_set got) → NoDup got → took fs0 (foldl (λ fs a, free_frame a fs) fs got) ∅.
Proof.
  revert fs. induction got as [|a got IH]; intros fs Ht Hnd; simpl; [done |]. apply NoDup_cons in Hnd as [Ha Hnd].
  apply IH; [| done]. replace (list_to_set got : gset Z) with (list_to_set (a :: got) ∖ {[a]} : gset Z).
  - apply took_free; [done |]. simpl. set_solver.
  - simpl. assert (a ∉ (list_to_set got : gset Z)) by (by rewrite elem_of_list_to_set). set_solver.
Qed.

Lemma memtest_took (n : Z) (fs : F) (v : Vga.vga) : frames_ok fs → took fs (memtest n fs v).1 ∅.
Proof.
  intros Hok. unfold memtest. case_match; [by apply took_none |].
  match goal with |- context [memtest_alloc ?k 0 [] fs ?w] =>
    pose proof (memtest_alloc_took k 0 [] fs fs w (took_none fs Hok) (NoDup_nil_2)) as Ht;
    destruct (memtest_alloc k 0 [] fs w) as [[[ok got] fs'] v'] end.
  destruct Ht. by apply free_all_took.
Qed.

(** The [memtest] command is neutral: however many frames it is asked for,
    and also when the allocator runs out half way, every frame is in use
    afterwards exactly if it was before, the count of free frames is the same,
    and the invariant of the allocator holds. *)
Theorem memtest_neutral (n : Z) (fs : F) (v : Vga.vga) :
  frames_ok fs →
  frames_ok (memtest n fs v).1 ∧ frames_free (memtest n fs v).1 = frames_free fs ∧
  ∀ b, page_addr b → in_use (memtest n fs v).1 b = in_use fs b.
Proof.
  intros Hok. destruct (memtest_took n fs v Hok) as (H1 & _ & H2 & H3).
  rewrite size_empty in H2. split_and!; [done | lia |]. intros b Hb. by rewrite H3, bool_decide_false by set_solver.
Qed.

End memtest.

(** ** [heaptest] *)

Import Kmalloc.

Definition used (bs : list block) (c : block) : Prop := c ∈ bs ∧ b_free c = false.

(** The data bytes of the blocks in [P]. *)
Definition data_byte (P : block → Prop) (a : Z) : Prop := ∃ c, P c ∧ b_data c <= a < b_end c.

Lemma used_app (bs1 bs2 : list block) (c : block) : used (bs1 ++ bs2) c ↔ used bs1 c ∨ used bs2 c.
Proof. unfold used. rewrite elem_of_app. tauto. Qed.

Lemma used_cons (b : block) (bs : list block) (c : block) : used (b :: bs) c ↔ (c = b ∧ b_free b = false) ∨ used bs c.
Proof. unfold used. rewrite elem_of_cons. naive_solver. Qed.

Lemma used_nil (c : block) : used [] c ↔ False.
Proof. unfold used. set_solver. Qed.

Lemma used_merge (rest : list block) (b c : block) : used (merge b rest) c ↔ used (b :: rest) c.
Proof.
  revert b. induction rest as [|d rest IH]; intros b; [done |]. rewrite merge_cons. destruct (mergeable b d) eqn:E.
  - apply mergeable_spec in E as (Hb & Hd & _). rewrite IH, !used_cons. simpl. rewrite Hb, Hd. naive_solver.
  - rewrite used_cons, IH, (used_cons b). done.
Qed.

Lemma used_coalesce (bs : list block) (c : block) : used (coalesce_blocks bs) c ↔ used bs c.
Proof. destruct bs; [done | apply used_merge]. Qed.

(** The block [kmalloc] marks as allocated. *)
Lemma used_carve (size : Z) (b : block) :
  0 <= size <= b_size b →
  ∃ c, b_data c = b_data b ∧ size <= b_size c ∧ b_free c = false ∧ (∀ d, used (carve size b) d ↔ d = c) ∧ b_end c <= b_end b.
Proof.
  intros Hs. unfold carve. case_match; eexists; (split_and!; [| | | intros d; rewrite !used_cons, used_nil; simpl; naive_solver |]);
    unfold_blocks; simpl; (done || lia).
Qed.

(** Two allocated blocks with the same data pointer are the same block. *)
Lemma used_apart (h : heap) (m : memory) (bs : list block) (c d : block) :
  heap_inv h m bs → c ∈ bs → d ∈ bs → c = d ∨ apart c d.
Proof.
  intros Hi Hc Hd. apply list_elem_of_split in Hc as (bs1 & bs2 & ->).
  destruct (separated_middle _ _ _ (hi_sep _ _ _ Hi)) as (_ & H1 & H2). rewrite Forall_forall in H1, H2.
  apply elem_of_app in Hd as [Hd|Hd]; [right; auto |]. apply elem_of_cons in Hd as [->|Hd]; auto.
Qed.

Lemma used_ok (h : heap) (m : memory) (bs : list block) (c : block) : heap_inv h m bs → c ∈ bs → block_ok c.
Proof. intros Hi. pose proof (hi_ok _ _ _ Hi) as H. rewrite Forall_forall in H. apply H. Qed.

Lemma alloc_use (h : heap) (m : memory) (bs : list block) (size : Z) :
  heap_inv h m bs → 0 < size <= 2 ^ 32 - 4 →
  ∃ p m' bs', kmalloc size h m = Done (p, m') ∧ heap_inv h m' bs' ∧ agree_on (data_byte (used bs)) m m' ∧
    ((p = 0 ∧ ∀ d, used bs' d ↔ used bs d) ∨
     p ≠ 0 ∧ ∃ c, b_data c = p ∧ size <= b_size c ∧ ~ used bs c ∧ ∀ d, used bs' d ↔ d = c ∨ used bs d).
Proof.
  intros Hi Hsz. destruct (align4_spec size) as [_ Hal]; [lia |].
  destruct (kmalloc_spec h m bs size Hi ltac:(lia)) as [(bs1 & b & bs2 & m' & -> & _ & Hfit & Heq & Hi' & Hag)|[_ Heq]].
  - apply fits_spec in Hfit as [Hfr Hle]. destruct (used_carve (align4 size) b) as (c & C1 & C2 & C3 & C4 & C5); [lia |].
    pose proof (used_ok _ _ _ b Hi (elem_mid _ _ _)) as Hb. unfold block_ok in Hb.
    assert (∀ d, used (bs1 ++ b :: bs2) d → apart b d) as Hap.
    { intros d [Hd Hdf]. destruct (used_apart h m _ b d Hi (elem_mid _ _ _) Hd) as [<-|]; [congruence | done]. }
    exists (b_data b), m', (bs1 ++ carve (align4 size) b ++ bs2). split_and!; [done | done | |].
    + intros a (d & Hd & Ha). apply Hag. pose proof (Hap d Hd) as H. destruct Hd as [Hd _]. pose proof (used_ok _ _ _ d Hi Hd) as Hdo.
      unfold apart, block_ok in *. unfold_blocks. lia.
    + right. split; [unfold_blocks; lia |]. exists c. split_and!; [done | lia | |].
      * intros Hu. pose proof (Hap c Hu) as H. destruct Hu as [Hd _]. pose proof (used_ok _ _ _ c Hi Hd) as Hdo.
        unfold apart, block_ok in *. unfold_blocks. lia.
      * intros d. rewrite !used_app, C4, used_cons, Hfr. naive_solver.
  - exists 0, m, bs. split_and!; [done | done | done |]. by left.
Qed.

Lemma free_use (h : heap) (m : memory) (bs : list block) (c : block) :
  heap_inv h m bs → used bs c →
  ∃ m' bs', kfree (b_data c) h m = Done m' ∧ heap_inv h m' bs' ∧ agree_on (data_byte (λ d, d ∈ bs)) m m' ∧
    ∀ d, used bs' d ↔ used bs d ∧ d ≠ c.
Proof.
  intros Hi [Hc Hf]. pose proof Hc as Hc'. apply list_elem_of_split in Hc' as (bs1 & bs2 & E). rewrite E in Hi, Hc |- *. clear E bs.
  destruct (kfree_spec h m bs1 bs2 c Hi Hf) as (m' & Heq & Hi' & Hho).
  exists m', (coalesce_blocks (bs1 ++ freed c :: bs2)). split_and!; [done | done | |].
  - intros a (d & Hd & Ha). apply Hho. by apply (in_headers _ d); [| apply Hi | apply Hi |].
  - intros d. rewrite used_coalesce, !used_app, !used_cons. simpl.
    destruct (separated_middle _ _ _ (hi_sep _ _ _ Hi)) as (_ & H1 & H2). rewrite Forall_forall in H1, H2.
    assert (~ apart c c) as Hcc. { pose proof (used_ok _ _ _ c Hi Hc) as Hb. unfold apart, block_ok in *. unfold_blocks. lia. }
    split.
    + intros [Hd|[[_ Hd]|Hd]]; [| done |]; (split; [tauto |]; intros ->; destruct Hd as [Hd _]; auto).
    + intros [[Hd|[[-> _]|Hd]] Hne]; tauto.
Qed.

(** Writing to the data of a block leaves the headers alone. *)
Lemma heap_inv_data (h : heap) (m : memory) (bs : list block) (c : block) (a v : Z) :
  heap_inv h m bs → c ∈ bs → b_data c <= a < b_end c → heap_inv h (store8 m a v) bs.
Proof.
  intros Hi Hc Ha. pose proof (in_headers bs c a Hc (hi_ok _ _ _ Hi) (hi_sep _ _ _ Hi) Ha) as Hh.
  destruct Hi as [H1 H2 H3 H4]. split; [| done..]. eapply seg_agree; [apply (agree_store8 m a v) | | done].
  eapply Forall_impl; [exact Hh |]. simpl. lia.
Qed.

(** [bs] has the allocated blocks of [bs0], and [cs] on top. *)
Record extra (bs0 bs cs : list block) : Prop := {
  ex_used d : used bs d ↔ d ∈ cs ∨ used bs0 d;
  ex_nodup : NoDup cs;
  ex_new c : c ∈ cs → ~ used bs0 c
}.

(** The pointer [kmalloc] returns: NULL, or the data of a block. *)
Definition ptr (o : option block) : Z := from_option b_data 0 o.

Lemma ptr_zero (h : heap) (m : memory) (bs0 bs cs : list block) (o : option block) :
  heap_inv h m bs → extra bs0 bs cs → (∀ c, o = Some c → c ∈ cs) → ptr o = 0 ↔ o = None.
Proof.
  intros Hi [Hu _ _] Ho. destruct o as [c|]; simpl; [| done]. split; [| done]. intros H.
  destruct (proj2 (Hu c) (or_introl (Ho c eq_refl))) as [Hc _]. pose proof (used_ok _ _ _ c Hi Hc) as Hb.
  unfold block_ok in Hb. unfold_blocks. lia.
Qed.

Lemma alloc_extra (h : heap) (m : memory) (bs0 bs cs : list block) (size : Z) :
  heap_inv h m bs → extra bs0 bs cs → 0 < size <= 2 ^ 32 - 4 →
  ∃ o m' bs', kmalloc size h m = Done (ptr o, m') ∧ heap_inv h m' bs' ∧ extra bs0 bs' (cs ++ option_list o) ∧
    (∀ c, o = Some c → size <= b_size c) ∧ agree_on (data_byte (used bs0)) m m'.
Proof.
  intros Hi [Hu Hn Hc] Hsz. destruct (alloc_use h m bs size Hi Hsz) as (p & m' & bs' & E & Hi' & Hag & Hp).
  assert (agree_on (data_byte (used bs0)) m m') as Hag'.
  { eapply agree_on_weaken; [exact Hag |]. intros a (d & Hd & Ha). exists d. split; [| done]. apply Hu. by right. }
  destruct Hp as [[-> Hd]|(_ & c & <- & Hs & Hnu & Hd)].
  - exists None, m', bs'. simpl. rewrite app_nil_r. split_and!; [done | done | | done | done].
    split; [| done | done]. intros d. by rewrite Hd, Hu.
  - exists (Some c), m', bs'. simpl. split_and!; [done | done | | by intros ? [= <-] | done]. split.
    + intros d. rewrite Hd, Hu, elem_of_app, list_elem_of_singleton. tauto.
    + apply NoDup_app. split_and!; [done | | apply NoDup_singleton]. intros x Hx ->%list_elem_of_singleton. apply Hnu, Hu. by left.
    + intros x [Hx| ->%list_elem_of_singleton]%elem_of_app; [by apply Hc |]. intros Hx. apply Hnu, Hu. by right.
Qed.

(** [if (p) { p[0] = x; p[k] = y; }] *)
Lemma poke_extra (h : heap) (m : memory) (bs0 bs cs : list block) (o : option block) (k x y : Z) :
  heap_inv h m bs → extra bs0 bs cs → (∀ c, o = Some c → c ∈ cs ∧ 0 < k < b_size c) →
  let m' := if ptr o =? 0 then m else store8 (store8 m (ptr o) x) (ptr o + k) y in
  heap_inv h m' bs ∧ agree_on (data_byte (used bs0)) m m' ∧
  (∀ c d, o = Some c → d ∈ cs → d ≠ c → agree_on (data_byte (λ e, e = d)) m m') ∧
  (∀ c, o = Some c → load8 m' (ptr o) = u8 x ∧ load8 m' (ptr o + k) = u8 y).
Proof.
  intros Hi Hex Ho. destruct (Z.eqb_spec (ptr o) 0) as [E|E]; cbn zeta.
  { apply (ptr_zero _ _ _ _ _ _ Hi Hex) in E; [| intros c Hc; by apply Ho]. subst o. done. }
  destruct o as [c|]; [| done]. destruct (Ho c eq_refl) as [Hc Hk]. simpl.
  assert (used bs c) as Hu by (apply (ex_used _ _ _ Hex); by left). pose proof (used_ok _ _ _ c Hi (proj1 Hu)) as Hb.
  assert (∀ d, used bs d → d ≠ c → agree_on (data_byte (λ e, e = d)) m (store8 (store8 m (b_data c) x) (b_data c + k) y)) as Hag.
  { intros d [Hd _] Hne a (e & -> & Ha). pose proof (used_ok _ _ _ d Hi Hd) as Hdo.
    destruct (used_apart h m bs c d Hi (proj1 Hu) Hd) as [->|Hap]; [done |]. unfold apart, block_ok in *. unfold_blocks.
    rewrite !load8_store8_ne by lia. done. }
  unfold block_ok in Hb. split_and!.
  - apply (heap_inv_data _ _ _ c); [| apply Hu | unfold_blocks; lia]. apply (heap_inv_data _ _ _ c); [done | apply Hu | unfold_blocks; lia].
  - intros a (d & Hd & Ha). apply (Hag d); [apply (ex_used _ _ _ Hex); by right | | by exists d].
    intros ->. by apply (ex_new _ _ _ Hex c).
  - intros ? d [= <-] Hd Hne. apply Hag; [| done]. apply (ex_used _ _ _ Hex). by left.
  - intros ? [= <-]. rewrite load8_store8_eq, load8_store8_ne, load8_store8_eq by lia. done.
Qed.

Lemma free_extra (h : heap) (os : list (option block)) (m : memory) (bs0 bs : list block) :
  heap_inv h m bs → extra bs0 bs (omap id os) →
  ∃ m' bs', heaptest_free (ptr <$> os) h m = Done m' ∧ heap_inv h m' bs' ∧ extra bs0 bs' [] ∧
    agree_on (data_byte (used bs0)) m m'.
Proof.
  revert m bs. induction os as [|o os IH]; intros m bs Hi Hex; [by exists m, bs |].
  unfold heaptest_free in *. destruct o as [c|]; cbn [fmap list_fmap foldl ptr from_option obind]; [| apply (IH m bs Hi Hex)].
  cbn [omap list_omap id] in Hex. assert (used bs c) as Hu by (apply (ex_used _ _ _ Hex); set_solver).
  destruct (free_use h m bs c Hi Hu) as (m1 & bs1 & E1 & Hi1 & Hag1 & Hu1). rewrite E1.
  destruct Hex as [H1 [Hnc Hnd]%NoDup_cons H3].
  destruct (IH m1 bs1 Hi1) as (m' & bs' & E2 & Hi' & Hex' & Hag').
  - split; [| done | set_solver]. intros d. rewrite Hu1, H1, elem_of_cons. split; [tauto |].
    intros [Hd|Hd]; (split; [tauto |]; intros ->); [done | apply (H3 c); [set_solver | done]].
  - exists m', bs'. split_and!; [done | done | done |]. eapply agree_on_trans; [| exact Hag'].
    eapply agree_on_weaken; [exact Hag1 |]. intros a (d & Hd & Ha). exists d. split; [| done]. apply H1. by right.
Qed.

(** The four pointers of [heaptest], and what it reads back. *)
Lemma heaptest_alloc_spec (h : heap) (m : memory) (bs : list block) :
  heap_inv h m bs →
  ∃ os m1 bs1, heaptest_alloc h m = Done (ptr <$> os, forallb (λ p, negb (p =? 0)) (ptr <$> os), m1) ∧
    heap_inv h m1 bs1 ∧ extra bs bs1 (omap id os) ∧ agree_on (data_byte (used bs)) m m1.
Proof.
  intros Hi. assert (extra bs bs []) as Hex0 by (split; [set_solver | constructor | set_solver]).
  destruct (alloc_extra h m bs bs [] 32 Hi Hex0 ltac:(lia)) as (oa & m1 & bs1 & E1 & Hi1 & Hex1 & Hsa & Hg1).
  destruct (alloc_extra h m1 bs bs1 _ 128 Hi1 Hex1 ltac:(lia)) as (ob & m2 & bs2 & E2 & Hi2 & Hex2 & Hsb & Hg2).
  destruct (alloc_extra h m2 bs bs2 _ 64 Hi2 Hex2 ltac:(lia)) as (oc & m3 & bs3 & E3 & Hi3 & Hex3 & _ & Hg3).
  destruct (alloc_extra h m3 bs bs3 _ 256 Hi3 Hex3 ltac:(lia)) as (od & m4 & bs4 & E4 & Hi4 & Hex4 & _ & Hg4).
  set (cs := ((([] ++ option_list oa) ++ option_list ob) ++ option_list oc) ++ option_list od) in *.
  assert (∀ c, oa = Some c → c ∈ cs ∧ 0 < 31 < b_size c) as Ha.
  { intros c ->. specialize (Hsa c eq_refl). split; [unfold cs; simpl; set_solver | lia]. }
  assert (∀ c, ob = Some c → c ∈ cs ∧ 0 < 127 < b_size c) as Hb.
  { intros c ->. specialize (Hsb c eq_refl). split; [unfold cs; simpl; set_solver | lia]. }
  destruct (poke_extra h m4 bs bs4 cs oa 31 0xAB 0xCD Hi4 Hex4 Ha) as (Hi5 & Hg5 & _ & Hla).
  set (m5 := if ptr oa =? 0 then m4 else _) in *.
  destruct (poke_extra h m5 bs bs4 cs ob 127 0x12 0x34 Hi5 Hex4 Hb) as (Hi6 & Hg6 & Hsep & Hlb).
  exists [oa; ob; oc; od]. unfold heaptest_alloc. rewrite E1. cbn [obind]. rewrite E2. cbn [obind]. rewrite E3. cbn [obind].
  rewrite E4. cbn [obind]. fold m5. set (m6 := if ptr ob =? 0 then m5 else _) in *. exists m6, bs4. split_and!; [| done | |].
  - do 2 f_equal. f_equal. cbn [fmap list_fmap forallb]. rewrite andb_true_r.
    destruct oa as [a|]; [| done]. destruct ob as [b|]; [| by rewrite !andb_false_r].
    destruct (Hla a eq_refl) as [L1 L2], (Hlb b eq_refl) as [L3 L4], (Ha a eq_refl) as [Ia Ka], (Hb b eq_refl) as [Ib Kb].
    assert (a ≠ b) as Hab. { intros ->. pose proof (ex_nodup _ _ _ Hex2) as Hnd. simpl in Hnd. apply NoDup_cons in Hnd as [Hnd _]. set_solver. }
    specialize (Hsep b a eq_refl Ia Hab). simpl in L1, L2, L3, L4 |- *. rewrite L3, L4.
    rewrite (Hsep (b_data a)), (Hsep (b_data a + 31)), L1, L2 by (exists a; unfold_blocks; (split; [done | lia])).
    change (u8 171 =? 171) with true. change (u8 205 =? 205) with true. change (u8 18 =? 18) with true.
    change (u8 52 =? 52) with true. rewrite !andb_true_r, <- !andb_assoc. done.
  - replace (omap id [oa; ob; oc; od]) with cs; [done |]. unfold cs. by destruct oa, ob, oc, od.
  - repeat (eapply agree_on_trans; [eassumption |]). done.
Qed.

(** The [heaptest] command on any well-formed heap: the four allocations and the
    four frees return, the bytes written are read back whenever no allocation
    failed, and afterwards the heap is well formed, its allocated blocks are
    exactly those it had before, and no data byte of theirs has changed. *)
Theorem heaptest_correct (h : heap) (m : memory) (bs : list block) :
  heap_inv h m bs →
  ∃ ps m1 m2 bs', heaptest_alloc h m = Done (ps, forallb (λ p, negb (p =? 0)) ps, m1) ∧ length ps = 4%nat ∧
    heaptest_free ps h m1 = Done m2 ∧ heap_inv h m2 bs' ∧ (∀ c, used bs' c ↔ used bs c) ∧
    agree_on (data_byte (used bs)) m m2.
Proof.
  intros Hi. pose proof (heaptest_alloc_spec h m bs Hi) as (os & m1 & bs1 & E1 & Hi1 & Hex1 & Hg1).
  destruct (free_extra h os m1 bs bs1 Hi1 Hex1) as (m2 & bs2 & E2 & Hi2 & Hex2 & Hg2).
  exists (ptr <$> os), m1, m2, bs2. split_and!; [done | | done | done | |].
  - unfold heaptest_alloc in E1. repeat (destruct (kmalloc _ _ _) as [[??]|?|]; [cbn [obind] in E1 | done..]).
    by injection E1 as <- _ _.
  - intros c. rewrite (ex_used _ _ _ Hex2 c). set_solver.
  - by eapply agree_on_trans.
Qed.

(** ** [hexdump] *)

(** Supervisor accesses of the directory [pd] see the identity window. *)
Definition identity_window (m : memory) (pd : Z) : Prop :=
  ∀ va, 0 <= va < Paging.IDENTITY_MAPPED_BYTES → Paging.translate Paging.supervisor m pd va = Some va.

Lemma print_loop_total (n : nat) (i : Z) (body : Z → Vga.vga → outcome Vga.vga) (v : Vga.vga) :
  (∀ j w, i <= j < i + Z.of_nat n → ∃ w', body j w = Done w') → ∃ v', print_loop n i body v = Done v'.
Proof.
  revert i v. induction n as [|n IH]; intros i v H; simpl; [by exists v |].
  destruct (H i v ltac:(lia)) as [w ->]. simpl. apply IH. intros j w' Hj. apply H. lia.
Qed.

(** What a printing loop shows when each round prints pieces that do not depend on
    the screen. *)
Lemma print_loop_emit (n : nat) (i : Z) (body : Z → Vga.vga → outcome Vga.vga) (f : Z → list piece) (v : Vga.vga) :
  (∀ j w, i <= j < i + Z.of_nat n → body j w = Done (emit (f j) w)) →
  print_loop n i body v = Done (emit (concat (f <$> seqZ i (Z.of_nat n))) v).
Proof.
  revert i v. induction n as [|n IH]; intros i v H; [done |]. cbn [print_loop]. rewrite H by lia. cbn [obind].
  rewrite IH by (intros; apply H; lia). rewrite (seqZ_cons i) by lia. cbn [fmap list_fmap concat]. rewrite emit_app.
  do 5 f_equal; lia.
Qed.

(** One row of the reference dump of the bytes [bytes]. *)
Definition ref_row (addr : Z) (bytes : list Z) (r : Z) : list piece :=
  let cell i := bytes !! Z.to_nat (16 * r + i) in
  [GREY; Hex (addr + 16 * r); Str "  "; WHITE] ++
  concat ((λ i, match cell i with Some b => hex_pair b | None => [Str "  "] end ++ dump_gap i) <$> seqZ 0 16) ++
  [CYAN; Str " |"] ++
  concat ((λ i, match cell i with Some b => [Chr (printable b)] | None => [] end) <$> seqZ 0 16) ++
  [Str "|"; Nl].

Definition ref_dump (addr : Z) (bytes : list Z) : list piece :=
  concat (ref_row addr bytes <$> seqZ 0 ((Z.of_nat (length bytes) + 15) / 16)).

(** The bytes of memory from [addr] on. *)
Definition bytes_at (m : memory) (addr len : Z) : list Z := (λ i, load8 m (addr + i)) <$> seqZ 0 len.

Definition off_screen (addr len : Z) : Prop := addr + len <= VGA_ADDRESS ∨ VGA_ADDRESS + VGA_BYTES <= addr.

Lemma bytes_at_lookup (m : memory) (addr len i : Z) :
  0 <= i → bytes_at m addr len !! Z.to_nat i = if i <? len then Some (load8 m (addr + i)) else None.
Proof.
  intros Hi. unfold bytes_at. rewrite list_lookup_fmap. destruct (Z.ltb_spec i len).
  - rewrite lookup_seqZ_lt by lia. simpl. do 3 f_equal. lia.
  - by rewrite lookup_seqZ_ge by lia.
Qed.

Lemma bytes_at_length (m : memory) (addr len : Z) : 0 <= len → Z.of_nat (length (bytes_at m addr len)) = len.
Proof. intros. unfold bytes_at. rewrite length_fmap, length_seqZ. lia. Qed.

Lemma peek_window (m : memory) (pd va : Z) (v : Vga.vga) :
  identity_window m pd → 0 <= va < Paging.IDENTITY_MAPPED_BYTES →
  ∃ b, peek m pd va v = Done b ∧ (off_screen va 1 → b = load8 m va).
Proof.
  intros Hw Hva. unfold peek. assert (Paging.IDENTITY_MAPPED_BYTES <= 2 ^ 32) by done. u32_simpl. rewrite (Hw va Hva).
  eexists. split; [done |]. unfold off_screen. intros Ho. zcases; simpl; (done || lia).
Qed.

Section dump.
Variables (m : memory) (pd addr len : Z).
Hypothesis Hw : identity_window m pd.
Hypothesis Ha : 0 <= addr.
Hypothesis Hl : 0 <= len.
Hypothesis Hin : addr + len <= Paging.IDENTITY_MAPPED_BYTES.

Lemma dump_row_total (r : Z) (v : Vga.vga) : 0 <= r → ∃ v', dump_row m pd addr len (16 * r) v = Done v'.
Proof using All.
  intros Hr. unfold dump_row. assert (∀ i w, 0 <= i → ∃ w', dump_hex m pd addr len (16 * r) i w = Done w') as H1.
  { intros i w Hi. unfold dump_hex. case_match; [| by eexists].
    destruct (peek_window m pd (addr + (16 * r + i)) w Hw) as (b & -> & _); [lia | by eexists]. }
  assert (∀ i w, 0 <= i → ∃ w', dump_ascii m pd addr len (16 * r) i w = Done w') as H2.
  { intros i w Hi. unfold dump_ascii. case_match; [| by eexists].
    destruct (peek_window m pd (addr + (16 * r + i)) w Hw) as (b & -> & _); [lia | by eexists]. }
  destruct (print_loop_total 16 0 (dump_hex m pd addr len (16 * r))
    (emit [GREY; Hex (u32 (addr + 16 * r)); Str "  "; WHITE] v)) as [v1 ->]; [intros; apply H1; lia |]. cbn [obind].
  destruct (print_loop_total 16 0 (dump_ascii m pd addr len (16 * r)) (emit [CYAN; Str " |"] v1)) as [v2 ->];
    [intros; apply H2; lia |]. by eexists.
Qed.

Lemma dump_row_ref (r : Z) (v : Vga.vga) :
  off_screen addr len → 0 <= 16 * r < len →
  dump_row m pd addr len (16 * r) v = Done (emit (ref_row addr (bytes_at m addr len) r) v).
Proof using All.
  intros Ho Hr. unfold off_screen in Ho. assert (Paging.IDENTITY_MAPPED_BYTES <= 2 ^ 32) by done.
  unfold dump_row, ref_row. rewrite !emit_app. u32_simpl.
  rewrite (print_loop_emit 16 0 _ (λ i, match bytes_at m addr len !! Z.to_nat (16 * r + i) with Some b => hex_pair b | None => [Str "  "] end ++ dump_gap i)).
  - cbn [obind]. rewrite (print_loop_emit 16 0 _ (λ i, match bytes_at m addr len !! Z.to_nat (16 * r + i) with Some b => [Chr (printable b)] | None => [] end)).
    + done.
    + intros j w Hj. rewrite bytes_at_lookup by lia. unfold dump_ascii. case_match; [| done].
      destruct (peek_window m pd (addr + (16 * r + j)) w Hw) as (b & -> & Hb); [lia |]. by rewrite Hb by (unfold off_screen; lia).
  - intros j w Hj. rewrite bytes_at_lookup by lia. unfold dump_hex. case_match; [| done].
    destruct (peek_window m pd (addr + (16 * r + j)) w Hw) as (b & -> & Hb); [lia |]. by rewrite Hb by (unfold off_screen; lia).
Qed.

Lemma dump_rows_total (v : Vga.vga) : ∃ v', dump_rows m pd addr len v = Done v'.
Proof using All. apply print_loop_total. intros j w Hj. apply dump_row_total. lia. Qed.

Lemma dump_rows_ref (v : Vga.vga) :
  off_screen addr len → dump_rows m pd addr len v = Done (emit (ref_dump addr (bytes_at m addr len)) v).
Proof using All.
  intros Ho. unfold dump_rows, ref_dump. rewrite bytes_at_length by done.
  rewrite (print_loop_emit _ _ _ (ref_row addr (bytes_at m addr len))).
  - do 5 f_equal. zlia.
  - intros j w Hj. apply dump_row_ref; [done |]. zlia.
Qed.

End dump.

(** What [hexdump] prints, from its arguments and the bytes of memory. *)
Definition ref_hexdump (argv : list argument) (m : memory) : list piece :=
  let addr := ShUtil.sh_strtoul (arg argv 1) 16 in
  let len := ShUtil.sh_strtoul (arg argv 2) 10 in
  if Z.of_nat (length argv) <? 3 then [RED; Str "usage: hexdump <addr> <len>"; Nl; GREY]
  else if Paging.IDENTITY_MAPPED_BYTES <? addr + len then
    [RED; Str "hexdump: address range outside mapped memory (0x0-"; Hex Paging.IDENTITY_MAPPED_BYTES; Str ")"; Nl; GREY]
  else if (len =? 0) || (512 <? len) then [RED; Str "hexdump: len must be 1-512"; Nl; GREY]
  else ref_dump addr (bytes_at m addr len) ++ [GREY].

Lemma strtoul_u32 (s : list Z) (base : Z) : 2 <= base <= 36 → 0 <= ShUtil.sh_strtoul s base < 2 ^ 32.
Proof.
  intros Hb. unfold ShUtil.sh_strtoul. rewrite ShUtil.strtoul_loop_spec by (unfold ShUtil.UINT32_MAX; lia).
  match goal with |- context [ShUtil.horner base 0 (ShUtil.digits ?t)] =>
    pose proof (ShUtil.horner_ge base 0 (ShUtil.digits t) ltac:(lia) ltac:(lia) (ShUtil.digits_range t)) end.
  unfold ShUtil.UINT32_MAX. lia.
Qed.

(** C35. [hexdump] is safe and exact for all its arguments, sums that would wrap
    around included: while the supervisor sees the identity window it never
    faults and changes nothing but the console, and for a range outside the text
    buffer it prints what the reference dump of the bytes of the range prints,
    or the error message for a range that leaves the window or has a bad
    length. *)
Theorem hexdump_safe (argv : list argument) (s : system) :
  identity_window (mem s) (Syscall.cur_pd (sy_k s)) →
  ∃ v, do_hexdump argv s = Done (on_vga (λ _, v) s) ∧
    (off_screen (ShUtil.sh_strtoul (arg argv 1) 16) (ShUtil.sh_strtoul (arg argv 2) 10) →
     v = emit (ref_hexdump argv (mem s)) (Process.k_vga (sy_k s))).
Proof.
  intros Hw. unfold do_hexdump, ref_hexdump. pose proof (strtoul_u32 (arg argv 1) 16 ltac:(lia)) as Ha.
  pose proof (strtoul_u32 (arg argv 2) 10 ltac:(lia)) as Hl.
  set (addr := ShUtil.sh_strtoul (arg argv 1) 16) in *. set (len := ShUtil.sh_strtoul (arg argv 2) 10) in *.
  destruct (Z.of_nat (length argv) <? 3); [by eexists |].
  assert ((Paging.IDENTITY_MAPPED_BYTES <? addr) || (u32 (Paging.IDENTITY_MAPPED_BYTES - addr) <? len) =
          (Paging.IDENTITY_MAPPED_BYTES <? addr + len)) as ->.
  { assert (0 < Paging.IDENTITY_MAPPED_BYTES <= 2 ^ 32 - 1) by done. destruct (Z.ltb_spec Paging.IDENTITY_MAPPED_BYTES addr).
    - symmetry. apply Z.ltb_lt. lia.
    - u32_simpl. zcases; (done || lia). }
  destruct (Z.ltb_spec Paging.IDENTITY_MAPPED_BYTES (addr + len)) as [|Hin]; [by eexists |].
  destruct ((len =? 0) || (512 <? len)); [by eexists |].
  destruct (dump_rows_total (mem s) (Syscall.cur_pd (sy_k s)) addr len Hw ltac:(lia) ltac:(lia) Hin (Process.k_vga (sy_k s))) as [v E].
  rewrite E. eexists. split; [done |]. intros Ho.
  rewrite dump_rows_ref in E by (done || lia). injection E as <-. by rewrite emit_app.
Qed.

(** ** Witnesses *)

(** Two frames are free; the third allocation fails. *)
Lemma memtest_neutral_witness :
  frames_free (memtest 3 Pmm.demo_pmm (Vga.Vga [] 0 0 7)).1 = frames_free Pmm.demo_pmm.
Proof. apply (memtest_neutral 3 Pmm.demo_pmm (Vga.Vga [] 0 0 7)). exact Paging.demo_frames_ok. Defined.

Lemma heaptest_correct_witness :
  ∃ ps m1 m2 bs', heaptest_alloc demo_heap Kmalloc.demo_memory = Done (ps, forallb (λ p, negb (p =? 0)) ps, m1) ∧
    heaptest_free ps demo_heap m1 = Done m2 ∧ heap_inv demo_heap m2 bs'.
Proof.
  destruct (heaptest_correct demo_heap Kmalloc.demo_memory [demo_block] demo_inv) as (ps & m1 & m2 & bs' & E1 & _ & E2 & H & _).
  exists ps, m1, m2, bs'. exact (conj E1 (conj E2 H)).
Defined.

(** The identity tables of [paging_init] in an empty memory. *)
Definition demo_tables : memory :=
  for_loop (Z.to_nat Paging.IDENTITY_PT_COUNT) 0 (Paging.identity_table 0x10000 0x14000) ∅.

Lemma demo_window : identity_window demo_tables 0x10000.
Proof.
  assert (Paging.layout_ok 0x10000 0x14000) as Hl
    by (split; unfold Paging.page_base, Paging.IDENTITY_PT_COUNT, PAGE_SIZE; zlia).
  intros va Hva. unfold demo_tables. assert (is_u32 va) as Hu.
  { unfold is_u32, Paging.IDENTITY_MAPPED_BYTES, Paging.IDENTITY_PT_COUNT, Paging.PT_ENTRIES, PAGE_SIZE in *. lia. }
  rewrite (Paging.identity_translate 0x10000 0x14000 Hl ∅ _ Paging.supervisor va (Paging.identity_tables_built _ _ Hl ∅)); [| done | done].
  rewrite (proj2 (Z.ltb_lt va _)) by lia. done.
Qed.

Lemma hexdump_safe_witness :
  ∃ v, do_hexdump [Vga.chars "hexdump"; Vga.chars "0x9000"; Vga.chars "20"] (demo_system demo_tables 0x10000) =
    Done (on_vga (λ _, v) (demo_system demo_tables 0x10000)).
Proof.
  destruct (hexdump_safe [Vga.chars "hexdump"; Vga.chars "0x9000"; Vga.chars "20"] (demo_system demo_tables 0x10000)) as (v & E & _).
  - exact demo_window.
  - exists v. exact E.
Defined.

End MemCommands.
