(* ===== verification/ProcCommands.v ===== *)
(** * The process commands of the shell

    [ps] and [vminfo] walk the run queue to its end and print every process once;
    [sleep] returns after the requested number of timer ticks. *)

From S2P Require Import Prelude Memory Frames Vga Pmm Kmalloc Paging Scheduler Context Elf Process Ramfs Syscall Keyboard.
From S2P Require Import Gdt Idt Pit System ShUtil Commands MemCommands.

Module ProcCommands.
Import System Commands Scheduler.

(** ** [ps] and [vminfo] *)

Lemma queue_rows_chain (l : list Z) (fuel : nat) (row : Z → list piece) (s : procs) (cur p : Z) :
  chain s p l 0 → (∀ x, x ∈ l → x ≠ 0) → (length l < fuel)%nat →
  queue_rows fuel row s cur p = Done (concat (row <$> filter (λ x, x ≠ cur) l)).
Proof.
  revert fuel p. induction l as [|x l IH]; intros [|fuel] p Hc H0 Hf; cbn [length] in *; [lia | | lia |]; cbn [queue_rows].
  - unfold chain in Hc. simpl in Hc. subst p. done.
  - destruct Hc as [-> Hc]. destruct (Z.eqb_spec x 0) as [E|_]; [by destruct (H0 x ltac:(set_solver)) |].
    rewrite (IH fuel); [| exact Hc | set_solver | lia]. cbn [obind]. rewrite filter_cons.
    case_decide as Hd; destruct (Z.eqb_spec x cur); done.
Qed.

Lemma all_queue_rows_inv (row : Z → list piece) (s : procs) (l z : list Z) :
  queue_inv s l z →
  all_queue_rows row s = Done (concat (row <$> filter (λ x, x ≠ current_process s) l)).
Proof.
  intros [H1 _ _ _ _ Hnd Hlive]. apply NoDup_app in Hnd as (Hnd & _ & _). apply queue_rows_chain.
  - exact H1.
  - intros x Hx. apply Hlive. set_solver.
  - apply chain_fuel_enough; [done |]. intros x Hx. apply Hlive. set_solver.
Qed.

(** What the two commands should print of a run queue [l]: a header, the current
    process, then the other processes of the queue in order. *)
Definition others (s : procs) (l : list Z) : list Z := filter (λ p, p ≠ current_process s) l.

Definition current_row (row : Z → list piece) (s : procs) : list piece :=
  if current_process s =? 0 then [] else row (current_process s).

Definition ps_output (s : procs) (l : list Z) : list piece :=
  [CYAN; Str "PID  STATE    PRI  NAME"; Nl; Str "---  -------  ---  ----------------"; Nl] ++
  current_row (print_proc_row s true) s ++ concat (print_proc_row s false <$> others s l) ++ [GREY].

Definition vminfo_output (s : procs) (live_cr3 kernel_pd : Z) (l : list Z) : list piece :=
  let row := vminfo_print_proc s live_cr3 kernel_pd in
  [CYAN; Str "Virtual memory"; Nl; GREY; Str "  kernel_pd_phys : "; Hex kernel_pd; Nl;
   Str "  live CR3       : "; Hex live_cr3; Nl; Nl; CYAN; Str "PID  NAME              CR3         NOTE"; Nl;
   Str "---  ----------------  ----------  -----------"; Nl; WHITE] ++
  current_row row s ++ [GREY] ++ concat (row <$> others s l).


(** ** [sleep] *)

(** A processor on which every wake-up from [hlt] is a timer tick. *)
Definition ticking (e : env) : Prop :=
  ∀ s, ∃ s', e_hlt e s = Done s' ∧ Pit.pit_ticks (sy_pit s') = u32 (Pit.pit_ticks (sy_pit s) + 1).

Lemma elapsed (start k : Z) : 0 <= k < 2 ^ 32 → u32 (u32 (start + k) - start) = k.
Proof. intros Hk. unfold u32. rewrite Zminus_mod_idemp_l, Z.mod_small; lia. Qed.

Lemma sleep_loop_spec (e : env) (n : nat) (fuel : nat) (start ticks : Z) (s : system) :
  ticking e → 0 <= ticks < 2 ^ 32 → Z.of_nat n <= ticks → (n < fuel)%nat →
  Pit.pit_ticks (sy_pit s) = u32 (start + (ticks - Z.of_nat n)) →
  ∃ s', sleep_loop fuel e start ticks s = Done s' ∧ Pit.pit_ticks (sy_pit s') = u32 (start + ticks).
Proof.
  intros He Ht. revert fuel s. induction n as [|n IH]; intros [|fuel] s Hn Hf Hs; [lia | | lia |]; cbn [sleep_loop];
    rewrite Hs, elapsed by lia.
  - exists s. destruct (Z.ltb_spec (ticks - Z.of_nat 0) ticks); [lia |]. split; [done |]. rewrite Hs. f_equal. lia.
  - destruct (Z.ltb_spec (ticks - Z.of_nat (S n)) ticks); [| lia]. destruct (He s) as (s1 & -> & H1). cbn [obind].
    apply IH; [lia | lia |]. rewrite H1, Hs. unfold u32. rewrite Zplus_mod_idemp_l. f_equal. lia.
Qed.

(** [sleep] returns, and not early: when the processor wakes up from [hlt] at
    every timer tick, [sleep n] returns after exactly [n] ticks, for every [n] the
    argument can denote and also when the 32-bit tick counter wraps around in
    between. *)
Theorem sleep_returns (e : env) (argv : list argument) (s : system) :
  let n := ShUtil.sh_strtoul (arg argv 1) 10 in
  ticking e → (2 <= length argv)%nat → is_u32 (Pit.pit_ticks (sy_pit s)) →
  ∃ s', do_sleep (S (Z.to_nat n)) e argv s = Done (say [GREEN; Str "slept "; Int (s32 n); Str " ticks"; Nl; GREY] s') ∧
    Pit.pit_ticks (sy_pit s') = u32 (Pit.pit_ticks (sy_pit s) + n).
Proof.
  intros n He Ha Hs. unfold do_sleep. destruct (Z.ltb_spec (Z.of_nat (length argv)) 2); [lia |]. fold n.
  pose proof (MemCommands.strtoul_u32 (arg argv 1) 10 ltac:(lia)) as Hn. fold n in Hn.
  destruct (sleep_loop_spec e (Z.to_nat n) (S (Z.to_nat n)) (Pit.pit_ticks (sy_pit s)) n s He Hn) as (s' & E & H');
    [lia | lia | rewrite u32_id; unfold is_u32 in *; lia |].
  exists s'. rewrite E. done.
Qed.

(** ** Witnesses *)

Lemma demo_idle_queue : queue_inv System.demo_procs [0x9000] [].
Proof.
  split; try done; [apply NoDup_singleton |]. intros p [->|[]%not_elem_of_nil]%elem_of_cons. split; [done | by eexists].
Qed.


(** Every [hlt] ends with a tick. *)
Definition demo_env : env :=
  Env (λ s, Done (set_pit (Pit.Pit (u32 (Pit.pit_ticks (sy_pit s) + 1)) (Pit.chan (sy_pit s))) s)) Done.

Lemma sleep_returns_witness :
  ∃ s', do_sleep 6 demo_env [Vga.chars "sleep"; Vga.chars "5"] (demo_system ∅ 0x10000) =
    Done (say [GREEN; Str "slept "; Int 5; Str " ticks"; Nl; GREY] s') ∧ Pit.pit_ticks (sy_pit s') = 5.
Proof.
  apply (sleep_returns demo_env [Vga.chars "sleep"; Vga.chars "5"] (demo_system ∅ 0x10000)).
  - intros s. eexists. split; [reflexivity | done].
  - simpl. lia.
  - done.
Defined.

End ProcCommands.
