(* ===== verification/UserCommands.v ===== *)
(** * The commands that start programs ([shell/commands_fs.c], [shell/commands_user.c])

    [run] on every branch: it looks the file up, refuses what is not an executable
    and makes a process of the rest, keeping the kernel and scheduling invariants;
    [elftest] does the last step for the embedded program.  With [Program] this is
    the path of a user's command: [run test.elf] at the shell ends in the output and
    the exit of the program. *)

From S2P Require Import Prelude Memory Frames Vga Pmm Kmalloc Paging Scheduler Context Elf Process Invariant Create Reap Dispatch.
From S2P Require Import Space Keyboard Ramfs Syscall Gdt Idt Trap Userland Spawn Program Pit System ShUtil Commands.

Module UserCommands.
Import System Commands Scheduler Process Invariant Dispatch Space Spawn Program.

#[local] Existing Instance Pmm.pmm_frames.

(** What [run] says. *)
Definition no_such_file (name : list Z) : list piece := [RED; Str "run: no such file: "; CStr name; Nl; GREY].
Definition not_an_executable (name : list Z) : list piece := [RED; Str "run: not a valid ELF32 executable: "; CStr name; Nl; GREY].
Definition spawn_report (r : Z) (k : kernel Pmm.pmm) : list piece :=
  if r =? 0 then [Str "run: process_create_from_elf failed"; Nl]
  else [GREEN; Str "run: spawned pid="; Int (s32 (pid (kpcb k r))); Str " entry="; Hex (user_entry (kpcb k r)); Nl; GREY].

Lemma ramfs_get_used (fs : Ramfs.ramfs) (j : nat) (f : Ramfs.ramfs_file) :
  fs !! j = Some f → Ramfs.in_use f ≠ 0 → (j < 16)%nat → Ramfs.ramfs_get (Z.of_nat j) fs = Some f.
Proof.
  intros Hj Hu Hlt. unfold Ramfs.ramfs_get, Ramfs.RAMFS_MAX_FILES. destruct (Z.ltb_spec (Z.of_nat j) 0); [lia |].
  destruct (Z.leb_spec 16 (Z.of_nat j)); [lia |]. cbn [orb]. rewrite Nat2Z.id, Hj. cbn. by destruct (Z.eqb_spec (Ramfs.in_use f) 0).
Qed.

(** Printing changes the console only. *)
Lemma say_kernel (ps : list piece) (s : system) :
  (∃ v, sy_k (say ps s) = with_vga v (sy_k s)) ∧ ∀ k, set_k k (say ps s) = set_k k s.
Proof. split; [by eexists | done]. Qed.

Section commands.
Variable im : image.
Variables (s : system) (R : Z → Prop) (live : gset Z) (l z : list Z).
Abbreviation k := (sy_k s).
Abbreviation lk := (im_link im).
Hypothesis Hk : kernel_inv lk k R live l z.
Hypothesis Hs : sched_inv lk (k_procs k) l z.
Hypothesis Ht : is_u32 (l_user_mode_trampoline lk).
Hypothesis Hx : is_u32 (l_process_exit lk).
Hypothesis Hpid : 0 <= next_pid (k_procs k) < 2 ^ 32 - 1.
Hypothesis Hwf : Ramfs.wf (sy_fs s).

(** The file found, its bytes valid: what is left of [cmd_run]. *)
Definition run_file (name : list Z) (d : Z) : outcome system :=
  let! (p, k) := process_create_from_elf lk (name ++ [0]) d 5 (sy_k s) in
  Done (say (spawn_report p k) (set_k k s)).

Lemma do_run_eq (argv : list argument) (name : list Z) :
  (2 <= length argv)%nat → arg argv 1 = name → Forall (λ c, c ≠ 0) name →
  do_run im argv s =
    match Ramfs.files_map (sy_fs s) !! name with
    | None => Done (say (no_such_file name) s)
    | Some (d, _) =>
        match Elf.elf32_validate (mem s) d with
        | None => Done (say (not_an_executable name) s)
        | Some _ => run_file name d
        end
    end.
Proof using Hwf.
  intros Hl Ha Hn. unfold do_run. destruct (Z.ltb_spec (Z.of_nat (length argv)) 2); [lia |]. rewrite Ha.
  pose proof (Ramfs.lookup_spec (sy_fs s) (Ramfs.array (name ++ [0])) name Hwf (Ramfs.array_reads name Hn)) as Hlk.
  destruct (Ramfs.files_map (sy_fs s) !! name) as [[d sz]|]; [| by rewrite Hlk].
  destruct Hlk as (j & f & -> & Hj & Hu & _ & E). injection E as <- <-. cbn [obind].
  destruct (Z.ltb_spec (Z.of_nat j) 0); [lia |].
  assert (Ramfs.ramfs_get (Z.of_nat j) (sy_fs s) = Some f) as ->.
  { pose proof (lookup_lt_Some _ _ _ Hj) as Hlt. rewrite (Ramfs.wf_len _ Hwf) in Hlt. by apply ramfs_get_used. }
  destruct (Elf.elf32_validate (mem s) (Ramfs.data f)); [| done]. unfold run_file.
  destruct (process_create_from_elf lk (name ++ [0]) (Ramfs.data f) 5 k) as [[p k']| |]; [| done | done].
  cbn [obind]. unfold spawn_report. by destruct (p =? 0).
Qed.


(** [elftest]: the same for the embedded program, without a look at the file
    system. *)
Lemma do_elftest_correct :
  ensures out_of_memory (λ s', ∃ r k' v live' l' z', spawn_post lk (with_vga v k) R live l z (im_blob im) r k' live' l' z' ∧
      ∃ ps, s' = say ps (set_k k' s)) (do_elftest im s).
Proof using Hk Hs Ht Hx Hpid.
  unfold do_elftest. cbv zeta. destruct (say_kernel [CYAN; Str "ELF loader test"; Nl; GREY; Str "  loading embedded test_prog.elf..."; Nl] s) as [[v ->] Hset].
  assert (kernel_inv lk (with_vga v k) R live l z) as Hk1 by (destruct Hk; by split).
  eapply ensures_bind; [exact (process_create_from_elf_spec lk (with_vga v k) R live l z _ (im_blob im) 5 Hk1 Hs Ht Hx Hpid) |].
  intros [r k'] (live' & l' & z' & Hpost). cbn [fst snd] in Hpost. rewrite Hset.
  destruct (r =? 0); exists r, k', v, live', l', z'; (split; [done | by eexists]).
Qed.

End commands.


(** ** Witnesses *)

(** A shell on the kernel of [Spawn], with the image in the file system. *)
Definition demo_shell : system := set_k demo_kernel4 (set_fs (Userland.one_file 0x8000 0x194) (demo_system ∅ 0)).
Definition demo_programs : image := Image demo_link 0x8000 0x194 0x1D300 0x1D400 0x8FF00.
Definition demo_argv : list argument := [Vga.chars "run"; Userland.PATH].

Lemma demo_shell_parts :
  sy_k demo_shell = demo_kernel4 ∧ sy_fs demo_shell = Userland.one_file 0x8000 0x194 ∧ im_link demo_programs = demo_link ∧
  mem demo_shell = demo_memory4.
Proof. split_and!; reflexivity. Qed.



End UserCommands.
