(* ===== verification/Shell.v ===== *)
(** * The shell loop ([shell/shell.c])

    Line editing in the buffer [buf], and dispatch of a finished line through the
    command table.  The loop polls the keyboard; interrupts arrive between two
    rounds, in any order ([shell_run] on a list of events).  The main theorem
    relates the loop to an editor that works on a list of characters. *)

From S2P Require Import Prelude Memory Frames Vga Pmm Kmalloc Paging Scheduler Context Elf Process Ramfs Syscall Keyboard.
From S2P Require Import Gdt Idt Pit System ShUtil Commands.

Module Shell.
Import System Commands.

Definition INPUT_MAX : Z := 256.
Definition ARGV_MAX : Z := 16.

Section shell.
Variable im : image.
Variable e : env.
Variable fuel : nat.

(** ** [dispatch] *)

(** [for (i = 0; commands[i].name != NULL; i++)] *)
Fixpoint dispatch_from (table : list (string * string * command)) (argv : list argument) (s : system) : outcome system :=
  match table with
  | [] => Done (say [RED; Str "unknown command: "; CStr (arg argv 0); Str "  (type 'help')"; Nl; GREY] s)
  | (name, _, fn) :: table =>
      if ShUtil.sh_strcmp (arg argv 0) (Vga.chars name) =? 0 then run_command im e fuel fn argv s
      else dispatch_from table argv s
  end.

(** [parse] cuts the line buffer up; the arguments are the strings in it. *)
Definition dispatch (s : system) : outcome system :=
  let '(line, offsets) := ShUtil.parse (sy_line s) ARGV_MAX in
  let s := set_line line (sy_len s) s in
  if Z.of_nat (length offsets) =? 0 then Done s
  else dispatch_from commands (ShUtil.cstring line <$> offsets) s.

(** ** The loop *)

Definition print_prompt : system → system := say [WHITE; Str "> "].

Definition shell_char (c : Z) (s : system) : outcome system :=
  if c =? Vga.BACKSPACE then
    if 0 <? sy_len s then Done (on_vga (Vga.vga_putchar Vga.BACKSPACE) (set_line (sy_line s) (sy_len s - 1) s)) else Done s
  else if c =? Vga.NEWLINE then
    let s := on_vga (Vga.vga_putchar Vga.NEWLINE) s in
    let s := set_line (aset (sy_line s) (sy_len s) 0) (sy_len s) s in
    let! s := dispatch s in
    Done (print_prompt (set_line (sy_line s) 0 s))
  else if sy_len s <? INPUT_MAX - 1 then
    let s := set_line (aset (sy_line s) (sy_len s) c) (sy_len s + 1) s in
    Done (on_vga (Vga.vga_putchar c) s)
  else Done s.

(** One round of [while (1)]. *)
Definition shell_poll (s : system) : outcome system :=
  let '(c, kb) := Keyboard.keyboard_getchar (sy_kb s) in
  let s := set_kb kb s in
  if c =? 0 then Done s else shell_char c s.

Definition shell_start (s : system) : system :=
  print_prompt (say [GREY; Nl; Str "Type 'help' for available commands."; Nl; Nl] s).

(** What happens while the shell runs: a round of the loop, or an interrupt. *)
Inductive shell_event : Type :=
| Poll
| Interrupt (int_no sc : Z).

Definition shell_step (ev : shell_event) (s : system) : outcome system :=
  match ev with
  | Poll => shell_poll s
  | Interrupt int_no sc => irq (im_link im) int_no sc s
  end.

Fixpoint shell_loop (evs : list shell_event) (s : system) : outcome system :=
  match evs with
  | [] => Done s
  | ev :: evs => let! s := shell_step ev s in shell_loop evs s
  end.

(** The state after the events [evs]; the loop itself never ends. *)
Definition shell_run (evs : list shell_event) (s : system) : outcome system := shell_loop evs (shell_start s).

(** ** Reference *)

(** The line editor on lists: the line so far and the console. *)
Definition edit (st : list Z * Vga.vga) (c : Z) : list Z * Vga.vga :=
  let '(l, v) := st in
  if c =? Vga.BACKSPACE then
    match l with [] => (l, v) | _ => (removelast l, Vga.vga_putchar c v) end
  else if decide (length l < 255)%nat then (l ++ [c], Vga.vga_putchar c v)
  else (l, v).

(** The command a word names. *)
Definition named (w : list Z) : option command :=
  (λ x : nat * (string * string * command), snd (snd x)) <$> list_find (λ t, Vga.chars (fst (fst t)) = w) commands.

(** Running the words of a line. *)
Definition exec (ws : list argument) (s : system) : outcome system :=
  match ws with
  | [] => Done s
  | w :: _ =>
      match named w with
      | Some fn => run_command im e fuel fn ws s
      | None => Done (say [RED; Str "unknown command: "; CStr w; Str "  (type 'help')"; Nl; GREY] s)
      end
  end.

(** The characters [cs] arrive one by one. *)
Fixpoint shell_input (cs : list Z) (s : system) : outcome system :=
  match cs with
  | [] => Done s
  | c :: cs => let! s := shell_char c s in shell_input cs s
  end.

(** The buffer has its 256 bytes and the index stays inside; the line typed so
    far is [l]. *)
Record line_ok (s : system) (l : list Z) : Prop := {
  lo_size : length (sy_line s) = Z.to_nat INPUT_MAX;
  lo_len : sy_len s = Z.of_nat (length l);
  lo_room : (length l <= 255)%nat;
  lo_text i c : l !! i = Some c → sy_line s !! i = Some c;
  lo_chars : Forall (λ c, 0 < c < 256) l
}.

End shell.

(** ** Line editing *)

Lemma edit_chars (l : list Z) (v : Vga.vga) (c : Z) :
  0 < c < 256 → Forall (λ c, 0 < c < 256) l → (length l <= 255)%nat →
  Forall (λ c, 0 < c < 256) (edit (l, v) c).1 ∧ (length (edit (l, v) c).1 <= 255)%nat.
Proof.
  intros Hc Hl Hn. unfold edit. destruct (c =? _).
  - destruct l as [|x l] using rev_ind; [done |]. rewrite removelast_last. apply Forall_app in Hl as [Hl _].
    rewrite length_app in Hn. destruct (l ++ [x]) eqn:E; [by destruct l |]. simpl. split; [done |]. simpl in Hn. lia.
  - case_decide; simpl; [| done]. rewrite Forall_app, Forall_singleton, length_app. simpl. split; [done | lia].
Qed.

Lemma char_edit (im : image) (e : env) (fuel : nat) (s : system) (l : list Z) (c : Z) :
  line_ok s l → 0 < c < 256 → c ≠ Vga.NEWLINE →
  ∃ line, let '(l', v) := edit (l, Process.k_vga (sy_k s)) c in
    let s' := on_vga (λ _, v) (set_line line (Z.of_nat (length l')) s) in
    shell_char im e fuel c s = Done s' ∧ line_ok s' l'.
Proof.
  intros [H1 H2 H3 H4 H5] Hc Hn. unfold shell_char, edit, INPUT_MAX in *.
  destruct (Z.eqb_spec c Vga.NEWLINE); [done |]. destruct (Z.eqb_spec c Vga.BACKSPACE) as [->|Hb].
  - destruct l as [|x l _] using rev_ind.
    + exists (sy_line s). rewrite H2. simpl. destruct s as [[] ????????]. simpl in *. subst. split; [done |]. by split.
    + exists (sy_line s). rewrite removelast_last, H2. rewrite length_app in *. simpl length in *.
      destruct (Z.ltb_spec 0 (Z.of_nat (length l + 1))); [| lia]. destruct (l ++ [x]) eqn:E; [by destruct l |]. rewrite <- E in *. clear E.
      replace (Z.of_nat (length l + 1) - 1) with (Z.of_nat (length l)) by lia. split; [done |].
      apply Forall_app in H5 as [H5 _]. split; simpl; [done | done | lia | | done].
      intros i y Hi. apply H4. by apply lookup_app_l_Some.
  - rewrite H2. case_decide as Hd.
    + exists (aset (sy_line s) (sy_len s) c). destruct (Z.ltb_spec (Z.of_nat (length l)) (256 - 1)); [| lia].
      rewrite length_app. simpl length. rewrite H2. replace (Z.of_nat (length l) + 1) with (Z.of_nat (length l + 1)) by lia. split; [done |].
      split; simpl; [by rewrite length_aset | by rewrite length_app; simpl; lia | rewrite length_app; simpl; lia | |].
      * intros i y Hi. unfold aset. rewrite Nat2Z.id. apply lookup_app_Some in Hi as [Hi|[Hge Hi]].
        -- rewrite list_lookup_insert_ne; [by apply H4 |]. apply lookup_lt_Some in Hi. lia.
        -- apply list_lookup_singleton_Some in Hi as [Hi ->]. replace i with (length l) by lia. apply list_lookup_insert_eq. lia.
      * by rewrite Forall_app, Forall_singleton.
    + exists (sy_line s). destruct (Z.ltb_spec (Z.of_nat (length l)) (256 - 1)); [lia |].
      destruct s as [[] ????????]. simpl in *. subst. split; [done |]. by split.
Qed.

(** The characters of a line, without its end. *)
Lemma input_edit (im : image) (e : env) (fuel : nat) (cs : list Z) (s : system) (l : list Z) :
  line_ok s l → Forall (λ c, 0 < c < 256 ∧ c ≠ Vga.NEWLINE) cs →
  ∃ line, let '(l', v) := foldl edit (l, Process.k_vga (sy_k s)) cs in
    let s' := on_vga (λ _, v) (set_line line (Z.of_nat (length l')) s) in
    shell_input im e fuel cs s = Done s' ∧ line_ok s' l'.
Proof.
  intros Hl Hcs. revert s l Hl. induction Hcs as [|c cs [Hc Hn] _ IH]; intros s l Hl.
  - exists (sy_line s). cbn [foldl shell_input]. pose proof (lo_len _ _ Hl) as H2.
    destruct s as [[] ????????]. simpl in *. subst. split; [done |]. by destruct Hl.
  - destruct (char_edit im e fuel s l c Hl Hc Hn) as [line1 H]. cbn [foldl shell_input].
    destruct (edit (l, Process.k_vga (sy_k s)) c) as [l1 v1]. destruct H as [E Hl1]. rewrite E. cbn [obind].
    destruct (IH _ _ Hl1) as [line H]. exists line. cbn [on_vga set_k sy_k Process.k_vga Process.with_vga] in H.
    destruct (foldl edit (l1, v1) cs) as [l2 v2]. exact H.
Qed.

(** ** Dispatch *)

Lemma names_ok : Forall (λ t : string * string * command, Forall (λ c, 0 < c < 256) (Vga.chars (fst (fst t)))) commands.
Proof. apply (bool_decide_unpack _). vm_compute. done. Qed.

Lemma dispatch_from_named (im : image) (e : env) (fuel : nat) (table : list (string * string * command)) (w : argument)
    (ws : list argument) (s : system) :
  Forall (λ c, 0 < c < 256) w →
  Forall (λ t : string * string * command, Forall (λ c, 0 < c < 256) (Vga.chars (fst (fst t)))) table →
  dispatch_from im e fuel table (w :: ws) s =
  match list_find (λ t : string * string * command, Vga.chars (fst (fst t)) = w) table with
  | Some (_, t) => run_command im e fuel (snd t) (w :: ws) s
  | None => Done (say [RED; Str "unknown command: "; CStr w; Str "  (type 'help')"; Nl; GREY] s)
  end.
Proof.
  intros Hw Ht. induction Ht as [|[[n h] fn] table Hn _ IH]; [done |]. cbn [dispatch_from list_find fst snd].
  change (arg (w :: ws) 0) with w. pose proof (ShUtil.strcmp_zero w (Vga.chars n) Hw Hn) as Hz. simpl in Hz.
  case_decide as Hd; destruct (Z.eqb_spec (ShUtil.sh_strcmp w (Vga.chars n)) 0) as [Hc|Hc].
  - done.
  - exfalso. naive_solver.
  - exfalso. naive_solver.
  - rewrite IH. by destruct (list_find _ table) as [[]|].
Qed.

Lemma words_chars (P : Z → Prop) (s w : list Z) : Forall P s → w ∈ ShUtil.words s → Forall P w.
Proof.
  unfold ShUtil.words. assert (∀ a, Forall P a → Forall P s → w ∈ ShUtil.words_from a s → Forall P w) as H.
  { induction s as [|c s IH]; intros a Ha Hs; cbn [ShUtil.words_from].
    - case_match; [set_solver |]. intros ->%list_elem_of_singleton. done.
    - inversion_clear Hs as [|?? Hc Hs']. case_match.
      + case_match; [by apply IH |]. intros [->|Hin]%elem_of_cons; [done |]. apply (IH []); [constructor | done | done].
      + apply IH; [| done]. by rewrite Forall_app, Forall_singleton. }
  apply H. constructor.
Qed.

Lemma parse_loop_length (room : nat) (line argv : list Z) (p : Z) :
  length (fst (ShUtil.parse_loop room line argv p)) = length line.
Proof.
  revert line argv p. induction room as [|room IH]; intros line argv p; cbn [ShUtil.parse_loop]; [done |].
  repeat case_match; rewrite ?IH, ?length_aset; done.
Qed.

(** [dispatch] on a buffer that holds the string [l] runs the words of [l]. *)
Lemma dispatch_exec (im : image) (e : env) (fuel : nat) (s : system) (l : list Z) :
  ShUtil.at_pos (sy_line s) 0 l → Forall (λ c, 0 < c < 256) l →
  ∃ line, length line = length (sy_line s) ∧
    dispatch im e fuel s = exec im e fuel (take 16 (ShUtil.words l)) (set_line line (sy_len s) s).
Proof.
  intros Hp Hl. unfold dispatch, ShUtil.parse. pose proof (parse_loop_length (Z.to_nat ARGV_MAX) (sy_line s) [] 0) as Hlen.
  destruct (ShUtil.parse_loop_spec (Z.to_nat ARGV_MAX) (sy_line s) [] 0 l Hp) as (line & offs & E & _ & Ew).
  change (Z.of_nat 0) with 0 in E. rewrite E in Hlen |- *. cbn [fst app] in *. exists line. split; [done |].
  change (Z.to_nat ARGV_MAX) with 16%nat in Ew. rewrite <- Ew. destruct offs as [|o offs]; [done |].
  cbn [length fmap list_fmap]. destruct (Z.eqb_spec (Z.of_nat (S (length offs))) 0); [lia |].
  rewrite dispatch_from_named; [| | exact names_ok].
  - unfold exec, named. by destruct (list_find _ commands) as [[? []]|].
  - eapply words_chars; [exact Hl |]. cbn [fmap list_fmap] in Ew.
    rewrite <- (take_drop 16 (ShUtil.words l)), <- Ew. apply elem_of_app. left. apply elem_of_cons. by left.
Qed.

(** C22. Refinement of the shell loop: the characters of a line, with backspaces, more
    than the 255 that fit or none at all, followed by a line end, have the effect
    of editing a list of characters and echoing it, then running the command the
    first word of the edited line names on its first 16 words (or reporting an
    unknown command, or nothing for a blank line), then emptying the line and
    prompting again.  The 256-byte buffer keeps its size throughout. *)
Theorem shell_executes_line (im : image) (e : env) (fuel : nat) (cs : list Z) (s : system) :
  line_ok s [] → Forall (λ c, 0 < c < 256 ∧ c ≠ Vga.NEWLINE) cs →
  let '(l, v) := foldl edit ([], Process.k_vga (sy_k s)) cs in
  ∃ line, length line = Z.to_nat INPUT_MAX ∧ (length l <= 255)%nat ∧
    shell_input im e fuel (cs ++ [Vga.NEWLINE]) s =
    (let! s' := exec im e fuel (take 16 (ShUtil.words l))
                  (on_vga (λ _, Vga.vga_putchar Vga.NEWLINE v) (set_line line (Z.of_nat (length l)) s)) in
     Done (print_prompt (set_line (sy_line s') 0 s'))).
Proof.
  intros Hl Hcs. destruct (input_edit im e fuel cs s [] Hl Hcs) as [line1 H].
  destruct (foldl edit ([], Process.k_vga (sy_k s)) cs) as [l v]. destruct H as [E Hl1].
  set (s1 := on_vga _ _) in *.
  assert (∀ cs2, shell_input im e fuel (cs ++ cs2) s = let! s := shell_input im e fuel cs s in shell_input im e fuel cs2 s) as Happ.
  { intros cs2. clear. revert s. induction cs as [|c cs IH]; intros s; [done |]. cbn [app shell_input].
    destruct (shell_char im e fuel c s); cbn [obind]; [apply IH | done | done]. }
  rewrite Happ, E. cbn [obind shell_input]. destruct Hl1 as [H1 H2 H3 H4 H5].
  destruct (dispatch_exec im e fuel
    (set_line (aset (sy_line s1) (sy_len s1) 0) (sy_len s1) (on_vga (Vga.vga_putchar Vga.NEWLINE) s1)) l) as (line & Hlen & Ed); [| done |].
  - unfold INPUT_MAX in H1. split_and!.
    + intros i c Hi. cbn [sy_line set_line]. unfold aset. rewrite H2, Nat2Z.id, list_lookup_insert_ne; [by apply H4 |].
      apply lookup_lt_Some in Hi. lia.
    + cbn [sy_line set_line]. unfold aset. rewrite H2, Nat2Z.id. apply list_lookup_insert_eq. lia.
    + eapply Forall_impl; [exact H5 |]. simpl. lia.
  - exists line. cbn [sy_line set_line] in Hlen. rewrite length_aset, H1 in Hlen. split_and!; [done | done |].
    unfold shell_char. change (Vga.NEWLINE =? Vga.BACKSPACE) with false. change (Vga.NEWLINE =? Vga.NEWLINE) with true. cbn match.
    cbn [sy_line sy_len on_vga set_k set_line] in Ed |- *. rewrite Ed.
    replace (set_line line _ _) with (on_vga (λ _, Vga.vga_putchar Vga.NEWLINE v) (set_line line (Z.of_nat (length l)) s)) by done.
    by destruct (exec _ _ _ _ _).
Qed.

(** ** Witness *)

Definition demo_image : image := Image (Process.Link 0x10000 0x9000 0x90000 0x1D000 0x1D100 0x1D200) 0x1E000 0x200 0x1D300 0x1D400 0x8FF00.

(** [ecx], backspace, [ho hi]: the line edited is [echo hi]. *)
Definition demo_typed : list Z := Vga.chars "ecx" ++ [Vga.BACKSPACE] ++ Vga.chars "ho  hi".

Lemma shell_executes_line_witness :
  ∃ s1, shell_input demo_image (Env Done Done) 0 (demo_typed ++ [Vga.NEWLINE]) (demo_system ∅ 0x10000) =
    (let s2 := do_echo [Vga.chars "echo"; Vga.chars "hi"] s1 in Done (print_prompt (set_line (sy_line s2) 0 s2))).
Proof.
  pose proof (shell_executes_line demo_image (Env Done Done) 0 demo_typed (demo_system ∅ 0x10000)) as H.
  destruct (foldl edit ([], Process.k_vga (sy_k (demo_system ∅ 0x10000))) demo_typed) as [l v] eqn:E.
  assert (take 16 (ShUtil.words l) = [Vga.chars "echo"; Vga.chars "hi"]) as Hw.
  { apply (f_equal (λ x : list Z * Vga.vga, take 16 (ShUtil.words (fst x)))) in E. cbn [fst] in E. rewrite <- E. vm_compute. reflexivity. }
  destruct H as (line & _ & _ & ->).
  - split; try done. simpl; lia.
  - apply (bool_decide_unpack _). vm_compute. done.
  - rewrite Hw. eexists. reflexivity.
Defined.

End Shell.
