(* ===== verification/Boot.v ===== *)
(** * Boot ([boot/boot.asm], [kernel/kernel.c])

    The Multiboot2 header, [_start], and [kernel_main] on the state of the system:
    the initialisation of every component in the order of the code, up to the
    shell.  The main theorem says that, from the state the loader leaves behind,
    the initialisation ends in a state that satisfies the kernel invariant the
    theorems on processes and scheduling start from. *)

From S2P Require Import Prelude Memory Frames Vga Pmm Kmalloc Paging Scheduler Context Elf Process Invariant Dispatch Ramfs.
From S2P Require Import Syscall Keyboard Gdt Idt Pit System ShUtil Commands MemCommands Shell.

Module Boot.
Import System.

Definition MULTIBOOT2_MAGIC : Z := 0x36D76289.

(** The words of the Multiboot2 header of [boot.asm] and its end tag (type and
    flags in one word). *)
Definition HEADER_MAGIC : Z := 0xE85250D6.
Definition ARCH : Z := 0.
Definition HEADER_LEN : Z := 24.
Definition CHECKSUM : Z := u32 (- (HEADER_MAGIC + ARCH + HEADER_LEN)).
Definition multiboot_header : list Z := [HEADER_MAGIC; ARCH; HEADER_LEN; CHECKSUM; 0; 8].

(** A loader accepts it: the length is that of the header and the four fields add
    up to 0. *)
Lemma multiboot_header_valid :
  HEADER_LEN = 4 * Z.of_nat (length multiboot_header) ∧ u32 (HEADER_MAGIC + ARCH + HEADER_LEN + CHECKSUM) = 0.
Proof. done. Qed.

Definition HEAP_PAGES : Z := 16.

(** The rest of the addresses the linker assigns: the end of the kernel image, the
    eight identity page tables, the descriptor tables and the interrupt stubs. *)
Record layout : Type := Layout {
  bo_image : image;
  bo_kernel_end : Z;
  bo_identity_pts : Z;
  bo_gdt : Z;
  bo_tss : Z;
  bo_idt : Z;
  bo_isr : Z → Z;
  bo_irq : Z → Z;
  bo_isr128 : Z
}.

Definition with_heap (h : Kmalloc.heap) (k : kernel) : kernel :=
  Process.Kernel (Process.k_frames k) (Process.k_mem k) h (Process.k_procs k) (Process.k_cpu k) (Process.k_esp0 k)
    (Process.k_paging k) (Process.k_vga k).
Definition with_paging (p : Paging.paging) (k : kernel) : kernel :=
  Process.Kernel (Process.k_frames k) (Process.k_mem k) (Process.k_heap k) (Process.k_procs k) (Process.k_cpu k)
    (Process.k_esp0 k) p (Process.k_vga k).

Section boot.
Variable lo : layout.

Abbreviation lk := (im_link (bo_image lo)).

(** Each call of [kernel_main] on the state of the system. *)
Definition b_gdt_init (s : system) : system :=
  let g := Gdt.gdt_init (bo_gdt lo) (bo_tss lo) (sy_gdt s) in
  set_k (Process.with_esp0 (Gdt.esp0 (Gdt.tss g)) (sy_k s)) (set_gdt g s).

Definition b_idt_init (s : system) : system :=
  let '(i, p) := Idt.idt_init (bo_idt lo) (bo_isr lo) (bo_irq lo) (bo_isr128 lo) (sy_idt s) (sy_pics s) in
  set_pics p (set_idt i s).

Definition b_pmm_init (mboot_ptr : Z) (s : system) : outcome system :=
  let! p := Pmm.pmm_init (mem s) (bo_kernel_end lo) mboot_ptr (Process.k_frames (sy_k s)) in
  Done (set_k (Process.with_frames p (sy_k s)) s).

(** Enabling paging loads CR3. *)
Definition b_paging_init (s : system) : system :=
  let k := sy_k s in
  let '(p, m, v) :=
    Paging.paging_init (Process.l_kernel_pd lk) (bo_identity_pts lo) (Process.k_paging k) (Process.k_mem k) (Process.k_vga k) in
  let k := with_paging p (Process.with_mem m (Process.with_vga v k)) in
  set_k (Process.with_cpu (Context.with_cr3 (Paging.cr3 p) (Process.k_cpu k)) k) s.

Definition b_kmalloc_init (s : system) : system :=
  let k := sy_k s in
  let '(fs, m, h) := Kmalloc.kmalloc_init HEAP_PAGES (Process.k_frames k) (Process.k_mem k) (Process.k_heap k) in
  set_k (with_heap h (Process.with_mem m (Process.with_frames fs k))) s.

Definition b_pit_init (s : system) : outcome system :=
  let! (p, i, v) := Pit.pit_init 100 (sy_pit s) (sy_idt s) (Process.k_vga (sy_k s)) in
  Done (set_pit p (set_idt i (on_vga (λ _, v) s))).

Definition b_ramfs_register (s : system) : outcome system :=
  let! (_, fs) := Ramfs.ramfs_register (Ramfs.array (Vga.chars "test.elf" ++ [0])) (im_blob (bo_image lo))
                    (im_blob_size (bo_image lo)) (sy_fs s) in
  Done (set_fs fs s).

Definition debug_print (l : list Z) (s : system) : system := foldl (λ s c, out_port 0xE9 c s) s l.

Definition banner : list piece :=
  [Commands.CYAN; Str "StakOS"; Nl; Commands.GREY; Str "----------------------------------------"; Nl; Commands.GREEN;
   Str "[OK] GDT initialized"; Nl; Str "[OK] IDT initialized"; Nl; Str "[OK] PIC remapped"; Nl;
   Str "[OK] Interrupts enabled"; Nl; Str "[OK] Keyboard initialized"; Nl].

(** [kernel_main] up to the check of the magic number, and from there to the call
    of [shell_run]. *)
Definition boot_devices (s : system) : system :=
  let s := on_vga Vga.vga_init s in
  let s := b_gdt_init s in
  let s := b_idt_init s in
  let s := set_kb (Keyboard.keyboard_init (sy_kb s)) s in
  let s := set_idt (Idt.irq_register 1 Idt.keyboard_handler (sy_idt s)) s in
  say banner s.

Definition boot_memory (mboot_ptr : Z) (s : system) : outcome system :=
  let! s := b_pmm_init mboot_ptr s in
  let s := Commands.do_meminfo s in
  let s := b_paging_init s in
  let s := b_kmalloc_init s in
  Commands.do_heapinfo s.

Definition boot_services (s : system) : outcome system :=
  let s := set_k (Process.process_init lk (sy_k s)) s in
  let s := set_k (Process.scheduler_init (sy_k s)) s in
  let! s := b_pit_init s in
  let s := set_fs (Ramfs.ramfs_init (sy_fs s)) s in
  let! s := b_ramfs_register s in
  Done (debug_print (Vga.chars "STAKOS_BOOT_OK" ++ [Vga.NEWLINE]) s).

Definition boot (magic mboot_ptr : Z) (s : system) : outcome system :=
  let s := boot_devices s in
  if negb (magic =? MULTIBOOT2_MAGIC) then Panicked "Not booted by a Multiboot2 bootloader!"
  else
    let! s := boot_memory mboot_ptr s in
    boot_services s.

(** The state of the machine after boot and the events [evs]. *)
Definition kernel_main (e : Commands.env) (fuel : nat) (magic mboot_ptr : Z) (evs : list Shell.shell_event) (s : system) :
    outcome system :=
  let! s := boot magic mboot_ptr s in
  Shell.shell_run (bo_image lo) e fuel evs s.

(** [_start]: the loader's EBX and EAX become the arguments of [kernel_main] on the
    boot stack; [ret] is the address after the [call]. *)
Definition start (ret : Z) (s : system) : outcome system :=
  let k := sy_k s in
  let c := Context.with_esp (Process.l_stack_top lk) (Process.k_cpu k) in
  let push v '(c, m) :=
    let sp := u32 (Context.r_esp c - 4) in (Context.with_esp sp c, store32 m sp v) in
  let '(c, m) := push ret (push (Context.r_eax c) (push (Context.r_ebx c) (c, Process.k_mem k))) in
  let sp := Context.r_esp c in
  boot (load32 m (sp + 4)) (load32 m (sp + 8)) (set_k (Process.with_mem m (Process.with_cpu c k)) s).

(** ** The state at entry *)

(** The kernel's tables lie in its image, whose end is known; the idle PCB is not
    NULL. *)
Record layout_ok : Prop := {
  la_tables : Paging.layout_ok (Process.l_kernel_pd lk) (bo_identity_pts lo);
  la_pd : Process.l_kernel_pd lk + PAGE_SIZE <= bo_kernel_end lo;
  la_pts : bo_identity_pts lo + Paging.IDENTITY_PT_COUNT * PAGE_SIZE <= bo_kernel_end lo;
  la_idle : 0 < Process.l_idle_pcb lk < bo_kernel_end lo;
  la_end : bo_kernel_end lo <= 2 ^ 32 - PAGE_SIZE
}.

(** Static variables are zero. *)
Definition boot_procs : Scheduler.procs :=
  Scheduler.Procs (<[Process.l_idle_pcb lk := Scheduler.zero_pcb]> ∅) 0 0 (replicate 16 0) 0 0 0 0.

Record zeroed (s : system) : Prop := {
  ze_bitmap : length (Pmm.pmm_bitmap (Process.k_frames (sy_k s))) = 1024%nat;
  ze_free : Pmm.free_frames (Process.k_frames (sy_k s)) = 0;
  ze_heap : Kmalloc.heap_start (Process.k_heap (sy_k s)) = 0;
  ze_procs : procs s = boot_procs;
  ze_files : sy_fs s = Ramfs.ramfs_boot;
  ze_handlers : Idt.irq_handlers (sy_idt s) = replicate 16 None;
  ze_pd t : Paging.is_index t → Paging.entry (mem s) (Process.l_kernel_pd lk) t = 0
}.

End boot.

(** ** The first process *)

Section idle.
Import Scheduler.
Variables (lk : Process.link) (k : kernel).
Hypothesis H0 : Process.l_idle_pcb lk ≠ 0.
Abbreviation idle := (Process.l_idle_pcb lk).

Lemma edit_one (f : process → process) (x : process) (p n c h t sz z : Z) (tb : list Z) :
  edit p f (Procs (<[p := x]> ∅) n c tb h t sz z) = Procs (<[p := f x]> ∅) n c tb h t sz z.
Proof. unfold edit, with_pcbs, pcb, deref. simpl. by rewrite lookup_insert_eq, insert_insert_eq. Qed.

(** The updates of the other fields, on a state given by its fields. *)
Lemma with_next_pid_eq (g : gmap Z process) (n c h t sz z v : Z) (tb : list Z) :
  with_next_pid v (Procs g n c tb h t sz z) = Procs g v c tb h t sz z.
Proof. done. Qed.

Lemma with_current_eq (g : gmap Z process) (n c h t sz z v : Z) (tb : list Z) :
  with_current v (Procs g n c tb h t sz z) = Procs g n v tb h t sz z.
Proof. done. Qed.

(** The PCBs and queues after [process_init] and [scheduler_init]. *)
Lemma process_init_procs :
  Process.k_procs k = Procs (<[idle := zero_pcb]> ∅) 0 0 (replicate 16 0) 0 0 0 0 →
  ∃ x v, Process.process_init lk k =
      Process.with_vga v (Process.with_procs (Procs (<[idle := x]> ∅) 1 idle (idle :: replicate 15 0) 0 0 0 0) k) ∧
    pid x = 0 ∧ cr3 x = Paging.kernel_pd_phys (Process.k_paging k).
Proof using H0.
  intros Hk. unfold Process.process_init. rewrite Hk, !edit_one. cbv zeta. rewrite with_next_pid_eq, !edit_one, with_current_eq, edit_one.
  eexists _, _. split; [reflexivity |]. done.
Qed.

Lemma init_procs :
  Process.k_procs k = Procs (<[idle := zero_pcb]> ∅) 0 0 (replicate 16 0) 0 0 0 0 →
  ∃ x v, Process.scheduler_init (Process.process_init lk k) =
      Process.with_vga v (Process.with_procs (Procs (<[idle := x]> ∅) 1 idle (idle :: replicate 15 0) idle idle 1 0) k) ∧
    pid x = 0 ∧ state x = PROCESS_RUNNING ∧ next x = 0 ∧ cr3 x = Paging.kernel_pd_phys (Process.k_paging k).
Proof using H0.
  intros Hk. destruct (process_init_procs Hk) as (x & v & -> & Hp & Hc). unfold Process.scheduler_init, scheduler_enqueue.
  set (s1 := with_size 0 _). change s1 with (Procs (<[idle := x]> ∅) 1 idle (idle :: replicate 15 0) 0 0 0 0).
  cbn [process_current current_process]. destruct (Z.eqb_spec idle 0); [done |]. rewrite !edit_one. unfold append_tail.
  cbn [queue_head Z.eqb]. change (with_tail idle (with_head idle (Procs ?g ?n ?c ?tb ?h ?t ?sz ?z))) with (Procs g n c tb idle idle sz z).
  change (with_size (u32 (queue_size (Procs ?g ?n ?c ?tb ?h ?t ?sz ?z) + 1)) _) with (Procs g n c tb h t (u32 (sz + 1)) z).
  rewrite edit_one. eexists _, _. split; [reflexivity |]. destruct x. exact (conj Hp (conj eq_refl (conj eq_refl Hc))).
Qed.

(** One process, current and alone in the queue and in the table. *)
Lemma one_process (x : process) :
  let s := Procs (<[idle := x]> ∅) 1 idle (idle :: replicate 15 0) idle idle 1 0 in
  pid x = 0 → next x = 0 → queue_inv s [idle] [] ∧ table_ok s [idle] [].
Proof using H0.
  intros s Hp Hn. assert (∀ p, p ∈ [idle] ++ [] → p = idle) as H by (intros p; set_solver).
  assert (pcb s idle = x) as Hx by (unfold pcb, deref, s; simpl; by rewrite lookup_insert_eq). split; split; try done.
  - unfold chain. simpl. split; [done | exact (eq_trans (f_equal next Hx) Hn)].
  - apply NoDup_singleton.
  - intros p ->%H. split; [done |]. unfold s. simpl. rewrite lookup_insert_eq. by eexists.
  - unfold s. cbn [proc_table]. rewrite filter_cons_True by done. apply NoDup_cons. split; [| simpl; constructor].
    simpl. set_solver.
  - intros p Hp0. unfold s. cbn [proc_table]. rewrite elem_of_cons, elem_of_replicate. set_solver.
  - intros p q ->%H ->%H. done.
  - intros p ->%H. rewrite Hx, Hp. unfold s. simpl. lia.
Qed.

End idle.

(** ** Memory after boot *)

Section memory.
Context {F : Type} `{!FrameAlloc F}.
Variable lo : layout.
Hypothesis Hlo : layout_ok lo.
Abbreviation kpd := (Process.l_kernel_pd (im_link (bo_image lo))).
Variables (fs0 fs' : F) (m0 m1 m' : memory) (h' : Kmalloc.heap) (l : list Z).
Hypothesis Hok : frames_ok fs0.
Hypothesis Hlow : ∀ b, page_addr b → in_use fs0 b = false → bo_kernel_end lo <= b.
Hypothesis Hid : Paging.identity_upto kpd (bo_identity_pts lo) m0 m1 8.
Hypothesis Hz : ∀ t, Paging.is_index t → Paging.entry m0 kpd t = 0.
Hypothesis Hheap : Kmalloc.heap_inv h' m' (Kmalloc.page_block <$> l).
Hypothesis Htook : took fs0 fs' (list_to_set l).
Hypothesis Hag : agree_on (λ a, Forall (λ b, a < b ∨ b + PAGE_SIZE <= a) l) m1 m'.

(** The bytes of the heap. *)
Definition heap_region (a : Z) : Prop := ∃ b, b ∈ l ∧ Invariant.in_page b a.

Lemma page_above (b : Z) : b ∈ l → page_addr b ∧ bo_kernel_end lo <= b.
Proof using Hlow Htook.
  intros Hb. destruct Htook as (_ & HX & _). destruct (HX b) as [Hp Hu]; [by apply elem_of_list_to_set |]. auto.
Qed.

Lemma image_kept (a : Z) : a < bo_kernel_end lo → load8 m' a = load8 m1 a.
Proof using Hlow Htook Hag.
  intros Ha. apply Hag. apply Forall_forall. intros b Hb. left. destruct (page_above b Hb). lia.
Qed.

Lemma image_not_heap (a : Z) : a < bo_kernel_end lo → ~ heap_region a.
Proof using Hlow Htook. intros Ha (b & Hb & Hin). destruct (page_above b Hb). unfold Invariant.in_page in Hin. lia. Qed.

Lemma image_reserved (b : Z) : Paging.page_base b → b < bo_kernel_end lo → Paging.reserved fs' b.
Proof using Hlow Htook.
  intros Hb Hlt. split; [done |]. intros Hp. apply (took_mono fs0 fs' _ b Htook Hp).
  destruct (in_use fs0 b) eqn:E; [done |]. specialize (Hlow b Hp E). lia.
Qed.

Lemma boot_entry (pd i : Z) : pd + 4096 <= bo_kernel_end lo → Paging.is_index i → Paging.entry m' pd i = Paging.entry m1 pd i.
Proof using Hlow Htook Hag.
  intros Hpd Hi. unfold Paging.is_index in Hi. apply (Paging.entry_agree (λ a, a < bo_kernel_end lo)); [exact image_kept | lia].
Qed.

(** The kernel directory has the eight identity tables and nothing else. *)
Lemma boot_directory (i : Z) :
  Paging.is_index i →
  (0 <= i < 8 ∧ Paging.present m' kpd i = true ∧ Paging.table m' kpd i = Paging.identity_pt (bo_identity_pts lo) i) ∨
  (8 <= i ∧ Paging.present m' kpd i = false).
Proof using All.
  intros Hi. destruct Hlo as [L1 L2 L3 L4 L5]. destruct Hid as [I1 I2 I3]. unfold PAGE_SIZE in *.
  unfold Paging.present, Paging.table. rewrite boot_entry by (done || lia). destruct (decide (i < 8)) as [Hlt|Hge].
  - left. assert (0 <= i < 8) as Hr by (unfold Paging.is_index in Hi; lia). rewrite I1 by done.
    destruct (Paging.identity_pt_base kpd (bo_identity_pts lo) L1 i Hr) as [Hb _].
    destruct (Paging.entry_parts (Paging.identity_pt (bo_identity_pts lo) i) 3) as (_ & E1 & E2); [unfold Paging.page_base in Hb; lia.. |].
    split_and!; [lia | lia | by rewrite E2 by lia | done].
  - right. split; [lia |]. unfold Paging.is_index in Hi. rewrite I3 by lia. by rewrite Hz.
Qed.

Lemma boot_space : Paging.space_ok fs' m' kpd.
Proof using All.
  pose proof Hlo as [L1 L2 L3 L4 L5]. pose proof L1 as [P1 P2 P3]. unfold PAGE_SIZE, Paging.IDENTITY_PT_COUNT in *.
  assert (∀ i, 0 <= i < 8 → Paging.page_base (Paging.identity_pt (bo_identity_pts lo) i) ∧
    Paging.identity_pt (bo_identity_pts lo) i ≠ kpd ∧ Paging.identity_pt (bo_identity_pts lo) i < bo_kernel_end lo) as Hpt.
  { intros i Hi. destruct (Paging.identity_pt_base kpd (bo_identity_pts lo) L1 i Hi) as [Hb Hap].
    split_and!; [done | lia |]. unfold Paging.identity_pt, Paging.PT_ENTRIES. lia. }
  split.
  - apply image_reserved; [done |]. unfold Paging.page_base in P1. lia.
  - intros i Hi Hp. destruct (boot_directory i Hi) as [(Hr & _ & ->)|[_ E]]; [| congruence].
    destruct (Hpt i Hr) as (H1 & H2 & H3). split; [by apply image_reserved | done].
  - intros i j Hi Hj Hpi Hpj. destruct (boot_directory i Hi) as [(Hri & _ & ->)|[_ E]]; [| congruence].
    destruct (boot_directory j Hj) as [(Hrj & _ & ->)|[_ E]]; [| congruence].
    unfold Paging.identity_pt, Paging.PT_ENTRIES. lia.
Qed.

(** The pages of the kernel's address space lie in its image. *)
Lemma boot_tables (b : Z) : Invariant.kernel_page (im_link (bo_image lo)) m' b → b + PAGE_SIZE <= bo_kernel_end lo.
Proof using All.
  pose proof Hlo as [L1 L2 L3 L4 L5]. intros [->|(i & Hi & Hp & ->)]; [done |].
  destruct (boot_directory i Hi) as [(Hr & _ & ->)|[_ E]]; [| congruence].
  unfold Paging.identity_pt, Paging.PT_ENTRIES, Paging.IDENTITY_PT_COUNT, PAGE_SIZE in *. lia.
Qed.

Lemma boot_window : MemCommands.identity_window m' kpd.
Proof using All.
  pose proof Hlo as [L1 L2 L3 L4 L5]. intros va Hva.
  assert (is_u32 va) as Hu by (unfold is_u32, Paging.IDENTITY_MAPPED_BYTES, Paging.IDENTITY_PT_COUNT, Paging.PT_ENTRIES, PAGE_SIZE in *; lia).
  pose proof (Paging.identity_translate kpd (bo_identity_pts lo) L1 m0 m1 Paging.supervisor va Hid) as E.
  rewrite (proj2 (Z.ltb_lt va _)) in E by lia. cbn in E. rewrite <- E; [| intros t Ht; apply Hz; unfold Paging.is_index; lia | done].
  apply Syscall.translate_agree. pose proof (Paging.pd_index_range va Hu) as Hi. pose proof (Paging.pt_index_range va) as Hj.
  unfold Paging.is_index in *. intros a [(i & Hi4 & ->)|(i & Hi4 & ->)]; apply image_kept.
  - unfold PAGE_SIZE in *. lia.
  - destruct (boot_directory (Paging.pd_index va) Hi) as [(Hr & _ & Ht)|[Hge _]].
    + unfold Paging.table in *. rewrite boot_entry in Ht by (done || (unfold PAGE_SIZE in *; lia)). rewrite Ht.
      unfold Paging.identity_pt, Paging.PT_ENTRIES, Paging.IDENTITY_PT_COUNT, PAGE_SIZE in *. lia.
    + exfalso. destruct (Paging.index_div va) as [E1 _].
      unfold Paging.IDENTITY_MAPPED_BYTES, Paging.IDENTITY_PT_COUNT, Paging.PT_ENTRIES, PAGE_SIZE in *. zlia.
Qed.

Lemma boot_heap : Kmalloc.heap_view h' m' heap_region ∅.
Proof using All.
  exists (Kmalloc.page_block <$> l). split_and!; [done | |].
  - intros a (b & Hb & Ha). apply list_elem_of_fmap in Hb as (x & -> & Hx). exists x. split; [done |].
    unfold Kmalloc.page_block in Ha. Kmalloc.unfold_blocks. simpl in Ha. unfold Invariant.in_page, PAGE_SIZE. lia.
  - intros p. split; [set_solver |]. intros (b & Hb & Hf & _). apply list_elem_of_fmap in Hb as (x & -> & Hx). done.
Qed.

Lemma free_not_heap (b a : Z) : page_addr b → in_use fs' b = false → Invariant.in_page b a → ~ heap_region a.
Proof using Htook.
  intros Hp Hu Hin (c & Hc & Hina). destruct Htook as (_ & HX & _ & Hu'). rewrite Hu' in Hu by done.
  apply orb_false_iff in Hu as [Hu _]. apply bool_decide_eq_false in Hu. rewrite elem_of_list_to_set in Hu.
  destruct (HX c) as [Hpc _]; [by apply elem_of_list_to_set |].
  destruct (page_addr_apart b c Hp Hpc) as [|]; [by intros -> | |]; unfold Invariant.in_page in *; lia.
Qed.

End memory.

(** ** The stages *)

Lemma idt_init_handlers (ia : Z) (f g : Z → Z) (x : Z) (i : Idt.idt_state) (p : Idt.pics) :
  Idt.irq_handlers (fst (Idt.idt_init ia f g x i p)) = Idt.irq_handlers i.
Proof.
  unfold Idt.idt_init. cbn [fst]. set (Q := λ j : Idt.idt_state, Idt.irq_handlers j = Idt.irq_handlers i).
  change (Q (Idt.sti (Idt.idt_flush (Idt.idt_set_gate 128 x 0x08 0xEE
    (for_loop 16 0 (λ i s, Idt.idt_set_gate (32 + i) (g i) 0x08 0x8E s)
      (for_loop 32 0 (λ i s, Idt.idt_set_gate i (f i) 0x08 0x8E s) (Idt.with_idt (replicate 256 Idt.zero_entry) (Idt.with_ptr (Idt.sizeof_idt_entry * Idt.IDT_ENTRIES - 1) ia i)))))))).
  assert (∀ v a s, Q s → Q (Idt.idt_set_gate v a 0x08 0x8E s)) as H by done.
  assert (∀ s, Q s → Q (Idt.sti (Idt.idt_flush (Idt.idt_set_gate 128 x 0x08 0xEE s)))) as H' by done.
  apply H', for_loop_inv; [| intros; by apply H]. apply for_loop_inv; [done | intros; by apply H].
Qed.

(** What a stage leaves alone. *)
Lemma devices_spec (lo : layout) (s : system) :
  let s' := boot_devices lo s in
  Process.k_frames (sy_k s') = Process.k_frames (sy_k s) ∧ mem s' = mem s ∧ Process.k_heap (sy_k s') = Process.k_heap (sy_k s) ∧
  procs s' = procs s ∧ sy_fs s' = sy_fs s ∧
  Idt.irq_handlers (sy_idt s') = <[1%nat := Some Idt.keyboard_handler]> (Idt.irq_handlers (sy_idt s)).
Proof.
  unfold boot_devices, b_idt_init. set (s0 := b_gdt_init lo _).
  pose proof (idt_init_handlers (bo_idt lo) (bo_isr lo) (bo_irq lo) (bo_isr128 lo) (sy_idt s0) (sy_pics s0)) as H.
  destruct (Idt.idt_init _ _ _ _ _ _) as [i p]. cbn [fst] in H. split_and!; try done.
  change (<[1%nat := Some Idt.keyboard_handler]> (Idt.irq_handlers i) = <[1%nat := Some Idt.keyboard_handler]> (Idt.irq_handlers (sy_idt s))).
  by rewrite H.
Qed.

Lemma print_stats_done (h : Kmalloc.heap) (m : memory) (l : list Z) (v : Vga.vga) :
  Kmalloc.heap_inv h m (Kmalloc.page_block <$> l) → (length l <= 16)%nat → ∃ v', Kmalloc.kmalloc_print_stats h m v = Done v'.
Proof.
  intros Hi Hl. unfold Kmalloc.kmalloc_print_stats.
  rewrite (Kmalloc.stats_loop_spec (Kmalloc.page_block <$> l)); [by eexists | | apply Hi | apply Hi | |].
  - by eapply Kmalloc.walk_fuel_enough.
  - unfold Kmalloc.stats_nonneg. simpl. lia.
  - unfold Kmalloc.stats_bytes. rewrite Kmalloc.page_blocks_total. simpl. unfold PAGE_SIZE. lia.
Qed.

(** The physical memory manager hands out frames above the kernel image only. *)
Lemma pmm_init_low (m : memory) (kernel_end mboot_ptr : Z) (es : list Pmm.mmap_entry) (p : Pmm.pmm) :
  Pmm.mb2_info m mboot_ptr es → length (Pmm.pmm_bitmap p) = 1024%nat → Pmm.free_frames p = 0 →
  0 <= kernel_end <= 2 ^ 32 - PAGE_SIZE →
  ∃ p', Pmm.pmm_init m kernel_end mboot_ptr p = Done p' ∧ frames_ok p' ∧
    ∀ b, page_addr b → in_use p' b = false → kernel_end <= b.
Proof.
  intros Hm Hl Hf Hk. destruct (Pmm.pmm_init_spec m kernel_end mboot_ptr es p Hm Hl Hf) as (p' & E & Hi & Hu).
  exists p'. split_and!; [done | |].
  - exists (Z.b2z (Pmm.avail es 0)). split; [destruct (Pmm.avail es 0); simpl; lia | done].
  - intros b Hb Hub. destruct (Pmm.page_addr_frame b Hb) as [Hfr Hbb]. change (Pmm.used p' (b / PAGE_SIZE) = false) in Hub.
    rewrite Hu in Hub by (unfold Pmm.is_frame; lia). unfold Pmm.init_used in Hub.
    apply orb_false_iff in Hub as [Hub _]. apply orb_false_iff in Hub as [_ Hub]. apply Z.leb_gt in Hub.
    unfold PAGE_SIZE in *. rewrite u32_id in Hub by (unfold is_u32; lia). zlia.
Qed.

(** Memory once the allocators and paging are up: the heap has the pages [l]. *)
Record memory_ready (lo : layout) (k : kernel) (l : list Z) : Prop := {
  mr_frames : frames_ok (Process.k_frames k);
  mr_heap : Kmalloc.heap_view (Process.k_heap k) (Process.k_mem k) (heap_region l) ∅;
  mr_space : Paging.space_ok (Process.k_frames k) (Process.k_mem k) (Process.l_kernel_pd (im_link (bo_image lo)));
  mr_window : MemCommands.identity_window (Process.k_mem k) (Process.l_kernel_pd (im_link (bo_image lo)));
  mr_image a : a < bo_kernel_end lo → ~ heap_region l a;
  mr_free b a : page_addr b → in_use (Process.k_frames k) b = false → Invariant.in_page b a → ~ heap_region l a;
  mr_pages : length l = 16%nat ∨ (length l < 16)%nat ∧ frames_free (Process.k_frames k) = 0;
  mr_cr3 : Syscall.cur_pd k = Process.l_kernel_pd (im_link (bo_image lo));
  mr_pd : Paging.kernel_pd_phys (Process.k_paging k) = Process.l_kernel_pd (im_link (bo_image lo));
  mr_tables b : Invariant.kernel_page (im_link (bo_image lo)) (Process.k_mem k) b → b + PAGE_SIZE <= bo_kernel_end lo
}.

(** [paging_init] builds the identity tables. *)
Lemma paging_init_built (kpd pts : Z) (pg pg' : Paging.paging) (m m' : memory) (v v' : Vga.vga) :
  Paging.layout_ok kpd pts → Paging.paging_init kpd pts pg m v = (pg', m', v') →
  Paging.identity_upto kpd pts m m' 8 ∧ Paging.cr3 pg' = kpd ∧ Paging.kernel_pd_phys pg' = kpd.
Proof.
  intros Hl. unfold Paging.paging_init. pose proof (Paging.identity_tables_built kpd pts Hl m) as Hb.
  set (m2 := for_loop _ _ _ _) in *. clearbody m2. set (v2 := Vga.vga_set_color _ _). clearbody v2. by intros [= <- <- <-].
Qed.

Lemma memory_spec (lo : layout) (mboot_ptr : Z) (es : list Pmm.mmap_entry) (s : system) :
  layout_ok lo → Pmm.mb2_info (mem s) mboot_ptr es →
  length (Pmm.pmm_bitmap (Process.k_frames (sy_k s))) = 1024%nat → Pmm.free_frames (Process.k_frames (sy_k s)) = 0 →
  Kmalloc.heap_start (Process.k_heap (sy_k s)) = 0 →
  (∀ t, Paging.is_index t → Paging.entry (mem s) (Process.l_kernel_pd (im_link (bo_image lo))) t = 0) →
  ∃ s' l, boot_memory lo mboot_ptr s = Done s' ∧ memory_ready lo (sy_k s') l ∧
    procs s' = procs s ∧ sy_fs s' = sy_fs s ∧ sy_idt s' = sy_idt s.
Proof.
  intros Hlo Hmb Hbm Hfr Hh Hz. pose proof Hlo as [L1 L2 L3 L4 L5].
  destruct (pmm_init_low (mem s) (bo_kernel_end lo) mboot_ptr es _ Hmb Hbm Hfr) as (fs0 & E0 & Hok & Hlow); [lia |].
  unfold boot_memory, b_pmm_init. rewrite E0. cbn [obind]. set (s1 := Commands.do_meminfo _).
  unfold b_paging_init. destruct (Paging.paging_init _ _ _ _ _) as [[pg m1] v1] eqn:E1.
  destruct (paging_init_built _ _ _ _ _ _ _ _ L1 E1) as (Hid & Hc & Hk). set (s2 := set_k _ s1).
  destruct (Kmalloc.kmalloc_init_spec HEAP_PAGES fs0 m1 (Process.k_heap (sy_k s)) Hok Hh) as (l & fs' & m' & h' & E2 & Hinv & Hlen & Ht & Hag);
    [unfold HEAP_PAGES; lia |].
  assert (b_kmalloc_init s2 = set_k (with_heap h' (Process.with_mem m' (Process.with_frames fs' (sy_k s2)))) s2) as ->.
  { unfold b_kmalloc_init. change (Process.k_frames (sy_k s2)) with fs0. change (Process.k_mem (sy_k s2)) with m1.
    change (Process.k_heap (sy_k s2)) with (Process.k_heap (sy_k s)). by rewrite E2. }
  set (s3 := set_k _ s2). unfold Commands.do_heapinfo.
  destruct (print_stats_done h' m' l (Process.k_vga (sy_k s3)) Hinv) as [v3 E3]; [unfold HEAP_PAGES in Hlen; lia |].
  change (Kmalloc.kmalloc_print_stats (Process.k_heap (sy_k s3)) (mem s3) (Process.k_vga (sy_k s3))) with (Kmalloc.kmalloc_print_stats h' m' (Process.k_vga (sy_k s3))).
  rewrite E3. cbn [obind]. eexists _, l. split; [reflexivity |]. split; [| exact (conj eq_refl (conj eq_refl eq_refl))].
  change (mem s1) with (mem s) in Hid. split.
  - exact (proj1 Ht).
  - by eapply (boot_heap lo Hlo fs0 fs' (mem s) m1 m' h' l).
  - by eapply (boot_space lo Hlo fs0 fs' (mem s) m1 m' h' l).
  - by eapply (boot_window lo Hlo fs0 fs' (mem s) m1 m' h' l).
  - intros a Ha. by eapply (image_not_heap lo fs0 fs' l).
  - intros b a Hb Hu. by eapply (free_not_heap fs0 fs' l).
  - change (Process.k_frames _) with fs'. unfold HEAP_PAGES in Hlen. lia.
  - exact Hc.
  - exact Hk.
  - intros b. by eapply (boot_tables lo Hlo fs0 fs' (mem s) m1 m' h' l).
Qed.

(** The kernel invariant with the idle process alone. *)
Lemma ready_inv (lo : layout) (k k' : kernel) (l : list Z) (x : Scheduler.process) :
  let lk := im_link (bo_image lo) in
  let idle := Process.l_idle_pcb lk in
  layout_ok lo → memory_ready lo k l → Scheduler.pid x = 0 → Scheduler.next x = 0 → Scheduler.state x = Scheduler.PROCESS_RUNNING →
  Process.k_procs k' = Scheduler.Procs (<[idle := x]> ∅) 1 idle (idle :: replicate 15 0) idle idle 1 0 →
  Process.k_frames k' = Process.k_frames k → Process.k_mem k' = Process.k_mem k → Process.k_heap k' = Process.k_heap k →
  Invariant.kernel_inv lk k' (heap_region l) ∅ [idle] [] ∧ Dispatch.sched_inv lk (Process.k_procs k') [idle] [].
Proof.
  intros lk idle [L1 L2 L3 L4 L5] [R1 R2 R3 R4 R5 R6 R7 R8 R9 R10] Hp Hn Hs Ep Ef Em Eh.
  assert (∀ p, p ∈ [idle] ++ [] → p = idle) as H by (intros p; set_solver).
  destruct (one_process lk ltac:(unfold lk; lia) x Hp Hn) as [Hq Ht]. fold idle in Hq, Ht. split.
  - split; rewrite ?Ef, ?Em, ?Eh, ?Ep.
    + exact R1.
    + exact R2.
    + exact R3.
    + intros b a Hb Ha. apply R5. apply R10 in Hb. unfold Invariant.in_page in Ha. lia.
    + exact R6.
    + exact Hq.
    + exact Ht.
    + split; [unfold lk; lia |]. apply R5. fold lk in L4. lia.
    + intros p Hin. left. cbn [Scheduler.current_process] in Hin. apply elem_of_cons in Hin as [->|Hin]; [done | by apply H].
    + intros p b Hin Hne. by apply H in Hin.
    + intros p Hin Hne. by apply H in Hin.
    + intros p q b Hin _ Hne. by apply H in Hin.
  - rewrite Ep. assert (∀ s, Scheduler.pcbs s = <[idle := x]> ∅ → Scheduler.pcb s idle = x) as Hx.
    { intros s E. unfold Scheduler.pcb, Scheduler.deref. rewrite E, lookup_insert_eq. done. }
    split; cbn [Scheduler.current_process]; fold lk; fold idle.
    + set_solver.
    + by rewrite Hx.
    + intros q Hin Hne. exfalso. apply Hne. set_solver.
    + intros q Hin. set_solver.
    + split; [set_solver |]. by rewrite Hx, Hs.
Qed.

Lemma debug_print_spec (c : list Z) (s : system) :
  debug_print c s = System (sy_k s) (sy_fs s) (sy_kb s) (sy_gdt s) (sy_idt s) (sy_pics s) (sy_pit s) (sy_line s) (sy_len s)
    (sy_ports s ++ ((λ x, (0xE9, x)) <$> c)).
Proof.
  unfold debug_print. revert s. induction c as [|x c IH]; intros s; cbn [foldl fmap list_fmap].
  - rewrite app_nil_r. by destruct s.
  - rewrite IH. unfold out_port. cbn [sy_k sy_fs sy_kb sy_gdt sy_idt sy_pics sy_pit sy_line sy_len sy_ports].
    by rewrite <- app_assoc.
Qed.

(** The name under which the embedded program is registered. *)
Definition TEST_ELF : list Z := Vga.chars "test.elf".

Lemma services_spec (lo : layout) (s : system) (l : list Z) :
  let lk := im_link (bo_image lo) in
  let idle := Process.l_idle_pcb lk in
  layout_ok lo → memory_ready lo (sy_k s) l → procs s = boot_procs lo → sy_fs s = Ramfs.ramfs_boot →
  length (Idt.irq_handlers (sy_idt s)) = 16%nat →
  ∃ s', boot_services lo s = Done s' ∧
    Invariant.kernel_inv lk (sy_k s') (heap_region l) ∅ [idle] [] ∧ Dispatch.sched_inv lk (procs s') [idle] [] ∧
    memory_ready lo (sy_k s') l ∧
    Ramfs.wf (sy_fs s') ∧ Ramfs.files_map (sy_fs s') = {[TEST_ELF := (im_blob (bo_image lo), im_blob_size (bo_image lo))]} ∧
    Idt.irq_handlers (sy_idt s') = <[0%nat := Some Idt.pit_handler]> (Idt.irq_handlers (sy_idt s)) ∧
    sy_ports s' = sy_ports s ++ ((λ x, (0xE9, x)) <$> Vga.chars "STAKOS_BOOT_OK" ++ [Vga.NEWLINE]).
Proof.
  intros lk idle Hlo Hr Hp Hf Hh. pose proof (la_idle _ Hlo) as L4.
  destruct (init_procs lk (sy_k s) ltac:(unfold lk; lia) Hp) as (x & v & E & X1 & X2 & X3 & _).
  unfold boot_services. set (s1 := set_k (Process.scheduler_init _) _).
  assert (s1 = set_k (Process.with_vga v (Process.with_procs (Scheduler.Procs (<[idle := x]> ∅) 1 idle (idle :: replicate 15 0) idle idle 1 0) (sy_k s))) s) as ->.
  { exact (f_equal (λ k, set_k k s) E). }
  clear E. unfold b_pit_init, Pit.pit_init. cbn [Z.eqb obind]. set (s2 := set_pit _ _).
  destruct Ramfs.ramfs_boot_wf as [Hwf Hm].
  destruct (Ramfs.register_spec (Ramfs.ramfs_init Ramfs.ramfs_boot) (Ramfs.array (TEST_ELF ++ [0])) TEST_ELF
    (im_blob (bo_image lo)) (im_blob_size (bo_image lo)) Hwf) as [[Hbad _]|(_ & i & fs' & E & _ & _ & Hwf' & Hm' & _)].
  { apply Ramfs.array_reads. apply (bool_decide_unpack _). vm_compute. done. }
  { exfalso. destruct Hbad as [Hb|[Hb|[Hb|Hb]]]; [done | cbn in Hb; lia | rewrite Hm, lookup_empty in Hb; by destruct Hb |].
    apply Forall_inv in Hb. done. }
  unfold b_ramfs_register. set (s3 := set_fs _ s2). change (sy_fs s3) with (Ramfs.ramfs_init (sy_fs s)). rewrite Hf.
  change (Vga.chars "test.elf") with TEST_ELF. rewrite E. cbn [obind]. rewrite debug_print_spec.
  eexists. split; [reflexivity |]. cbn [sy_k sy_fs sy_idt sy_ports].
  destruct (ready_inv lo (sy_k s) (sy_k s3) l x Hlo Hr X1 X3 X2 eq_refl eq_refl eq_refl eq_refl) as [I1 I2].
  split; [exact I1 |]. split; [exact I2 |]. split; [exact (Build_memory_ready lo (sy_k s3) l (mr_frames _ _ _ Hr) (mr_heap _ _ _ Hr)
    (mr_space _ _ _ Hr) (mr_window _ _ _ Hr) (mr_image _ _ _ Hr) (mr_free _ _ _ Hr) (mr_pages _ _ _ Hr) (mr_cr3 _ _ _ Hr) (mr_pd _ _ _ Hr)
    (mr_tables _ _ _ Hr)) |].
  split; [exact Hwf' |]. split; [etrans; [exact Hm' | by rewrite Hm, insert_empty] |]. split; [reflexivity | reflexivity].
Qed.

(** ** Theorems *)

(** [_start] calls [kernel_main] with the loader's EAX as magic number and its EBX
    as the address of the Multiboot2 block, on the boot stack, and writes nothing
    but the twelve bytes at its top. *)
Theorem start_passes_arguments (lo : layout) (ret : Z) (s : system) :
  let k := sy_k s in
  let c := Process.k_cpu k in
  let top := Process.l_stack_top (im_link (bo_image lo)) in
  12 <= top < 2 ^ 32 → is_u32 (Context.r_eax c) → is_u32 (Context.r_ebx c) →
  ∃ m, start lo ret s =
      boot lo (Context.r_eax c) (Context.r_ebx c) (set_k (Process.with_mem m (Process.with_cpu (Context.with_esp (top - 12) c) k)) s) ∧
    agree_outside (top - 12) top (mem s) m.
Proof.
  intros k c top Htop Ha Hb. unfold start. fold k c top. cbn [Context.r_esp Context.with_esp Context.r_eax Context.r_ebx].
  rewrite (u32_id (top - 4)) by (unfold is_u32; lia). cbn [Context.r_esp Context.with_esp].
  rewrite (u32_id (top - 4 - 4)) by (unfold is_u32; lia). cbn [Context.r_esp Context.with_esp].
  rewrite (u32_id (top - 4 - 4 - 4)) by (unfold is_u32; lia).
  set (m := store32 _ (top - 4 - 4 - 4) ret). exists m. split.
  - assert (load32 m (top - 4 - 4 - 4 + 4) = Context.r_eax c) as ->.
    { unfold m. rewrite load32_store32_ne by lia. replace (top - 4 - 4 - 4 + 4) with (top - 4 - 4) by lia.
      rewrite load32_store32_eq. by apply u32_id. }
    assert (load32 m (top - 4 - 4 - 4 + 8) = Context.r_ebx c) as ->.
    { unfold m. rewrite !load32_store32_ne by lia. replace (top - 4 - 4 - 4 + 8) with (top - 4) by lia.
      rewrite load32_store32_eq. by apply u32_id. }
    replace (top - 4 - 4 - 4) with (top - 12) by lia. reflexivity.
  - unfold m, mem. fold k. etrans; [| eapply agree_outside_weaken; [apply agree_store32 | lia | lia]].
    etrans; [| eapply agree_outside_weaken; [apply agree_store32 | lia | lia]].
    eapply agree_outside_weaken; [apply agree_store32 | lia | lia].
Qed.

Lemma boot_spec (lo : layout) (mboot_ptr : Z) (es : list Pmm.mmap_entry) (s : system) :
  let lk := im_link (bo_image lo) in
  let idle := Process.l_idle_pcb lk in
  layout_ok lo → zeroed lo s → Pmm.mb2_info (mem s) mboot_ptr es →
  (∃ s' l, boot lo MULTIBOOT2_MAGIC mboot_ptr s = Done s' ∧
     Invariant.kernel_inv lk (sy_k s') (heap_region l) ∅ [idle] [] ∧ Dispatch.sched_inv lk (procs s') [idle] [] ∧
     (length l = 16%nat ∨ (length l < 16)%nat ∧ frames_free (Process.k_frames (sy_k s')) = 0) ∧
     Syscall.cur_pd (sy_k s') = Process.l_kernel_pd lk ∧ MemCommands.identity_window (mem s') (Process.l_kernel_pd lk) ∧
     Ramfs.wf (sy_fs s') ∧ Ramfs.files_map (sy_fs s') = {[TEST_ELF := (im_blob (bo_image lo), im_blob_size (bo_image lo))]} ∧
     Idt.irq_handlers (sy_idt s') = Some Idt.pit_handler :: Some Idt.keyboard_handler :: replicate 14 None) ∧
  ∀ magic, magic ≠ MULTIBOOT2_MAGIC → boot lo magic mboot_ptr s = Panicked "Not booted by a Multiboot2 bootloader!".
Proof.
  intros lk idle Hlo [Z1 Z2 Z3 Z4 Z5 Z6 Z7] Hmb. split.
  - destruct (devices_spec lo s) as (D1 & D2 & D3 & D4 & D5 & D6). unfold boot. change (negb _) with false. cbn match.
    set (s1 := boot_devices lo s) in *. clearbody s1.
    destruct (memory_spec lo mboot_ptr es s1 Hlo) as (s2 & l & -> & Hr & M1 & M2 & M3); rewrite ?D1, ?D2, ?D3; [done.. |].
    cbn [obind]. rewrite D4, Z4 in M1. rewrite D5, Z5 in M2. rewrite Z6 in D6. rewrite <- M3 in D6.
    destruct (services_spec lo s2 l Hlo Hr M1 M2) as (s3 & E & I1 & I2 & Hr3 & W1 & W2 & W3 & _); [by rewrite D6 |].
    exists s3, l. rewrite D6 in W3. destruct Hr3. split_and!; done.
  - intros magic Hm. unfold boot. by destruct (Z.eqb_spec magic MULTIBOOT2_MAGIC).
Qed.

(** C1. Boot establishes the kernel invariant.  From the state the loader leaves
    (static variables zero, a well-formed Multiboot2 block, the kernel's tables
    inside its image), [kernel_main] reaches the shell: the kernel invariant and
    the scheduling invariant hold with the idle process current and alone, the
    heap has sixteen pages unless the frames ran out, the identity window is
    mapped by the directory in force, the file system holds exactly the embedded
    program, and the timer and keyboard handlers are registered.  With any other
    magic number it panics. *)
Theorem boot_establishes (lo : layout) (mboot_ptr : Z) (es : list Pmm.mmap_entry) (s : system) :
  let lk := im_link (bo_image lo) in
  let idle := Process.l_idle_pcb lk in
  layout_ok lo → zeroed lo s → Pmm.mb2_info (mem s) mboot_ptr es →
  (∃ s' l, boot lo MULTIBOOT2_MAGIC mboot_ptr s = Done s' ∧
     Invariant.kernel_inv lk (sy_k s') (heap_region l) ∅ [idle] [] ∧ Dispatch.sched_inv lk (procs s') [idle] [] ∧
     (length l = 16%nat ∨ (length l < 16)%nat ∧ frames_free (Process.k_frames (sy_k s')) = 0) ∧
     Syscall.cur_pd (sy_k s') = Process.l_kernel_pd lk ∧ MemCommands.identity_window (mem s') (Process.l_kernel_pd lk) ∧
     Ramfs.wf (sy_fs s') ∧ Ramfs.files_map (sy_fs s') = {[TEST_ELF := (im_blob (bo_image lo), im_blob_size (bo_image lo))]} ∧
     Idt.irq_handlers (sy_idt s') = Some Idt.pit_handler :: Some Idt.keyboard_handler :: replicate 14 None) ∧
  ∀ magic, magic ≠ MULTIBOOT2_MAGIC → boot lo magic mboot_ptr s = Panicked "Not booted by a Multiboot2 bootloader!".
Proof. exact (boot_spec lo mboot_ptr es s). Qed.

(** ** Witnesses *)

Definition demo_link : Process.link := Process.Link 0x10000 0x12000 0x90000 0x1D000 0x1D100 0x1D200.
Definition demo_image : image := Image demo_link 0x1E000 0x200 0x1D300 0x1D400 0x8FF00.
Definition demo_layout : layout := Layout demo_image 0x20000 0x14000 0x13000 0x13100 0x13200 (λ i, 0x1C000 + 16 * i) (λ i, 0x1C400 + 16 * i) 0x1C600.
(** Zero static variables and the Multiboot2 block of [Pmm.v]. *)
Definition demo_entry : system :=
  set_k (Process.Kernel Pmm.full_pmm Pmm.demo_mmap (Kmalloc.Heap 0 0) (boot_procs demo_layout) (Context.demo_cpu 0x8F000) 0
    (Paging.PagingState 0 0 false) (Vga.Vga (replicate 2000 0) 0 0 0)) (demo_system ∅ 0).

Lemma demo_layout_ok : layout_ok demo_layout.
Proof. split; [split | ..]; unfold Paging.page_base, Paging.IDENTITY_PT_COUNT, PAGE_SIZE; simpl; zlia. Qed.

Lemma demo_zeroed : zeroed demo_layout demo_entry.
Proof.
  split; try reflexivity. intros t Ht. change (mem demo_entry) with Pmm.demo_mmap.
  unfold Paging.is_index in Ht. unfold Paging.entry, Pmm.demo_mmap. cbn [foldl].
  change (Process.l_kernel_pd _) with 0x10000. rewrite !load32_store32_ne by lia. done.
Qed.

Lemma boot_establishes_witness :
  ∃ s' l, boot demo_layout MULTIBOOT2_MAGIC 0x9000 demo_entry = Done s' ∧
    Invariant.kernel_inv demo_link (sy_k s') (heap_region l) ∅ [0x12000] [].
Proof.
  destruct (boot_establishes demo_layout 0x9000 [Pmm.MmapEntry 0 0x9F000 1] demo_entry) as [(s' & l & E & H & _) _].
  - exact demo_layout_ok.
  - exact demo_zeroed.
  - exact Pmm.demo_mmap_info.
  - exists s', l. exact (conj E H).
Defined.

End Boot.
