(* ===== verification/Image.v ===== *)
(** * The kernel image ([linker.ld], [boot/boot.asm], [boot/test_prog_blob.asm], [userland/test_prog.ld])

    The two linker scripts as functions from the input sections of the object
    files, their alignments and sizes, to the addresses of these sections.  What
    the compiler puts into a section is not known; a static variable is an offset
    and a size in an input section.  The theorem derives from the script what the
    boot sequence assumes about addresses. *)

From S2P Require Import Prelude Memory Frames Vga Pmm Kmalloc Paging Scheduler Context Elf Process Invariant Dispatch Ramfs.
From S2P Require Import Syscall Keyboard Gdt Idt Pit System ShUtil Commands MemCommands Shell Boot.

Module Image.

(** ** Placing sections *)

(** An input section. *)
Record sect : Type := Sect { s_align : Z; s_size : Z }.

Definition sect_ok (s : sect) : Prop := 0 < s_align s ∧ 0 <= s_size s.

(** [ALIGN] *)
Definition align_up (a x : Z) : Z := (x + a - 1) / a * a.

(** The addresses of a list of input sections from the location counter on, and the
    location counter behind them. *)
Fixpoint place (dot : Z) (l : list sect) : list Z * Z :=
  match l with
  | [] => ([], dot)
  | s :: l' =>
      let a := align_up (s_align s) dot in
      let '(rest, dot) := place (a + s_size s) l' in (a :: rest, dot)
  end.

(** The input sections of the objects, in the order of the command line. *)
Record objects : Type := Objects {
  o_multiboot : list sect;
  o_text : list sect;
  o_rodata : list sect;
  o_data : list sect;
  o_common : list sect;
  o_bss : list sect
}.

(** The addresses of the input sections of each output section, and [_kernel_end]. *)
Record linked : Type := Linked {
  at_text : list Z;
  at_rodata : list Z;
  at_data : list Z;
  at_bss : list Z;
  kernel_end : Z
}.

(** [linker.ld] *)
Definition link_kernel (o : objects) : linked :=
  let dot := 0x100000 in
  let '(text, dot) := place (align_up 0x1000 dot) (o_multiboot o ++ o_text o) in
  let '(rodata, dot) := place (align_up 0x1000 dot) (o_rodata o) in
  let '(data, dot) := place (align_up 0x1000 dot) (o_data o) in
  let '(bss, dot) := place (align_up 0x1000 dot) (o_common o ++ o_bss o) in
  Linked text rodata data bss dot.

(** [userland/test_prog.ld]: no alignment between the output sections. *)
Definition link_user (o : objects) : linked :=
  let dot := 0x400000 in
  let '(text, dot) := place dot (o_text o) in
  let '(rodata, dot) := place dot (o_rodata o) in
  let '(data, dot) := place dot (o_data o) in
  let '(bss, dot) := place dot (o_bss o) in
  Linked text rodata data bss dot.

(** The sections that the assembly files contribute: the Multiboot2 header, the
    boot stack, and the blob, whose section ends in the word
    [test_prog_blob_size]. *)
Definition multiboot_sect : sect := Sect 8 Boot.HEADER_LEN.
Definition BOOT_STACK : Z := 16384.
Definition stack_sect : sect := Sect 16 BOOT_STACK.
Definition blob_sect (elf_file : list Z) : sect := Sect 4 (Z.of_nat (length elf_file) + 4).

(** [test_prog_blob_end - test_prog_blob] *)
Definition test_prog_blob_size (elf_file : list Z) (blob : Z) : Z :=
  let blob_end := blob + Z.of_nat (length elf_file) in u32 (blob_end - blob).

(** ** Lemmas *)

Lemma align_up_spec (a x : Z) : 0 < a → x <= align_up a x < x + a ∧ align_up a x mod a = 0.
Proof.
  intros Ha. unfold align_up. pose proof (Z.mul_div_le (x + a - 1) a Ha) as H1.
  pose proof (Z.mul_succ_div_gt (x + a - 1) a Ha) as H2. set (q := (x + a - 1) / a) in *. split; [nia |].
  apply Z.mod_mul. lia.
Qed.

(** Sections are placed in order, aligned and without overlap. *)
Record placed (dot dot' : Z) (l : list sect) (addrs : list Z) : Prop := {
  pl_grows : dot <= dot';
  pl_length : length addrs = length l;
  pl_at i s a : l !! i = Some s → addrs !! i = Some a → dot <= a ∧ a mod s_align s = 0 ∧ a + s_size s <= dot';
  pl_order i j s a b : (i < j)%nat → l !! i = Some s → addrs !! i = Some a → addrs !! j = Some b → a + s_size s <= b
}.

Lemma place_spec (dot : Z) (l : list sect) : Forall sect_ok l → placed dot (snd (place dot l)) l (fst (place dot l)).
Proof.
  revert dot. induction l as [|s l IH]; intros dot Hl; cbn [place]; [split; cbn; [lia | done | done | done] |].
  apply Forall_cons in Hl as [[Ha Hs] Hl]. destruct (align_up_spec (s_align s) dot Ha) as [A1 A2].
  specialize (IH (align_up (s_align s) dot + s_size s) Hl).
  destruct (place (align_up (s_align s) dot + s_size s) l) as [rest dot']. cbn [fst snd] in *. destruct IH as [I1 I2 I3 I4].
  split; cbn [fst snd].
  - lia.
  - simpl. by rewrite I2.
  - intros [|i] s' a; cbn; [intros [= <-] [= <-]; split_and!; [lia | done | lia] |].
    intros H1 H2. destruct (I3 i s' a H1 H2) as (? & ? & ?). split_and!; [lia | done | lia].
  - intros [|i] [|j] s' a b Hij; cbn; [lia | | lia |].
    + intros [= <-] [= <-] Hb. destruct (lookup_lt_is_Some_2 l j) as [s2 Hs2]; [rewrite <- I2; by apply lookup_lt_Some in Hb |].
      destruct (I3 j s2 b Hs2 Hb). lia.
    + apply I4. lia.
Qed.

Definition objects_ok (o : objects) : Prop :=
  Forall sect_ok (o_multiboot o ++ o_text o) ∧ Forall sect_ok (o_rodata o) ∧ Forall sect_ok (o_data o) ∧
  Forall sect_ok (o_common o ++ o_bss o).

(** The four output sections, each from a page boundary on. *)
Lemma link_kernel_spec (o : objects) :
  objects_ok o →
  ∃ d0 d1 d2 d3 d4, let L := link_kernel o in
    d0 = 0x100000 ∧ kernel_end L = d4 ∧
    placed (align_up 0x1000 d0) d1 (o_multiboot o ++ o_text o) (at_text L) ∧
    placed (align_up 0x1000 d1) d2 (o_rodata o) (at_rodata L) ∧
    placed (align_up 0x1000 d2) d3 (o_data o) (at_data L) ∧
    placed (align_up 0x1000 d3) d4 (o_common o ++ o_bss o) (at_bss L).
Proof.
  intros (H1 & H2 & H3 & H4). unfold link_kernel.
  pose proof (place_spec (align_up 0x1000 0x100000) _ H1) as P1.
  destruct (place (align_up 0x1000 0x100000) (o_multiboot o ++ o_text o)) as [text d1].
  pose proof (place_spec (align_up 0x1000 d1) _ H2) as P2. destruct (place (align_up 0x1000 d1) (o_rodata o)) as [rodata d2].
  pose proof (place_spec (align_up 0x1000 d2) _ H3) as P3. destruct (place (align_up 0x1000 d2) (o_data o)) as [data d3].
  pose proof (place_spec (align_up 0x1000 d3) _ H4) as P4. destruct (place (align_up 0x1000 d3) (o_common o ++ o_bss o)) as [bss d4].
  by exists 0x100000, d1, d2, d3, d4.
Qed.

(** ** Static variables *)

(** A variable at offset [v_off] of input section [v_sect] of .bss. *)
Record var : Type := Var { v_sect : nat; v_off : Z; v_size : Z; v_align : Z }.

(** What the compiler and the assembler guarantee of a variable in its section. *)
Record var_ok (l : list sect) (v : var) : Prop := {
  vo_size : 0 < v_size v ∧ 0 < v_align v;
  vo_sect : ∃ s, l !! v_sect v = Some s ∧ 0 <= v_off v ∧ v_off v + v_size v <= s_size s ∧ (v_align v | s_align s) ∧ (v_align v | v_off v)
}.

Definition vars_apart (v w : var) : Prop :=
  v_sect v ≠ v_sect w ∨ v_off v + v_size v <= v_off w ∨ v_off w + v_size w <= v_off v.

Definition var_addr (addrs : list Z) (v : var) : Z := default 0 (addrs !! v_sect v) + v_off v.

Lemma var_placed (dot dot' : Z) (l : list sect) (addrs : list Z) (v : var) :
  placed dot dot' l addrs → var_ok l v →
  dot <= var_addr addrs v ∧ var_addr addrs v + v_size v <= dot' ∧ var_addr addrs v mod v_align v = 0.
Proof.
  intros Hp [[V0 V0'] (s & Hs & V1 & V2 & V3 & V4)]. unfold var_addr.
  destruct (lookup_lt_is_Some_2 addrs (v_sect v)) as [a Ha]; [rewrite (pl_length _ _ _ _ Hp); by apply lookup_lt_Some in Hs |].
  rewrite Ha. simpl. destruct (pl_at _ _ _ _ Hp _ _ _ Hs Ha) as (P1 & P2 & P3). split_and!; [lia | lia |].
  apply Z.mod_divide; [lia |]. apply Z.divide_add_r; [| done]. etransitivity; [exact V3 |].
  destruct (decide (s_align s = 0)) as [E|E]; [rewrite E, Zmod_0_r in P2; exists 0; lia | by apply Z.mod_divide].
Qed.

Lemma vars_placed_apart (dot dot' : Z) (l : list sect) (addrs : list Z) (v w : var) :
  placed dot dot' l addrs → var_ok l v → var_ok l w → vars_apart v w →
  var_addr addrs v + v_size v <= var_addr addrs w ∨ var_addr addrs w + v_size w <= var_addr addrs v.
Proof.
  intros Hp [_ (s & Hs & V1 & V2 & _)] [_ (s' & Hs' & W1 & W2 & _)] Hap. unfold var_addr.
  destruct (lookup_lt_is_Some_2 addrs (v_sect v)) as [a Ha]; [rewrite (pl_length _ _ _ _ Hp); by apply lookup_lt_Some in Hs |].
  destruct (lookup_lt_is_Some_2 addrs (v_sect w)) as [b Hb]; [rewrite (pl_length _ _ _ _ Hp); by apply lookup_lt_Some in Hs' |].
  rewrite Ha, Hb. simpl. destruct (decide (v_sect v = v_sect w)) as [E|E].
  - rewrite E in Ha. rewrite Ha in Hb. injection Hb as <-. destruct Hap as [|[|]]; [done | left; lia | right; lia].
  - destruct (decide (v_sect v < v_sect w)%nat) as [Hlt|Hge].
    + pose proof (pl_order _ _ _ _ Hp _ _ _ _ _ Hlt Hs Ha Hb). left. lia.
    + pose proof (pl_order _ _ _ _ Hp (v_sect w) (v_sect v) s' b a ltac:(lia) Hs' Hb Ha). right. lia.
Qed.

(** The static variables the boot sequence relies on, as [paging.c], [process.c]
    and [boot.asm] declare them. *)
Record statics : Type := Statics { kernel_pd : var; identity_pts : var; idle_pcb : var; boot_stack : var }.

Record statics_ok (o : objects) (v : statics) : Prop := {
  st_pd : var_ok (o_common o ++ o_bss o) (kernel_pd v) ∧ v_size (kernel_pd v) = Paging.PD_ENTRIES * 4 ∧ v_align (kernel_pd v) = 4096;
  st_pts : var_ok (o_common o ++ o_bss o) (identity_pts v) ∧
    v_size (identity_pts v) = Paging.IDENTITY_PT_COUNT * Paging.PT_ENTRIES * 4 ∧ v_align (identity_pts v) = 4096;
  st_idle : var_ok (o_common o ++ o_bss o) (idle_pcb v) ∧ v_size (idle_pcb v) = Process.sizeof_process;
  st_stack : var_ok (o_common o ++ o_bss o) (boot_stack v) ∧ v_size (boot_stack v) = BOOT_STACK ∧ v_align (boot_stack v) = 16;
  st_apart : vars_apart (kernel_pd v) (identity_pts v) ∧ vars_apart (kernel_pd v) (boot_stack v) ∧ vars_apart (identity_pts v) (boot_stack v)
}.

(** The layout of [Boot.v] has the addresses of the linked image. *)
Record layout_linked (o : objects) (v : statics) (lo : Boot.layout) : Prop := {
  ll_pd : Process.l_kernel_pd (System.im_link (Boot.bo_image lo)) = var_addr (at_bss (link_kernel o)) (kernel_pd v);
  ll_pts : Boot.bo_identity_pts lo = var_addr (at_bss (link_kernel o)) (identity_pts v);
  ll_idle : Process.l_idle_pcb (System.im_link (Boot.bo_image lo)) = var_addr (at_bss (link_kernel o)) (idle_pcb v);
  ll_stack : Process.l_stack_top (System.im_link (Boot.bo_image lo)) = var_addr (at_bss (link_kernel o)) (boot_stack v) + BOOT_STACK;
  ll_end : Boot.bo_kernel_end lo = kernel_end (link_kernel o)
}.

(** ** Properties *)

(** C29. An image linked by [linker.ld] meets what the boot sequence assumes, for
    any object files whose static variables have the sizes and alignments of the
    declarations, as long as the image ends below 4 GiB less a page: the page
    directory and the eight identity page tables are page aligned, disjoint and
    inside the image, the idle PCB is in the image and not NULL.  The boot stack is
    inside the image too, aligned to 16 bytes and disjoint from these tables, and
    the Multiboot2 header is at 1 MiB, the first byte of the image. *)
Theorem linked_layout_ok (o : objects) (v : statics) (lo : Boot.layout) :
  objects_ok o → statics_ok o v → layout_linked o v lo → kernel_end (link_kernel o) <= 2 ^ 32 - PAGE_SIZE →
  head (o_multiboot o) = Some multiboot_sect →
  let stack := Process.l_stack_top (System.im_link (Boot.bo_image lo)) in
  let pd := Process.l_kernel_pd (System.im_link (Boot.bo_image lo)) in
  Boot.layout_ok lo ∧
  (0x100000 <= stack - BOOT_STACK ∧ stack <= Boot.bo_kernel_end lo ∧ stack mod 16 = 0) ∧
  (pd + PAGE_SIZE <= stack - BOOT_STACK ∨ stack <= pd) ∧
  (Boot.bo_identity_pts lo + Paging.IDENTITY_PT_COUNT * PAGE_SIZE <= stack - BOOT_STACK ∨ stack <= Boot.bo_identity_pts lo) ∧
  head (at_text (link_kernel o)) = Some 0x100000.
Proof.
  intros Ho [(S1 & S2 & S3) (T1 & T2 & T3) (I1 & I2) (K1 & K2 & K3) (A1 & A2 & A3)] [L1 L2 L3 L4 L5] Hend Hmb stack pd.
  destruct (link_kernel_spec o Ho) as (d0 & d1 & d2 & d3 & d4 & -> & E & P1 & P2 & P3 & P4). cbv zeta in *.
  destruct (var_placed _ _ _ _ _ P4 S1) as (B1 & B2 & B3), (var_placed _ _ _ _ _ P4 T1) as (B4 & B5 & B6),
    (var_placed _ _ _ _ _ P4 I1) as (B7 & B8 & _), (var_placed _ _ _ _ _ P4 K1) as (B9 & B10 & B11).
  pose proof (vars_placed_apart _ _ _ _ _ _ P4 S1 T1 A1) as C1. pose proof (vars_placed_apart _ _ _ _ _ _ P4 S1 K1 A2) as C2.
  pose proof (vars_placed_apart _ _ _ _ _ _ P4 T1 K1 A3) as C3.
  assert (0x100000 <= align_up 0x1000 d3) as Hd.
  { pose proof (pl_grows _ _ _ _ P1). pose proof (pl_grows _ _ _ _ P2). pose proof (pl_grows _ _ _ _ P3).
    pose proof (align_up_spec 0x1000 0x100000). pose proof (align_up_spec 0x1000 d1). pose proof (align_up_spec 0x1000 d2).
    pose proof (align_up_spec 0x1000 d3). lia. }
  rewrite S2, S3, T2, T3, I2, K2, K3 in *. unfold stack, pd. rewrite L1, L2, L4, L5, E in *.
  unfold Process.sizeof_process, BOOT_STACK, Paging.IDENTITY_PT_COUNT, Paging.PD_ENTRIES, Paging.PT_ENTRIES, PAGE_SIZE in *.
  split_and!.
  - split; [split | ..]; rewrite ?L1, ?L2, ?L3, ?L5, ?E;
      unfold Paging.page_base, Paging.IDENTITY_PT_COUNT, PAGE_SIZE; lia.
  - lia.
  - lia.
  - rewrite <- Z.add_mod_idemp_l by lia. by rewrite B11.
  - lia.
  - lia.
  - unfold link_kernel. destruct (o_multiboot o) as [|s l]; [done |]. injection Hmb as ->. cbn [app place].
    destruct (place _ (l ++ o_text o)) as [text dt]. destruct (place _ (o_rodata o)) as [r dr], (place _ (o_data o)) as [d dd]. 
    by destruct (place _ (o_common o ++ o_bss o)) as [b db].
Qed.

(** The blob's size word is the length of the file. *)
Lemma test_prog_blob_size_eq (elf_file : list Z) (blob : Z) :
  Z.of_nat (length elf_file) < 2 ^ 32 → test_prog_blob_size elf_file blob = Z.of_nat (length elf_file).
Proof. intros H. unfold test_prog_blob_size. rewrite u32_id; [lia | unfold is_u32; lia]. Qed.

(** The sections of the user program follow each other from 4 MiB on. *)
Lemma link_user_spec (o : objects) :
  Forall sect_ok (o_text o) → Forall sect_ok (o_rodata o) → Forall sect_ok (o_data o) → Forall sect_ok (o_bss o) →
  ∃ d1 d2 d3, let L := link_user o in
    placed 0x400000 d1 (o_text o) (at_text L) ∧ placed d1 d2 (o_rodata o) (at_rodata L) ∧
    placed d2 d3 (o_data o) (at_data L) ∧ placed d3 (kernel_end L) (o_bss o) (at_bss L).
Proof.
  intros H1 H2 H3 H4. unfold link_user.
  pose proof (place_spec 0x400000 _ H1) as P1. destruct (place 0x400000 (o_text o)) as [text d1].
  pose proof (place_spec d1 _ H2) as P2. destruct (place d1 (o_rodata o)) as [rodata d2].
  pose proof (place_spec d2 _ H3) as P3. destruct (place d2 (o_data o)) as [data d3].
  pose proof (place_spec d3 _ H4) as P4. destruct (place d3 (o_bss o)) as [bss d4].
  by exists d1, d2, d3.
Qed.

(** ** Witness *)

(** Two objects: the boot code with its stack, and one with all static variables. *)
Definition demo_objects : objects :=
  Objects [multiboot_sect] [Sect 16 0x40; Sect 16 0x8123] [Sect 32 0x1000; blob_sect (replicate 100 0)] [Sect 4 0x20] []
    [stack_sect; Sect 4096 0xA000].
Definition demo_statics : statics :=
  Statics (Var 1 0 4096 4096) (Var 1 0x1000 0x8000 4096) (Var 1 0x9000 188 32) (Var 0 0 16384 16).
Definition demo_lo : Boot.layout :=
  Boot.Layout (System.Image (Process.Link 0x110000 0x119000 0x110000 0x101000 0x102000 0x103000) 0x10B000 100 0x104000 0x105000 0x106000)
    0x11A000 0x111000 0x119200 0x119300 0x119400 (λ i, 0x107000 + 16 * i) (λ i, 0x107400 + 16 * i) 0x107600.

(** The conditions on a variable, decided. *)
Lemma var_check (l : list sect) (v : var) (s : sect) :
  l !! v_sect v = Some s →
  (0 <? v_size v) && (0 <? v_align v) && (0 <=? v_off v) && (v_off v + v_size v <=? s_size s) &&
    (s_align s mod v_align v =? 0) && (v_off v mod v_align v =? 0) = true → var_ok l v.
Proof.
  intros Hs. rewrite !andb_true_iff, !Z.ltb_lt, !Z.leb_le, !Z.eqb_eq. intros [[[[[H1 H2] H3] H4] H5] H6].
  split; [done |]. exists s. split_and!; [done | done | done | by apply Z.mod_divide; [lia |] | by apply Z.mod_divide; [lia |]].
Qed.

Lemma linked_layout_ok_witness :
  Boot.layout_ok demo_lo ∧ head (at_text (link_kernel demo_objects)) = Some 0x100000.
Proof.
  destruct (linked_layout_ok demo_objects demo_statics demo_lo) as (H1 & _ & _ & _ & H2).
  - split_and!; apply (bool_decide_unpack (Forall (λ s, 0 < s_align s ∧ 0 <= s_size s) _)); reflexivity.
  - split; [split_and!.. |]; try (eapply var_check; reflexivity); try reflexivity.
    split_and!; [right; left | left | left]; simpl; lia.
  - split; reflexivity.
  - vm_compute. discriminate.
  - reflexivity.
  - exact (conj H1 H2).
Defined.

End Image.
