(* ===== verification/Run.v ===== *)
(** * The kernel in operation

    The operations of the kernel as a transition system.  Between two entries
    into the kernel the current process executes: it changes its registers and
    memory, but neither the heap nor the page tables.  An entry is a timer tick, a
    yield, an exit, the creation of a process, from an ELF image or not, or another
    system call.  By induction on the steps, every state reachable from the end of
    the boot sequence satisfies the kernel and scheduling invariants, and no tick,
    exit or creation panics or hangs there; loading an image can only panic for
    want of a frame for a page table. *)

From S2P Require Import Prelude Memory Frames Vga Pmm Kmalloc Paging Scheduler Context Elf Process Invariant Create Reap Dispatch.
From S2P Require Import Space Ramfs Syscall Keyboard Gdt Idt Spawn Pit System ShUtil Commands MemCommands Shell Boot.

Module Run.
Import Scheduler Process Invariant Dispatch.

Section steps.
Context {F : Type} `{!FrameAlloc F}.
Variable lk : link.
Variable fs : Ramfs.ramfs.
(** The bytes of the heap. *)
Variable R : Z → Prop.

(** The bytes only the kernel writes, for a kernel whose processes are those of
    [l] and [z]. *)
Definition kernel_byte (k : kernel F) (l z : list Z) (a : Z) : Prop := R a ∨ mapping_byte lk k l z a.

(** The current process executes from [k] to [k1], where it enters the kernel. *)
Record executes (k k1 : kernel F) : Prop := {
  ex_rest : k1 = with_cpu (k_cpu k1) (with_mem (k_mem k1) k);
  ex_memory l z : queue_inv (k_procs k) l z → agree_on (kernel_byte k l z) (k_mem k) (k_mem k1);
  ex_machine l z : queue_inv (k_procs k) l z → machine_ok lk k1 l ∧ stack_clear lk k1 R l z
}.

(** The entries. *)
Inductive enters : kernel F → kernel F → Prop :=
| enter_tick k k' : scheduler_tick lk k = Done k' → enters k k'
| enter_yield k : enters k (scheduler_yield lk k)
| enter_exit k k' code :
    current_process (k_procs k) ≠ l_idle_pcb lk → process_exit lk code k = Done k' → enters k k'
| enter_create k k' r pname entry prio :
    is_u32 entry → next_pid (k_procs k) < 2 ^ 32 - 1 → process_create lk pname entry prio k = Done (r, k') → enters k k'
| enter_spawn k k' r pname data prio :
    next_pid (k_procs k) < 2 ^ 32 - 1 → process_create_from_elf lk pname data prio k = Done (r, k') → enters k k'
| enter_call k k' r eax ebx ecx edx :
    is_u32 edx → eax ≠ Syscall.SYS_EXIT → eax ≠ Syscall.SYS_YIELD →
    Syscall.syscall_handler lk fs eax ebx ecx edx k = Done (r, k') →
    (∀ l z, queue_inv (k_procs k) l z → agree_on (kernel_byte k l z) (k_mem k) (k_mem k')) →
    enters k k'.

Definition step (k k' : kernel F) : Prop := ∃ k1, executes k k1 ∧ enters k1 k'.

(** The invariant. *)
Definition good (k : kernel F) : Prop :=
  ∃ live l z, kernel_inv lk k R live l z ∧ sched_inv lk (k_procs k) l z.

(** No entry is stuck. *)
Definition served (k : kernel F) : Prop :=
  (∃ k', scheduler_tick lk k = Done k') ∧
  (∀ code, current_process (k_procs k) ≠ l_idle_pcb lk → ∃ k', process_exit lk code k = Done k') ∧
  (∀ pname entry prio, is_u32 entry → next_pid (k_procs k) < 2 ^ 32 - 1 →
    ∃ r k', process_create lk pname entry prio k = Done (r, k')) ∧
  ∀ pname data prio, next_pid (k_procs k) < 2 ^ 32 - 1 →
    ensures Space.out_of_memory (λ _, True) (process_create_from_elf lk pname data prio k).

Hypothesis Hexit : is_u32 (l_process_exit lk).
Hypothesis Htramp : is_u32 (l_user_mode_trampoline lk).

(** Memory outside the heap and the tables does not matter to the invariant. *)
Lemma inv_memory (k : kernel F) (live : gset Z) (l z : list Z) (m : memory) (c : Context.cpu) (v : Vga.vga) :
  kernel_inv lk k R live l z → agree_on (kernel_byte k l z) (k_mem k) m →
  kernel_inv lk (with_vga v (with_cpu c (with_mem m k))) R live l z.
Proof.
  intros Hk Hm.
  assert (kernel_inv lk (with_mem m (with_frames (k_frames k) k)) R live l z) as [H1 H2 H3 H4 H5 H6 H7 H8 H9 H10 H11 H12].
  { apply (inv_step lk k R live l z m Hk); [| apply Hk | done | | done].
    - eapply agree_on_weaken; [exact Hm |]. intros a Ha. by right.
    - eapply Kmalloc.view_frame; [apply Hk |]. eapply agree_on_weaken; [exact Hm |]. intros a Ha. by left. }
  split; assumption.
Qed.

Lemma executes_good (k k1 : kernel F) (live : gset Z) (l z : list Z) :
  kernel_inv lk k R live l z → sched_inv lk (k_procs k) l z → executes k k1 →
  kernel_inv lk k1 R live l z ∧ sched_inv lk (k_procs k1) l z ∧ machine_ok lk k1 l ∧ stack_clear lk k1 R l z.
Proof.
  intros Hk Hs [E1 E2 E3]. pose proof (ki_queue _ _ _ _ _ _ Hk) as Hq. destruct (E3 l z Hq) as [Hm Hc].
  split; [| split; [| done]].
  - rewrite E1. pose proof (inv_memory k live l z (k_mem k1) (k_cpu k1) (k_vga k) Hk (E2 l z Hq)) as H. by destruct k.
  - by rewrite E1.
Qed.

(** What a system call that does not switch changes: the console, memory (a read)
    and a descriptor of the current process. *)
Lemma call_shape (eax ebx ecx edx r : Z) (k k' : kernel F) :
  eax ≠ Syscall.SYS_EXIT → eax ≠ Syscall.SYS_YIELD → Syscall.syscall_handler lk fs eax ebx ecx edx k = Done (r, k') →
  ∃ v m s', k' = with_vga v (with_mem m (with_procs s' k)) ∧
    (s' = k_procs k ∨ ∃ fd e, s' = edit (current_process (k_procs k)) (Syscall.fd_set fd e) (k_procs k)).
Proof.
  intros Hx Hy. assert (∃ v m s', k = with_vga v (with_mem m (with_procs s' k)) ∧
    (s' = k_procs k ∨ ∃ fd e, s' = edit (current_process (k_procs k)) (Syscall.fd_set fd e) (k_procs k))) as Hid.
  { exists (k_vga k), (k_mem k), (k_procs k). split; [by destruct k | by left]. }
  assert (∀ m fd e, ∃ v m' s', kedit (current_process (k_procs k)) (Syscall.fd_set fd e) (with_mem m k) = with_vga v (with_mem m' (with_procs s' k)) ∧
    (s' = k_procs k ∨ ∃ fd e, s' = edit (current_process (k_procs k)) (Syscall.fd_set fd e) (k_procs k))) as Hfd.
  { intros m fd e. exists (k_vga k), m, (edit (current_process (k_procs k)) (Syscall.fd_set fd e) (k_procs k)).
    split; [by destruct k | right; by exists fd, e]. }
  assert (∀ v, ∃ v' m' s', with_vga v k = with_vga v' (with_mem m' (with_procs s' k)) ∧
    (s' = k_procs k ∨ ∃ fd e, s' = edit (current_process (k_procs k)) (Syscall.fd_set fd e) (k_procs k))) as Hv.
  { intros v. exists v, (k_mem k), (k_procs k). split; [by destruct k | by left]. }
  pose proof (λ fd e, Hfd (k_mem k) fd e) as Hfd'. replace (with_mem (k_mem k) k) with k in Hfd' by (by destruct k).
  unfold Syscall.syscall_handler.
  destruct (eax =? Syscall.SYS_WRITE).
  { unfold Syscall.sys_write. destruct (_ || _); [intros [= <- <-]; exact Hid |]. intros (w & _ & [= <- <-])%obind_Done. apply Hv. }
  destruct (Z.eqb_spec eax Syscall.SYS_EXIT); [done |]. destruct (Z.eqb_spec eax Syscall.SYS_YIELD); [done |].
  destruct (eax =? Syscall.SYS_OPEN).
  { unfold Syscall.sys_open. destruct (_ =? 0); [intros [= <- <-]; exact Hid |]. intros (j & _ & E)%obind_Done.
    destruct (j <? 0); [injection E as <- <-; exact Hid |]. destruct (_ <? 0); injection E as <- <-; [exact Hid | apply Hfd']. }
  destruct (eax =? Syscall.SYS_READ).
  { unfold Syscall.sys_read. destruct (_ =? 0); [intros [= <- <-]; exact Hid |]. destruct (_ || _); [intros [= <- <-]; exact Hid |].
    destruct (_ =? 0); [intros [= <- <-]; exact Hid |]. destruct (Ramfs.ramfs_get _ fs) as [f|]; [| intros [= <- <-]; exact Hid].
    intros (m & _ & [= <- <-])%obind_Done. apply Hfd. }
  destruct (eax =? Syscall.SYS_CLOSE); [| intros [= <- <-]; apply Hv].
  unfold Syscall.sys_close. destruct (_ || _); [intros [= <- <-]; exact Hid |].
  destruct (_ =? 0); intros [= <- <-]; [exact Hid | apply Hfd'].
Qed.

(** ** Each entry keeps the invariant *)

Section entry.
Variables (k : kernel F) (live : gset Z) (l z : list Z).
Hypothesis Hk : kernel_inv lk k R live l z.
Hypothesis Hs : sched_inv lk (k_procs k) l z.
Hypothesis Hm : machine_ok lk k l.
Hypothesis Hc : stack_clear lk k R l z.

Lemma tick_good : ∃ k', scheduler_tick lk k = Done k' ∧ good k'.
Proof.
  destruct (decide (0 <= ticks_remaining (kpcb k (current_process (k_procs k))))) as [Ht|Ht].
  - destruct (scheduler_tick_spec lk k R live l z Hk Hs Hm Hc Ht) as (k' & E & _ & [(_ & H1 & H2 & _)|(_ & l' & [P1 P2 _])]);
      exists k'; (split; [exact E |]); eexists _, _, _; done.
  - destruct (tick_prepared lk k R live l z Hk Hs Hm Hc) as (k1 & s2 & E1 & E2 & Hk2 & Hs2 & _ & _ & _ & Ec & _ & Hq).
    destruct (Hq (current_process (k_procs k))) as (_ & _ & Et); [apply Hs |].
    exists (with_procs s2 k1). split; [| eexists _, _, _; split; [exact Hk2 | exact Hs2]].
    unfold scheduler_tick, process_current. destruct (qi_live (ki_queue _ _ _ _ _ _ Hk) (current_process (k_procs k))) as [H0 _];
      [apply elem_of_app; left; apply Hs |].
    destruct (Z.eqb_spec (current_process (k_procs k)) 0); [done |]. rewrite E1. cbn [obind]. rewrite E2. cbn [obind].
    unfold tick_accounting. rewrite Et. destruct (Z.ltb_spec 0 (ticks_remaining (kpcb k (current_process (k_procs k))))); [lia |].
    rewrite Et. by destruct (Z.eqb_spec (ticks_remaining (kpcb k (current_process (k_procs k)))) 0); [lia |].
Qed.

Lemma yield_good : good (scheduler_yield lk k).
Proof.
  destruct (scheduler_yield_spec lk k R live l z Hk Hs Hm Hc) as [(l1 & nx & l2 & _ & _ & _ & H1 & H2 & _)|(_ & H1 & H2 & _)];
    eexists _, _, _; done.
Qed.

Lemma exit_good (code : Z) :
  current_process (k_procs k) ≠ l_idle_pcb lk → ∃ k', process_exit lk code k = Done k' ∧ good k'.
Proof.
  intros Hne. destruct (process_exit_spec lk k R live l z code Hk Hs Hm Hc Hne) as (k' & l1 & nx & l2 & E & _ & _ & _ & H1 & H2 & _).
  exists k'. split; [exact E |]. eexists _, _, _. done.
Qed.

Lemma next_pid_nonneg : 0 <= next_pid (k_procs k).
Proof using Hk Hs.
  pose proof (to_bound _ _ _ (ki_table _ _ _ _ _ _ Hk) (l_idle_pcb lk)) as H. destruct H; [| lia].
  apply elem_of_app. left. apply Hs.
Qed.

Lemma create_good (pname : list Z) (entry prio : Z) :
  is_u32 entry → next_pid (k_procs k) < 2 ^ 32 - 1 → ∃ r k', process_create lk pname entry prio k = Done (r, k') ∧ good k'.
Proof using Hk Hs Hexit.
  intros He Hn. pose proof next_pid_nonneg as Hn0.
  destruct (Create.process_create_spec lk k R live l z pname entry prio Hk He Hexit ltac:(lia))
    as (r & k' & E & (p & Hp & Ho & Hr) & _ & Hcase). exists r, k'. split; [exact E |].
  destruct (sched_others lk (k_procs k) (k_procs k') l z p Hs Hp Ho) as (S1 & S2 & _).
  destruct Hcase as [(_ & H1 & _)|(Hnl & H1 & _ & pd & lo & hi & _ & Hpcb & _)].
  - eexists _, _, _. split; [exact H1 | exact S1].
  - destruct Hr as [->|<-].
    + destruct (qi_live (ki_queue _ _ _ _ _ _ H1) 0) as [H0 _]; [| done].
      apply elem_of_app. left. apply elem_of_app. right. by apply list_elem_of_singleton.
    + eexists _, _, _. split; [exact H1 |]. apply S2. apply (f_equal state) in Hpcb.
      unfold kpcb in Hpcb. by destruct (pcb (k_procs k') r).
Qed.

Lemma spawn_good (pname : list Z) (data prio : Z) :
  next_pid (k_procs k) < 2 ^ 32 - 1 →
  ensures Space.out_of_memory (λ x, good (snd x)) (process_create_from_elf lk pname data prio k).
Proof using Hk Hs Hexit Htramp.
  intros Hn. pose proof next_pid_nonneg as Hn0.
  eapply ensures_mono; [exact (Spawn.process_create_from_elf_spec lk k R live l z pname data prio Hk Hs Htramp Hexit ltac:(lia)) |].
  intros [r k'] (live' & l' & z' & [H1 H2 _ _]). by exists live', l', z'.
Qed.

Lemma call_good (k' : kernel F) (eax ebx ecx edx r : Z) :
  eax ≠ Syscall.SYS_EXIT → eax ≠ Syscall.SYS_YIELD → Syscall.syscall_handler lk fs eax ebx ecx edx k = Done (r, k') →
  agree_on (kernel_byte k l z) (k_mem k) (k_mem k') → good k'.
Proof.
  intros Hx Hy E Hag. destruct (call_shape eax ebx ecx edx r k k' Hx Hy E) as (v & m & s' & -> & Hs').
  cbn [k_mem with_vga with_mem with_procs] in Hag. exists live, l, z.
  pose proof (inv_memory k live l z m (k_cpu k) v Hk Hag) as H1.
  set (k1 := with_vga v (with_cpu (k_cpu k) (with_mem m k))) in *.
  change (kernel_inv lk (with_procs s' k1) R live l z ∧ sched_inv lk s' l z).
  assert (data_only (k_procs k) s' ∧ ∀ q, state (pcb s' q) = state (pcb (k_procs k) q)) as [Hd Hst].
  { destruct Hs' as [->|(fd & e & ->)]; [split; [| done]; split; done || (by destruct (k_procs k)) |]. split.
    - apply data_edit. intros x. by destruct x.
    - intros q. destruct (decide (q = current_process (k_procs k))) as [->|]; [rewrite pcb_edit_eq | by rewrite pcb_edit_ne].
      by destruct (pcb (k_procs k) _). }
  split.
  - apply (inv_data lk k1); [exact H1 | exact Hd |]. apply elem_of_app. left. apply Hs.
  - pose proof (do_rest _ _ Hd) as Er. destruct Hs as [S1 S2 S3 S4 [S5 S6]].
    assert (current_process s' = current_process (k_procs k)) as Ec by (by rewrite Er).
    split; rewrite ?Ec, ?Hst; try done.
    + intros q Hq Hne. rewrite Hst. by apply S3.
    + intros q Hq. rewrite Hst. by apply S4.
Qed.

End entry.

(** ** Reachable states *)

Lemma step_good (k k' : kernel F) : good k → step k k' → good k'.
Proof.
  intros (live & l & z & Hk & Hs) (k1 & Hex & He). destruct (executes_good k k1 live l z Hk Hs Hex) as (K1 & K2 & K3 & K4).
  clear Hk Hs Hex. destruct He as [k1 k' E | k1 | k1 k' code Hne E | k1 k' r pname entry prio Hen Hn E | k1 k' r pname data prio Hn E | k1 k' r eax ebx ecx edx _ Hx Hy E Hag].
  - destruct (tick_good k1 live l z K1 K2 K3 K4) as (k2 & E2 & H2). rewrite E in E2. by injection E2 as <-.
  - by apply (yield_good k1 live l z).
  - destruct (exit_good k1 live l z K1 K2 K3 K4 code Hne) as (k2 & E2 & H2). rewrite E in E2. by injection E2 as <-.
  - destruct (create_good k1 live l z K1 K2 pname entry prio Hen Hn) as (r2 & k2 & E2 & H2).
    rewrite E in E2. by injection E2 as <- <-.
  - pose proof (spawn_good k1 live l z K1 K2 pname data prio Hn) as H2. by rewrite E in H2.
  - apply (call_good k1 live l z K1 K2 k' eax ebx ecx edx r Hx Hy E). apply Hag. apply (ki_queue _ _ _ _ _ _ K1).
Qed.

Lemma good_served (k k1 : kernel F) : good k → executes k k1 → served k1.
Proof.
  intros (live & l & z & Hk & Hs) Hex. destruct (executes_good k k1 live l z Hk Hs Hex) as (K1 & K2 & K3 & K4). split_and!.
  - destruct (tick_good k1 live l z K1 K2 K3 K4) as (k2 & E & _). by exists k2.
  - intros code Hne. destruct (exit_good k1 live l z K1 K2 K3 K4 code Hne) as (k2 & E & _). by exists k2.
  - intros pname entry prio He Hn. destruct (create_good k1 live l z K1 K2 pname entry prio He Hn) as (r & k2 & E & _).
    by exists r, k2.
  - intros pname data prio Hn. eapply ensures_mono; [exact (spawn_good k1 live l z K1 K2 pname data prio Hn) | done].
Qed.

Lemma reachable_good (k k' : kernel F) : good k → rtc step k k' → good k'.
Proof. intros Hg Hr. induction Hr as [|k k2 k3 H1 _ IH]; [done |]. apply IH. by apply (step_good k). Qed.

End steps.

#[local] Existing Instance Pmm.pmm_frames.


(** ** Witnesses *)

(** The lists of a queue are determined by the links. *)
Lemma chain_unique (s : procs) (l l' : list Z) (p : Z) :
  chain s p l 0 → chain s p l' 0 → (∀ x, x ∈ l → x ≠ 0) → (∀ x, x ∈ l' → x ≠ 0) → l = l'.
Proof.
  revert l' p. induction l as [|x l IH]; intros [|y l'] p H1 H2 N1 N2; [done | | |].
  - assert (p = 0) as -> by exact H1. destruct H2 as [<- _]. by destruct (N2 0 ltac:(by left)).
  - assert (p = 0) as -> by exact H2. destruct H1 as [<- _]. by destruct (N1 0 ltac:(by left)).
  - destruct H1 as [<- H1], H2 as [<- H2]. f_equal. apply (IH l' (next (pcb s p))); [done | done | |];
      intros z Hz; [apply N1 | apply N2]; by right.
Qed.

Lemma queue_unique (s : procs) (l l' z z' : list Z) : queue_inv s l z → queue_inv s l' z' → l = l' ∧ z = z'.
Proof.
  intros [A1 _ _ _ A2 _ A3] [B1 _ _ _ B2 _ B3]. split.
  - apply (chain_unique s l l' (queue_head s)); [done | done | |]; intros x Hx; [apply A3 | apply B3]; apply elem_of_app; by left.
  - apply (chain_unique s z z' (zombie_head s)); [done | done | |]; intros x Hx; [apply A3 | apply B3]; apply elem_of_app; by right.
Qed.

(** The idle process of the concrete kernel of [Invariant.v], interrupted by a tick. *)
Lemma demo_executes : executes demo_link demo_region demo_kernel2 demo_kernel2.
Proof.
  split.
  - reflexivity.
  - intros l z _. apply agree_on_refl.
  - intros l z Hq. destruct demo_kernel2_queue as [Hq' _]. destruct (queue_unique _ _ _ _ _ Hq Hq') as [-> ->].
    assert (∀ p : Z, p ∈ [0x9000] → p = 0x9000) as Hl by (intros p; set_solver).
    assert (∀ p : Z, p ∈ [0x9000] ++ [0x100010] → p ≠ 0x9000 → p = 0x100010) as Hz by (intros p; set_solver). split.
    + apply (demo_machine _ _ 0x8F000); [reflexivity | lia | done |]. intros p ->%Hl. done.
    + apply (demo_stack_clear _ _ _ 0x8F000); [exact demo_kernel2_inv | reflexivity | | lia].
      intros p b Hp Hi. rewrite (Hz p Hp Hi). apply demo_owned.
Qed.

(** Steps exist. *)
Lemma demo_steps (fs : Ramfs.ramfs) :
  step demo_link fs demo_region demo_kernel2 (scheduler_yield demo_link demo_kernel2).
Proof. exists demo_kernel2. split; [exact demo_executes | apply enter_yield]. Qed.


End Run.
